(** * Finance tracker: metrics and scoring engine

    A shallow embedding of the computational core of the finance tracker
    (features/transactions, features/budgets, features/analytics and
    features/smart_assistant) together with the properties of its
    percentages, budget tiers, spike detection, health score, goals and
    budget file.

    Conventions of the embedding.
    - Python [int] is [Z].  Python [float] is an IEEE 754 binary64 value,
      represented by the standard library's [spec_float] and operated on
      with [SFdiv], [SFmul] and [SFcompare] at precision 53.  The meaning of
      these operations, rounding to nearest with ties to even, is proved
      below against the exact rational results.
    - A call that can raise returns a [result]; the only exceptions the
      modelled code can raise are [ZeroDivisionError] and [OverflowError],
      both from the true division of integers.
    - The three text files and the clock are the fields of [Env]; the
      functions that read them take the environment as first argument, and
      the functions that rewrite a file return the new content.  Failures of
      the file system are not modelled.
    - The functions that convert a float to an int or a text to an int can
      also raise [ValueError]; they return an [outcome].
    - The functions that read and write the files are also given on the text
      of a file, a [string] whose characters are the code points below 256:
      the modules [TransactionsTxt], [BudgetsTxt] and [GoalsTxt] follow the
      lines of the file through [strip], [split] and [int], and are related
      below to the functions on the parsed content. *)

From Stdlib Require Import ZArith List String Ascii Bool Lia.
From Stdlib Require Import Permutation Sorted.
From Stdlib Require Import QArith Qpower Lqa.
From Stdlib Require Import Floats.SpecFloat.
From Stdlib Require Import DecimalString DecimalFacts DecimalPos DecimalN DecimalZ.
Import ListNotations.

Local Open Scope string_scope.
Local Open Scope list_scope.
Local Open Scope Z_scope.

(* ===================================================================== *)
(** * Exceptions *)
(* ===================================================================== *)

Inductive exn : Type :=
| ZeroDivisionError
| OverflowError.

Inductive result (A : Type) : Type :=
| Ok (a : A)
| Raise (e : exn).

Arguments Ok {A} a.
Arguments Raise {A} e.

Definition bind {A B : Type} (m : result A) (k : A -> result B) : result B :=
  match m with
  | Ok a => k a
  | Raise e => Raise e
  end.

Notation "x <- m ;; k" := (bind m (fun x => k))
  (at level 61, m at next level, right associativity).

(** [mapM f l] runs [f] on the elements of [l] from left to right and stops
    at the first exception, as a Python loop does. *)
Fixpoint mapM {A B : Type} (f : A -> result B) (l : list A) : result (list B) :=
  match l with
  | [] => Ok []
  | a :: l' => b <- f a ;; bs <- mapM f l' ;; Ok (b :: bs)
  end.

(** The conversions [int(x)] and [str(n)] raise [ValueError]; the two
    exceptions of the arithmetic are the ones Python groups under
    [ArithmeticError]. *)
Inductive exception : Type :=
| ValueError
| ArithmeticError (e : exn).

Inductive outcome (A : Type) : Type :=
| Return (a : A)
| Throw (e : exception).

Arguments Return {A} a.
Arguments Throw {A} e.

Definition lift {A : Type} (m : result A) : outcome A :=
  match m with
  | Ok a => Return a
  | Raise e => Throw (ArithmeticError e)
  end.

Definition obind {A B : Type} (m : outcome A) (k : A -> outcome B) : outcome B :=
  match m with
  | Return a => k a
  | Throw e => Throw e
  end.

Notation "x <~ m ;; k" := (obind m (fun x => k))
  (at level 61, m at next level, right associativity).

(* ===================================================================== *)
(** * Python floats *)
(* ===================================================================== *)

Module PyFloat.

Definition prec : Z := 53.
Definition emax : Z := 1024.

Definition float : Type := spec_float.

(** The exact integer [z] as an (unnormalised) mantissa with exponent 0. *)
Definition exact_int (z : Z) : float :=
  match z with
  | Z0 => S754_zero false
  | Zpos p => S754_finite false p 0
  | Zneg p => S754_finite true p 0
  end.

(** [float(z)] for an integer literal: round to nearest, ties to even. *)
Definition of_Z (z : Z) : float := binary_normalize prec emax z 0 false.

(** [a / b] on two Python ints: the correctly rounded quotient of the exact
    integers; [ZeroDivisionError] when [b] is 0 and [OverflowError] when
    the rounded quotient is out of range.  The division core of [SFdiv]
    accepts any mantissa, so it is fed the exact integers. *)
Definition truediv (a b : Z) : result float :=
  if b =? 0 then Raise ZeroDivisionError
  else match SFdiv prec emax (exact_int a) (exact_int b) with
       | S754_infinity _ => Raise OverflowError
       | q => Ok q
       end.

(** [x * y] on two floats (an overflow gives an infinity, no exception). *)
Definition mul (x y : float) : float := SFmul prec emax x y.

(** Comparisons of two floats; every comparison with a NaN is false. *)
Definition ltb (x y : float) : bool := SFltb x y.
Definition leb (x y : float) : bool := SFleb x y.
Definition eqb (x y : float) : bool := SFeqb x y.
Definition gtb (x y : float) : bool := SFltb y x.
Definition geb (x y : float) : bool := SFleb y x.

(** [a > f] for an int [a] and a float [f]: Python compares the two
    numbers exactly, without converting the int. *)
Definition int_gtb (a : Z) (f : float) : bool :=
  match f with
  | S754_nan => false
  | S754_infinity s => s
  | S754_zero _ => 0 <? a
  | S754_finite s m e =>
      let v := cond_Zopp s (Zpos m) in
      if 0 <=? e then v * 2 ^ e <? a else v <? a * 2 ^ (- e)
  end.

(** [min(x, y)]: the first argument unless the second is smaller. *)
Definition min (x y : float) : float := if ltb y x then y else x.

(** The literals of the source. *)
Definition F0 : float := S754_zero false.
Definition F2 : float := Eval vm_compute in of_Z 2.
Definition F5 : float := Eval vm_compute in of_Z 5.
Definition F10 : float := Eval vm_compute in of_Z 10.
Definition F15 : float := Eval vm_compute in of_Z 15.
Definition F20 : float := Eval vm_compute in of_Z 20.
Definition F25 : float := Eval vm_compute in of_Z 25.
Definition F50 : float := Eval vm_compute in of_Z 50.
Definition F70 : float := Eval vm_compute in of_Z 70.
Definition F75 : float := Eval vm_compute in of_Z 75.
Definition F100 : float := Eval vm_compute in of_Z 100.

Definition F1 : float := Eval vm_compute in of_Z 1.

(** The literal [0.15]: the float nearest to 15/100. *)
Definition F0_15 : float :=
  Eval vm_compute in SFdiv prec emax (exact_int 15) (exact_int 100).

(** The conversion of an int operand in mixed arithmetic: the nearest float,
    [OverflowError] when the int is out of range. *)
Definition of_int (z : Z) : result float :=
  match of_Z z with
  | S754_infinity _ => Raise OverflowError
  | f => Ok f
  end.

(** [x / y] on two floats: [ZeroDivisionError] when [y] is a zero; an
    overflow gives an infinity. *)
Definition fdiv (x y : float) : result float :=
  match y with
  | S754_zero _ => Raise ZeroDivisionError
  | _ => Ok (SFdiv prec emax x y)
  end.

(** [int(x)]: truncation towards zero; [ValueError] on a NaN and
    [OverflowError] on an infinity. *)
Definition int_of_float (x : float) : outcome Z :=
  match x with
  | S754_nan => Throw ValueError
  | S754_infinity _ => Throw (ArithmeticError OverflowError)
  | S754_zero _ => Return 0
  | S754_finite s m e =>
      Return (cond_Zopp s (if 0 <=? e then Zpos m * 2 ^ e
                           else Zpos m / 2 ^ (- e)))
  end.

End PyFloat.

Import PyFloat.

(* ===================================================================== *)
(** * Records of the three files and the environment *)
(* ===================================================================== *)

(** A parsed line of transactions.txt: [date|type|category|amount|description]. *)
Record Transaction : Type := mkTransaction {
  date : string;
  type : string;
  category : string;
  amount_paisa : Z;
  description : string
}.

(** A parsed line of budgets.txt: [category|limit|period]. *)
Record Budget : Type := mkBudget {
  b_category : string;
  limit_paisa : Z;
  period : string
}.

(** A parsed line of goals.txt:
    [name|target|current|deadline|created|goal_type]. *)
Record Goal : Type := mkGoal {
  name : string;
  target_paisa : Z;
  current_paisa : Z;
  deadline : string;
  created_date : string;
  goal_type : string
}.

(** What the engine reads from outside: the parsed content of the three
    files, and the two month strings ("YYYY-MM") derived from the clock. *)
Record Env : Type := mkEnv {
  read_transactions : list Transaction;
  read_budgets : list Budget;
  read_goals : list Goal;
  get_current_month : string;
  get_last_month : string
}.

(** [sum(...)] over ints. *)
Definition sum (l : list Z) : Z := fold_left Z.add l 0.

(** [len(...)]. *)
Definition len {A : Type} (l : list A) : Z := Z.of_nat (List.length l).

(* ===================================================================== *)
(** * Python containers *)
(* ===================================================================== *)

(** A dict with string keys, as the list of its items in insertion order. *)
Definition dict (V : Type) : Type := list (string * V).

(** [d.get(k, default)]. *)
Fixpoint dict_get {V : Type} (d : dict V) (k : string) (default : V) : V :=
  match d with
  | [] => default
  | (k', v) :: d' => if String.eqb k' k then v else dict_get d' k default
  end.

(** [d[k] = v]: the value of a key of the dict is replaced where it is, a
    new key is added at the end. *)
Fixpoint dict_set {V : Type} (d : dict V) (k : string) (v : V) : dict V :=
  match d with
  | [] => [(k, v)]
  | (k', v') :: d' =>
      if String.eqb k' k then (k', v) :: d' else (k', v') :: dict_set d' k v
  end.

(** [sorted(l, key=key, reverse=True)] for an int key: a stable sort by
    decreasing key. *)
Fixpoint insert_reverse {A : Type} (key : A -> Z) (x : A) (l : list A)
  : list A :=
  match l with
  | [] => [x]
  | y :: l' =>
      if key y <=? key x then x :: y :: l' else y :: insert_reverse key x l'
  end.

Definition sorted_reverse {A : Type} (key : A -> Z) (l : list A) : list A :=
  fold_right (insert_reverse key) [] l.

(** [l[:n]]: the first [n] elements, all but the last [-n] ones when [n] is
    negative. *)
Definition slice_to {A : Type} (l : list A) (n : Z) : list A :=
  if n <? 0 then firstn (Z.to_nat (len l + n)) l else firstn (Z.to_nat n) l.

(** [s * n] on a string: nothing when [n] is negative. *)
Definition str_mul (s : string) (n : Z) : string :=
  String.concat "" (repeat s (Z.to_nat n)).

(* ===================================================================== *)
(** * features/transactions/transactions.py *)
(* ===================================================================== *)

Definition filter_by_type (transactions : list Transaction) (trans_type : string)
  : list Transaction :=
  filter (fun t => String.eqb (type t) trans_type) transactions.

Definition filter_by_category (transactions : list Transaction) (cat : string)
  : list Transaction :=
  filter (fun t => String.eqb (category t) cat) transactions.

(** ** Calculation functions *)

Definition calculate_total_income (transactions : list Transaction) : Z :=
  sum (map amount_paisa
           (filter (fun t => String.eqb (type t) "income") transactions)).

Definition calculate_total_expenses (transactions : list Transaction) : Z :=
  sum (map amount_paisa
           (filter (fun t => String.eqb (type t) "expense") transactions)).

Definition calculate_balance (transactions : list Transaction) : Z :=
  calculate_total_income transactions - calculate_total_expenses transactions.

(* ===================================================================== *)
(** * features/budgets/budgets.py *)
(* ===================================================================== *)

Module Budgets.

(** ** The budget file *)

(** [write_budget]: append one line to the file. *)
Definition write_budget (budgets : list Budget)
    (cat : string) (limit : Z) (per : string) : bool * list Budget :=
  (true, budgets ++ [mkBudget cat limit per]).

(** The loop of [update_budget]: set the limit of the first budget of the
    category, and tell whether there was one. *)
Fixpoint update_first (budgets : list Budget) (cat : string) (new_limit : Z)
  : bool * list Budget :=
  match budgets with
  | [] => (false, [])
  | budget :: rest =>
      if String.eqb (b_category budget) cat
      then (true, mkBudget (b_category budget) new_limit (period budget) :: rest)
      else let '(updated, rest') := update_first rest cat new_limit in
           (updated, budget :: rest')
  end.

(** [update_budget]: the file is rewritten only when a budget was found. *)
Definition update_budget (budgets : list Budget) (cat : string) (new_limit : Z)
  : bool * list Budget :=
  let '(updated, budgets') := update_first budgets cat new_limit in
  if negb updated then (false, budgets) else (true, budgets').

(** [delete_budget]: drop every line of the category. *)
Definition delete_budget (budgets : list Budget) (cat : string)
  : bool * list Budget :=
  let original_count := List.length budgets in
  let budgets' :=
    filter (fun b => negb (String.eqb (b_category b) cat)) budgets in
  if Nat.eqb (List.length budgets') original_count
  then (false, budgets) else (true, budgets').

Definition budget_exists (budgets : list Budget) (cat : string) : bool :=
  existsb (fun b => String.eqb (b_category b) cat) budgets.

(** ** Time functions *)

(** [date_str[:7]]. *)
Definition get_month_from_date (date_str : string) : string :=
  substring 0 7 date_str.

Definition filter_current_month_transactions (w : Env)
    (transactions : list Transaction) : list Transaction :=
  let current_month := get_current_month w in
  filter (fun t => String.eqb (get_month_from_date (date t)) current_month)
         transactions.

(** ** Calculation functions *)

Fixpoint get_budget_for_category (budgets : list Budget) (cat : string)
  : option Z :=
  match budgets with
  | [] => None
  | budget :: rest =>
      if String.eqb (b_category budget) cat then Some (limit_paisa budget)
      else get_budget_for_category rest cat
  end.

Definition get_current_month_spending (w : Env) (cat : string) : Z :=
  let transactions := read_transactions w in
  let expenses := filter_by_type transactions "expense" in
  let current_month_expenses := filter_current_month_transactions w expenses in
  let category_expenses := filter_by_category current_month_expenses cat in
  sum (map amount_paisa category_expenses).

Definition calculate_remaining (budget spent : Z) : Z := budget - spent.

Definition calculate_utilization (spent budget : Z) : result float :=
  if budget =? 0 then Ok F0
  else q <- truediv spent budget ;; Ok (mul q F100).

Definition get_budget_status (utilization : float) : string * string :=
  if geb utilization F100 then ("Over Budget", "red")
  else if geb utilization F70 then ("Warning", "yellow")
  else ("OK", "green").

(** ** Analysis functions *)

(** One dictionary of the list returned by [get_budget_data]. *)
Record BudgetData : Type := mkBudgetData {
  bd_category : string;
  bd_limit_paisa : Z;
  spent_paisa : Z;
  remaining_paisa : Z;
  utilization : float;
  bd_status_text : string;
  bd_status_color : string;
  bd_period : string
}.

Definition get_budget_data (w : Env) : result (list BudgetData) :=
  let budgets := read_budgets w in
  mapM (fun budget =>
          let cat := b_category budget in
          let limit := limit_paisa budget in
          let spent := get_current_month_spending w cat in
          let remaining := calculate_remaining limit spent in
          u <- calculate_utilization spent limit ;;
          let '(text, color) := get_budget_status u in
          Ok (mkBudgetData cat limit spent remaining u text color
                           (period budget)))
       budgets.

Definition get_overbudget_categories (w : Env) : result (list string) :=
  budget_data <- get_budget_data w ;;
  Ok (map bd_category
          (filter (fun b => geb (utilization b) F100) budget_data)).

Definition get_warning_categories (w : Env) : result (list string) :=
  budget_data <- get_budget_data w ;;
  Ok (map bd_category
          (filter (fun b => geb (utilization b) F70 && ltb (utilization b) F100)
                  budget_data)).

Definition get_healthy_categories (w : Env) : result (list string) :=
  budget_data <- get_budget_data w ;;
  Ok (map bd_category
          (filter (fun b => ltb (utilization b) F70) budget_data)).

Definition calculate_total_budget (w : Env) : Z :=
  let budgets := read_budgets w in
  sum (map limit_paisa budgets).

Definition calculate_total_spent (w : Env) : result Z :=
  budget_data <- get_budget_data w ;;
  Ok (sum (map spent_paisa budget_data)).

Definition calculate_overall_utilization (w : Env) : result float :=
  let total_budget := calculate_total_budget w in
  total_spent <- calculate_total_spent w ;;
  if total_budget =? 0 then Ok F0
  else q <- truediv total_spent total_budget ;; Ok (mul q F100).

(** ** Display functions *)

(** The three characters that the source has for both cells of the bar. *)
Definition bar_cell : string :=
  String (ascii_of_nat 239) (String (ascii_of_nat 191)
    (String (ascii_of_nat 189) EmptyString)).

(** [create_progress_bar]: [min(utilization, 100)] is the int 100 when
    [100 < utilization] and the float [utilization] otherwise. *)
Definition create_progress_bar (utilization : float) (color : string)
  : outcome string :=
  ratio <~ lift (if ltb F100 utilization then truediv 100 5
                 else fdiv utilization F5) ;;
  filled <~ int_of_float ratio ;;
  let empty := 20 - filled in
  Return ("[" ++ color ++ "]" ++ str_mul bar_cell filled
              ++ str_mul bar_cell empty ++ "[/" ++ color ++ "]")%string.

(** ** The menu entries that change the file *)

(** [set_budget]: [cat] is the chosen category, [confirm] the answer to
    the question asked when the category already has a budget, [amount] the
    amount entered ([None] when the prompt is cancelled). *)
Definition set_budget (budgets : list Budget)
    (cat : string) (confirm : bool) (amount : option Z) : list Budget :=
  if budget_exists budgets cat then
    if negb confirm then budgets
    else match amount with
         | None => budgets
         | Some amount_paisa => snd (update_budget budgets cat amount_paisa)
         end
  else
    match amount with
    | None => budgets
    | Some amount_paisa => snd (write_budget budgets cat amount_paisa "monthly")
    end.

(** [edit_budget]: [selected] is the category read back from the chosen
    entry ([None] when the menu is cancelled). *)
Definition edit_budget (budgets : list Budget)
    (selected : option string) (new_amount : option Z) : list Budget :=
  match budgets with
  | [] => budgets
  | _ => match selected, new_amount with
         | Some cat, Some amount => snd (update_budget budgets cat amount)
         | _, _ => budgets
         end
  end.

(** [delete_budget_ui]. *)
Definition delete_budget_ui (budgets : list Budget)
    (selected : option string) (confirm : bool) : list Budget :=
  match budgets with
  | [] => budgets
  | _ => match selected with
         | Some cat => if confirm then snd (delete_budget budgets cat)
                       else budgets
         | None => budgets
         end
  end.

(** The budget files the program can produce, starting from the empty file
    that [ensure_budgets_file_exists] creates. *)
Inductive reachable : list Budget -> Prop :=
| reachable_init : reachable []
| reachable_set budgets cat confirm amount :
    reachable budgets -> reachable (set_budget budgets cat confirm amount)
| reachable_edit budgets selected new_amount :
    reachable budgets -> reachable (edit_budget budgets selected new_amount)
| reachable_delete budgets selected confirm :
    reachable budgets -> reachable (delete_budget_ui budgets selected confirm).

End Budgets.

(* ===================================================================== *)
(** * features/analytics/analytics.py *)
(* ===================================================================== *)

Module Analytics.

Import Budgets.

(** ** Time period and data aggregation *)

(** [t['date'].startswith(month)]. *)
Definition filter_transactions_by_month (transactions : list Transaction)
    (month : string) : list Transaction :=
  filter (fun t => String.prefix month (date t)) transactions.

(** ** Spending *)

Definition calculate_total_spending (w : Env) (month : string) : Z :=
  let transactions := read_transactions w in
  let month_transactions := filter_transactions_by_month transactions month in
  let expenses := filter_by_type month_transactions "expense" in
  sum (map amount_paisa expenses).

Definition calculate_category_spending (w : Env) (cat month : string) : Z :=
  let transactions := read_transactions w in
  let month_transactions := filter_transactions_by_month transactions month in
  let expenses := filter_by_type month_transactions "expense" in
  let category_expenses := filter_by_category expenses cat in
  sum (map amount_paisa category_expenses).

Definition calculate_category_percentage (category_amount total : Z)
  : result float :=
  if total =? 0 then Ok F0
  else q <- truediv category_amount total ;; Ok (mul q F100).

(** The loop shared by [get_top_spending_categories],
    [get_spending_by_category] and [get_income_by_source]:
    [totals[cat] = totals.get(cat, 0) + amount] for each transaction. *)
Definition add_to_category (totals : dict Z) (t : Transaction) : dict Z :=
  let cat := category t in
  dict_set totals cat (dict_get totals cat 0 + amount_paisa t).

Definition get_top_spending_categories (w : Env) (n : Z)
    (month : option string) : list (string * Z) :=
  let month := match month with
               | None => get_current_month w
               | Some month => month
               end in
  let transactions := read_transactions w in
  let month_transactions := filter_transactions_by_month transactions month in
  let expenses := filter_by_type month_transactions "expense" in
  let category_spending := fold_left add_to_category expenses [] in
  let sorted_categories := sorted_reverse snd category_spending in
  slice_to sorted_categories n.

Definition get_spending_by_category (w : Env) (month : option string)
  : dict Z :=
  let month := match month with
               | None => get_current_month w
               | Some month => month
               end in
  let transactions := read_transactions w in
  let month_transactions := filter_transactions_by_month transactions month in
  let expenses := filter_by_type month_transactions "expense" in
  fold_left add_to_category expenses [].

(** ** Income *)

Definition calculate_total_income_month (w : Env) (month : string) : Z :=
  let transactions := read_transactions w in
  let month_transactions := filter_transactions_by_month transactions month in
  let income := filter_by_type month_transactions "income" in
  sum (map amount_paisa income).

Definition calculate_income_by_source (w : Env) (source month : string) : Z :=
  let transactions := read_transactions w in
  let month_transactions := filter_transactions_by_month transactions month in
  let income := filter_by_type month_transactions "income" in
  let source_income := filter_by_category income source in
  sum (map amount_paisa source_income).

Definition get_income_by_source (w : Env) (month : option string) : dict Z :=
  let month := match month with
               | None => get_current_month w
               | Some month => month
               end in
  let transactions := read_transactions w in
  let month_transactions := filter_transactions_by_month transactions month in
  let income := filter_by_type month_transactions "income" in
  fold_left add_to_category income [].

(** ** Savings *)

Definition calculate_monthly_savings (w : Env) (month : string) : Z :=
  let income := calculate_total_income_month w month in
  let expenses := calculate_total_spending w month in
  income - expenses.

Definition calculate_savings_rate (w : Env) (month : string) : result float :=
  let income := calculate_total_income_month w month in
  if income =? 0 then Ok F0
  else
    let savings := calculate_monthly_savings w month in
    q <- truediv savings income ;; Ok (mul q F100).

(** ** Trends *)

(** [if category:] takes the first branch for a non-empty string only. *)
Definition truthy (cat : option string) : option string :=
  match cat with
  | Some c => if String.eqb c "" then None else Some c
  | None => None
  end.

Definition calculate_month_over_month_change (w : Env) (cat : option string)
  : result float :=
  let current_month := get_current_month w in
  let last_month := get_last_month w in
  let '(current, previous) :=
    match truthy cat with
    | Some c => (calculate_category_spending w c current_month,
                 calculate_category_spending w c last_month)
    | None => (calculate_total_spending w current_month,
               calculate_total_spending w last_month)
    end in
  if previous =? 0 then
    (if current =? 0 then Ok F0 else Ok F100)
  else
    q <- truediv (current - previous) previous ;; Ok (mul q F100).

(** The dictionary returned by [compare_with_last_month]. *)
Record Comparison : Type := mkComparison {
  current_income : Z;
  last_income : Z;
  income_change : float;
  current_expenses : Z;
  last_expenses : Z;
  expense_change : float;
  current_savings : Z;
  last_savings : Z;
  savings_change : float
}.

Definition compare_with_last_month (w : Env) : result Comparison :=
  let current_month := get_current_month w in
  let last_month := get_last_month w in
  let current_income := calculate_total_income_month w current_month in
  let last_income := calculate_total_income_month w last_month in
  let current_expenses := calculate_total_spending w current_month in
  let last_expenses := calculate_total_spending w last_month in
  let current_savings := calculate_monthly_savings w current_month in
  let last_savings := calculate_monthly_savings w last_month in
  income_change <-
    (if 0 <? last_income
     then q <- truediv (current_income - last_income) last_income ;;
          Ok (mul q F100)
     else Ok F0) ;;
  expense_change <-
    (if 0 <? last_expenses
     then q <- truediv (current_expenses - last_expenses) last_expenses ;;
          Ok (mul q F100)
     else Ok F0) ;;
  savings_change <-
    (if 0 <? last_savings
     then q <- truediv (current_savings - last_savings) last_savings ;;
          Ok (mul q F100)
     else Ok F0) ;;
  Ok (mkComparison current_income last_income income_change
                   current_expenses last_expenses expense_change
                   current_savings last_savings savings_change).

(** [sorted(..., key=lambda x: x['amount_paisa'], reverse=True)]: a stable
    sort by decreasing amount; transactions of equal amount keep the order
    they have in the input. *)
Fixpoint insert_desc (t : Transaction) (l : list Transaction)
  : list Transaction :=
  match l with
  | [] => [t]
  | u :: l' =>
      if amount_paisa u <=? amount_paisa t then t :: u :: l'
      else u :: insert_desc t l'
  end.

Definition sorted_by_amount_desc (l : list Transaction) : list Transaction :=
  fold_right insert_desc [] l.

Definition detect_spending_spikes (w : Env) : result (list Transaction) :=
  let current_month := get_current_month w in
  let transactions := read_transactions w in
  let month_transactions :=
    filter_transactions_by_month transactions current_month in
  let expenses := filter_by_type month_transactions "expense" in
  match expenses with
  | [] => Ok []
  | _ =>
      let amounts := map amount_paisa expenses in
      avg <- truediv (sum amounts) (len amounts) ;;
      let threshold := mul avg F2 in
      let spikes :=
        filter (fun t => int_gtb (amount_paisa t) threshold) expenses in
      Ok (sorted_by_amount_desc spikes)
  end.

(** ** Financial health score *)

Definition calculate_savings_score (w : Env) : result Z :=
  let current_month := get_current_month w in
  rate <- calculate_savings_rate w current_month ;;
  if geb rate F20 then Ok 30
  else if geb rate F15 then Ok 22
  else if geb rate F10 then Ok 15
  else if geb rate F5 then Ok 8
  else Ok 0.

Definition calculate_budget_adherence_score (w : Env) : result Z :=
  let budgets := read_budgets w in
  match budgets with
  | [] => Ok 15
  | _ =>
      budget_data <- get_budget_data w ;;
      match budget_data with
      | [] => Ok 15
      | _ =>
          let ok_count :=
            len (filter (fun b => ltb (utilization b) F100) budget_data) in
          let total_count := len budget_data in
          if total_count =? 0 then Ok 15
          else
            q <- truediv ok_count total_count ;;
            let ok_percentage := mul q F100 in
            if eqb ok_percentage F100 then Ok 25
            else if geb ok_percentage F75 then Ok 18
            else if geb ok_percentage F50 then Ok 12
            else if geb ok_percentage F25 then Ok 6
            else Ok 0
      end
  end.

Definition calculate_balance_score (w : Env) : Z :=
  let current_month := get_current_month w in
  let savings := calculate_monthly_savings w current_month in
  if 0 <? savings then 25
  else if savings =? 0 then 15
  else 0.

Definition calculate_consistency_score (w : Env) : result Z :=
  spikes <- detect_spending_spikes w ;;
  let spike_count := len spikes in
  if spike_count =? 0 then Ok 20
  else if spike_count =? 1 then Ok 15
  else if spike_count =? 2 then Ok 10
  else Ok 5.

Definition calculate_overall_health_score (w : Env) : result Z :=
  savings_score <- calculate_savings_score w ;;
  budget_score <- calculate_budget_adherence_score w ;;
  let balance_score := calculate_balance_score w in
  consistency_score <- calculate_consistency_score w ;;
  Ok (savings_score + budget_score + balance_score + consistency_score).

End Analytics.

(* ===================================================================== *)
(** * features/smart_assistant/smart_assistant.py *)
(* ===================================================================== *)

Module SmartAssistant.

Section GoalsFile.

(** [str.lower()], left abstract: the results below hold for any
    lower-casing function. *)
Variable lower : string -> string.

(** The loop of [update_goal_progress]: add the amount to the first goal
    whose lower-cased name matches, cap it at the target, and stop. *)
Fixpoint progress_first (goals : list Goal) (goal_name : string)
    (additional_amount : Z) : bool * list Goal :=
  match goals with
  | [] => (false, [])
  | goal :: rest =>
      if String.eqb (lower (name goal)) (lower goal_name) then
        let current := current_paisa goal + additional_amount in
        let current :=
          if target_paisa goal <? current then target_paisa goal
          else current in
        (true,
         mkGoal (name goal) (target_paisa goal) current (deadline goal)
                (created_date goal) (goal_type goal) :: rest)
      else
        let '(updated, rest') :=
          progress_first rest goal_name additional_amount in
        (updated, goal :: rest')
  end.

(** [update_goal_progress]: the file is rewritten only when a goal was
    found. *)
Definition update_goal_progress (goals : list Goal) (goal_name : string)
    (additional_amount : Z) : bool * list Goal :=
  let '(updated, goals') :=
    progress_first goals goal_name additional_amount in
  if negb updated then (false, goals) else (true, goals').

(** [delete_goal]: drop every goal of that name. *)
Definition delete_goal (goals : list Goal) (goal_name : string)
  : bool * list Goal :=
  let original_count := List.length goals in
  let goals' :=
    filter (fun g => negb (String.eqb (lower (name g)) (lower goal_name)))
           goals in
  if Nat.eqb (List.length goals') original_count
  then (false, goals) else (true, goals').

Fixpoint get_goal_by_name (goals : list Goal) (goal_name : string)
  : option Goal :=
  match goals with
  | [] => None
  | goal :: rest =>
      if String.eqb (lower (name goal)) (lower goal_name) then Some goal
      else get_goal_by_name rest goal_name
  end.

End GoalsFile.

Definition calculate_goal_progress (goal : Goal) : result float :=
  if target_paisa goal =? 0 then Ok F100
  else
    q <- truediv (current_paisa goal) (target_paisa goal) ;;
    let progress := mul q F100 in
    Ok (PyFloat.min F100 progress).

(** ** Savings opportunities *)

Import Analytics.

(** One dictionary of the list returned by [find_savings_opportunities]. *)
Record Opportunity : Type := mkOpportunity {
  op_category : string;
  current_spending : Z;
  percentage_of_total : float;
  suggested_reduction : Z;
  potential_monthly_savings : Z;
  potential_annual_savings : Z
}.

(** The loop over the items of the dict of category totals. *)
Fixpoint opportunities_of (total_spending : Z) (items : list (string * Z))
  : outcome (list Opportunity) :=
  match items with
  | [] => Return []
  | (cat, amount) :: rest =>
      q <~ lift (truediv amount total_spending) ;;
      let percentage := mul q F100 in
      if gtb percentage F25 then
        x <~ lift (of_int amount) ;;
        potential_savings <~ int_of_float (mul x F0_15) ;;
        opportunities <~ opportunities_of total_spending rest ;;
        Return (mkOpportunity cat amount percentage 15 potential_savings
                              (potential_savings * 12) :: opportunities)
      else opportunities_of total_spending rest
  end.

Definition find_savings_opportunities (w : Env) : outcome (list Opportunity) :=
  let current_month := get_current_month w in
  let total_spending := calculate_total_spending w current_month in
  if total_spending =? 0 then Return []
  else
    let transactions := read_transactions w in
    let month_transactions :=
      filter_transactions_by_month transactions current_month in
    let expenses := filter_by_type month_transactions "expense" in
    let category_spending := fold_left add_to_category expenses [] in
    opportunities_of total_spending category_spending.

(** [calculate_potential_savings]: the percentage is a float, or the int
    100 whose quotient by 100 is the same float 1.0. *)
Definition calculate_potential_savings (w : Env) (cat : string)
    (reduction_percent : float) : outcome Z :=
  let current_month := get_current_month w in
  let transactions := read_transactions w in
  let month_transactions :=
    filter_transactions_by_month transactions current_month in
  let expenses := filter_by_type month_transactions "expense" in
  let category_expenses := filter_by_category expenses cat in
  let current_spending := sum (map amount_paisa category_expenses) in
  ratio <~ lift (fdiv reduction_percent F100) ;;
  x <~ lift (of_int current_spending) ;;
  int_of_float (mul x ratio).

(** ** Goal calculations that depend on the deadline *)

Section Deadlines.

(** [calculate_days_until_deadline] reads the clock and parses the
    deadline; it is left abstract. *)
Variable calculate_days_until_deadline : string -> Z.

Definition calculate_months_until_deadline (deadline : string) : Z :=
  let days := calculate_days_until_deadline deadline in
  Z.max 1 (days / 30).

Definition calculate_required_monthly_savings (goal : Goal) : Z :=
  let remaining := target_paisa goal - current_paisa goal in
  if remaining <=? 0 then 0
  else
    let months_left := calculate_months_until_deadline (deadline goal) in
    if months_left <=? 0 then remaining
    else remaining / months_left.

End Deadlines.

End SmartAssistant.

(* ===================================================================== *)
(** * features/export/export.py *)
(* ===================================================================== *)

Module DataExport.

(** [paisa / 100.0]: the int is converted to a float first. *)
Definition convert_paisa_to_rupees (paisa : Z) : result float :=
  x <- of_int paisa ;; fdiv x F100.

(** [int(rupees * 100)]. *)
Definition convert_rupees_to_paisa (rupees : float) : outcome Z :=
  int_of_float (mul rupees F100).

End DataExport.

(* ===================================================================== *)
(** * Python strings *)
(* ===================================================================== *)

(** A character of a Python [str] is modelled by an [ascii]: the texts are
    those whose code points are below 256.  The functions follow the
    interpreter (CPython 3.11); the limit on the number of digits of a
    decimal int is the default one, 4300. *)

Module PyStr.

(** [c.isspace()]: the characters that [str.strip] removes. *)
Definition isspace (c : ascii) : bool :=
  let n := N_of_ascii c in
  ((9 <=? n) && (n <=? 13) || (28 <=? n) && (n <=? 32)
   || (n =? 133) || (n =? 160))%N.

(** The characters that [int] skips around a literal: the separators 28 to
    31 are not among them. *)
Definition int_space (c : ascii) : bool :=
  let n := N_of_ascii c in
  ((9 <=? n) && (n <=? 13) || (n =? 32) || (n =? 133) || (n =? 160))%N.

Fixpoint lstrip_with (space : ascii -> bool) (s : string) : string :=
  match s with
  | String c s' => if space c then lstrip_with space s' else s
  | EmptyString => EmptyString
  end.

Fixpoint rstrip_with (space : ascii -> bool) (s : string) : string :=
  match s with
  | String c s' =>
      match rstrip_with space s' with
      | EmptyString => if space c then EmptyString else String c EmptyString
      | r => String c r
      end
  | EmptyString => EmptyString
  end.

Definition lstrip (s : string) : string := lstrip_with isspace s.

Definition rstrip (s : string) : string := rstrip_with isspace s.

(** [s.strip()]. *)
Definition strip (s : string) : string := rstrip (lstrip s).

(** [s.split(sep)] for a separator of one character. *)
Fixpoint split (sep : ascii) (s : string) : list string :=
  match s with
  | String c s' =>
      if Ascii.eqb c sep then EmptyString :: split sep s'
      else match split sep s' with
           | part :: parts => String c part :: parts
           | [] => [String c EmptyString]
           end
  | EmptyString => [EmptyString]
  end.

Definition digit (c : ascii) : option (Decimal.uint -> Decimal.uint) :=
  match c with
  | "0" => Some Decimal.D0
  | "1" => Some Decimal.D1
  | "2" => Some Decimal.D2
  | "3" => Some Decimal.D3
  | "4" => Some Decimal.D4
  | "5" => Some Decimal.D5
  | "6" => Some Decimal.D6
  | "7" => Some Decimal.D7
  | "8" => Some Decimal.D8
  | "9" => Some Decimal.D9
  | _ => None
  end%char.

(** The digits that [s] starts with, and what follows them.  One underscore
    is accepted between two digits. *)
Fixpoint scan_digits (s : string) : Decimal.uint * string :=
  match s with
  | String c s' =>
      match digit c with
      | Some d =>
          let '(ds, rest) :=
            match s' with
            | String "_" s'' =>
                match scan_digits s'' with
                | (Decimal.Nil, _) => (Decimal.Nil, s')
                | r => r
                end
            | _ => scan_digits s'
            end in
          (d ds, rest)
      | None => (Decimal.Nil, s)
      end
  | EmptyString => (Decimal.Nil, s)
  end.

Definition max_str_digits : nat := 4300.

(** [int(s)]: spaces, a sign, digits, spaces; [None] stands for the
    [ValueError], which is also raised for more than 4300 digits. *)
Definition int (s : string) : option Z :=
  let s := lstrip_with int_space s in
  let '(negative, s) :=
    match s with
    | String "+" s' => (false, s')
    | String "-" s' => (true, s')
    | _ => (false, s)
    end in
  match scan_digits s with
  | (Decimal.Nil, _) => None
  | (ds, rest) =>
      if Nat.ltb max_str_digits (Decimal.nb_digits ds) then None
      else match lstrip_with int_space rest with
           | EmptyString =>
               Some (if negative then - Z.of_uint ds else Z.of_uint ds)
           | _ => None
           end
  end.

(** [str(n)] and [f"{n}"] for an int: [None] stands for the [ValueError]
    raised for more than 4300 digits. *)
Definition str (n : Z) : option string :=
  let d := Z.to_int n in
  let digits := match d with Decimal.Pos u | Decimal.Neg u => u end in
  if Nat.ltb max_str_digits (Decimal.nb_digits digits) then None
  else Some (NilZero.string_of_int d).

Definition LF : ascii := "010"%char.
Definition CR : ascii := "013"%char.

(** [for line in f] on a file opened in text mode: a line ends at "\n",
    at "\r" or at "\r\n".  The lines are given without their end, which
    [strip] removes anyway. *)
Fixpoint readlines (file : string) : list string :=
  match file with
  | String c file' =>
      if Ascii.eqb c LF then EmptyString :: readlines file'
      else if Ascii.eqb c CR then
        EmptyString :: match file' with
                       | String "010" file'' => readlines file''
                       | _ => readlines file'
                       end
      else match readlines file' with
           | line :: lines => String c line :: lines
           | [] => [String c EmptyString]
           end
  | EmptyString => []
  end.

End PyStr.

(* ===================================================================== *)
(** * The three text files *)
(* ===================================================================== *)

(** A file is the text it holds.  A function that writes returns its
    result and the text of the file afterwards. *)

(** [with open(file, 'w') as f: for x in l: f.write(line(x))]: the file is
    emptied, and the lines are written until one of them raises. *)
Fixpoint write_lines {A : Type} (line : A -> option string) (l : list A)
  : bool * string :=
  match l with
  | [] => (true, EmptyString)
  | x :: l' =>
      match line x with
      | Some s => let '(ok, file) := write_lines line l' in (ok, (s ++ file)%string)
      | None => (false, EmptyString)
      end
  end.

(** [l[index] = x] for an index within the list. *)
Fixpoint list_set {A : Type} (l : list A) (index : nat) (x : A) : list A :=
  match l, index with
  | [], _ => []
  | _ :: l', O => x :: l'
  | y :: l', S i => y :: list_set l' i x
  end.

(** [l.pop(index)] for an index within the list. *)
Fixpoint list_pop {A : Type} (l : list A) (index : nat) : list A :=
  match l, index with
  | [], _ => []
  | _ :: l', O => l'
  | y :: l', S i => y :: list_pop l' i
  end.

(** ** transactions.txt *)

Module TransactionsTxt.

Import PyStr.

(** The body of the loop of [read_transactions]: what one line of the file
    adds to the list. *)
Definition read_line (line : string) : list Transaction :=
  let line := strip line in
  if String.eqb line "" then []
  else
    match split "|" line with
    | [date; trans_type; category; amount_paisa; description] =>
        if existsb (String.eqb trans_type) ["expense"; "income"] then
          match int amount_paisa with
          | Some amount_paisa =>
              [mkTransaction date trans_type category amount_paisa description]
          | None => []
          end
        else []
    | _ => []
    end.

Definition read_transactions (file : string) : list Transaction :=
  flat_map read_line (readlines file).

(** The line of a transaction, [None] when the amount cannot be printed. *)
Definition line_of (t : Transaction) : option string :=
  match str (amount_paisa t) with
  | Some amount =>
      Some (date t ++ "|" ++ type t ++ "|" ++ category t ++ "|" ++ amount
              ++ "|" ++ description t ++ String LF EmptyString)%string
  | None => None
  end.

Definition write_transaction (file : string) (date trans_type category : string)
    (amount_paisa : Z) (description : string) : bool * string :=
  match line_of (mkTransaction date trans_type category amount_paisa
                               description) with
  | Some line => (true, (file ++ line)%string)
  | None => (false, file)
  end.

Definition update_transaction (file : string) (index : Z)
    (updated_data : Transaction) : bool * string :=
  let transactions := read_transactions file in
  if (index <? 0) || (len transactions <=? index) then (false, file)
  else
    let transactions := list_set transactions (Z.to_nat index) updated_data in
    write_lines line_of transactions.

Definition delete_transaction (file : string) (index : Z) : bool * string :=
  let transactions := read_transactions file in
  if (index <? 0) || (len transactions <=? index) then (false, file)
  else
    let transactions := list_pop transactions (Z.to_nat index) in
    write_lines line_of transactions.

End TransactionsTxt.

(** ** budgets.txt *)

Module BudgetsTxt.

Import PyStr.

Definition BUDGET_PERIODS : list string := ["monthly"; "weekly"].

(** The body of the loop of [read_budgets]. *)
Definition read_line (line : string) : list Budget :=
  let line := strip line in
  if String.eqb line "" then []
  else
    match split "|" line with
    | [category; limit_paisa; period] =>
        if existsb (String.eqb period) BUDGET_PERIODS then
          match int limit_paisa with
          | Some limit_paisa => [mkBudget category limit_paisa period]
          | None => []
          end
        else []
    | _ => []
    end.

Definition read_budgets (file : string) : list Budget :=
  flat_map read_line (readlines file).

Definition line_of (b : Budget) : option string :=
  match str (limit_paisa b) with
  | Some limit =>
      Some (b_category b ++ "|" ++ limit ++ "|" ++ period b
              ++ String LF EmptyString)%string
  | None => None
  end.

Definition write_budget (file : string) (category : string) (limit_paisa : Z)
    (period : string) : bool * string :=
  match line_of (mkBudget category limit_paisa period) with
  | Some line => (true, (file ++ line)%string)
  | None => (false, file)
  end.

Definition update_budget (file : string) (category : string)
    (new_limit_paisa : Z) : bool * string :=
  let budgets := read_budgets file in
  let '(updated, budgets) :=
    Budgets.update_first budgets category new_limit_paisa in
  if negb updated then (false, file)
  else write_lines line_of budgets.

Definition delete_budget (file : string) (category : string) : bool * string :=
  let budgets := read_budgets file in
  let original_count := List.length budgets in
  let budgets :=
    filter (fun b => negb (String.eqb (b_category b) category)) budgets in
  if Nat.eqb (List.length budgets) original_count then (false, file)
  else write_lines line_of budgets.

Definition budget_exists (file : string) (category : string) : bool :=
  let budgets := read_budgets file in
  existsb (fun b => String.eqb (b_category b) category) budgets.

End BudgetsTxt.

(** ** goals.txt *)

Module GoalsTxt.

Import PyStr.

(** The body of the loop of [read_goals]. *)
Definition read_line (line : string) : list Goal :=
  let line := strip line in
  if String.eqb line "" then []
  else
    match split "|" line with
    | [name; target_paisa; current_paisa; deadline; created; goal_type] =>
        match int target_paisa with
        | Some target_paisa =>
            match int current_paisa with
            | Some current_paisa =>
                [mkGoal name target_paisa current_paisa deadline created
                        goal_type]
            | None => []
            end
        | None => []
        end
    | _ => []
    end.

Definition read_goals (file : string) : list Goal :=
  flat_map read_line (readlines file).

Definition line_of (g : Goal) : option string :=
  match str (target_paisa g) with
  | Some target =>
      match str (current_paisa g) with
      | Some current =>
          Some (name g ++ "|" ++ target ++ "|" ++ current ++ "|" ++ deadline g
                  ++ "|" ++ created_date g ++ "|" ++ goal_type g
                  ++ String LF EmptyString)%string
      | None => None
      end
  | None => None
  end.

Section Goals.

(** [str.lower()], left abstract as in the functions on the parsed goals;
    [today] is the date of the clock, ["YYYY-MM-DD"]. *)
Variable lower : string -> string.
Variable today : string.

Definition write_goal (file : string) (new_name : string) (target_paisa : Z)
    (deadline goal_type : string) (current_paisa : Z) : bool * string :=
  let existing_goals := read_goals file in
  if existsb (fun g => String.eqb (lower (name g)) (lower new_name))
             existing_goals
  then (false, file)
  else
    let created_date := today in
    match line_of (mkGoal new_name target_paisa current_paisa deadline
                          created_date goal_type) with
    | Some line => (true, (file ++ line)%string)
    | None => (false, file)
    end.

Definition update_goal_progress (file : string) (goal_name : string)
    (additional_amount : Z) : bool * string :=
  let goals := read_goals file in
  let '(updated, goals) :=
    SmartAssistant.progress_first lower goals goal_name additional_amount in
  if negb updated then (false, file)
  else write_lines line_of goals.

Definition delete_goal (file : string) (goal_name : string) : bool * string :=
  let goals := read_goals file in
  let original_count := List.length goals in
  let goals :=
    filter (fun g => negb (String.eqb (lower (name g)) (lower goal_name)))
           goals in
  if Nat.eqb (List.length goals) original_count then (false, file)
  else write_lines line_of goals.

End Goals.

End GoalsTxt.

(* ===================================================================== *)
(** * The days of a month *)
(* ===================================================================== *)

(** [calendar.isleap], [calendar.mdays] and the second component of
    [calendar.monthrange]: [None] stands for the [IllegalMonthError].  The
    first component, the week day, is computed for every year without an
    exception. *)
Module Calendar.

Definition isleap (year : Z) : bool :=
  (year mod 4 =? 0) && (negb (year mod 100 =? 0) || (year mod 400 =? 0)).

Definition mdays : list Z := [0; 31; 28; 31; 30; 31; 30; 31; 31; 30; 31; 30; 31].

Definition February : Z := 2.

Definition monthrange (year month : Z) : option Z :=
  if negb ((1 <=? month) && (month <=? 12)) then None
  else
    let ndays := nth (Z.to_nat month) mdays 0
                 + (if (month =? February) && isleap year then 1 else 0) in
    Some ndays.

End Calendar.

Module AnalyticsTxt.

Import Analytics.

(** [get_days_in_month]: every exception, of the unpacking, of [int] or of
    [monthrange], gives the fallback 30. *)
Definition get_days_in_month (month : string) : Z :=
  match PyStr.split "-" month with
  | [year; mon] =>
      match PyStr.int year with
      | Some year =>
          match PyStr.int mon with
          | Some mon =>
              match Calendar.monthrange year mon with
              | Some ndays => ndays
              | None => 30
              end
          | None => 30
          end
      | None => 30
      end
  | _ => 30
  end.

Definition calculate_average_daily_spending (w : Env) (month : string) : Z :=
  let total := calculate_total_spending w month in
  let days := get_days_in_month month in
  if 0 <? days then total / days else 0.

Definition calculate_burn_rate (w : Env) : Z :=
  let current_month := get_current_month w in
  calculate_average_daily_spending w current_month.

End AnalyticsTxt.

(* ===================================================================== *)
(** * Sample environments *)
(* ===================================================================== *)

(** A month with income 100 and expenses 80: the rate is exactly 20.0. *)
Definition env_rate_20 : Env :=
  mkEnv [mkTransaction "2025-01-05" "income" "Salary" 100 "pay";
         mkTransaction "2025-01-09" "expense" "Food" 80 "food"]
        [] [] "2025-01" "2024-12".

(** Expenses of 500000 this month after 400000 last month. *)
Definition env_growth : Env :=
  mkEnv [mkTransaction "2024-12-20" "expense" "Bills" 400000 "rent";
         mkTransaction "2025-01-20" "expense" "Bills" 500000 "rent"]
        [] [] "2025-01" "2024-12".

(** No transaction at all and no budget. *)
Definition env_empty : Env := mkEnv [] [] [] "2025-01" "2024-12".

(** Nothing last month, one expense and one income this month. *)
Definition env_first_month : Env :=
  mkEnv [mkTransaction "2025-01-02" "income" "Salary" 300000 "pay";
         mkTransaction "2025-01-20" "expense" "Bills" 100000 "rent"]
        [] [] "2025-01" "2024-12".

(** One expense of 100000 among four expenses of 20000 in the current month. *)
Definition env_spike : Env :=
  mkEnv [mkTransaction "2025-01-03" "expense" "Food" 20000 "a";
         mkTransaction "2025-01-04" "expense" "Shopping" 100000 "b";
         mkTransaction "2025-01-05" "expense" "Food" 20000 "c";
         mkTransaction "2025-01-06" "expense" "Bills" 20000 "d";
         mkTransaction "2025-01-07" "expense" "Food" 20000 "e"]
        [] [] "2025-01" "2024-12".

(** Lower-casing of the ASCII letters. *)
Definition ascii_lower (c : ascii) : ascii :=
  let n := nat_of_ascii c in
  if andb (Nat.leb 65 n) (Nat.leb n 90) then ascii_of_nat (n + 32) else c.

Fixpoint string_lower (s : string) : string :=
  match s with
  | EmptyString => EmptyString
  | String c s' => String (ascii_lower c) (string_lower s')
  end.

(** Two goals, the second one almost reached. *)
Definition sample_goals : list Goal :=
  [mkGoal "Laptop" 500000 100000 "2025-12-31" "2025-01-01" "Custom Goal";
   mkGoal "Trip" 300000 290000 "2025-08-31" "2025-01-01" "Vacation Savings"].


(** The ledger of [env_spike] with three budgets: Food at 75% of its limit,
    Shopping above its limit and Bills at 20%. *)
Definition env_budgeted : Env :=
  mkEnv (read_transactions env_spike)
        [mkBudget "Food" 80000 "monthly";
         mkBudget "Shopping" 90000 "monthly";
         mkBudget "Bills" 100000 "monthly"]
        [] "2025-01" "2024-12".

(** A month that earns every point: four fifths of the income saved, the
    only budget respected and no unusual expense. *)
Definition env_ideal : Env :=
  mkEnv [mkTransaction "2025-01-01" "income" "Salary" 100000 "pay";
         mkTransaction "2025-01-05" "expense" "Food" 10000 "a";
         mkTransaction "2025-01-09" "expense" "Bills" 10000 "b"]
        [mkBudget "Food" 50000 "monthly"]
        [] "2025-01" "2024-12".

(** A month that earns the fewest points: no income, the only budget
    exceeded and three expenses far above the others. *)
Definition env_poor : Env :=
  mkEnv [mkTransaction "2025-01-01" "expense" "Food" 100000 "a";
         mkTransaction "2025-01-02" "expense" "Food" 100000 "b";
         mkTransaction "2025-01-03" "expense" "Food" 100000 "c";
         mkTransaction "2025-01-04" "expense" "Other" 1000 "d";
         mkTransaction "2025-01-05" "expense" "Other" 1000 "e";
         mkTransaction "2025-01-06" "expense" "Other" 1000 "f";
         mkTransaction "2025-01-07" "expense" "Other" 1000 "g";
         mkTransaction "2025-01-08" "expense" "Other" 1000 "h";
         mkTransaction "2025-01-09" "expense" "Other" 1000 "i";
         mkTransaction "2025-01-10" "expense" "Other" 1000 "j"]
        [mkBudget "Food" 1000 "monthly"]
        [] "2025-01" "2024-12".

(** The report of [get_budget_data] on [env_budgeted]. *)
Definition report_budgeted : list Budgets.BudgetData :=
  Eval vm_compute in
    match Budgets.get_budget_data env_budgeted with
    | Ok data => data
    | Raise _ => []
    end.

(** Three files as the program writes them. *)
Definition transactions_txt : string :=
  ("2025-01-01|income|Salary|100000|pay" ++ String PyStr.LF
   ("2025-01-05|expense|Food|2500|lunch" ++ String PyStr.LF ""))%string.

Definition budgets_txt : string :=
  ("Food|80000|monthly" ++ String PyStr.LF
   ("Shopping|90000|weekly" ++ String PyStr.LF ""))%string.

Definition goals_txt : string :=
  ("Laptop|500000|100000|2025-12-31|2025-01-01|Custom Goal" ++ String PyStr.LF
   ("Trip|300000|100000|2025-08-31|2025-01-01|Vacation Savings"
    ++ String PyStr.LF ""))%string.

Import Budgets Analytics SmartAssistant.

(* ===================================================================== *)
(** * Rounding to nearest even, as a relation on rationals *)
(* ===================================================================== *)

(** The meaning of the float operations used above is stated on exact
    rational numbers.  [pow2 e] is [2 ^ e] for any integer exponent. *)
Definition pow2 (e : Z) : Q := (2 ^ e)%Q.

(** The exponent of the binary64 format for a number of magnitude [k], and
    the smallest exponent (that of the subnormal numbers). *)
Definition fexp (k : Z) : Z := SpecFloat.fexp prec emax k.
Definition emin : Z := SpecFloat.emin prec emax.

(** [inbetween m l y]: the location [l] tells where [y] lies in the
    interval from [m] to [m + 1]. *)
Definition inbetween (m : Z) (l : location) (y : Q) : Prop :=
  match l with
  | loc_Exact => (y == inject_Z m)%Q
  | loc_Inexact Lt => (inject_Z m < y /\ y < inject_Z m + (1#2))%Q
  | loc_Inexact Eq => (y == inject_Z m + (1#2))%Q
  | loc_Inexact Gt => (inject_Z m + (1#2) < y /\ y < inject_Z m + 1)%Q
  end.

(** [M] is an integer nearest to [y], and the even one of the two when [y]
    is half way between two integers. *)
Definition nearest_even (y : Q) (M : Z) : Prop :=
  (inject_Z M - (1#2) <= y /\ y <= inject_Z M + (1#2))%Q /\
  ((y == inject_Z M - (1#2) \/ y == inject_Z M + (1#2))%Q -> Z.even M = true).

(** The float of sign [s], mantissa [M] and exponent [E]: zero when [M] is 0,
    an infinity when the exponent is out of range. *)
Definition finite_or_inf (s : bool) (M E : Z) : spec_float :=
  match M with
  | Z0 => S754_zero s
  | Zpos m => if E <=? emax - prec then S754_finite s m E else S754_infinity s
  | Zneg _ => S754_nan
  end.

(** A mantissa that the rounding has carried to [2 ^ prec] is written with
    the next exponent. *)
Definition canon (M E : Z) : Z * Z :=
  if M =? 2 ^ prec then (2 ^ (prec - 1), E + 1) else (M, E).

(** The float of sign [s] whose value is [M * 2 ^ E], for a rounded mantissa
    [M] between 0 and [2 ^ prec]. *)
Definition float_of_mantissa (s : bool) (M E : Z) : spec_float :=
  finite_or_inf s (fst (canon M E)) (snd (canon M E)).

(** [rounds_to s x f]: [f] is the binary64 float of sign [s] nearest to the
    positive rational [x], ties to even.  [k] is the magnitude of [x]
    (or any bound in the subnormal range), [M] the rounded mantissa at the
    exponent [fexp k]. *)
Definition rounds_to (s : bool) (x : Q) (f : spec_float) : Prop :=
  exists k M,
    (x < pow2 k)%Q /\
    ((pow2 (k - 1) <= x)%Q \/ fexp k = emin) /\
    nearest_even (x * pow2 (- fexp k)) M /\
    f = float_of_mantissa s M (fexp k).

(** The same for a rational of any sign. *)
Definition Rounds (x : Q) (f : spec_float) : Prop :=
  ((0 < x)%Q /\ rounds_to false x f) \/
  ((x == 0)%Q /\ exists s, f = S754_zero s) \/
  ((x < 0)%Q /\ rounds_to true (- x) f).

Definition is_nonneg (f : spec_float) : bool :=
  match f with
  | S754_zero _ => true
  | S754_nan => false
  | S754_infinity s | S754_finite s _ _ => negb s
  end.

Definition is_nonpos (f : spec_float) : bool :=
  match f with
  | S754_zero _ => true
  | S754_nan => false
  | S754_infinity s | S754_finite s _ _ => s
  end.

(** The sign bit of a float that is not a NaN. *)
Definition sign_bit (f : spec_float) : option bool :=
  match f with
  | S754_zero s | S754_infinity s | S754_finite s _ _ => Some s
  | S754_nan => None
  end.

Definition is_finite (f : spec_float) : bool :=
  match f with
  | S754_zero _ | S754_finite _ _ _ => true
  | _ => false
  end.

(** The rational value of a finite float. *)
Definition Qval (f : spec_float) : Q :=
  match f with
  | S754_finite s m e =>
      ((if s then - inject_Z (Zpos m) else inject_Z (Zpos m)) * pow2 e)%Q
  | _ => 0%Q
  end.

(** The two totals that [calculate_month_over_month_change] compares. *)
Definition mom_current (w : Env) (cat : option string) : Z :=
  match truthy cat with
  | Some c => calculate_category_spending w c (get_current_month w)
  | None => calculate_total_spending w (get_current_month w)
  end.

Definition mom_previous (w : Env) (cat : option string) : Z :=
  match truthy cat with
  | Some c => calculate_category_spending w c (get_last_month w)
  | None => calculate_total_spending w (get_last_month w)
  end.

(** The pattern followed by each of the three changes of
    [compare_with_last_month]:
    [change = 0.0; if last > 0: change = ((current - last) / last) * 100]. *)
Definition change_since (current last : Z) : result float :=
  if 0 <? last
  then q <- truediv (current - last) last ;; Ok (mul q F100)
  else Ok F0.

(** [desc a b]: the amount of [a] is at least that of [b]. *)
Definition desc (a b : Transaction) : Prop := amount_paisa b <= amount_paisa a.

(** The goal [goal] after [additional_amount] has been added to it and the
    result capped at the target. *)
Definition add_capped (goal : Goal) (additional_amount : Z) : Goal :=
  mkGoal (name goal) (target_paisa goal)
         (Z.min (current_paisa goal + additional_amount) (target_paisa goal))
         (deadline goal) (created_date goal) (goal_type goal).

(** The invariant of a goal. *)
Definition goal_ok (goal : Goal) : Prop :=
  0 <= current_paisa goal <= target_paisa goal.

(** The order of the budget tiers: OK, then Warning, then Over Budget. *)
Definition tier_rank (status : string * string) : Z :=
  if String.eqb (fst status) "Over Budget" then 2
  else if String.eqb (fst status) "Warning" then 1
  else 0.

(* ===================================================================== *)
(** * Facts about rounding *)
(* ===================================================================== *)


(** The NaN, which no comparison orders. *)
Definition is_nan (f : spec_float) : bool :=
  match f with
  | S754_nan => true
  | _ => false
  end.

(** A ledger with non-negative amounts whose sum is within the range of the
    floats, and a budget file with non-negative limits: what the menus of
    the program can produce. *)
Definition ledger_in_range (w : Env) : Prop :=
  (forall t, In t (read_transactions w) -> 0 <= amount_paisa t) /\
  sum (map amount_paisa (read_transactions w)) < 2 ^ 1023 /\
  (forall b, In b (read_budgets w) -> 0 <= limit_paisa b).

(** What one entry of the report says about the line of the budget file it
    is made from. *)
Definition entry_of (w : Env) (budget : Budget) (d : BudgetData) : Prop :=
  bd_category d = b_category budget /\
  bd_limit_paisa d = limit_paisa budget /\
  bd_period d = period budget /\
  spent_paisa d = get_current_month_spending w (b_category budget) /\
  remaining_paisa d = limit_paisa budget - spent_paisa d /\
  calculate_utilization (spent_paisa d) (limit_paisa budget)
  = Ok (utilization d) /\
  (bd_status_text d, bd_status_color d) = get_budget_status (utilization d).

(** [lacks c s]: the character [c] does not occur in [s]. *)
Fixpoint lacks (c : ascii) (s : string) : bool :=
  match s with
  | EmptyString => true
  | String a s' => negb (Ascii.eqb a c) && lacks c s'
  end.

(** A text that stays on one line of a file. *)
Definition one_line (s : string) : bool :=
  lacks PyStr.LF s && lacks PyStr.CR s.

(** A text that can be one field of a line: it stays on the line and does
    not hold the separator of the fields. *)
Definition field (s : string) : bool := lacks "|" s && one_line s.

(** A file whose last line is ended: it is empty or its last character is a
    line feed.  The files written by the program are of this kind. *)
Fixpoint complete (file : string) : bool :=
  match file with
  | EmptyString => true
  | String c EmptyString => Ascii.eqb c PyStr.LF
  | String _ file' => complete file'
  end.

(** The transaction that is read back from the line written for [t]: the
    spaces before the date and after the description are lost. *)
Definition stored_transaction (t : Transaction) : Transaction :=
  mkTransaction (PyStr.lstrip (date t)) (type t) (category t) (amount_paisa t)
                (PyStr.rstrip (description t)).

(** The amount by which a transaction changes the balance. *)
Definition signed_amount (t : Transaction) : Z :=
  (if String.eqb (type t) "income" then amount_paisa t else 0)
  - (if String.eqb (type t) "expense" then amount_paisa t else 0).

(** The number of occurrences of the character [c] in [s]. *)
Fixpoint count (c : ascii) (s : string) : nat :=
  match s with
  | EmptyString => O
  | String a s' => ((if Ascii.eqb a c then 1 else 0) + count c s')%nat
  end.

(** [sep.join(parts)] for a separator of one character. *)
Definition join (sep : ascii) (parts : list string) : string :=
  String.concat (String sep EmptyString) parts.

(** A text without spaces at its start. *)
Definition lstripped (s : string) : Prop := PyStr.lstrip s = s.

(** A text without spaces at its end. *)
Definition rstripped (s : string) : Prop := PyStr.rstrip s = s.

(** An int of at most 4300 digits: one that [str] prints. *)
Definition printable (n : Z) : Prop := Z.abs n < 10 ^ 4300.

(** A transaction whose line is read back: its texts can be fields, its
    type is one of the two that [read_transactions] accepts, and its amount
    is printed. *)
Definition writable_transaction (t : Transaction) : Prop :=
  field (date t) = true /\
  (type t = "expense" \/ type t = "income") /\
  field (category t) = true /\
  printable (amount_paisa t) /\
  field (description t) = true.

(** The budget that is read back from the line written for [b]. *)
Definition stored_budget (b : Budget) : Budget :=
  mkBudget (PyStr.lstrip (b_category b)) (limit_paisa b) (period b).

(** A budget whose line is read back: its category can be a field, its
    limit is printed and its period is one that [read_budgets] accepts. *)
Definition writable_budget (b : Budget) : Prop :=
  field (b_category b) = true /\
  printable (limit_paisa b) /\
  (period b = "monthly" \/ period b = "weekly").

(** The goal that is read back from the line written for [g]. *)
Definition stored_goal (g : Goal) : Goal :=
  mkGoal (PyStr.lstrip (name g)) (target_paisa g) (current_paisa g)
         (deadline g) (created_date g) (PyStr.rstrip (goal_type g)).

(** A goal whose line is read back: its texts can be fields and its two
    amounts are printed. *)
Definition writable_goal (g : Goal) : Prop :=
  field (name g) = true /\
  printable (target_paisa g) /\
  printable (current_paisa g) /\
  field (deadline g) = true /\
  field (created_date g) = true /\
  field (goal_type g) = true.

(** What an entry of [find_savings_opportunities] says about the category
    it is made for, [total] being the spending of the month. *)
Definition opportunity_ok (total : Z) (o : Opportunity) : Prop :=
  total < 4 * current_spending o /\
  calculate_category_percentage (current_spending o) total
  = Ok (percentage_of_total o) /\
  suggested_reduction o = 15 /\
  0 <= potential_monthly_savings o /\
  20 * potential_monthly_savings o <= 3 * current_spending o
  <= 20 * potential_monthly_savings o + 20 /\
  potential_annual_savings o = potential_monthly_savings o * 12.

(** The days of a month of the Gregorian calendar. *)
Definition days_of (year mon : Z) : Z :=
  if (mon =? 4) || (mon =? 6) || (mon =? 9) || (mon =? 11) then 30
  else if mon =? 2 then
    (if (year mod 400 =? 0) then 29
     else if (year mod 100 =? 0) then 28
     else if (year mod 4 =? 0) then 29 else 28)
  else 31.

(** The spending that [calculate_potential_savings] reduces: the expenses
    of the category in the current month. *)
Definition current_spending_of (w : Env) (cat : string) : Z :=
  calculate_category_spending w cat (get_current_month w).
(** ** Powers of two *)

Lemma pow2_pos e : (0 < pow2 e)%Q.
Proof. apply Qpower_0_lt. reflexivity. Qed.

Lemma pow2_add a b : (pow2 (a + b) == pow2 a * pow2 b)%Q.
Proof. apply Qpower_plus. discriminate. Qed.

Lemma pow2_le a b : a <= b -> (pow2 a <= pow2 b)%Q.
Proof.
  intros H. apply Qpower_le_compat_l; [exact H | discriminate].
Qed.

Lemma pow2_lt a b : a < b -> (pow2 a < pow2 b)%Q.
Proof.
  intros H. apply Qpower_lt_compat_l; [exact H | reflexivity].
Qed.

Lemma pow2_lt_inv a b : (pow2 a < pow2 b)%Q -> a < b.
Proof.
  intros H. destruct (Z_lt_le_dec a b) as [L|L]; [exact L|].
  apply pow2_le in L. lra.
Qed.

Lemma pow2_Z n : 0 <= n -> (inject_Z (2 ^ n) == pow2 n)%Q.
Proof. intros H. unfold pow2. rewrite Zpower_Qpower by exact H. reflexivity. Qed.

(** ** Number of binary digits *)

Lemma digits2_pos_bounds p :
  2 ^ (Zpos (digits2_pos p) - 1) <= Zpos p < 2 ^ Zpos (digits2_pos p).
Proof.
  induction p as [p IH|p IH|]; simpl digits2_pos.
  - rewrite Pos2Z.inj_succ, Pos2Z.inj_xI.
    replace (Z.succ (Zpos (digits2_pos p)) - 1)
      with (Z.succ (Zpos (digits2_pos p) - 1)) by lia.
    rewrite !Z.pow_succ_r by lia.
    destruct IH as [IH1 IH2]. revert IH1 IH2.
    generalize (2 ^ (Z.pos (digits2_pos p) - 1)) (2 ^ Z.pos (digits2_pos p)).
    intros; lia.
  - rewrite Pos2Z.inj_succ. change (Zpos p~0) with (2 * Zpos p).
    replace (Z.succ (Zpos (digits2_pos p)) - 1)
      with (Z.succ (Zpos (digits2_pos p) - 1)) by lia.
    rewrite !Z.pow_succ_r by lia.
    destruct IH as [IH1 IH2]. revert IH1 IH2.
    generalize (2 ^ (Z.pos (digits2_pos p) - 1)) (2 ^ Z.pos (digits2_pos p)).
    intros; lia.
  - split; [discriminate | reflexivity].
Qed.

Lemma Zdigits2_nonneg m : 0 <= Zdigits2 m.
Proof. destruct m; simpl; lia. Qed.

Lemma Zdigits2_upper m : 0 <= m -> m + 1 <= 2 ^ Zdigits2 m.
Proof.
  intros H. destruct m as [|p|p]; unfold Zdigits2; try lia.
  pose proof (digits2_pos_bounds p). lia.
Qed.

Lemma Zdigits2_lower m : 0 < m -> 2 ^ (Zdigits2 m - 1) <= m.
Proof.
  intros H. destruct m as [|p|p]; unfold Zdigits2; try lia.
  pose proof (digits2_pos_bounds p). lia.
Qed.

Lemma Zdigits2_big m n : 0 <= n -> 2 ^ n <= m -> n + 1 <= Zdigits2 m.
Proof.
  intros Hn H.
  assert (0 < m) by (pose proof (Z.pow_pos_nonneg 2 n); lia).
  pose proof (Zdigits2_upper m ltac:(lia)).
  pose proof (Zdigits2_nonneg m).
  destruct (Z_lt_le_dec n (Zdigits2 m)); [lia|].
  assert (2 ^ Zdigits2 m <= 2 ^ n) by (apply Z.pow_le_mono_r; lia). lia.
Qed.

Lemma Zdigits2_small m n : 0 <= n -> 0 <= m < 2 ^ n -> Zdigits2 m <= n.
Proof.
  intros Hn H.
  destruct (Z.eq_dec m 0) as [->|]; [simpl; lia|].
  pose proof (Zdigits2_lower m ltac:(lia)).
  destruct (Z_lt_le_dec n (Zdigits2 m)); [|lia].
  assert (2 ^ n <= 2 ^ (Zdigits2 m - 1)) by (apply Z.pow_le_mono_r; lia). lia.
Qed.

(** ** Shifting a located number to the right *)

(** One step of [shr_1] halves the located number. *)
Lemma shr_1_inbetween mrs y :
  0 <= shr_m mrs ->
  inbetween (shr_m mrs) (loc_of_shr_record mrs) y ->
  0 <= shr_m (shr_1 mrs) /\
  inbetween (shr_m (shr_1 mrs)) (loc_of_shr_record (shr_1 mrs)) (y * (1#2)).
Proof.
  destruct mrs as [m r s]. simpl shr_m at 1 2.
  intros Hm H.
  destruct m as [|p|p]; [| |lia].
  - destruct r, s; simpl in *; change (inject_Z 0) with 0%Q in *;
      split; try lia; lra.
  - destruct p as [p|p|].
    + assert (E : (inject_Z (Zpos p~1) == 2 * inject_Z (Zpos p) + 1)%Q).
      { change (Zpos p~1) with (2 * Zpos p + 1)%Z.
        rewrite inject_Z_plus, inject_Z_mult. reflexivity. }
      destruct r, s; simpl in *; split; try lia; lra.
    + assert (E : (inject_Z (Zpos p~0) == 2 * inject_Z (Zpos p))%Q).
      { change (Zpos p~0) with (2 * Zpos p)%Z.
        rewrite inject_Z_mult. reflexivity. }
      destruct r, s; simpl in *; split; try lia; lra.
    + destruct r, s; simpl in *; change (inject_Z 1) with 1%Q in *;
        change (inject_Z 0) with 0%Q in *; split; try lia; lra.
Qed.

Lemma inbetween_ext m l y y' : (y == y')%Q -> inbetween m l y -> inbetween m l y'.
Proof.
  intros E. destruct l as [|[| |]]; simpl; intros H; lra.
Qed.

Lemma pow2_opp_mul e : (pow2 e * pow2 (- e) == 1)%Q.
Proof.
  rewrite <- pow2_add. replace (e + - e) with 0 by lia. reflexivity.
Qed.

(** [iter_pos shr_1 p] divides the located number by [2 ^ p]. *)
Lemma iter_shr_1_inbetween p : forall mrs y,
  0 <= shr_m mrs ->
  inbetween (shr_m mrs) (loc_of_shr_record mrs) y ->
  0 <= shr_m (iter_pos shr_1 p mrs) /\
  inbetween (shr_m (iter_pos shr_1 p mrs))
            (loc_of_shr_record (iter_pos shr_1 p mrs)) (y * pow2 (- Zpos p)).
Proof.
  induction p as [p IH|p IH|]; intros mrs y Hm H; simpl iter_pos.
  - destruct (shr_1_inbetween mrs y Hm H) as [H0 H1].
    destruct (IH _ _ H0 H1) as [H2 H3].
    destruct (IH _ _ H2 H3) as [H4 H5].
    split; [exact H4|]. eapply inbetween_ext; [|exact H5].
    change (Zpos p~1) with (2 * Zpos p + 1).
    replace (- (2 * Zpos p + 1)) with (-1 + (- Zpos p + - Zpos p)) by lia.
    rewrite !pow2_add. change (pow2 (-1)) with (1#2)%Q. ring.
  - destruct (IH _ _ Hm H) as [H2 H3].
    destruct (IH _ _ H2 H3) as [H4 H5].
    split; [exact H4|]. eapply inbetween_ext; [|exact H5].
    change (Zpos p~0) with (2 * Zpos p).
    replace (- (2 * Zpos p)) with (- Zpos p + - Zpos p) by lia.
    rewrite !pow2_add. ring.
  - destruct (shr_1_inbetween mrs y Hm H) as [H0 H1].
    split; [exact H0|]. eapply inbetween_ext; [|exact H1].
    change (pow2 (-1)) with (1#2)%Q. reflexivity.
Qed.

Lemma loc_of_shr_record_of_loc m l :
  loc_of_shr_record (shr_record_of_loc m l) = l /\
  shr_m (shr_record_of_loc m l) = m.
Proof. destruct l as [|[| |]]; split; reflexivity. Qed.

(** [shr] by a non-negative amount [n] keeps the number located with respect
    to the new exponent [e + n]. *)
Lemma shr_inbetween mrs e n x :
  0 <= n -> 0 <= shr_m mrs ->
  inbetween (shr_m mrs) (loc_of_shr_record mrs) (x * pow2 (- e)) ->
  let '(mrs', e') := shr mrs e n in
  e' = e + n /\ 0 <= shr_m mrs' /\
  inbetween (shr_m mrs') (loc_of_shr_record mrs') (x * pow2 (- e')).
Proof.
  intros Hn Hm H. destruct n as [|p|p]; [| |lia]; simpl shr.
  - rewrite Z.add_0_r. auto.
  - destruct (iter_shr_1_inbetween p _ _ Hm H) as [H0 H1].
    split; [reflexivity|]. split; [exact H0|].
    eapply inbetween_ext; [|exact H1].
    replace (- (e + Zpos p)) with (- e + - Zpos p) by lia.
    rewrite pow2_add. ring.
Qed.

(** ** Rounding a located number to an integer *)

Lemma inject_Z_succ m : (inject_Z (m + 1) == inject_Z m + 1)%Q.
Proof. rewrite inject_Z_plus. reflexivity. Qed.

Lemma round_nearest_even_spec m l y :
  inbetween m l y -> nearest_even y (round_nearest_even m l).
Proof.
  pose proof (inject_Z_succ m) as E.
  destruct l as [|[| |]]; simpl; intros H; unfold nearest_even.
  - split; [lra|]. intros [T|T]; lra.
  - destruct (Z.even m) eqn:Ev.
    + split; [lra|]. intros _. exact Ev.
    + split; [lra|]. intros _. rewrite Z.even_add, Ev. reflexivity.
  - split; [lra|]. intros [T|T]; lra.
  - split; [lra|]. intros [T|T]; lra.
Qed.

Lemma nearest_even_mono y1 y2 M1 M2 :
  (y1 <= y2)%Q -> nearest_even y1 M1 -> nearest_even y2 M2 -> M1 <= M2.
Proof.
  intros Hy [[L1 U1] T1] [[L2 U2] T2].
  destruct (Z_lt_le_dec M2 M1) as [Lt|]; [exfalso|assumption].
  assert (H : (inject_Z M2 + 1 <= inject_Z M1)%Q).
  { rewrite <- inject_Z_succ. rewrite <- Zle_Qle. lia. }
  assert (E1 : (y1 == inject_Z M1 - (1#2))%Q) by lra.
  assert (E2 : (y2 == inject_Z M2 + (1#2))%Q) by lra.
  assert (E : (inject_Z M1 == inject_Z (M2 + 1))%Q) by (rewrite inject_Z_succ; lra).
  apply (proj1 (inject_Z_injective _ _)) in E. subst M1.
  specialize (T1 (or_introl E1)). specialize (T2 (or_intror E2)).
  rewrite Z.even_add, T2 in T1. discriminate.
Qed.

(** ** The exponent function of binary64 *)

Lemma fexp_eq k : fexp k = Z.max (k - 53) (-1074).
Proof. reflexivity. Qed.

Lemma emin_eq : emin = -1074.
Proof. reflexivity. Qed.

Lemma scaled_lt x k E : (x < pow2 k)%Q -> (x * pow2 (- E) < pow2 (k - E))%Q.
Proof.
  intros H. unfold Z.sub. rewrite pow2_add.
  apply Qmult_lt_compat_r; [apply pow2_pos | exact H].
Qed.

Lemma scaled_le x k E : (pow2 k <= x)%Q -> (pow2 (k - E) <= x * pow2 (- E))%Q.
Proof.
  intros H. unfold Z.sub. rewrite pow2_add.
  apply Qmult_le_compat_r; [exact H | apply Qlt_le_weak, pow2_pos].
Qed.

Lemma Qlt_inject_Z_half a b :
  (inject_Z a < inject_Z b + (1#2))%Q -> a <= b.
Proof.
  intros H. destruct (Z_lt_le_dec b a) as [L|L]; [exfalso|exact L].
  assert (H' : (inject_Z b + 1 <= inject_Z a)%Q).
  { rewrite <- inject_Z_succ, <- Zle_Qle. lia. }
  lra.
Qed.

Lemma Qle_inject_Z_half a b :
  (inject_Z a - (1#2) <= inject_Z b)%Q -> a <= b.
Proof.
  intros H. destruct (Z_lt_le_dec b a) as [L|L]; [exfalso|exact L].
  assert (H' : (inject_Z b + 1 <= inject_Z a)%Q).
  { rewrite <- inject_Z_succ, <- Zle_Qle. lia. }
  lra.
Qed.

(** Bounds on the rounded mantissa of a positive number. *)
Lemma nearest_even_bounds x k M :
  (0 < x)%Q -> (x < pow2 k)%Q ->
  nearest_even (x * pow2 (- fexp k)) M ->
  0 <= M <= 2 ^ prec.
Proof.
  intros Hx Hk [[L U] _].
  assert (Hy : (0 < x * pow2 (- fexp k))%Q).
  { apply Qmult_lt_0_compat; [exact Hx | apply pow2_pos]. }
  pose proof (scaled_lt x k (fexp k) Hk) as Hs.
  assert (Hp : (pow2 (k - fexp k) <= pow2 prec)%Q).
  { apply pow2_le. rewrite fexp_eq. unfold prec. lia. }
  split.
  - apply Qlt_inject_Z_half. change (inject_Z 0) with 0%Q. lra.
  - apply Qlt_inject_Z_half. rewrite pow2_Z by (unfold prec; lia). lra.
Qed.

Lemma nearest_even_normal x k M :
  (pow2 (k - 1) <= x)%Q -> fexp k <> emin ->
  nearest_even (x * pow2 (- fexp k)) M ->
  2 ^ (prec - 1) <= M.
Proof.
  intros Hk Hn [[L U] _].
  pose proof (scaled_le x (k - 1) (fexp k) Hk) as Hs.
  assert (E : k - 1 - fexp k = prec - 1).
  { revert Hn. rewrite fexp_eq, emin_eq. unfold prec. lia. }
  rewrite E in Hs.
  apply Qle_inject_Z_half. rewrite pow2_Z by (unfold prec; lia). lra.
Qed.

(** [binary_round_aux] rounds to nearest even: specification of the
    rounding performed by every operation. *)
Lemma binary_round_aux_spec s m e l x :
  0 <= m -> (0 < x)%Q ->
  inbetween m l (x * pow2 (- e)) ->
  2 ^ (prec - 1) <= m \/ e <= emin ->
  rounds_to s x (binary_round_aux prec emax s m e l).
Proof.
  intros Hm Hx Hin Hpre.
  set (k := Zdigits2 m + e).
  assert (Hshift : 0 <= fexp k - e).
  { rewrite fexp_eq. destruct Hpre as [Hb|He].
    - pose proof (Zdigits2_big m (prec - 1) ltac:(unfold prec; lia) Hb).
      unfold k, prec in *. lia.
    - rewrite emin_eq in He. lia. }
  (* x < 2^k *)
  assert (Hxk : (x < pow2 k)%Q).
  { assert (Hy : (x * pow2 (- e) < pow2 (Zdigits2 m))%Q).
    { pose proof (Zdigits2_upper m Hm) as Hu.
      rewrite <- (pow2_Z (Zdigits2 m)) by apply Zdigits2_nonneg.
      rewrite Zle_Qle, inject_Z_succ in Hu.
      destruct l as [|[| |]]; simpl in Hin; lra. }
    unfold k. rewrite pow2_add.
    apply Qmult_lt_compat_r with (z := pow2 e) in Hy; [|apply pow2_pos].
    rewrite <- Qmult_assoc in Hy.
    rewrite (Qmult_comm (pow2 (- e))), pow2_opp_mul, Qmult_1_r in Hy.
    exact Hy. }
  (* lower bound or subnormal *)
  assert (Hlow : (pow2 (k - 1) <= x)%Q \/ fexp k = emin).
  { destruct (Z_lt_le_dec m (2 ^ (prec - 1))) as [Hs|Hb].
    - right. destruct Hpre as [Hb|He]; [lia|].
      pose proof (Zdigits2_small m (prec - 1) ltac:(unfold prec; lia) (conj Hm Hs)).
      rewrite fexp_eq, emin_eq in *. unfold k, prec in *. lia.
    - left.
      assert (Hpos : 0 < m).
      { pose proof (Z.pow_pos_nonneg 2 (prec - 1)). unfold prec in *. lia. }
      pose proof (Zdigits2_lower m Hpos) as Hl.
      pose proof (Zdigits2_big m (prec - 1) ltac:(unfold prec; lia) Hb) as Hd.
      assert (Hy : (pow2 (Zdigits2 m - 1) <= x * pow2 (- e))%Q).
      { rewrite <- (pow2_Z (Zdigits2 m - 1)) by (unfold prec in *; lia).
        rewrite Zle_Qle in Hl.
        destruct l as [|[| |]]; simpl in Hin; lra. }
      replace (k - 1) with (Zdigits2 m - 1 + e) by (unfold k; lia).
      rewrite pow2_add.
      apply Qmult_le_compat_r with (z := pow2 e) in Hy;
        [|apply Qlt_le_weak, pow2_pos].
      rewrite <- (Qmult_assoc x) in Hy.
      rewrite (Qmult_comm (pow2 (- e))), pow2_opp_mul, Qmult_1_r in Hy.
      exact Hy. }
  unfold binary_round_aux, shr_fexp.
  fold (fexp (Zdigits2 m + e)). fold k.
  pose proof (shr_inbetween (shr_record_of_loc m l) e (fexp k - e) x Hshift) as Hshr.
  destruct (loc_of_shr_record_of_loc m l) as [El Em].
  rewrite El, Em in Hshr. specialize (Hshr Hm Hin).
  destruct (shr (shr_record_of_loc m l) e (fexp k - e)) as [mrs' e'].
  destruct Hshr as [He' [Hm' Hin']].
  replace (e + (fexp k - e)) with (fexp k) in He' by lia. subst e'.
  pose proof (round_nearest_even_spec _ _ _ Hin') as Hne.
  set (M := round_nearest_even (shr_m mrs') (loc_of_shr_record mrs')) in *.
  pose proof (nearest_even_bounds x k M Hx Hxk Hne) as HM.
  exists k, M. split; [exact Hxk|]. split; [exact Hlow|]. split; [exact Hne|].
  (* second renormalisation *)
  unfold float_of_mantissa, canon, finite_or_inf.
  fold (fexp (Zdigits2 M + fexp k)).
  destruct (Z.eqb_spec M (2 ^ prec)) as [EM|NM]; cbn [fst snd].
  - rewrite EM.
    assert (E1 : fexp (Zdigits2 (2 ^ prec) + fexp k) - fexp k = 1).
    { change (Zdigits2 (2 ^ prec)) with 54. rewrite !fexp_eq. lia. }
    rewrite E1. reflexivity.
  - assert (Hd : Zdigits2 M <= prec).
    { apply Zdigits2_small; unfold prec in *; lia. }
    assert (E1 : fexp (Zdigits2 M + fexp k) - fexp k <= 0).
    { rewrite !fexp_eq. unfold prec in *. lia. }
    destruct (fexp (Zdigits2 M + fexp k) - fexp k) as [|p|p] eqn:E2; [| lia |];
      simpl shr; reflexivity.
Qed.

(** ** The location computed by the division *)

Lemma located_fraction (y Qq B R : Q) :
  (0 < B)%Q -> (y * B == Qq * B + R)%Q ->
  ((R == 0 -> y == Qq) /\ (0 < R -> Qq < y) /\
   (2 * R < B -> y < Qq + (1#2)) /\ (2 * R == B -> y == Qq + (1#2)) /\
   (B < 2 * R -> Qq + (1#2) < y) /\ (R < B -> y < Qq + 1))%Q.
Proof.
  intros HB E.
  assert (Ey : (y == Qq + R / B)%Q).
  { field_simplify_eq; [|lra]. rewrite E. ring. }
  assert (HiB : (0 < / B)%Q) by (apply Qinv_lt_0_compat; exact HB).
  assert (EB : (B * / B == 1)%Q) by (apply Qmult_inv_r; lra).
  unfold Qdiv in Ey.
  repeat split; intros H.
  - rewrite Ey, H. ring.
  - assert (0 < R * / B)%Q by (apply Qmult_lt_0_compat; assumption). lra.
  - assert (T : (2 * R * / B < B * / B)%Q)
      by (apply Qmult_lt_compat_r; assumption). lra.
  - assert (T : (2 * R * / B == B * / B)%Q) by (rewrite H; reflexivity). lra.
  - assert (T : (B * / B < 2 * R * / B)%Q)
      by (apply Qmult_lt_compat_r; assumption). lra.
  - assert (T : (R * / B < B * / B)%Q)
      by (apply Qmult_lt_compat_r; assumption). lra.
Qed.

Lemma inject_Z_pos b : 0 < b -> (0 < inject_Z b)%Q.
Proof. intros H. change 0%Q with (inject_Z 0). rewrite <- Zlt_Qlt. exact H. Qed.

Lemma new_location_spec b q r y :
  0 < b -> 0 <= r < b ->
  (y * inject_Z b == inject_Z (q * b + r))%Q ->
  inbetween q (new_location b r) y.
Proof.
  intros Hb Hr E.
  rewrite inject_Z_plus, inject_Z_mult in E.
  assert (HB : (0 < inject_Z b)%Q) by (apply inject_Z_pos; exact Hb).
  destruct (located_fraction _ _ _ _ HB E) as (F0 & F1 & F2 & F3 & F4 & F5).
  assert (HR : (inject_Z r < inject_Z b)%Q) by (rewrite <- Zlt_Qlt; lia).
  assert (E2 : forall z, (inject_Z (2 * z) == 2 * inject_Z z)%Q).
  { intros z. rewrite inject_Z_mult. reflexivity. }
  unfold new_location.
  destruct (Z.even b) eqn:Ev;
    [unfold new_location_even | unfold new_location_odd];
    (destruct (Z.eqb_spec r 0) as [->|Nr]; [simpl; apply F0; reflexivity|]);
    assert (HR0 : (0 < inject_Z r)%Q) by (apply inject_Z_pos; lia).
  - destruct (Z.compare_spec (2 * r) b) as [C|C|C]; simpl.
    + apply F3. rewrite <- E2, C. reflexivity.
    + split; [apply F1; exact HR0|]. apply F2.
      rewrite <- E2, <- Zlt_Qlt. exact C.
    + split; [|apply F5; exact HR]. apply F4.
      rewrite <- E2, <- Zlt_Qlt. exact C.
  - assert (Hodd : 2 * r <> b).
    { intros <-. rewrite Z.even_mul in Ev. discriminate. }
    destruct (Z.compare_spec (2 * r + 1) b) as [C|C|C]; simpl.
    + split; [apply F1; exact HR0|]. apply F2.
      rewrite <- E2, <- Zlt_Qlt. lia.
    + split; [apply F1; exact HR0|]. apply F2.
      rewrite <- E2, <- Zlt_Qlt. lia.
    + split; [|apply F5; exact HR]. apply F4.
      rewrite <- E2, <- Zlt_Qlt. lia.
Qed.

(** The division core locates the exact quotient. *)
Lemma SFdiv_core_binary_spec m1 e1 m2 e2 x :
  0 < m1 -> 0 < m2 ->
  (x * (inject_Z m2 * pow2 e2) == inject_Z m1 * pow2 e1)%Q ->
  let '(q, e', l) := SFdiv_core_binary prec emax m1 e1 m2 e2 in
  0 <= q /\ inbetween q l (x * pow2 (- e')) /\
  (2 ^ (prec - 1) <= q \/ e' <= emin).
Proof.
  intros H1 H2 Hx. unfold SFdiv_core_binary.
  fold (fexp (Zdigits2 m1 + e1 - (Zdigits2 m2 + e2))).
  set (D := Zdigits2 m1 + e1 - (Zdigits2 m2 + e2)).
  set (e' := Z.min (fexp D) (e1 - e2)).
  set (s := e1 - e2 - e').
  assert (Hs : 0 <= s) by (unfold s, e'; lia).
  set (m' := match s with Z.pos _ => Z.shiftl m1 s | 0 => m1 | Z.neg _ => 0 end).
  assert (Em' : m' = m1 * 2 ^ s).
  { unfold m'. destruct s as [|p|p]; [lia| |lia].
    apply Z.shiftl_mul_pow2. lia. }
  pose proof (Z_div_mod m' m2 ltac:(lia)) as Hdiv.
  destruct (Z.div_eucl m' m2) as [q r]. destruct Hdiv as [Hq Hr].
  assert (P2 : 0 < 2 ^ s) by (apply Z.pow_pos_nonneg; lia).
  assert (Hq0 : 0 <= q) by nia.
  split; [exact Hq0|]. split.
  - apply new_location_spec; [exact H2 | exact Hr |].
    replace (q * m2 + r) with m' by lia. rewrite Em'.
    rewrite inject_Z_mult, pow2_Z by exact Hs.
    assert (E : (pow2 s == pow2 e1 * pow2 (- e2) * pow2 (- e'))%Q).
    { unfold s. unfold Z.sub. rewrite !pow2_add. reflexivity. }
    rewrite E.
    transitivity (x * (inject_Z m2 * pow2 e2) * pow2 (- e2) * pow2 (- e'))%Q.
    + transitivity (x * pow2 (- e') * inject_Z m2 * (pow2 e2 * pow2 (- e2)))%Q;
        [rewrite pow2_opp_mul|]; ring.
    + rewrite Hx. ring.
  - destruct (Z_le_gt_dec e' emin) as [L|G]; [right; exact L|left].
    assert (Hs' : Zdigits2 m2 - Zdigits2 m1 + prec <= s).
    { revert G. unfold s, e', D. rewrite fexp_eq, emin_eq. unfold prec. lia. }
    pose proof (Zdigits2_lower m1 H1) as L1.
    pose proof (Zdigits2_upper m2 ltac:(lia)) as U2.
    pose proof (Zdigits2_nonneg m2) as N2.
    assert (N1 : 1 <= Zdigits2 m1) by (destruct m1; simpl; lia).
    assert (Hbig : 2 ^ (prec - 1) * m2 <= m').
    { rewrite Em'.
      apply Z.le_trans with (2 ^ (prec - 1) * 2 ^ Zdigits2 m2).
      - apply Z.mul_le_mono_nonneg_l; [apply Z.pow_nonneg|]; lia.
      - apply Z.le_trans with (2 ^ (Zdigits2 m1 - 1) * 2 ^ s).
        + rewrite <- !Z.pow_add_r by (unfold prec; lia).
          apply Z.pow_le_mono_r; unfold prec in *; lia.
        + apply Z.mul_le_mono_nonneg_r; lia. }
    assert (P52 : 0 < 2 ^ (prec - 1)) by (apply Z.pow_pos_nonneg; unfold prec; lia).
    nia.
Qed.

(** ** Rounding is monotone *)

Lemma fexp_mono k1 k2 : k1 <= k2 -> fexp k1 <= fexp k2.
Proof. rewrite !fexp_eq. lia. Qed.

Lemma fexp_ge_emin k : emin <= fexp k.
Proof. rewrite fexp_eq, emin_eq. lia. Qed.

Lemma SFleb_finite_pos m1 e1 m2 e2 :
  e1 < e2 \/ (e1 = e2 /\ Zpos m1 <= Zpos m2) ->
  SFleb (S754_finite false m1 e1) (S754_finite false m2 e2) = true.
Proof.
  intros H. unfold SFleb, SFcompare.
  destruct (Z.compare_spec e1 e2) as [C|C|C]; [|reflexivity|exfalso; lia].
  change (Pos.compare_cont Eq m1 m2) with (Pos.compare m1 m2).
  destruct (Pos.compare_spec m1 m2) as [D|D|D]; [reflexivity|reflexivity|].
  exfalso. lia.
Qed.

Lemma finite_or_inf_le M1 E1 M2 E2 :
  0 <= M1 -> 0 < M2 ->
  E1 < E2 \/ (E1 = E2 /\ M1 <= M2) ->
  SFleb (finite_or_inf false M1 E1) (finite_or_inf false M2 E2) = true.
Proof.
  intros H1 H2 H. unfold finite_or_inf.
  destruct M2 as [|m2|m2]; [lia| |lia].
  destruct M1 as [|m1|m1]; [| |lia].
  - destruct (E2 <=? emax - prec); reflexivity.
  - destruct (Z.leb_spec E1 (emax - prec)), (Z.leb_spec E2 (emax - prec));
      try reflexivity.
    + apply SFleb_finite_pos. exact H.
    + exfalso. lia.
Qed.

Lemma finite_or_inf_zero_le E1 M2 E2 :
  0 <= M2 -> SFleb (finite_or_inf false 0 E1) (finite_or_inf false M2 E2) = true.
Proof.
  intros H. unfold finite_or_inf. destruct M2 as [|m2|m2]; [reflexivity| |lia].
  destruct (E2 <=? emax - prec); reflexivity.
Qed.

Lemma float_of_mantissa_canon s M E :
  float_of_mantissa s M E = finite_or_inf s (fst (canon M E)) (snd (canon M E)).
Proof. reflexivity. Qed.

Lemma float_of_mantissa_le M1 E1 M2 E2 :
  0 <= M1 <= 2 ^ prec -> 0 <= M2 <= 2 ^ prec ->
  (E1 = E2 /\ M1 <= M2) \/ (E1 < E2 /\ 2 ^ (prec - 1) <= M2) ->
  SFleb (float_of_mantissa false M1 E1) (float_of_mantissa false M2 E2) = true.
Proof.
  intros H1 H2 H. rewrite !float_of_mantissa_canon.
  assert (P : 2 ^ prec = 2 * 2 ^ (prec - 1)) by reflexivity.
  assert (P0 : 0 < 2 ^ (prec - 1)) by reflexivity.
  unfold canon. revert H1 H2 H P P0.
  generalize (2 ^ prec) (2 ^ (prec - 1)). intros T H_ H1 H2 H P P0.
  destruct (Z.eqb_spec M1 T) as [A1|A1];
  destruct (Z.eqb_spec M2 T) as [A2|A2]; cbn [fst snd].
  - apply finite_or_inf_le; lia.
  - destruct (Z.eq_dec M2 0) as [->|N]; [exfalso; lia|].
    apply finite_or_inf_le; lia.
  - destruct (Z.eq_dec M1 0) as [->|N].
    + apply finite_or_inf_zero_le. lia.
    + apply finite_or_inf_le; lia.
  - destruct (Z.eq_dec M2 0) as [->|N].
    + assert (M1 = 0) by lia. subst. apply finite_or_inf_zero_le. lia.
    + apply finite_or_inf_le; lia.
Qed.

(** Rounding is monotone. *)
Lemma rounds_to_le x y f g :
  (0 < x)%Q -> (x <= y)%Q ->
  rounds_to false x f -> rounds_to false y g ->
  SFleb f g = true.
Proof.
  intros Hx Hxy (kx & Mx & Ux & Lx & Nx & ->) (ky & My & Uy & Ly & Ny & ->).
  assert (Hy : (0 < y)%Q) by lra.
  pose proof (nearest_even_bounds x kx Mx Hx Ux Nx) as Bx.
  pose proof (nearest_even_bounds y ky My Hy Uy Ny) as By_.
  assert (HE : fexp kx <= fexp ky).
  { destruct Lx as [Lx|Lx].
    - apply fexp_mono.
      assert (pow2 (kx - 1) < pow2 ky)%Q by lra.
      apply pow2_lt_inv in H. lia.
    - rewrite Lx. apply fexp_ge_emin. }
  apply float_of_mantissa_le; [exact Bx | exact By_ |].
  destruct (Z.eq_dec (fexp kx) (fexp ky)) as [E|NE].
  - left. split; [exact E|].
    apply (nearest_even_mono (x * pow2 (- fexp kx)) (y * pow2 (- fexp ky)));
      [|exact Nx|exact Ny].
    rewrite E. apply Qmult_le_compat_r; [exact Hxy|].
    apply Qlt_le_weak, pow2_pos.
  - right. split; [lia|].
    assert (Hn : fexp ky <> emin) by (pose proof (fexp_ge_emin kx); lia).
    destruct Ly as [Ly|Ly]; [|contradiction].
    apply (nearest_even_normal y ky My Ly Hn Ny).
Qed.

(** ** The order of [SFcompare] *)

Lemma SFcompare_antisym x y :
  SFcompare y x = option_map CompOpp (SFcompare x y).
Proof.
  destruct x as [sx|sx| |sx mx ex], y as [sy|sy| |sy my ey];
    try destruct sx; try destruct sy; try reflexivity;
    unfold SFcompare, option_map; f_equal;
    rewrite (Z.compare_antisym ex ey);
    change (Pos.compare_cont Eq mx my) with (Pos.compare mx my);
    change (Pos.compare_cont Eq my mx) with (Pos.compare my mx);
    rewrite (Pos.compare_antisym mx my);
    destruct (ex ?= ey); try reflexivity;
    destruct (mx ?= my)%positive; reflexivity.
Qed.

Lemma SFltb_not_SFleb x y : SFltb x y = true -> SFleb y x = false.
Proof.
  unfold SFltb, SFleb. rewrite (SFcompare_antisym x y).
  destruct (SFcompare x y) as [[| |]|]; simpl; congruence.
Qed.

Lemma SFleb_finite s m1 e1 m2 e2 :
  SFleb (S754_finite s m1 e1) (S754_finite s m2 e2) = true <->
  if s then e2 < e1 \/ (e2 = e1 /\ Zpos m2 <= Zpos m1)
  else e1 < e2 \/ (e1 = e2 /\ Zpos m1 <= Zpos m2).
Proof.
  unfold SFleb, SFcompare.
  change (Pos.compare_cont Eq m1 m2) with (Pos.compare m1 m2).
  destruct s; destruct (Z.compare_spec e1 e2) as [C|C|C];
    destruct (Pos.compare_spec m1 m2) as [D|D|D]; simpl;
    split; intros H; try reflexivity; try discriminate; try lia.
Qed.

Lemma SFleb_trans x y z :
  SFleb x y = true -> SFleb y z = true -> SFleb x z = true.
Proof.
  destruct x as [sx|sx| |sx mx ex], y as [sy|sy| |sy my ey],
           z as [sz|sz| |sz mz ez];
    try destruct sx; try destruct sy; try destruct sz;
    try reflexivity; try discriminate;
    try (intros _ H; exact H); try (intros H _; exact H);
    rewrite ?SFleb_finite; try lia;
    try (intros; reflexivity).
Qed.

(** ** Division and multiplication round to nearest even *)

Lemma SFdiv_finite_spec sx mx ex sy my ey x :
  (x * (inject_Z (Zpos my) * pow2 ey) == inject_Z (Zpos mx) * pow2 ex)%Q ->
  (0 < x)%Q /\
  rounds_to (xorb sx sy) x
    (SFdiv prec emax (S754_finite sx mx ex) (S754_finite sy my ey)).
Proof.
  intros Hx.
  assert (Hpos : (0 < x)%Q).
  { assert (P1 : (0 < inject_Z (Zpos my) * pow2 ey)%Q).
    { apply Qmult_lt_0_compat; [apply inject_Z_pos; lia | apply pow2_pos]. }
    assert (P2 : (0 < inject_Z (Zpos mx) * pow2 ex)%Q).
    { apply Qmult_lt_0_compat; [apply inject_Z_pos; lia | apply pow2_pos]. }
    destruct (Qlt_le_dec 0 x) as [L|L]; [exact L|exfalso].
    assert (T : (x * (inject_Z (Zpos my) * pow2 ey) <=
                 0 * (inject_Z (Zpos my) * pow2 ey))%Q).
    { apply Qmult_le_compat_r; [exact L | apply Qlt_le_weak, P1]. }
    lra. }
  split; [exact Hpos|].
  unfold SFdiv.
  pose proof (SFdiv_core_binary_spec (Zpos mx) ex (Zpos my) ey x
                ltac:(lia) ltac:(lia) Hx) as Hc.
  destruct (SFdiv_core_binary prec emax (Zpos mx) ex (Zpos my) ey)
    as [[mz ez] lz].
  destruct Hc as (Hq & Hin & Hpre).
  apply binary_round_aux_spec; assumption.
Qed.

Lemma SFmul_finite_spec sx mx ex sy my ey :
  2 ^ (prec - 1) <= Zpos my ->
  rounds_to (xorb sx sy)
    ((inject_Z (Zpos mx) * pow2 ex) * (inject_Z (Zpos my) * pow2 ey))
    (SFmul prec emax (S754_finite sx mx ex) (S754_finite sy my ey)).
Proof.
  intros Hy. unfold SFmul.
  apply binary_round_aux_spec.
  - lia.
  - apply Qmult_lt_0_compat;
      (apply Qmult_lt_0_compat; [apply inject_Z_pos; lia | apply pow2_pos]).
  - simpl. rewrite Pos2Z.inj_mul, inject_Z_mult.
    replace (- (ex + ey)) with (- ex + - ey) by lia. rewrite pow2_add.
    transitivity (inject_Z (Zpos mx) * inject_Z (Zpos my) *
                  ((pow2 ex * pow2 (- ex)) * (pow2 ey * pow2 (- ey))))%Q;
      [ring | rewrite !pow2_opp_mul; ring].
  - left. nia.
Qed.

(** ** Signs *)

Lemma SFleb_nonpos_nonneg f g :
  is_nonpos f = true -> is_nonneg g = true -> SFleb f g = true.
Proof.
  destruct f as [sf|sf| |sf mf ef], g as [sg|sg| |sg mg eg];
    try destruct sf; try destruct sg; simpl; intros; try discriminate;
    reflexivity.
Qed.

Lemma SFleb_opp f g : SFleb (SFopp f) (SFopp g) = SFleb g f.
Proof.
  destruct f as [sf|sf| |sf mf ef], g as [sg|sg| |sg mg eg];
    try destruct sf; try destruct sg; try reflexivity;
    unfold SFopp, negb;
    match goal with
    | |- ?a = ?b => destruct a eqn:A; destruct b eqn:B; try reflexivity
    end;
    rewrite ?SFleb_finite in *;
    try (apply SFleb_finite in A; simpl in A);
    try (apply SFleb_finite in B; simpl in B);
    try (rewrite <- B; symmetry; apply SFleb_finite; simpl; exact A);
    try (rewrite <- A; apply SFleb_finite; simpl; exact B).
Qed.

Lemma finite_or_inf_opp M E :
  finite_or_inf true M E = SFopp (finite_or_inf false M E).
Proof.
  unfold finite_or_inf. destruct M; try reflexivity.
  destruct (E <=? emax - prec); reflexivity.
Qed.

Lemma float_of_mantissa_opp M E :
  float_of_mantissa true M E = SFopp (float_of_mantissa false M E).
Proof. rewrite !float_of_mantissa_canon. apply finite_or_inf_opp. Qed.

Lemma SFopp_involutive f : SFopp (SFopp f) = f.
Proof. destruct f as [s|s| |s m e]; try destruct s; reflexivity. Qed.

Lemma rounds_to_opp s x f :
  rounds_to s x f -> rounds_to (negb s) x (SFopp f).
Proof.
  intros (k & M & U & L & N & ->). exists k, M.
  split; [exact U|]. split; [exact L|]. split; [exact N|].
  destruct s; cbn [negb].
  - rewrite float_of_mantissa_opp, SFopp_involutive. reflexivity.
  - rewrite float_of_mantissa_opp. reflexivity.
Qed.

Lemma float_of_mantissa_sign (s : bool) M E :
  0 <= M ->
  (if s then is_nonpos (float_of_mantissa s M E)
   else is_nonneg (float_of_mantissa s M E)) = true.
Proof.
  intros H. rewrite float_of_mantissa_canon.
  assert (H' : 0 <= fst (canon M E)).
  { unfold canon. destruct (M =? 2 ^ prec); cbn [fst]; [|exact H].
    apply Z.pow_nonneg. lia. }
  revert H'. generalize (fst (canon M E)) (snd (canon M E)).
  intros M' E' H'. unfold finite_or_inf.
  destruct M' as [|m|m]; [| |lia]; destruct s; try reflexivity;
    destruct (E' <=? emax - prec); reflexivity.
Qed.

Lemma rounds_to_sign (s : bool) x f :
  (0 < x)%Q -> rounds_to s x f ->
  (if s then is_nonpos f else is_nonneg f) = true.
Proof.
  intros Hx (k & M & U & L & N & ->).
  apply float_of_mantissa_sign.
  apply (nearest_even_bounds x k M Hx U N).
Qed.

(** ** Rounding a number of any sign *)

Lemma Rounds_le x y f g :
  (x <= y)%Q -> Rounds x f -> Rounds y g -> SFleb f g = true.
Proof.
  intros Hxy [[Hx Rx]|[[Hx [sx ->]]|[Hx Rx]]] [[Hy Ry]|[[Hy [sy ->]]|[Hy Ry]]];
    try (exfalso; lra).
  - exact (rounds_to_le x y f g Hx Hxy Rx Ry).
  - apply SFleb_nonpos_nonneg; [reflexivity|].
    exact (rounds_to_sign false y g Hy Ry).
  - reflexivity.
  - apply SFleb_nonpos_nonneg.
    + apply (rounds_to_sign true (- x) f); [lra | exact Rx].
    + exact (rounds_to_sign false y g Hy Ry).
  - apply SFleb_nonpos_nonneg; [|reflexivity].
    apply (rounds_to_sign true (- x) f); [lra | exact Rx].
  - apply rounds_to_opp in Rx, Ry. cbn [negb] in Rx, Ry.
    rewrite <- (SFopp_involutive f), <- (SFopp_involutive g), SFleb_opp.
    apply (rounds_to_le (- y) (- x)); [lra | lra | exact Ry | exact Rx].
Qed.

(** ** Valid floats and their values *)

Lemma valid_finite_bounds s m e :
  valid_binary prec emax (S754_finite s m e) = true ->
  Zpos m < 2 ^ prec /\ emin <= e /\ (2 ^ (prec - 1) <= Zpos m \/ e = emin).
Proof.
  unfold valid_binary, bounded, canonical_mantissa.
  fold (fexp (Zpos (digits2_pos m) + e)).
  intros H. apply andb_prop in H. destruct H as [H _].
  apply Z.eqb_eq in H.
  pose proof (digits2_pos_bounds m) as [B1 B2].
  rewrite fexp_eq in H. rewrite emin_eq.
  assert (D : Zpos (digits2_pos m) <= prec) by (unfold prec; lia).
  split; [|split].
  - apply Z.lt_le_trans with (2 ^ Zpos (digits2_pos m)); [exact B2|].
    apply Z.pow_le_mono_r; lia.
  - lia.
  - destruct (Z.eq_dec e (-1074)) as [E|NE]; [right; exact E|left].
    replace (prec - 1) with (Zpos (digits2_pos m) - 1) by (unfold prec; lia).
    exact B1.
Qed.

Lemma finite_or_inf_valid s M E :
  0 <= M < 2 ^ prec -> emin <= E -> 2 ^ (prec - 1) <= M \/ E = emin ->
  valid_binary prec emax (finite_or_inf s M E) = true.
Proof.
  intros HM HE Hn. unfold finite_or_inf.
  destruct M as [|m|m]; [reflexivity| |lia].
  destruct (Z.leb_spec E (emax - prec)) as [L|L]; [|reflexivity].
  unfold valid_binary, bounded, canonical_mantissa.
  fold (fexp (Zpos (digits2_pos m) + E)).
  apply andb_true_intro. split; [|apply Z.leb_le; exact L].
  apply Z.eqb_eq.
  assert (D : Zdigits2 (Zpos m) <= prec).
  { apply Zdigits2_small; unfold prec in *; lia. }
  change (Zdigits2 (Zpos m)) with (Zpos (digits2_pos m)) in D.
  rewrite fexp_eq. rewrite emin_eq in *. destruct Hn as [Hn|Hn].
  - pose proof (Zdigits2_big (Zpos m) (prec - 1) ltac:(unfold prec; lia) Hn) as D'.
    change (Zdigits2 (Zpos m)) with (Zpos (digits2_pos m)) in D'.
    unfold prec in *. lia.
  - unfold prec in *. lia.
Qed.

Lemma rounds_to_valid s x f :
  (0 < x)%Q -> rounds_to s x f -> valid_binary prec emax f = true.
Proof.
  intros Hx (k & M & U & L & N & ->).
  pose proof (nearest_even_bounds x k M Hx U N) as B.
  pose proof (fexp_ge_emin k) as HE.
  assert (Hn : 2 ^ (prec - 1) <= M \/ fexp k = emin).
  { destruct L as [L|L]; [|right; exact L].
    destruct (Z.eq_dec (fexp k) emin) as [E|NE]; [right; exact E|left].
    exact (nearest_even_normal x k M L NE N). }
  rewrite float_of_mantissa_canon. unfold canon.
  assert (P : 2 ^ prec = 2 * 2 ^ (prec - 1)) by reflexivity.
  assert (P0 : 0 < 2 ^ (prec - 1)) by reflexivity.
  destruct (Z.eqb_spec M (2 ^ prec)) as [A|A]; cbn [fst snd];
    apply finite_or_inf_valid; lia.
Qed.

Lemma rounds_to_finite s x f :
  (0 < x)%Q -> (x < pow2 (emax - 1))%Q -> rounds_to s x f ->
  is_finite f = true.
Proof.
  intros Hx Hb (k & M & U & L & N & ->).
  pose proof (nearest_even_bounds x k M Hx U N) as B.
  assert (HE : fexp k + 1 <= emax - prec).
  { destruct L as [L|L].
    - assert (T : (pow2 (k - 1) < pow2 (emax - 1))%Q) by lra.
      apply pow2_lt_inv in T. rewrite fexp_eq. unfold emax, prec in *. lia.
    - rewrite L, emin_eq. unfold emax, prec. lia. }
  rewrite float_of_mantissa_canon. unfold canon, finite_or_inf.
  assert (P0 : 0 < 2 ^ (prec - 1)) by reflexivity.
  revert P0. generalize (2 ^ (prec - 1)). intros T P0.
  destruct (M =? 2 ^ prec); cbn [fst snd].
  - destruct T as [|t|t]; [lia| |lia].
    destruct (Z.leb_spec (fexp k + 1) (emax - prec)); [reflexivity|lia].
  - destruct M as [|m|m]; [reflexivity| |lia].
    destruct (Z.leb_spec (fexp k) (emax - prec)); [reflexivity|lia].
Qed.

(** On valid finite floats [SFleb] is the order of the values. *)
Lemma canonical_value_le m1 e1 m2 e2 :
  Zpos m1 < 2 ^ prec -> emin <= e1 ->
  2 ^ (prec - 1) <= Zpos m2 \/ e2 = emin ->
  e1 < e2 \/ (e1 = e2 /\ Zpos m1 <= Zpos m2) ->
  (inject_Z (Zpos m1) * pow2 e1 <= inject_Z (Zpos m2) * pow2 e2)%Q.
Proof.
  intros B1 E1 N2 [L|[-> L]].
  - destruct N2 as [N2|N2]; [|lia].
    apply Qle_trans with (pow2 prec * pow2 e1)%Q.
    + apply Qmult_le_compat_r; [|apply Qlt_le_weak, pow2_pos].
      rewrite <- pow2_Z by (unfold prec; lia). rewrite <- Zle_Qle. lia.
    + apply Qle_trans with (pow2 (prec - 1) * pow2 e2)%Q.
      * rewrite <- !pow2_add. apply pow2_le. lia.
      * apply Qmult_le_compat_r; [|apply Qlt_le_weak, pow2_pos].
        rewrite <- pow2_Z by (unfold prec; lia). rewrite <- Zle_Qle. exact N2.
  - apply Qmult_le_compat_r; [|apply Qlt_le_weak, pow2_pos].
    rewrite <- Zle_Qle. exact L.
Qed.

Lemma SFleb_Qval f g :
  valid_binary prec emax f = true -> valid_binary prec emax g = true ->
  is_finite f = true -> is_finite g = true ->
  SFleb f g = true -> (Qval f <= Qval g)%Q.
Proof.
  intros Vf Vg Ff Fg H.
  destruct f as [sf|sf| |sf mf ef]; try discriminate;
  destruct g as [sg|sg| |sg mg eg]; try discriminate; unfold Qval.
  - destruct sg; [discriminate|].
    apply Qlt_le_weak, Qmult_lt_0_compat;
      [apply inject_Z_pos; lia | apply pow2_pos].
  - destruct sf; [|discriminate].
    assert (0 < inject_Z (Zpos mf) * pow2 ef)%Q
      by (apply Qmult_lt_0_compat; [apply inject_Z_pos; lia | apply pow2_pos]).
    lra.
  - apply valid_finite_bounds in Vf, Vg.
    destruct Vf as (Bf & Ef & Nf), Vg as (Bg & Eg & Ng).
    assert (Pf : (0 < inject_Z (Zpos mf) * pow2 ef)%Q)
      by (apply Qmult_lt_0_compat; [apply inject_Z_pos; lia | apply pow2_pos]).
    assert (Pg : (0 < inject_Z (Zpos mg) * pow2 eg)%Q)
      by (apply Qmult_lt_0_compat; [apply inject_Z_pos; lia | apply pow2_pos]).
    destruct sf, sg; try discriminate.
    + apply SFleb_finite in H.
      pose proof (canonical_value_le mg eg mf ef Bg Eg Nf H). lra.
    + lra.
    + apply SFleb_finite in H.
      exact (canonical_value_le mf ef mg eg Bf Ef Ng H).
Qed.

(** ** The float operations of the program *)

Lemma rounds_to_ext s x y f : (x == y)%Q -> rounds_to s x f -> rounds_to s y f.
Proof.
  intros E (k & M & U & L & [[N1 N2] N3] & F).
  assert (E' : (x * pow2 (- fexp k) == y * pow2 (- fexp k))%Q)
    by (rewrite E; reflexivity).
  exists k, M. split; [lra|]. split; [destruct L; [left; lra|right; assumption]|].
  split; [|exact F].
  split; [split; lra|]. intros [T|T]; apply N3; [left|right]; lra.
Qed.

Lemma Qdiv_pos_spec a b :
  0 < b ->
  ((inject_Z a / inject_Z b) * (inject_Z b * pow2 0) == inject_Z a * pow2 0)%Q.
Proof.
  intros Hb. pose proof (inject_Z_pos b Hb) as P.
  change (pow2 0) with 1%Q. field. lra.
Qed.

(** The true division of two integers is the correctly rounded quotient. *)
Lemma truediv_Rounds a b q :
  0 < b -> truediv a b = Ok q ->
  Rounds (inject_Z a / inject_Z b) q /\
  valid_binary prec emax q = true /\ is_finite q = true.
Proof.
  intros Hb. unfold truediv.
  destruct (Z.eqb_spec b 0) as [->|_]; [lia|].
  destruct b as [|pb|pb]; [lia| |lia]. cbn [exact_int].
  pose proof (inject_Z_pos (Zpos pb) Hb) as Pb.
  destruct a as [|pa|pa]; cbn [exact_int].
  - cbn [SFdiv xorb]. intros [= <-].
    split; [|split; reflexivity].
    right; left. split; [|exists false; reflexivity].
    unfold Qdiv. change (inject_Z 0) with 0%Q. ring.
  - destruct (SFdiv_finite_spec false pa 0 false pb 0 _
                (Qdiv_pos_spec (Zpos pa) (Zpos pb) Hb)) as [Hx Hr].
    cbn [xorb] in Hr.
    pose proof (rounds_to_valid _ _ _ Hx Hr) as Hv.
    pose proof (rounds_to_sign false _ _ Hx Hr) as Hs.
    destruct (SFdiv prec emax (S754_finite false pa 0) (S754_finite false pb 0))
      as [s|s| |s m e]; intros [= <-]; try discriminate.
    + split; [left; split; assumption|split; [exact Hv|reflexivity]].
    + split; [left; split; assumption|split; [exact Hv|reflexivity]].
  - destruct (SFdiv_finite_spec true pa 0 false pb 0 _
                (Qdiv_pos_spec (Zpos pa) (Zpos pb) Hb)) as [Hx Hr].
    cbn [xorb] in Hr.
    pose proof (rounds_to_valid _ _ _ Hx Hr) as Hv.
    pose proof (rounds_to_sign true _ _ Hx Hr) as Hs.
    assert (E : (- (inject_Z (Zneg pa) / inject_Z (Zpos pb)) ==
                 inject_Z (Zpos pa) / inject_Z (Zpos pb))%Q).
    { change (Zneg pa) with (- Zpos pa). rewrite inject_Z_opp. field. lra. }
    assert (R : Rounds (inject_Z (Zneg pa) / inject_Z (Zpos pb))
                  (SFdiv prec emax (S754_finite true pa 0)
                     (S754_finite false pb 0))).
    { right; right. split; [lra|].
      apply (rounds_to_ext _ _ _ _ (Qeq_sym _ _ E)). exact Hr. }
    destruct (SFdiv prec emax (S754_finite true pa 0) (S754_finite false pb 0))
      as [s|s| |s m e]; intros [= <-]; try discriminate.
    + split; [exact R|split; [exact Hv|reflexivity]].
    + split; [exact R|split; [exact Hv|reflexivity]].
Qed.

Lemma Qdiv_le_num a b :
  0 < a -> 0 < b -> (inject_Z a / inject_Z b <= inject_Z a)%Q.
Proof.
  intros Ha Hb.
  pose proof (inject_Z_pos a Ha) as Pa. pose proof (inject_Z_pos b Hb) as Pb.
  assert (H1 : (1 <= inject_Z b)%Q).
  { change 1%Q with (inject_Z 1). rewrite <- Zle_Qle. lia. }
  apply Qle_shift_div_r; [exact Pb|].
  assert (T : (inject_Z a * 1 <= inject_Z a * inject_Z b)%Q).
  { rewrite !(Qmult_comm (inject_Z a)).
    apply Qmult_le_compat_r; [exact H1 | lra]. }
  lra.
Qed.

(** The division raises nothing when the divisor is positive and the dividend
    is below [2 ^ 1023] in absolute value. *)
Lemma truediv_total a b :
  0 < b -> Z.abs a < 2 ^ (emax - 1) -> exists q, truediv a b = Ok q.
Proof.
  intros Hb Ha. unfold truediv.
  destruct (Z.eqb_spec b 0) as [->|_]; [lia|].
  destruct b as [|pb|pb]; [lia| |lia]. cbn [exact_int].
  destruct a as [|pa|pa]; cbn [exact_int].
  - eexists. reflexivity.
  - destruct (SFdiv_finite_spec false pa 0 false pb 0 _
                (Qdiv_pos_spec (Zpos pa) (Zpos pb) Hb)) as [Hx Hr].
    assert (Hf : is_finite (SFdiv prec emax (S754_finite false pa 0)
                              (S754_finite false pb 0)) = true).
    { eapply rounds_to_finite; [exact Hx| |exact Hr].
      apply Qle_lt_trans with (inject_Z (Zpos pa)).
      - apply Qdiv_le_num; lia.
      - rewrite <- pow2_Z by (unfold emax; lia). rewrite <- Zlt_Qlt.
        exact Ha. }
    destruct (SFdiv prec emax (S754_finite false pa 0) (S754_finite false pb 0));
      try discriminate; eexists; reflexivity.
  - destruct (SFdiv_finite_spec true pa 0 false pb 0 _
                (Qdiv_pos_spec (Zpos pa) (Zpos pb) Hb)) as [Hx Hr].
    assert (Hf : is_finite (SFdiv prec emax (S754_finite true pa 0)
                              (S754_finite false pb 0)) = true).
    { eapply rounds_to_finite; [exact Hx| |exact Hr].
      apply Qle_lt_trans with (inject_Z (Zpos pa)).
      - apply Qdiv_le_num; lia.
      - rewrite <- pow2_Z by (unfold emax; lia). rewrite <- Zlt_Qlt.
        exact Ha. }
    destruct (SFdiv prec emax (S754_finite true pa 0) (S754_finite false pb 0));
      try discriminate; eexists; reflexivity.
Qed.

(** The true division is monotone in the dividend. *)
Lemma truediv_mono a1 a2 b q1 q2 :
  0 < b -> a1 <= a2 ->
  truediv a1 b = Ok q1 -> truediv a2 b = Ok q2 -> SFleb q1 q2 = true.
Proof.
  intros Hb Ha H1 H2.
  destruct (truediv_Rounds _ _ _ Hb H1) as (R1 & _).
  destruct (truediv_Rounds _ _ _ Hb H2) as (R2 & _).
  apply (Rounds_le _ _ _ _) with (2 := R1) (3 := R2).
  unfold Qdiv. apply Qmult_le_compat_r.
  - rewrite <- Zle_Qle. exact Ha.
  - apply Qlt_le_weak, Qinv_lt_0_compat, inject_Z_pos. exact Hb.
Qed.

(** Multiplying a finite float by a normal positive float rounds the exact
    product. *)
Lemma mul_pos_Rounds q my ey :
  is_finite q = true -> 2 ^ (prec - 1) <= Zpos my ->
  Rounds (Qval q * (inject_Z (Zpos my) * pow2 ey))
         (mul q (S754_finite false my ey)).
Proof.
  intros Hf Hy. unfold mul.
  assert (Pc : (0 < inject_Z (Zpos my) * pow2 ey)%Q)
    by (apply Qmult_lt_0_compat; [apply inject_Z_pos; lia | apply pow2_pos]).
  destruct q as [s|s| |s m e]; try discriminate.
  - right; left. split; [unfold Qval; ring|].
    exists (xorb s false). reflexivity.
  - pose proof (SFmul_finite_spec s m e false my ey Hy) as R.
    assert (Pq : (0 < inject_Z (Zpos m) * pow2 e)%Q)
      by (apply Qmult_lt_0_compat; [apply inject_Z_pos; lia | apply pow2_pos]).
    assert (Pp : (0 < inject_Z (Zpos m) * pow2 e *
                      (inject_Z (Zpos my) * pow2 ey))%Q)
      by (apply Qmult_lt_0_compat; assumption).
    destruct s; cbn [xorb] in R; unfold Qval.
    + right; right. split; [lra|].
      apply (rounds_to_ext _ _ _ _) with (2 := R). ring.
    + left. split; [exact Pp | exact R].
Qed.

Lemma mul_pos_mono q1 q2 my ey :
  valid_binary prec emax q1 = true -> valid_binary prec emax q2 = true ->
  is_finite q1 = true -> is_finite q2 = true ->
  2 ^ (prec - 1) <= Zpos my ->
  SFleb q1 q2 = true ->
  SFleb (mul q1 (S754_finite false my ey)) (mul q2 (S754_finite false my ey))
    = true.
Proof.
  intros V1 V2 F1 F2 Hy H.
  pose proof (SFleb_Qval q1 q2 V1 V2 F1 F2 H) as Hq.
  apply (Rounds_le _ _ _ _) with (2 := mul_pos_Rounds q1 my ey F1 Hy)
                                 (3 := mul_pos_Rounds q2 my ey F2 Hy).
  apply Qmult_le_compat_r; [exact Hq|].
  apply Qlt_le_weak, Qmult_lt_0_compat;
    [apply inject_Z_pos; lia | apply pow2_pos].
Qed.

Lemma F100_normal : 2 ^ (prec - 1) <= Zpos 7036874417766400.
Proof. vm_compute. discriminate. Qed.

(** [a / b * 100] is monotone in [a] for a positive [b]. *)
Lemma percent_mono a1 a2 b u1 u2 :
  0 < b -> a1 <= a2 ->
  (q <- truediv a1 b ;; Ok (mul q F100)) = Ok u1 ->
  (q <- truediv a2 b ;; Ok (mul q F100)) = Ok u2 ->
  SFleb u1 u2 = true.
Proof.
  intros Hb Ha H1 H2.
  destruct (truediv a1 b) as [q1|] eqn:E1; [|discriminate].
  destruct (truediv a2 b) as [q2|] eqn:E2; [|discriminate].
  cbn [bind] in H1, H2. injection H1 as <-. injection H2 as <-.
  destruct (truediv_Rounds _ _ _ Hb E1) as (_ & V1 & F1).
  destruct (truediv_Rounds _ _ _ Hb E2) as (_ & V2 & F2).
  unfold F100. apply mul_pos_mono; try assumption.
  - exact F100_normal.
  - exact (truediv_mono _ _ _ _ _ Hb Ha E1 E2).
Qed.

(** The tier of a utilization is monotone in the utilization. *)
Lemma get_budget_status_mono u1 u2 :
  SFleb u1 u2 = true ->
  tier_rank (get_budget_status u1) <= tier_rank (get_budget_status u2).
Proof.
  intros H. unfold get_budget_status, geb.
  destruct (SFleb F100 u1) eqn:A1.
  - rewrite (SFleb_trans _ _ _ A1 H). cbn. lia.
  - destruct (SFleb F70 u1) eqn:B1.
    + rewrite (SFleb_trans _ _ _ B1 H).
      destruct (SFleb F100 u2); cbn; lia.
    + destruct (SFleb F100 u2); [cbn; lia|].
      destruct (SFleb F70 u2); cbn; lia.
Qed.

Lemma Rounds_ext x y f : (x == y)%Q -> Rounds x f -> Rounds y f.
Proof.
  intros E [[H R]|[[H R]|[H R]]].
  - left. split; [lra|]. exact (rounds_to_ext _ _ _ _ E R).
  - right; left. split; [lra|exact R].
  - right; right. split; [lra|].
    apply (rounds_to_ext _ (- x)); [lra|exact R].
Qed.

Lemma F100_value : (inject_Z (Zpos 7036874417766400) * pow2 (-46) == 100)%Q.
Proof. vm_compute. reflexivity. Qed.

(** [q * 100] is the correctly rounded product. *)
Lemma mul_F100_Rounds q :
  is_finite q = true -> Rounds (Qval q * 100) (mul q F100).
Proof.
  intros Hf. unfold F100.
  apply (Rounds_ext (Qval q * (inject_Z (Zpos 7036874417766400) * pow2 (-46)))).
  - rewrite F100_value. reflexivity.
  - apply mul_pos_Rounds; [exact Hf | exact F100_normal].
Qed.

Lemma F2_value : (inject_Z (Zpos 4503599627370496) * pow2 (-51) == 2)%Q.
Proof. vm_compute. reflexivity. Qed.

Lemma F2_normal : 2 ^ (prec - 1) <= Zpos 4503599627370496.
Proof. vm_compute. discriminate. Qed.

(** [q * 2] is the correctly rounded product. *)
Lemma mul_F2_Rounds q :
  is_finite q = true -> Rounds (Qval q * 2) (mul q F2).
Proof.
  intros Hf. unfold F2.
  apply (Rounds_ext (Qval q * (inject_Z (Zpos 4503599627370496) * pow2 (-51)))).
  - rewrite F2_value. reflexivity.
  - apply mul_pos_Rounds; [exact Hf | exact F2_normal].
Qed.

(** The comparison of an int with a float is the comparison of the exact
    values. *)
Lemma int_gtb_spec a f :
  is_finite f = true ->
  (int_gtb a f = true <-> (Qval f < inject_Z a)%Q).
Proof.
  intros Hf. destruct f as [s|s| |s m e]; try discriminate.
  - unfold int_gtb, Qval. rewrite Z.ltb_lt.
    change 0%Q with (inject_Z 0). rewrite <- Zlt_Qlt. reflexivity.
  - unfold int_gtb, Qval.
    assert (Ev : ((if s then - inject_Z (Zpos m) else inject_Z (Zpos m)) ==
                  inject_Z (cond_Zopp s (Zpos m)))%Q).
    { destruct s; cbn [cond_Zopp]; [rewrite inject_Z_opp|]; reflexivity. }
    rewrite Ev. generalize (cond_Zopp s (Zpos m)). intros v.
    destruct (Z.leb_spec 0 e) as [He|He]; rewrite Z.ltb_lt.
    + assert (E : (inject_Z v * pow2 e == inject_Z (v * 2 ^ e))%Q)
        by (rewrite inject_Z_mult, (pow2_Z e He); reflexivity).
      rewrite E, <- Zlt_Qlt. reflexivity.
    + assert (Hp : (pow2 e * pow2 (- e) == 1)%Q) by apply pow2_opp_mul.
      pose proof (pow2_pos (- e)) as P. pose proof (pow2_pos e) as P'.
      assert (E : (inject_Z (a * 2 ^ (- e)) == inject_Z a * pow2 (- e))%Q)
        by (rewrite inject_Z_mult, (pow2_Z (- e)) by lia; reflexivity).
      rewrite Zlt_Qlt, E.
      split; intros H.
      * apply Qmult_lt_compat_r with (z := pow2 e) in H; [|exact P'].
        rewrite <- (Qmult_assoc (inject_Z a)), (Qmult_comm (pow2 (- e))), Hp in H.
        lra.
      * apply Qmult_lt_compat_r with (z := pow2 (- e)) in H; [|exact P].
        rewrite <- (Qmult_assoc (inject_Z v)), Hp in H. lra.
Qed.

(** ** The sort of the spikes *)

Lemma insert_desc_perm t l : Permutation (t :: l) (insert_desc t l).
Proof.
  induction l as [|u l IH]; cbn [insert_desc]; [reflexivity|].
  destruct (amount_paisa u <=? amount_paisa t); [reflexivity|].
  rewrite perm_swap. apply perm_skip. exact IH.
Qed.

Lemma sorted_by_amount_desc_perm l : Permutation l (sorted_by_amount_desc l).
Proof.
  induction l as [|t l IH]; cbn; [reflexivity|].
  fold (sorted_by_amount_desc l).
  rewrite <- insert_desc_perm. apply perm_skip. exact IH.
Qed.

Lemma insert_desc_sorted t l :
  StronglySorted desc l -> StronglySorted desc (insert_desc t l).
Proof.
  induction 1 as [|u l Hs IH Hall]; cbn [insert_desc].
  - constructor; constructor.
  - destruct (Z.leb_spec (amount_paisa u) (amount_paisa t)) as [L|L].
    + constructor; [constructor; assumption|].
      constructor; [exact L|].
      eapply Forall_impl; [|exact Hall]. unfold desc. intros; lia.
    + constructor; [exact IH|].
      apply (Permutation_Forall (insert_desc_perm t l)).
      constructor; [unfold desc; lia | exact Hall].
Qed.

Lemma sorted_by_amount_desc_sorted l :
  StronglySorted desc (sorted_by_amount_desc l).
Proof.
  induction l as [|t l IH]; cbn; [constructor|].
  apply insert_desc_sorted. exact IH.
Qed.

(** ** The rounded value is unique *)

Lemma SFleb_antisym f g s :
  sign_bit f = Some s -> sign_bit g = Some s ->
  SFleb f g = true -> SFleb g f = true -> f = g.
Proof.
  destruct f as [sf|sf| |sf mf ef], g as [sg|sg| |sg mg eg];
    cbn [sign_bit]; intros Hf Hg H1 H2; try discriminate;
    injection Hf as ->; injection Hg as ->;
    try reflexivity; try (destruct s; discriminate).
  apply SFleb_finite in H1, H2.
  assert (E : ef = eg /\ Zpos mf = Zpos mg) by (destruct s; lia).
  destruct E as [-> E]. injection E as ->. reflexivity.
Qed.

Lemma float_of_mantissa_sign_bit s M E :
  0 <= M -> sign_bit (float_of_mantissa s M E) = Some s.
Proof.
  intros H. rewrite float_of_mantissa_canon.
  assert (H' : 0 <= fst (canon M E)).
  { unfold canon. destruct (M =? 2 ^ prec); cbn [fst]; [|exact H].
    apply Z.pow_nonneg. lia. }
  revert H'. generalize (fst (canon M E)) (snd (canon M E)).
  intros M' E' H'. unfold finite_or_inf.
  destruct M' as [|m|m]; [reflexivity| |lia].
  destruct (E' <=? emax - prec); reflexivity.
Qed.

Lemma rounds_to_sign_bit s x f :
  (0 < x)%Q -> rounds_to s x f -> sign_bit f = Some s.
Proof.
  intros Hx (k & M & U & L & N & ->).
  apply float_of_mantissa_sign_bit.
  apply (nearest_even_bounds x k M Hx U N).
Qed.

Lemma rounds_to_unique s x f g :
  (0 < x)%Q -> rounds_to s x f -> rounds_to s x g -> f = g.
Proof.
  intros Hx Rf Rg.
  pose proof (rounds_to_sign_bit _ _ _ Hx Rf) as Sf.
  pose proof (rounds_to_sign_bit _ _ _ Hx Rg) as Sg.
  destruct s.
  - apply rounds_to_opp in Rf, Rg. cbn [negb] in Rf, Rg.
    apply (SFleb_antisym _ _ true Sf Sg);
      rewrite <- (SFopp_involutive f), <- (SFopp_involutive g), SFleb_opp;
      apply (rounds_to_le x x); try assumption; lra.
  - apply (SFleb_antisym _ _ false Sf Sg);
      apply (rounds_to_le x x); try assumption; lra.
Qed.

(** The true division depends on the exact quotient only. *)
Lemma truediv_ratio a b c d :
  0 < b -> 0 < d -> a * d = c * b -> truediv a b = truediv c d.
Proof.
  intros Hb Hd Hr. unfold truediv.
  destruct (Z.eqb_spec b 0) as [->|_]; [lia|].
  destruct (Z.eqb_spec d 0) as [->|_]; [lia|].
  assert (E : SFdiv prec emax (exact_int a) (exact_int b) =
              SFdiv prec emax (exact_int c) (exact_int d));
    [|rewrite E; reflexivity].
  destruct b as [|pb|pb]; [lia| |lia].
  destruct d as [|pd|pd]; [lia| |lia].
  pose proof (inject_Z_pos _ Hb) as Pb. pose proof (inject_Z_pos _ Hd) as Pd.
  assert (Hq : forall pa pc, Zpos pa * Zpos pd = Zpos pc * Zpos pb ->
             (inject_Z (Zpos pa) / inject_Z (Zpos pb) ==
              inject_Z (Zpos pc) / inject_Z (Zpos pd))%Q).
  { intros pa pc H.
    assert (H' : (inject_Z (Zpos pa) * inject_Z (Zpos pd) ==
                  inject_Z (Zpos pc) * inject_Z (Zpos pb))%Q)
      by (rewrite <- !inject_Z_mult, H; reflexivity).
    field_simplify_eq; [|split; lra]. rewrite H'. ring. }
  destruct a as [|pa|pa], c as [|pc|pc]; try lia; cbn [exact_int];
    try reflexivity.
  - destruct (SFdiv_finite_spec false pa 0 false pb 0 _
                (Qdiv_pos_spec (Zpos pa) (Zpos pb) Hb)) as [Hx R1].
    destruct (SFdiv_finite_spec false pc 0 false pd 0 _
                (Qdiv_pos_spec (Zpos pc) (Zpos pd) Hd)) as [_ R2].
    apply (rounds_to_unique _ _ _ _ Hx R1).
    apply (rounds_to_ext _ _ _ _ (Qeq_sym _ _ (Hq pa pc Hr))). exact R2.
  - destruct (SFdiv_finite_spec true pa 0 false pb 0 _
                (Qdiv_pos_spec (Zpos pa) (Zpos pb) Hb)) as [Hx R1].
    destruct (SFdiv_finite_spec true pc 0 false pd 0 _
                (Qdiv_pos_spec (Zpos pc) (Zpos pd) Hd)) as [_ R2].
    apply (rounds_to_unique _ _ _ _ Hx R1).
    apply (rounds_to_ext _ _ _ _ (Qeq_sym _ _ (Hq pa pc ltac:(lia)))).
    exact R2.
Qed.

(** ** Exact results *)

Lemma Qval_float_of_mantissa M E :
  0 <= M <= 2 ^ prec ->
  is_finite (float_of_mantissa false M E) = true ->
  (Qval (float_of_mantissa false M E) == inject_Z M * pow2 E)%Q.
Proof.
  intros HM. rewrite float_of_mantissa_canon. unfold canon.
  destruct (Z.eqb_spec M (2 ^ prec)) as [->|N]; cbn [fst snd].
  - change (2 ^ (prec - 1)) with (Zpos (2 ^ 52)).
    unfold finite_or_inf.
    destruct (E + 1 <=? emax - prec); [|discriminate]. intros _.
    unfold Qval. rewrite pow2_add.
    assert (T : (inject_Z (2 ^ prec) == inject_Z (Zpos (2 ^ 52)) * pow2 1)%Q)
      by (vm_compute; reflexivity).
    rewrite T. ring.
  - unfold finite_or_inf. destruct M as [|m|m]; [intros _|..|lia].
    + unfold Qval. change (inject_Z 0) with 0%Q. ring.
    + destruct (E <=? emax - prec); [|discriminate]. intros _. reflexivity.
Qed.

Lemma nearest_even_integer n M : nearest_even (inject_Z n) M -> M = n.
Proof.
  intros [[L U] _].
  assert (H1 : M <= n) by (apply Qle_inject_Z_half; exact L).
  assert (H2 : n <= M) by (apply Qle_inject_Z_half; lra).
  lia.
Qed.

(** Rounding a number that is a float gives this float. *)
Lemma rounds_to_exact x f m e :
  rounds_to false x f -> is_finite f = true ->
  (x == inject_Z (Zpos m) * pow2 e)%Q -> Zpos m < 2 ^ prec -> emin <= e ->
  (Qval f == x)%Q.
Proof.
  intros (k & M & U & L & N & ->) Hf Hx Hm He.
  assert (Px : (0 < x)%Q).
  { rewrite Hx. apply Qmult_lt_0_compat; [apply inject_Z_pos; lia|apply pow2_pos]. }
  pose proof (nearest_even_bounds x k M Px U N) as B.
  assert (HE : fexp k <= e).
  { destruct L as [L|L]; [|rewrite L; exact He].
    assert (T : (pow2 (k - 1) < pow2 (prec + e))%Q).
    { apply Qle_lt_trans with x; [exact L|]. rewrite Hx, pow2_add.
      apply Qmult_lt_compat_r; [apply pow2_pos|].
      rewrite <- pow2_Z by (unfold prec; lia). rewrite <- Zlt_Qlt. exact Hm. }
    apply pow2_lt_inv in T. rewrite fexp_eq. rewrite emin_eq in He.
    unfold prec in T. lia. }
  assert (Ey : (x * pow2 (- fexp k) == inject_Z (Zpos m * 2 ^ (e - fexp k)))%Q).
  { rewrite inject_Z_mult, pow2_Z by lia. rewrite Hx.
    unfold Z.sub. rewrite pow2_add. ring. }
  assert (EM : M = Zpos m * 2 ^ (e - fexp k)).
  { apply nearest_even_integer.
    destruct N as [[N1 N2] N3]. split; [split; lra|].
    intros [T|T]; apply N3; [left|right]; lra. }
  rewrite (Qval_float_of_mantissa M (fexp k) B Hf), EM.
  rewrite inject_Z_mult, pow2_Z by lia. rewrite Hx.
  transitivity (inject_Z (Zpos m) * (pow2 (e - fexp k) * pow2 (fexp k)))%Q;
    [ring|]. rewrite <- pow2_add.
  replace (e - fexp k + fexp k) with e by lia. reflexivity.
Qed.

Lemma Qmul_pos_r_lt (a b c : Q) : (0 < c -> (a * c < b * c <-> a < b))%Q.
Proof.
  intros Hc. split; intros H.
  - destruct (Qlt_le_dec a b) as [L|L]; [exact L|exfalso].
    assert (T : (b * c <= a * c)%Q)
      by (apply Qmult_le_compat_r; [exact L | apply Qlt_le_weak, Hc]).
    lra.
  - apply Qmult_lt_compat_r; assumption.
Qed.

(** Below [2 ^ 52] the comparison of an amount with twice the float mean is
    the comparison with twice the exact mean. *)
Lemma mean_threshold_exact S n a avg :
  0 < n -> n <= S -> S < 2 ^ (prec - 1) -> truediv S n = Ok avg ->
  (int_gtb a (mul avg F2) = true <-> 2 * S < a * n).
Proof.
  intros Hn HnS HS Havg.
  destruct (truediv_Rounds _ _ _ Hn Havg) as (R & V & F).
  pose proof (inject_Z_pos n Hn) as Pn.
  set (x := (inject_Z S / inject_Z n)%Q) in *.
  assert (Exn : (x * inject_Z n == inject_Z S)%Q) by (unfold x; field; lra).
  assert (Hx1 : (1 <= x)%Q).
  { unfold x. apply Qle_shift_div_l; [exact Pn|].
    rewrite Qmult_1_l, <- Zle_Qle. exact HnS. }
  assert (Hx52 : (x < pow2 (prec - 1))%Q).
  { apply Qle_lt_trans with (inject_Z S).
    - apply Qdiv_le_num; lia.
    - rewrite <- pow2_Z by (unfold prec; lia). rewrite <- Zlt_Qlt. exact HS. }
  destruct R as [[Px R]|[[H0 _]|[Hneg _]]]; [|lra|lra].
  destruct R as (k & M & U & L & N & Eavg).
  assert (Hk0 : 0 < k).
  { apply pow2_lt_inv. change (pow2 0) with 1%Q. lra. }
  assert (HL : (pow2 (k - 1) <= x)%Q).
  { destruct L as [L|L]; [exact L|exfalso].
    rewrite fexp_eq, emin_eq in L. lia. }
  assert (Hk52 : k <= prec - 1).
  { assert (T : (pow2 (k - 1) < pow2 (prec - 1))%Q) by lra.
    apply pow2_lt_inv in T. lia. }
  assert (HE : fexp k = k - prec) by (rewrite fexp_eq; unfold prec in *; lia).
  pose proof (nearest_even_bounds x k M Px U N) as B.
  assert (HM : 2 ^ (prec - 1) <= M).
  { apply (nearest_even_normal x k M HL); [|exact N].
    rewrite HE, emin_eq. unfold prec. lia. }
  rewrite HE in *.
  set (P := 2 ^ (prec - 1 - k)).
  assert (PP : 0 < P) by (apply Z.pow_pos_nonneg; lia).
  assert (EP : (pow2 (- (k - prec)) == inject_Z (2 * P))%Q).
  { rewrite inject_Z_mult. unfold P. rewrite pow2_Z by lia.
    change (inject_Z 2) with (pow2 1). rewrite <- pow2_add.
    replace (1 + (prec - 1 - k)) with (- (k - prec)) by lia. reflexivity. }
  (* the two rounding inequalities, on integers *)
  destruct N as [[N1 N2] _]. rewrite EP in N1, N2.
  assert (Z1 : 2 * M * n <= 4 * S * P + n).
  { rewrite Zle_Qle.
    apply Qmult_le_compat_r with (z := (2 * inject_Z n)%Q) in N1; [|lra].
    rewrite ?inject_Z_plus, !inject_Z_mult in *.
    change (inject_Z 2) with 2%Q in *. change (inject_Z 4) with 4%Q.
    change (inject_Z 1) with 1%Q.
    assert (T : (x * (2 * inject_Z P) * (2 * inject_Z n) ==
                 4 * (x * inject_Z n) * inject_Z P)%Q) by ring.
    rewrite T, Exn in N1. lra. }
  assert (Z2 : 4 * S * P <= 2 * M * n + n).
  { rewrite Zle_Qle.
    apply Qmult_le_compat_r with (z := (2 * inject_Z n)%Q) in N2; [|lra].
    rewrite ?inject_Z_plus, !inject_Z_mult in *.
    change (inject_Z 2) with 2%Q in *. change (inject_Z 4) with 4%Q.
    change (inject_Z 1) with 1%Q.
    assert (T : (x * (2 * inject_Z P) * (2 * inject_Z n) ==
                 4 * (x * inject_Z n) * inject_Z P)%Q) by ring.
    rewrite T, Exn in N2. lra. }
  assert (Z3 : n < 2 * P).
  { assert (T : 2 ^ (k - 1) * n <= S).
    { rewrite Zle_Qle, inject_Z_mult, pow2_Z by lia. rewrite <- Exn.
      apply Qmult_le_compat_r; [exact HL | lra]. }
    assert (T2 : 2 ^ (k - 1) * (2 * P) = 2 ^ (prec - 1)).
    { unfold P. rewrite <- (Z.pow_succ_r 2 (prec - 1 - k)) by lia.
      rewrite <- Z.pow_add_r by lia. f_equal. lia. }
    assert (T3 : 0 < 2 ^ (k - 1)) by (apply Z.pow_pos_nonneg; lia).
    nia. }
  assert (Key : M < a * P <-> 2 * S < a * n) by (split; intros; nia).
  rewrite <- Key. clear Key Z1 Z2 Z3 N1 N2.
  (* the value of the mean *)
  assert (Qavg : (Qval avg == inject_Z M * pow2 (k - prec))%Q).
  { rewrite Eavg. apply Qval_float_of_mantissa; [exact B|].
    rewrite <- Eavg. exact F. }
  assert (PM : (0 < inject_Z M)%Q).
  { apply inject_Z_pos. pose proof (Z.pow_pos_nonneg 2 (prec - 1)).
    unfold prec in *. lia. }
  pose proof (pow2_pos (k - prec)) as PE.
  assert (Pavg : (0 < Qval avg)%Q).
  { rewrite Qavg. apply Qmult_lt_0_compat; assumption. }
  (* the threshold is exactly twice the mean *)
  assert (Hthr : is_finite (mul avg F2) = true /\
                 (Qval (mul avg F2) == Qval avg * 2)%Q).
  { destruct (mul_F2_Rounds avg F) as [[_ R2]|[[H0 _]|[H0 _]]]; [|lra|lra].
    assert (F2' : is_finite (mul avg F2) = true).
    { apply (rounds_to_finite false (Qval avg * 2)); [lra| |exact R2].
      rewrite Qavg.
      apply Qle_lt_trans with (pow2 prec * pow2 (k - prec) * 2)%Q.
      - apply Qmult_le_compat_r; [|lra].
        apply Qmult_le_compat_r; [|lra].
        rewrite <- pow2_Z by (unfold prec; lia). rewrite <- Zle_Qle.
        apply B.
      - change 2%Q with (pow2 1). rewrite <- !pow2_add. apply pow2_lt.
        unfold prec, emax in *. lia. }
    split; [exact F2'|].
    destruct avg as [s|s| |s m e]; try discriminate.
    destruct (valid_finite_bounds _ _ _ V) as (Bm & Be & _).
    destruct s.
    - exfalso. unfold Qval in Pavg.
      assert (0 < inject_Z (Zpos m) * pow2 e)%Q
        by (apply Qmult_lt_0_compat;
            [apply inject_Z_pos; lia|apply pow2_pos]).
      lra.
    - apply (rounds_to_exact _ _ m (e + 1) R2 F2'); [|exact Bm|lia].
      unfold Qval. rewrite pow2_add. change (pow2 1) with 2%Q. ring. }
  destruct Hthr as [Fthr Ethr].
  rewrite (int_gtb_spec a _ Fthr), Ethr, Qavg.
  assert (Ea : (inject_Z a == inject_Z (a * P) * pow2 (k - prec) * 2)%Q).
  { rewrite inject_Z_mult.
    assert (T : (inject_Z P * pow2 (k - prec) * 2 == 1)%Q).
    { transitivity (inject_Z (2 * P) * pow2 (k - prec))%Q;
        [rewrite inject_Z_mult; change (inject_Z 2) with 2%Q; ring|].
      rewrite <- EP, Qmult_comm. apply pow2_opp_mul. }
    transitivity (inject_Z a * (inject_Z P * pow2 (k - prec) * 2))%Q;
      [rewrite T; ring | ring]. }
  rewrite Ea, Zlt_Qlt.
  assert (P2 : (0 < pow2 (k - prec) * 2)%Q) by lra.
  rewrite <- !Qmult_assoc. apply Qmul_pos_r_lt. exact P2.
Qed.

Lemma sum_cons a l : sum (a :: l) = a + sum l.
Proof.
  unfold sum. cbn [fold_left].
  assert (G : forall l b c, fold_left Z.add l (b + c) = b + fold_left Z.add l c).
  { clear. induction l as [|x l IH]; intros b c; cbn [fold_left]; [reflexivity|].
    rewrite <- Z.add_assoc. apply IH. }
  rewrite <- (G l a 0). f_equal. lia.
Qed.

Lemma len_le_sum (l : list Transaction) :
  (forall t, In t l -> 0 < amount_paisa t) ->
  len l <= sum (map amount_paisa l).
Proof.
  induction l as [|t l IH]; intros H.
  - unfold len, sum. cbn. lia.
  - cbn [map]. rewrite sum_cons.
    assert (H1 : 0 < amount_paisa t) by (apply H; left; reflexivity).
    assert (H2 : len l <= sum (map amount_paisa l))
      by (apply IH; intros u Hu; apply H; right; exact Hu).
    unfold len in *. cbn [List.length]. lia.
Qed.

(* ===================================================================== *)
(** * Properties of the engine *)
(* ===================================================================== *)

(** ** Percentages *)

(** C9.  A percentage with denominator 0 is 0.0 and nothing is raised,
    whatever the numerator: both for the share of a category in a total and
    for the utilization of a budget whose limit is 0. *)
Theorem percentage_zero_denominator (p : Z) :
  calculate_category_percentage p 0 = Ok F0 /\
  calculate_utilization p 0 = Ok F0.
Proof. split; reflexivity. Qed.

(** ** Savings component of the health score *)

(** C6.  The savings component is 30 for a rate of at least 20, 22 from 15,
    15 from 10, 8 from 5 and 0 below 5; a rate of exactly 20.0 gives 30, and
    the rate is exactly 20.0 whenever the savings of the month are one fifth
    of a positive income. *)
Theorem savings_score_tiers (w : Env) (r : float) :
  calculate_savings_rate w (get_current_month w) = Ok r ->
  (geb r F20 = true -> calculate_savings_score w = Ok 30) /\
  (geb r F15 = true -> ltb r F20 = true -> calculate_savings_score w = Ok 22) /\
  (geb r F10 = true -> ltb r F15 = true -> calculate_savings_score w = Ok 15) /\
  (geb r F5 = true -> ltb r F10 = true -> calculate_savings_score w = Ok 8) /\
  (ltb r F5 = true -> calculate_savings_score w = Ok 0) /\
  (r = F20 -> calculate_savings_score w = Ok 30) /\
  (0 < calculate_total_income_month w (get_current_month w) ->
   5 * calculate_monthly_savings w (get_current_month w)
   = calculate_total_income_month w (get_current_month w) ->
   r = F20 /\ calculate_savings_score w = Ok 30).
Proof.
  intros Hr.
  assert (Exact :
    0 < calculate_total_income_month w (get_current_month w) ->
    5 * calculate_monthly_savings w (get_current_month w)
    = calculate_total_income_month w (get_current_month w) ->
    r = F20).
  { intros Hi Hs. revert Hr. unfold calculate_savings_rate.
    destruct (Z.eqb_spec (calculate_total_income_month w (get_current_month w)) 0)
      as [E|_]; [lia|].
    rewrite (truediv_ratio _ _ 1 5) by lia.
    intros [= <-]. reflexivity. }
  revert Hr.
  intros Hr. unfold calculate_savings_score. rewrite Hr. cbn [bind].
  unfold geb, ltb.
  repeat split.
  - intros ->. reflexivity.
  - intros H15 L20. rewrite (SFltb_not_SFleb _ _ L20), H15. reflexivity.
  - intros H10 L15.
    assert (L20 : SFleb F20 r = false).
    { destruct (SFleb F20 r) eqn:A; [|reflexivity].
      assert (T : SFleb F15 r = true)
        by (apply (SFleb_trans _ F20); [reflexivity | exact A]).
      rewrite (SFltb_not_SFleb _ _ L15) in T. discriminate. }
    rewrite L20, (SFltb_not_SFleb _ _ L15), H10. reflexivity.
  - intros H5 L10.
    assert (L15 : SFleb F15 r = false).
    { destruct (SFleb F15 r) eqn:A; [|reflexivity].
      assert (T : SFleb F10 r = true)
        by (apply (SFleb_trans _ F15); [reflexivity | exact A]).
      rewrite (SFltb_not_SFleb _ _ L10) in T. discriminate. }
    assert (L20 : SFleb F20 r = false).
    { destruct (SFleb F20 r) eqn:A; [|reflexivity].
      assert (T : SFleb F10 r = true)
        by (apply (SFleb_trans _ F20); [reflexivity | exact A]).
      rewrite (SFltb_not_SFleb _ _ L10) in T. discriminate. }
    rewrite L20, L15, (SFltb_not_SFleb _ _ L10), H5. reflexivity.
  - intros L5.
    assert (L : forall c, SFleb F5 c = true -> SFleb c r = false).
    { intros c Hc. destruct (SFleb c r) eqn:A; [|reflexivity].
      assert (T : SFleb F5 r = true) by (apply (SFleb_trans _ c); assumption).
      rewrite (SFltb_not_SFleb _ _ L5) in T. discriminate. }
    rewrite (L F20 eq_refl), (L F15 eq_refl), (L F10 eq_refl), (L F5 eq_refl).
    reflexivity.
  - intros ->. reflexivity.
  - apply Exact; assumption.
  - rewrite Exact by assumption. reflexivity.
Qed.

Lemma savings_score_tiers_witness :
  calculate_savings_rate env_rate_20 (get_current_month env_rate_20) = Ok F20 /\
  calculate_savings_score env_rate_20 = Ok 30.
Proof.
  split; [reflexivity|].
  assert (Hi : 0 < calculate_total_income_month env_rate_20
                     (get_current_month env_rate_20)) by reflexivity.
  destruct (savings_score_tiers env_rate_20 F20 eq_refl)
    as (_ & _ & _ & _ & _ & _ & E).
  exact (proj2 (E Hi eq_refl)).
Defined.

(** ** Budget utilization and tiers *)

(** C3.  The utilization of a budget is 0.0 when the limit is 0 and
    [spent / limit * 100] otherwise: the float nearest to 100 times the float
    nearest to the exact quotient, with no clamping (spending 3 of a limit
    of 2 gives 150.0).  The tier of a utilization [u] is "OK" when [u < 70],
    "Warning" when [70 <= u < 100] and "Over Budget" when [u >= 100]. *)
Theorem budget_utilization_and_tiers (spent limit : Z) (u : float) :
  (limit = 0 -> calculate_utilization spent limit = Ok F0) /\
  (limit <> 0 ->
   calculate_utilization spent limit =
   (q <- truediv spent limit ;; Ok (mul q F100))) /\
  (0 < limit -> Z.abs spent < 2 ^ (emax - 1) ->
   exists q, truediv spent limit = Ok q /\
             calculate_utilization spent limit = Ok (mul q F100) /\
             Rounds (inject_Z spent / inject_Z limit) q /\
             Rounds (Qval q * 100) (mul q F100)) /\
  calculate_utilization 3 2 = Ok (of_Z 150) /\
  (ltb u F70 = true -> get_budget_status u = ("OK", "green")) /\
  (geb u F70 = true -> ltb u F100 = true ->
   get_budget_status u = ("Warning", "yellow")) /\
  (geb u F100 = true -> get_budget_status u = ("Over Budget", "red")).
Proof.
  split; [intros ->; reflexivity|].
  split.
  { intros H. unfold calculate_utilization.
    destruct (Z.eqb_spec limit 0) as [E|_]; [contradiction|reflexivity]. }
  split.
  { intros Hl Hs. destruct (truediv_total spent limit Hl Hs) as [q Hq].
    exists q. split; [exact Hq|].
    destruct (truediv_Rounds _ _ _ Hl Hq) as (R & _ & F).
    split; [|split; [exact R | exact (mul_F100_Rounds q F)]].
    unfold calculate_utilization.
    destruct (Z.eqb_spec limit 0) as [E|_]; [lia|].
    rewrite Hq. reflexivity. }
  split; [reflexivity|].
  unfold get_budget_status, geb, ltb.
  split; [|split].
  - intros L70.
    assert (L100 : SFleb F100 u = false).
    { destruct (SFleb F100 u) eqn:A; [|reflexivity].
      assert (T : SFleb F70 u = true)
        by (apply (SFleb_trans _ F100); [reflexivity | exact A]).
      rewrite (SFltb_not_SFleb _ _ L70) in T. discriminate. }
    rewrite L100, (SFltb_not_SFleb _ _ L70). reflexivity.
  - intros G70 L100. rewrite (SFltb_not_SFleb _ _ L100), G70. reflexivity.
  - intros ->. reflexivity.
Qed.

Lemma budget_utilization_and_tiers_witness :
  calculate_utilization 50 0 = Ok F0 /\
  calculate_utilization 1 4 = Ok F25 /\
  (exists q, truediv 1 3 = Ok q /\
             calculate_utilization 1 3 = Ok (mul q F100) /\
             Rounds (inject_Z 1 / inject_Z 3) q /\
             Rounds (Qval q * 100) (mul q F100)) /\
  get_budget_status F50 = ("OK", "green") /\
  get_budget_status F75 = ("Warning", "yellow") /\
  get_budget_status F100 = ("Over Budget", "red").
Proof.
  split.
  { exact (proj1 (budget_utilization_and_tiers 50 0 F0) eq_refl). }
  split.
  { rewrite (proj1 (proj2 (budget_utilization_and_tiers 1 4 F0)));
      [reflexivity | discriminate]. }
  split.
  { apply (proj1 (proj2 (proj2 (budget_utilization_and_tiers 1 3 F0))));
      reflexivity. }
  split.
  { apply (proj1 (proj2 (proj2 (proj2 (proj2
             (budget_utilization_and_tiers 0 0 F50)))))). reflexivity. }
  split.
  { apply (proj1 (proj2 (proj2 (proj2 (proj2 (proj2
             (budget_utilization_and_tiers 0 0 F75))))))); reflexivity. }
  apply (proj2 (proj2 (proj2 (proj2 (proj2 (proj2
             (budget_utilization_and_tiers 0 0 F100))))))). reflexivity.
Defined.

(** With a negative limit the utilization decreases when the amount spent
    grows: 50 and then 150 spent against a limit of -100 give -50.0 and then
    -150.0. *)
Lemma utilization_monotone_counterexample :
  50 <= 150 /\
  calculate_utilization 50 (-100) = Ok (SFopp F50) /\
  calculate_utilization 150 (-100) = Ok (SFopp (of_Z 150)) /\
  leb (SFopp F50) (SFopp (of_Z 150)) = false.
Proof. split; [lia|]. repeat split; reflexivity. Qed.

(** C4.  For a fixed limit that is not negative, the utilization never
    decreases and the tier never moves backward in the order OK, Warning,
    Over Budget when the amount spent grows.  Both utilizations exist as soon
    as the two amounts are below [2 ^ 1023] in absolute value (beyond the
    range of the floats the division raises [OverflowError]). *)
Theorem utilization_monotone (limit spent1 spent2 : Z) :
  0 <= limit -> spent1 <= spent2 ->
  (Z.abs spent1 < 2 ^ (emax - 1) -> Z.abs spent2 < 2 ^ (emax - 1) ->
   exists u1 u2, calculate_utilization spent1 limit = Ok u1 /\
                 calculate_utilization spent2 limit = Ok u2) /\
  (forall u1 u2,
     calculate_utilization spent1 limit = Ok u1 ->
     calculate_utilization spent2 limit = Ok u2 ->
     leb u1 u2 = true /\
     tier_rank (get_budget_status u1) <= tier_rank (get_budget_status u2)).
Proof.
  intros Hl Hs. unfold calculate_utilization.
  destruct (Z.eqb_spec limit 0) as [E|NE].
  - split.
    + intros _ _. exists F0, F0. split; reflexivity.
    + intros u1 u2 [= <-] [= <-]. split; [reflexivity|cbn; lia].
  - assert (Hpos : 0 < limit) by lia. split.
    + intros B1 B2.
      destruct (truediv_total spent1 limit Hpos B1) as [q1 ->].
      destruct (truediv_total spent2 limit Hpos B2) as [q2 ->].
      eexists; eexists; split; reflexivity.
    + intros u1 u2 H1 H2.
      assert (H : SFleb u1 u2 = true)
        by exact (percent_mono _ _ _ _ _ Hpos Hs H1 H2).
      split; [exact H | exact (get_budget_status_mono _ _ H)].
Qed.

Lemma utilization_monotone_witness :
  (exists u1 u2, calculate_utilization 50 100 = Ok u1 /\
                 calculate_utilization 120 100 = Ok u2) /\
  leb F50 (of_Z 120) = true /\
  tier_rank (get_budget_status F50)
  <= tier_rank (get_budget_status (of_Z 120)).
Proof.
  assert (H0 : 0 <= 100) by lia.
  assert (H1 : 50 <= 120) by lia.
  destruct (utilization_monotone 100 50 120 H0 H1) as [T M].
  split.
  - apply T; reflexivity.
  - apply M; reflexivity.
Defined.

(** ** Month over month *)

(** C2.  With [current] and [previous] the two non-negative totals that
    [calculate_month_over_month_change] compares, the result is 0.0 when both
    are 0, 100.0 when only [previous] is 0, and
    [(current - previous) / previous * 100] otherwise: the float nearest to
    100 times the float nearest to the exact quotient.  For 500000 after
    400000 it is exactly 25.0. *)
Theorem month_over_month_change_spec
    (w : Env) (cat : option string) (current previous : Z) :
  mom_current w cat = current -> mom_previous w cat = previous ->
  0 <= current -> 0 <= previous ->
  (previous = 0 -> current = 0 ->
   calculate_month_over_month_change w cat = Ok F0) /\
  (previous = 0 -> current <> 0 ->
   calculate_month_over_month_change w cat = Ok F100) /\
  (previous <> 0 ->
   calculate_month_over_month_change w cat =
   (q <- truediv (current - previous) previous ;; Ok (mul q F100))) /\
  (previous <> 0 -> Z.abs (current - previous) < 2 ^ (emax - 1) ->
   exists q, truediv (current - previous) previous = Ok q /\
             calculate_month_over_month_change w cat = Ok (mul q F100) /\
             Rounds (inject_Z (current - previous) / inject_Z previous) q /\
             Rounds (Qval q * 100) (mul q F100)) /\
  (current = 500000 -> previous = 400000 ->
   calculate_month_over_month_change w cat = Ok F25).
Proof.
  intros Hc Hp Hc0 Hp0.
  assert (E : calculate_month_over_month_change w cat =
              if previous =? 0 then (if current =? 0 then Ok F0 else Ok F100)
              else q <- truediv (current - previous) previous ;;
                   Ok (mul q F100)).
  { unfold calculate_month_over_month_change. rewrite <- Hc, <- Hp.
    unfold mom_current, mom_previous. destruct (truthy cat); reflexivity. }
  rewrite E. clear E.
  split; [intros -> ->; reflexivity|].
  split.
  { intros -> N. destruct (Z.eqb_spec current 0); [contradiction|reflexivity]. }
  split.
  { intros N. destruct (Z.eqb_spec previous 0); [contradiction|reflexivity]. }
  split.
  { intros N B. assert (Hpos : 0 < previous) by lia.
    destruct (truediv_total _ _ Hpos B) as [q Hq].
    destruct (truediv_Rounds _ _ _ Hpos Hq) as (R & _ & F).
    exists q. split; [exact Hq|].
    split; [|split; [exact R | exact (mul_F100_Rounds q F)]].
    destruct (Z.eqb_spec previous 0); [contradiction|].
    rewrite Hq. reflexivity. }
  intros -> ->. reflexivity.
Qed.

Lemma month_over_month_change_spec_witness :
  mom_current env_growth None = 500000 /\
  mom_previous env_growth None = 400000 /\
  calculate_month_over_month_change env_growth None = Ok F25.
Proof.
  split; [reflexivity|]. split; [reflexivity|].
  assert (H1 : 0 <= 500000) by lia.
  assert (H2 : 0 <= 400000) by lia.
  exact (proj2 (proj2 (proj2 (proj2
           (month_over_month_change_spec env_growth None 500000 400000
              eq_refl eq_refl H1 H2)))) eq_refl eq_refl).
Defined.

(** The three changes of [compare_with_last_month] are computed when the
    value of last month is positive and are 0.0 otherwise. *)
Lemma change_since_nonpositive current last :
  last <= 0 -> change_since current last = Ok F0.
Proof.
  intros H. unfold change_since.
  destruct (Z.ltb_spec 0 last); [lia|reflexivity].
Qed.

Lemma change_since_positive current last :
  0 < last ->
  change_since current last =
  (q <- truediv (current - last) last ;; Ok (mul q F100)).
Proof.
  intros H. unfold change_since.
  destruct (Z.ltb_spec 0 last); [reflexivity|lia].
Qed.

Lemma change_since_total current last :
  Z.abs (current - last) < 2 ^ (emax - 1) ->
  exists x, change_since current last = Ok x.
Proof.
  intros B. unfold change_since.
  destruct (Z.ltb_spec 0 last) as [H|H]; [|eexists; reflexivity].
  destruct (truediv_total _ _ H B) as [q ->]. eexists; reflexivity.
Qed.

(** C10.  In the comparison with last month each of the three changes is
    computed only when the value of last month is strictly positive, and is
    0.0 otherwise.  With nothing spent last month and something spent this
    month the expense change is 0.0, where
    [calculate_month_over_month_change] answers 100.0. *)
Theorem compare_with_last_month_changes (w : Env) :
  (forall c, compare_with_last_month w = Ok c ->
     current_income c = calculate_total_income_month w (get_current_month w) /\
     last_income c = calculate_total_income_month w (get_last_month w) /\
     current_expenses c = calculate_total_spending w (get_current_month w) /\
     last_expenses c = calculate_total_spending w (get_last_month w) /\
     current_savings c = calculate_monthly_savings w (get_current_month w) /\
     last_savings c = calculate_monthly_savings w (get_last_month w) /\
     (last_income c <= 0 -> income_change c = F0) /\
     (last_expenses c <= 0 -> expense_change c = F0) /\
     (last_savings c <= 0 -> savings_change c = F0) /\
     (0 < last_income c ->
      (q <- truediv (current_income c - last_income c) (last_income c) ;;
       Ok (mul q F100)) = Ok (income_change c)) /\
     (0 < last_expenses c ->
      (q <- truediv (current_expenses c - last_expenses c) (last_expenses c) ;;
       Ok (mul q F100)) = Ok (expense_change c)) /\
     (0 < last_savings c ->
      (q <- truediv (current_savings c - last_savings c) (last_savings c) ;;
       Ok (mul q F100)) = Ok (savings_change c))) /\
  (Z.abs (calculate_total_income_month w (get_current_month w) -
          calculate_total_income_month w (get_last_month w)) < 2 ^ (emax - 1) ->
   Z.abs (calculate_total_spending w (get_current_month w) -
          calculate_total_spending w (get_last_month w)) < 2 ^ (emax - 1) ->
   Z.abs (calculate_monthly_savings w (get_current_month w) -
          calculate_monthly_savings w (get_last_month w)) < 2 ^ (emax - 1) ->
   exists c, compare_with_last_month w = Ok c) /\
  (calculate_total_spending w (get_last_month w) = 0 ->
   calculate_total_spending w (get_current_month w) <> 0 ->
   calculate_month_over_month_change w None = Ok F100 /\
   forall c, compare_with_last_month w = Ok c -> expense_change c = F0).
Proof.
  change (compare_with_last_month w) with
    (income_change <-
       change_since (calculate_total_income_month w (get_current_month w))
                    (calculate_total_income_month w (get_last_month w)) ;;
     expense_change <-
       change_since (calculate_total_spending w (get_current_month w))
                    (calculate_total_spending w (get_last_month w)) ;;
     savings_change <-
       change_since (calculate_monthly_savings w (get_current_month w))
                    (calculate_monthly_savings w (get_last_month w)) ;;
     Ok (mkComparison
           (calculate_total_income_month w (get_current_month w))
           (calculate_total_income_month w (get_last_month w)) income_change
           (calculate_total_spending w (get_current_month w))
           (calculate_total_spending w (get_last_month w)) expense_change
           (calculate_monthly_savings w (get_current_month w))
           (calculate_monthly_savings w (get_last_month w)) savings_change)).
  set (ci := calculate_total_income_month w (get_current_month w)).
  set (li := calculate_total_income_month w (get_last_month w)).
  set (ce := calculate_total_spending w (get_current_month w)).
  set (le := calculate_total_spending w (get_last_month w)).
  set (cs := calculate_monthly_savings w (get_current_month w)).
  set (ls := calculate_monthly_savings w (get_last_month w)).
  assert (Main : forall c,
    (income_change <- change_since ci li ;;
     expense_change <- change_since ce le ;;
     savings_change <- change_since cs ls ;;
     Ok (mkComparison ci li income_change ce le expense_change
                      cs ls savings_change)) = Ok c ->
    change_since ci li = Ok (income_change c) /\
    change_since ce le = Ok (expense_change c) /\
    change_since cs ls = Ok (savings_change c) /\
    current_income c = ci /\ last_income c = li /\
    current_expenses c = ce /\ last_expenses c = le /\
    current_savings c = cs /\ last_savings c = ls).
  { intros c H.
    destruct (change_since ci li) as [x|]; [|discriminate].
    destruct (change_since ce le) as [y|]; [|discriminate].
    destruct (change_since cs ls) as [z|]; [|discriminate].
    cbn [bind] in H. injection H as <-. cbn. repeat split; reflexivity. }
  split; [|split].
  - intros c H. destruct (Main c H) as (A & B & C & -> & -> & -> & -> & -> & ->).
    repeat split; try reflexivity.
    + intros L. rewrite (change_since_nonpositive _ _ L) in A. congruence.
    + intros L. rewrite (change_since_nonpositive _ _ L) in B. congruence.
    + intros L. rewrite (change_since_nonpositive _ _ L) in C. congruence.
    + intros L. rewrite <- (change_since_positive _ _ L). exact A.
    + intros L. rewrite <- (change_since_positive _ _ L). exact B.
    + intros L. rewrite <- (change_since_positive _ _ L). exact C.
  - intros B1 B2 B3.
    destruct (change_since_total _ _ B1) as [x ->].
    destruct (change_since_total _ _ B2) as [y ->].
    destruct (change_since_total _ _ B3) as [z ->].
    eexists. reflexivity.
  - intros Hl Hc. split.
    + unfold calculate_month_over_month_change. cbn [truthy].
      fold le ce. rewrite Hl.
      destruct (Z.eqb_spec ce 0); [contradiction|reflexivity].
    + intros c H. destruct (Main c H) as (_ & B & _).
      rewrite change_since_nonpositive in B by lia. congruence.
Qed.

Lemma compare_with_last_month_changes_witness :
  calculate_month_over_month_change env_first_month None = Ok F100 /\
  exists c, compare_with_last_month env_first_month = Ok c /\
            income_change c = F0 /\ expense_change c = F0 /\
            savings_change c = F0.
Proof.
  destruct (compare_with_last_month_changes env_first_month) as (P & T & D).
  assert (H0 : calculate_total_spending env_first_month
                 (get_last_month env_first_month) = 0) by reflexivity.
  assert (H1 : calculate_total_spending env_first_month
                 (get_current_month env_first_month) <> 0) by discriminate.
  split; [exact (proj1 (D H0 H1))|].
  destruct T as [c Hc]; [reflexivity | reflexivity | reflexivity |].
  exists c. split; [exact Hc|].
  destruct (P c Hc) as (_ & E1 & _ & E2 & _ & E3 & A & B & C & _).
  split; [apply A; rewrite E1; discriminate|].
  split; [apply B; rewrite E2; discriminate|].
  apply C; rewrite E3; discriminate.
Defined.

(** ** Health score *)

(** C1.  With no transaction in any month and no budget, the health score is
    exactly 50: 0 for savings, 15 for budget adherence (no budgets), 15 for
    the balance (break-even) and 20 for consistency (no spikes). *)
Theorem health_score_empty_ledger (w : Env) :
  (forall month,
     filter_transactions_by_month (read_transactions w) month = []) ->
  read_budgets w = [] ->
  calculate_savings_score w = Ok 0 /\
  calculate_budget_adherence_score w = Ok 15 /\
  calculate_balance_score w = 15 /\
  calculate_consistency_score w = Ok 20 /\
  calculate_overall_health_score w = Ok 50.
Proof.
  intros Hm Hb.
  assert (S : calculate_savings_score w = Ok 0).
  { unfold calculate_savings_score, calculate_savings_rate,
      calculate_total_income_month. rewrite Hm. reflexivity. }
  assert (B : calculate_budget_adherence_score w = Ok 15).
  { unfold calculate_budget_adherence_score. rewrite Hb. reflexivity. }
  assert (L : calculate_balance_score w = 15).
  { unfold calculate_balance_score, calculate_monthly_savings,
      calculate_total_income_month, calculate_total_spending.
    rewrite Hm. reflexivity. }
  assert (C : calculate_consistency_score w = Ok 20).
  { unfold calculate_consistency_score, detect_spending_spikes.
    rewrite Hm. reflexivity. }
  repeat split; try assumption.
  unfold calculate_overall_health_score. rewrite S, B, L, C. reflexivity.
Qed.

Lemma health_score_empty_ledger_witness :
  calculate_overall_health_score env_empty = Ok 50.
Proof.
  apply (health_score_empty_ledger env_empty); intros; reflexivity.
Defined.

(** ** Spending spikes *)

(** C5.  The spikes are exactly the expenses of the current month whose
    amount strictly exceeds twice the mean amount of these expenses (all of
    them, the transaction itself included), in decreasing order of amount;
    with no expense in the month the result is the empty list.  The mean is
    the float nearest to the exact mean, the threshold the float nearest to
    twice that float, and the comparison of an amount with it is exact; when
    the amounts are positive and their sum is below [2 ^ 52] this is the
    comparison with twice the exact mean. *)
Theorem detect_spending_spikes_spec (w : Env) (expenses : list Transaction) :
  expenses =
    filter_by_type
      (filter_transactions_by_month (read_transactions w) (get_current_month w))
      "expense" ->
  (expenses = [] -> detect_spending_spikes w = Ok []) /\
  (expenses <> [] ->
   Z.abs (sum (map amount_paisa expenses)) < 2 ^ (emax - 1) ->
   exists avg,
     truediv (sum (map amount_paisa expenses)) (len expenses) = Ok avg) /\
  (forall avg,
     expenses <> [] ->
     truediv (sum (map amount_paisa expenses)) (len expenses) = Ok avg ->
     Rounds (inject_Z (sum (map amount_paisa expenses)) /
             inject_Z (len expenses)) avg /\
     Rounds (Qval avg * 2) (mul avg F2) /\
     (is_finite (mul avg F2) = true ->
      forall a, int_gtb a (mul avg F2) = true <->
                (Qval (mul avg F2) < inject_Z a)%Q) /\
     ((forall t, In t expenses -> 0 < amount_paisa t) ->
      sum (map amount_paisa expenses) < 2 ^ (prec - 1) ->
      forall a, int_gtb a (mul avg F2) = true <->
                2 * sum (map amount_paisa expenses) < a * len expenses) /\
     exists spikes,
       detect_spending_spikes w = Ok spikes /\
       (forall t, In t spikes <->
                  In t expenses /\
                  int_gtb (amount_paisa t) (mul avg F2) = true) /\
       Permutation spikes
         (filter (fun t => int_gtb (amount_paisa t) (mul avg F2)) expenses) /\
       StronglySorted desc spikes).
Proof.
  intros He. unfold detect_spending_spikes. rewrite <- He.
  assert (Hlen : expenses <> [] -> 0 < len expenses).
  { destruct expenses; [congruence|]. intros _. unfold len. cbn. lia. }
  split; [intros ->; reflexivity|].
  split.
  { intros Hne Hb. exact (truediv_total _ _ (Hlen Hne) Hb). }
  intros avg Hne Havg.
  destruct (truediv_Rounds _ _ _ (Hlen Hne) Havg) as (R & _ & F).
  split; [exact R|].
  split; [exact (mul_F2_Rounds avg F)|].
  split; [intros Hf a; exact (int_gtb_spec a _ Hf)|].
  split.
  { intros Hamt Hsum a.
    exact (mean_threshold_exact _ _ a avg (Hlen Hne) (len_le_sum _ Hamt)
             Hsum Havg). }
  destruct expenses as [|t0 rest] eqn:Ee; [congruence|]. rewrite <- Ee in *.
  assert (Hl : len (map amount_paisa expenses) = len expenses)
    by (unfold len; rewrite length_map; reflexivity).
  rewrite Hl, Havg. cbn [bind].
  eexists. split; [reflexivity|].
  split; [|split].
  - intros t. rewrite <- (Permutation_in' eq_refl
                            (sorted_by_amount_desc_perm _)).
    rewrite filter_In. reflexivity.
  - symmetry. apply sorted_by_amount_desc_perm.
  - apply sorted_by_amount_desc_sorted.
Qed.

Lemma detect_spending_spikes_spec_witness :
  detect_spending_spikes env_empty = Ok [] /\
  detect_spending_spikes env_spike
  = Ok [mkTransaction "2025-01-04" "expense" "Shopping" 100000 "b"] /\
  exists spikes,
    detect_spending_spikes env_spike = Ok spikes /\
    (forall t, In t spikes <->
               In t (read_transactions env_spike) /\
               int_gtb (amount_paisa t) (mul (of_Z 36000) F2) = true) /\
    StronglySorted desc spikes.
Proof.
  split.
  { exact (proj1 (detect_spending_spikes_spec env_empty [] eq_refl) eq_refl). }
  split; [reflexivity|].
  - destruct (detect_spending_spikes_spec env_spike
                (read_transactions env_spike) eq_refl) as (_ & _ & C).
    assert (Hne : read_transactions env_spike <> []) by discriminate.
    destruct (C (of_Z 36000) Hne eq_refl)
      as (_ & _ & _ & _ & spikes & D & I & _ & S).
    exists spikes. split; [exact D|]. split; [exact I | exact S].
Defined.

(** ** Goals *)

Lemma progress_first_spec lower goals goal_name additional_amount :
  match get_goal_by_name lower goals goal_name with
  | None => progress_first lower goals goal_name additional_amount
            = (false, goals)
  | Some g =>
      exists pre post,
        goals = pre ++ g :: post /\
        progress_first lower goals goal_name additional_amount
        = (true, pre ++ add_capped g additional_amount :: post) /\
        get_goal_by_name lower (pre ++ add_capped g additional_amount :: post)
          goal_name = Some (add_capped g additional_amount)
  end.
Proof.
  induction goals as [|goal rest IH]; cbn [get_goal_by_name progress_first].
  - reflexivity.
  - destruct (String.eqb (lower (name goal)) (lower goal_name)) eqn:E.
    + exists [], rest. cbn [app]. split; [reflexivity|]. split.
      * f_equal. f_equal. unfold add_capped. f_equal.
        destruct (Z.ltb_spec (target_paisa goal)
                    (current_paisa goal + additional_amount)); lia.
      * cbn [get_goal_by_name add_capped name]. rewrite E. reflexivity.
    + destruct (get_goal_by_name lower rest goal_name) as [g|].
      * destruct IH as (pre & post & -> & -> & G).
        exists (goal :: pre), post. cbn [app]. split; [reflexivity|].
        split; [reflexivity|].
        cbn [get_goal_by_name]. rewrite E. exact G.
      * rewrite IH. reflexivity.
Qed.

Lemma truediv_self t : 0 < t -> truediv t t = Ok (of_Z 1).
Proof.
  intros H. rewrite (truediv_ratio t t 1 1) by lia. reflexivity.
Qed.

Lemma calculate_goal_progress_reached goal :
  0 <= target_paisa goal -> current_paisa goal = target_paisa goal ->
  calculate_goal_progress goal = Ok F100.
Proof.
  intros Ht Hc. unfold calculate_goal_progress. rewrite Hc.
  destruct (Z.eqb_spec (target_paisa goal) 0) as [E|NE]; [reflexivity|].
  rewrite truediv_self by lia. reflexivity.
Qed.

(** C7.  When every goal of the file satisfies [0 <= current <= target] and
    a positive amount is added to a goal, every goal still satisfies it after
    [update_goal_progress]; the goal found has its current amount increased
    and capped at the target, so that an increment beyond the target leaves
    [current = target], for which [calculate_goal_progress] returns 100.0.
    [calculate_goal_progress] also returns 100.0 whenever the target is 0. *)
Theorem goal_progress_clamped (lower : string -> string)
    (goals : list Goal) (goal_name : string) (additional_amount : Z) :
  (forall g, In g goals -> goal_ok g) ->
  0 < additional_amount ->
  (forall g,
     In g (snd (update_goal_progress lower goals goal_name additional_amount)) ->
     goal_ok g) /\
  (forall g,
     get_goal_by_name lower goals goal_name = Some g ->
     exists g',
       fst (update_goal_progress lower goals goal_name additional_amount)
       = true /\
       get_goal_by_name lower
         (snd (update_goal_progress lower goals goal_name additional_amount))
         goal_name = Some g' /\
       name g' = name g /\ target_paisa g' = target_paisa g /\
       current_paisa g' =
         Z.min (current_paisa g + additional_amount) (target_paisa g) /\
       (target_paisa g < current_paisa g + additional_amount ->
        current_paisa g' = target_paisa g' /\
        calculate_goal_progress g' = Ok F100)) /\
  (get_goal_by_name lower goals goal_name = None ->
   update_goal_progress lower goals goal_name additional_amount
   = (false, goals)) /\
  (forall g, target_paisa g = 0 -> calculate_goal_progress g = Ok F100).
Proof.
  intros Hinv Hpos.
  pose proof (progress_first_spec lower goals goal_name additional_amount) as S.
  unfold update_goal_progress.
  destruct (get_goal_by_name lower goals goal_name) as [g0|] eqn:G.
  - destruct S as (pre & post & Eg & -> & G').
    cbn [negb fst snd].
    assert (Hg0 : goal_ok g0).
    { apply Hinv. rewrite Eg. apply in_or_app. right. left. reflexivity. }
    unfold goal_ok in Hg0.
    split; [|split; [|split]].
    + intros g Hin. apply in_app_or in Hin. destruct Hin as [Hin|[<-|Hin]].
      * apply Hinv. rewrite Eg. apply in_or_app. left. exact Hin.
      * unfold goal_ok, add_capped. cbn. lia.
      * apply Hinv. rewrite Eg. apply in_or_app. right. right. exact Hin.
    + intros g [= <-]. exists (add_capped g0 additional_amount).
      split; [reflexivity|]. split; [exact G'|].
      split; [reflexivity|]. split; [reflexivity|]. split; [reflexivity|].
      intros Hov.
      assert (Ec : current_paisa (add_capped g0 additional_amount) =
                   target_paisa (add_capped g0 additional_amount))
        by (unfold add_capped; cbn; lia).
      split; [exact Ec|].
      apply calculate_goal_progress_reached; [cbn; lia | exact Ec].
    + discriminate.
    + intros g Hg. unfold calculate_goal_progress. rewrite Hg. reflexivity.
  - rewrite S. cbn [negb fst snd].
    split; [exact Hinv|]. split; [discriminate|]. split; [reflexivity|].
    intros g Hg. unfold calculate_goal_progress. rewrite Hg. reflexivity.
Qed.

Lemma goal_progress_clamped_witness :
  update_goal_progress string_lower sample_goals "trip" 50000
  = (true,
     [mkGoal "Laptop" 500000 100000 "2025-12-31" "2025-01-01" "Custom Goal";
      mkGoal "Trip" 300000 300000 "2025-08-31" "2025-01-01"
             "Vacation Savings"]) /\
  exists g',
    get_goal_by_name string_lower
      (snd (update_goal_progress string_lower sample_goals "trip" 50000))
      "trip" = Some g' /\
    current_paisa g' = target_paisa g' /\
    calculate_goal_progress g' = Ok F100.
Proof.
  split; [reflexivity|].
  assert (Hinv : forall g, In g sample_goals -> goal_ok g).
  { intros g [<-|[<-|[]]]; unfold goal_ok; cbn; lia. }
  assert (Hpos : 0 < 50000) by lia.
  destruct (goal_progress_clamped string_lower sample_goals "trip" 50000
              Hinv Hpos) as (_ & U & _).
  destruct (U _ eq_refl) as (g' & _ & G & _ & _ & _ & C).
  exists g'. split; [exact G|]. apply C. cbn. lia.
Defined.

(** ** The budget file *)

Lemma update_first_categories budgets cat new_limit :
  map b_category (snd (update_first budgets cat new_limit))
  = map b_category budgets.
Proof.
  induction budgets as [|b rest IH]; cbn [update_first]; [reflexivity|].
  destruct (String.eqb (b_category b) cat); [reflexivity|].
  destruct (update_first rest cat new_limit) as [u rest'].
  cbn [snd map] in *. rewrite IH. reflexivity.
Qed.

Lemma update_first_found budgets cat new_limit :
  fst (update_first budgets cat new_limit) = budget_exists budgets cat.
Proof.
  induction budgets as [|b rest IH]; cbn [update_first budget_exists existsb];
    [reflexivity|].
  destruct (String.eqb (b_category b) cat); [reflexivity|].
  destruct (update_first rest cat new_limit) as [u rest'].
  cbn [fst orb] in *. exact IH.
Qed.

Lemma update_first_lookup budgets cat new_limit c :
  budget_exists budgets cat = true ->
  get_budget_for_category (snd (update_first budgets cat new_limit)) c
  = if String.eqb c cat then Some new_limit
    else get_budget_for_category budgets c.
Proof.
  induction budgets as [|b rest IH];
    cbn [update_first budget_exists existsb get_budget_for_category];
    [discriminate|].
  destruct (String.eqb_spec (b_category b) cat) as [E|NE].
  - intros _. cbn [snd get_budget_for_category b_category limit_paisa].
    rewrite E. destruct (String.eqb_spec cat c) as [->|N].
    + rewrite String.eqb_refl. reflexivity.
    + destruct (String.eqb_spec c cat); [congruence|reflexivity].
  - cbn [orb]. intros H. specialize (IH H).
    destruct (update_first rest cat new_limit) as [u rest'].
    cbn [snd get_budget_for_category] in *.
    destruct (String.eqb_spec (b_category b) c) as [Ec|N].
    + destruct (String.eqb_spec c cat); [congruence|reflexivity].
    + exact IH.
Qed.

Lemma update_budget_categories budgets cat new_limit :
  map b_category (snd (update_budget budgets cat new_limit))
  = map b_category budgets.
Proof.
  unfold update_budget.
  pose proof (update_first_categories budgets cat new_limit) as H.
  destruct (update_first budgets cat new_limit) as [[|] budgets'];
    cbn [negb snd] in *; [exact H|reflexivity].
Qed.

Lemma budget_exists_In budgets cat :
  budget_exists budgets cat = true <-> In cat (map b_category budgets).
Proof.
  unfold budget_exists. rewrite existsb_exists, in_map_iff.
  split; intros [b [H1 H2]].
  - exists b. split; [apply String.eqb_eq; exact H2 | exact H1].
  - exists b. split; [exact H2 | apply String.eqb_eq; exact H1].
Qed.

Lemma NoDup_map_filter {A B : Type} (f : A -> B) (p : A -> bool) l :
  NoDup (map f l) -> NoDup (map f (filter p l)).
Proof.
  induction l as [|a l IH]; cbn; [intros; constructor|].
  intros H. inversion H as [|x xs Hn Hd]; subst.
  destruct (p a); [|exact (IH Hd)].
  cbn. constructor; [|exact (IH Hd)].
  intros Hin. apply Hn. apply in_map_iff in Hin.
  destruct Hin as [b [E Hb]]. apply filter_In in Hb.
  apply in_map_iff. exists b. split; [exact E | exact (proj1 Hb)].
Qed.

Lemma set_budget_unique budgets cat confirm amount :
  NoDup (map b_category budgets) ->
  NoDup (map b_category (set_budget budgets cat confirm amount)).
Proof.
  intros H. unfold set_budget.
  destruct (budget_exists budgets cat) eqn:E.
  - destruct confirm; cbn [negb]; [|exact H].
    destruct amount as [a|]; [|exact H].
    rewrite update_budget_categories. exact H.
  - destruct amount as [a|]; [|exact H].
    cbn [write_budget snd]. rewrite map_app. cbn [map b_category].
    apply NoDup_app; [exact H | constructor; [intros []|constructor] |].
    intros c Hc [<-|[]].
    apply budget_exists_In in Hc. congruence.
Qed.

Lemma edit_budget_unique budgets selected new_amount :
  NoDup (map b_category budgets) ->
  NoDup (map b_category (edit_budget budgets selected new_amount)).
Proof.
  intros H. unfold edit_budget.
  destruct budgets as [|b rest]; [exact H|].
  destruct selected as [cat|]; [|exact H].
  destruct new_amount as [a|]; [|exact H].
  rewrite update_budget_categories. exact H.
Qed.

Lemma delete_budget_ui_unique budgets selected confirm :
  NoDup (map b_category budgets) ->
  NoDup (map b_category (delete_budget_ui budgets selected confirm)).
Proof.
  intros H. unfold delete_budget_ui.
  destruct budgets as [|b rest]; [exact H|].
  destruct selected as [cat|]; [|exact H].
  destruct confirm; [|exact H].
  unfold delete_budget.
  destruct (Nat.eqb _ _); cbn [snd]; [exact H|].
  apply NoDup_map_filter. exact H.
Qed.

Lemma reachable_unique budgets :
  reachable budgets -> NoDup (map b_category budgets).
Proof.
  induction 1.
  - constructor.
  - apply set_budget_unique. assumption.
  - apply edit_budget_unique. assumption.
  - apply delete_budget_ui_unique. assumption.
Qed.

(** C8.  Every budget file the program can produce holds at most one budget
    per category.  Setting a budget for a category that has one replaces its
    limit (same records in the same order, the new limit read back, the
    other limits untouched); setting a budget for a new category appends one
    record, and an update of a missing category changes nothing. *)
Theorem budget_store_upsert (budgets : list Budget) :
  reachable budgets ->
  NoDup (map b_category budgets) /\
  (forall cat amount,
     budget_exists budgets cat = true ->
     update_budget budgets cat amount
     = (true, set_budget budgets cat true (Some amount)) /\
     map b_category (set_budget budgets cat true (Some amount))
     = map b_category budgets /\
     NoDup (map b_category (set_budget budgets cat true (Some amount))) /\
     forall c,
       get_budget_for_category (set_budget budgets cat true (Some amount)) c
       = if String.eqb c cat then Some amount
         else get_budget_for_category budgets c) /\
  (forall cat confirm amount,
     budget_exists budgets cat = false ->
     set_budget budgets cat confirm (Some amount)
     = budgets ++ [mkBudget cat amount "monthly"] /\
     NoDup (map b_category (set_budget budgets cat confirm (Some amount))) /\
     update_budget budgets cat amount = (false, budgets)).
Proof.
  intros R. pose proof (reachable_unique budgets R) as U.
  split; [exact U|]. split.
  - intros cat amount E.
    assert (Es : set_budget budgets cat true (Some amount)
                 = snd (update_first budgets cat amount)).
    { unfold set_budget, update_budget. rewrite E. cbn [negb].
      pose proof (update_first_found budgets cat amount) as F.
      rewrite E in F.
      destruct (update_first budgets cat amount) as [u b']. cbn [fst] in F.
      subst u. reflexivity. }
    split; [|split; [|split]].
    + rewrite Es. unfold update_budget.
      pose proof (update_first_found budgets cat amount) as F.
      rewrite E in F.
      destruct (update_first budgets cat amount) as [u b']. cbn [fst] in F.
      subst u. reflexivity.
    + rewrite Es. apply update_first_categories.
    + apply set_budget_unique. exact U.
    + intros c. rewrite Es. apply update_first_lookup. exact E.
  - intros cat confirm amount E.
    split; [|split].
    + unfold set_budget. rewrite E. reflexivity.
    + apply set_budget_unique. exact U.
    + unfold update_budget.
      pose proof (update_first_found budgets cat amount) as F.
      rewrite E in F.
      destruct (update_first budgets cat amount) as [u b']. cbn [fst] in F.
      subst u. reflexivity.
Qed.

Lemma budget_store_upsert_witness :
  set_budget (set_budget [] "Food" true (Some 500000)) "Food" true (Some 700000)
  = [mkBudget "Food" 700000 "monthly"] /\
  NoDup (map b_category
           (set_budget (set_budget [] "Food" true (Some 500000))
                       "Food" true (Some 700000))).
Proof.
  split; [reflexivity|].
  assert (R : reachable (set_budget [] "Food" true (Some 500000)))
    by (apply reachable_set, reachable_init).
  destruct (budget_store_upsert _ R) as (_ & P & _).
  exact (proj1 (proj2 (proj2 (P "Food" 700000 eq_refl)))).
Defined.

(** [write_budget] alone only appends: it is the test of [budget_exists] in
    [set_budget] that keeps the categories distinct. *)
Remark write_budget_appends budgets cat limit per :
  write_budget budgets cat limit per
  = (true, budgets ++ [mkBudget cat limit per]).
Proof. reflexivity. Qed.

(* ===================================================================== *)
(** * Further properties of the engine *)
(* ===================================================================== *)

(** ** The two month filters *)

Lemma substring_prefix (m d : string) :
  String.eqb (substring 0 (String.length m) d) m = String.prefix m d.
Proof.
  revert d. induction m as [|a m IH]; intros d.
  - destruct d; reflexivity.
  - destruct d as [|b d]; [reflexivity|].
    cbn [String.length substring String.prefix String.eqb].
    rewrite IH. destruct (ascii_dec a b) as [->|N].
    + rewrite Ascii.eqb_refl. reflexivity.
    + destruct (Ascii.eqb_spec b a) as [->|_]; [contradiction|reflexivity].
Qed.

Lemma filter_comm {A : Type} (f g : A -> bool) (l : list A) :
  filter f (filter g l) = filter g (filter f l).
Proof.
  induction l as [|a l IH]; [reflexivity|].
  cbn [filter]. destruct (f a) eqn:Ef, (g a) eqn:Eg; cbn [filter];
    rewrite ?Ef, ?Eg, IH; reflexivity.
Qed.

(** X1.  The budget module selects the transactions of the current month by
    comparing the first seven characters of the date with the month, the
    analytics module by testing that the date starts with the month.  When
    the month has seven characters, as "YYYY-MM" has, the two agree: the
    spending that the budget of a category is compared with is the spending
    that the analytics report for that category and the current month. *)
Theorem month_filters_agree (w : Env) (cat : string) :
  String.length (get_current_month w) = 7%nat ->
  get_current_month_spending w cat
  = calculate_category_spending w cat (get_current_month w).
Proof.
  intros Hlen.
  unfold get_current_month_spending, calculate_category_spending,
    filter_current_month_transactions, filter_transactions_by_month,
    filter_by_type, filter_by_category, get_month_from_date.
  rewrite (filter_comm _ (fun t => String.eqb (type t) "expense")).
  do 3 f_equal. f_equal.
  apply filter_ext. intros t. rewrite <- Hlen. apply substring_prefix.
Qed.

Lemma month_filters_agree_witness :
  String.length (get_current_month env_spike) = 7%nat /\
  get_current_month_spending env_spike "Food"
  = calculate_category_spending env_spike "Food" (get_current_month env_spike).
Proof.
  split; [reflexivity|].
  apply (month_filters_agree env_spike "Food"). reflexivity.
Defined.

(** ** Budget tiers in exact arithmetic *)

Lemma Qdiv_le_cross a b c d :
  0 < b -> 0 < d -> a * d <= c * b ->
  (inject_Z a / inject_Z b <= inject_Z c / inject_Z d)%Q.
Proof.
  intros Hb Hd H.
  pose proof (inject_Z_pos b Hb) as Pb. pose proof (inject_Z_pos d Hd) as Pd.
  apply Qle_shift_div_l; [exact Pd|].
  setoid_replace (inject_Z a / inject_Z b * inject_Z d)%Q
    with ((inject_Z a * inject_Z d) / inject_Z b)%Q by (field; lra).
  apply Qle_shift_div_r; [exact Pb|].
  rewrite <- !inject_Z_mult, <- Zle_Qle. exact H.
Qed.

Lemma truediv_le a b c d q y :
  0 < b -> 0 < d -> a * d <= c * b ->
  truediv a b = Ok q -> truediv c d = Ok y -> SFleb q y = true.
Proof.
  intros Hb Hd H Hq Hy.
  destruct (truediv_Rounds a b q Hb Hq) as (R1 & _ & _).
  destruct (truediv_Rounds c d y Hd Hy) as (R2 & _ & _).
  apply (Rounds_le _ _ _ _) with (2 := R1) (3 := R2).
  apply Qdiv_le_cross; assumption.
Qed.

(** The percentage [a / b * 100] is monotone in the exact ratio. *)
Lemma percent_le a b c d u v :
  0 < b -> 0 < d -> a * d <= c * b ->
  (q <- truediv a b ;; Ok (mul q F100)) = Ok u ->
  (q <- truediv c d ;; Ok (mul q F100)) = Ok v ->
  SFleb u v = true.
Proof.
  intros Hb Hd H H1 H2.
  destruct (truediv a b) as [q1|] eqn:E1; [|discriminate].
  destruct (truediv c d) as [q2|] eqn:E2; [|discriminate].
  cbn [bind] in H1, H2. injection H1 as <-. injection H2 as <-.
  destruct (truediv_Rounds _ _ _ Hb E1) as (_ & V1 & F1).
  destruct (truediv_Rounds _ _ _ Hd E2) as (_ & V2 & F2).
  unfold F100. apply mul_pos_mono; try assumption.
  - exact F100_normal.
  - exact (truediv_le _ _ _ _ _ _ Hb Hd H E1 E2).
Qed.

Lemma SFleb_lt_false x y z :
  SFleb x y = true -> SFltb y z = true -> SFleb z x = false.
Proof.
  intros H1 H2. destruct (SFleb z x) eqn:E; [|reflexivity].
  pose proof (SFltb_not_SFleb _ _ H2) as N.
  rewrite (SFleb_trans _ _ _ E H1) in N. discriminate.
Qed.

Lemma percent_total a b :
  0 < b -> Z.abs a < 2 ^ (emax - 1) ->
  exists u, (q <- truediv a b ;; Ok (mul q F100)) = Ok u.
Proof.
  intros Hb Ha. destruct (truediv_total a b Hb Ha) as [q ->].
  eexists. reflexivity.
Qed.

(** The percentage is at least 100.0 exactly when [b <= a], and at least
    70.0 exactly when [7 * b <= 10 * a], for a denominator up to 2^49. *)
Lemma percent_thresholds a b u :
  0 < b <= 2 ^ 49 ->
  (q <- truediv a b ;; Ok (mul q F100)) = Ok u ->
  (geb u F100 = true <-> b <= a) /\
  (geb u F70 = true <-> 7 * b <= 10 * a).
Proof.
  intros [Hb Hb'] Hu. change (2 ^ 49) with 562949953421312 in Hb'.
  unfold geb. split; split.
  - intros G. destruct (Z_lt_le_dec a b) as [L|L]; [exfalso|exact L].
    set (v := S754_finite false 7036874417766399 (-46)).
    assert (Hv : (q <- truediv (2 ^ 53 - 1) (2 ^ 53) ;; Ok (mul q F100)) = Ok v)
      by (vm_compute; reflexivity).
    assert (Lv : SFltb v F100 = true) by reflexivity.
    assert (T : SFleb u v = true).
    { apply (percent_le a b (2 ^ 53 - 1) (2 ^ 53) u v Hb eq_refl);
        [|exact Hu|exact Hv].
      change (2 ^ 53) with 9007199254740992. lia. }
    rewrite (SFleb_lt_false _ _ _ T Lv) in G. discriminate G.
  - intros L.
    apply (percent_le 1 1 a b F100 u eq_refl Hb); [lia|reflexivity|exact Hu].
  - intros G. destruct (Z_lt_le_dec (10 * a) (7 * b)) as [L|L]; [exfalso|exact L].
    set (v := S754_finite false 4925812092436479 (-46)).
    assert (Hv : (q <- truediv 6305039478318693 (2 ^ 53) ;; Ok (mul q F100))
                 = Ok v) by (vm_compute; reflexivity).
    assert (Lv : SFltb v F70 = true) by reflexivity.
    assert (T : SFleb u v = true).
    { apply (percent_le a b 6305039478318693 (2 ^ 53) u v Hb eq_refl);
        [|exact Hu|exact Hv].
      change (2 ^ 53) with 9007199254740992. lia. }
    rewrite (SFleb_lt_false _ _ _ T Lv) in G. discriminate G.
  - intros L.
    apply (percent_le 7 10 a b F70 u eq_refl Hb); [lia|reflexivity|exact Hu].
Qed.

(** X2.  For a limit between 1 and 2^49 paisa the tier of a budget is the
    one of exact arithmetic, whatever the rounding of the two float
    operations: "Over Budget" exactly when nothing remains
    ([calculate_remaining limit spent <= 0]), "Warning" exactly when
    [7 * limit <= 10 * spent < 10 * limit] and "OK" exactly when
    [10 * spent < 7 * limit]; and the utilization is computed without an
    exception as soon as [spent] is within the float range. *)
Theorem budget_tiers_exact (spent limit : Z) :
  0 < limit <= 2 ^ 49 -> Z.abs spent < 2 ^ 1023 ->
  exists u,
    calculate_utilization spent limit = Ok u /\
    (fst (get_budget_status u) = "Over Budget"
     <-> calculate_remaining limit spent <= 0) /\
    (fst (get_budget_status u) = "Warning"
     <-> 7 * limit <= 10 * spent < 10 * limit) /\
    (fst (get_budget_status u) = "OK" <-> 10 * spent < 7 * limit).
Proof.
  intros Hl Hs.
  destruct (percent_total spent limit) as [u Hu]; [lia|exact Hs|].
  exists u. unfold calculate_utilization, calculate_remaining.
  destruct (Z.eqb_spec limit 0) as [E|_]; [lia|].
  split; [exact Hu|].
  destruct (percent_thresholds spent limit u Hl Hu) as [[A1 A2] [B1 B2]].
  unfold get_budget_status.
  destruct (geb u F100) eqn:G100; [|destruct (geb u F70) eqn:G70]; cbn [fst].
  - pose proof (A1 eq_refl). repeat split; intros; try discriminate; lia.
  - pose proof (B1 eq_refl).
    assert (~ limit <= spent) by (intros T; apply A2 in T; discriminate).
    repeat split; intros; try discriminate; lia.
  - assert (~ limit <= spent) by (intros T; apply A2 in T; discriminate).
    assert (~ 7 * limit <= 10 * spent)
      by (intros T; apply B2 in T; discriminate).
    repeat split; intros; try discriminate; lia.
Qed.

Lemma budget_tiers_exact_witness :
  exists u,
    calculate_utilization 6999 10000 = Ok u /\
    (fst (get_budget_status u) = "Over Budget"
     <-> calculate_remaining 10000 6999 <= 0) /\
    (fst (get_budget_status u) = "Warning"
     <-> 7 * 10000 <= 10 * 6999 < 10 * 10000) /\
    (fst (get_budget_status u) = "OK" <-> 10 * 6999 < 7 * 10000).
Proof.
  apply (budget_tiers_exact 6999 10000).
  - split; [lia|]. apply Z.leb_le. vm_compute. reflexivity.
  - apply Z.ltb_lt. vm_compute. reflexivity.
Defined.

(** ** Floats that are not NaN *)

Lemma Rounds_sign_bit x f : Rounds x f -> sign_bit f <> None.
Proof.
  intros [[Hx R]|[[Hx [s ->]]|[Hx R]]].
  - rewrite (rounds_to_sign_bit _ _ _ Hx R). discriminate.
  - discriminate.
  - assert (Hx' : (0 < - x)%Q) by lra.
    rewrite (rounds_to_sign_bit _ _ _ Hx' R). discriminate.
Qed.

(** The quotient of two ints is a finite float whenever it is returned,
    whatever the signs. *)
Lemma truediv_finite a b q : truediv a b = Ok q -> is_finite q = true.
Proof.
  unfold truediv. destruct (Z.eqb_spec b 0) as [->|Hb]; [discriminate|].
  assert (G : forall sx pa sy pb,
    sign_bit (SFdiv prec emax (S754_finite sx pa 0) (S754_finite sy pb 0))
    <> None).
  { intros sx pa sy pb.
    destruct (SFdiv_finite_spec sx pa 0 sy pb 0 _
                (Qdiv_pos_spec (Zpos pa) (Zpos pb) ltac:(lia))) as [Hx Hr].
    rewrite (rounds_to_sign_bit _ _ _ Hx Hr). discriminate. }
  destruct b as [|pb|pb]; [contradiction| |];
    destruct a as [|pa|pa]; cbn [exact_int];
    try (cbn [SFdiv]; intros [= <-]; reflexivity);
    match goal with
    | |- context [SFdiv prec emax (S754_finite ?sx ?pa 0) (S754_finite ?sy ?pb 0)] =>
        pose proof (G sx pa sy pb) as N;
        destruct (SFdiv prec emax (S754_finite sx pa 0) (S754_finite sy pb 0))
    end; intros [= <-]; try reflexivity; contradiction.
Qed.

Lemma percent_not_nan q : is_finite q = true -> is_nan (mul q F100) = false.
Proof.
  intros Hf. pose proof (Rounds_sign_bit _ _ (mul_F100_Rounds q Hf)) as N.
  destruct (mul q F100); try reflexivity. contradiction.
Qed.

Lemma calculate_utilization_not_nan spent budget u :
  calculate_utilization spent budget = Ok u -> is_nan u = false.
Proof.
  unfold calculate_utilization. destruct (budget =? 0); [intros [= <-]; reflexivity|].
  destruct (truediv spent budget) as [q|] eqn:E; [|discriminate].
  cbn [bind]. intros [= <-]. apply percent_not_nan.
  exact (truediv_finite _ _ _ E).
Qed.

(** Two floats that are not NaN are ordered one way or the other. *)
Lemma SFltb_negb_SFleb x y :
  is_nan x = false -> is_nan y = false -> SFltb x y = negb (SFleb y x).
Proof.
  intros Hx Hy. unfold SFltb, SFleb. rewrite (SFcompare_antisym x y).
  destruct x as [sx|sx| |sx mx ex]; try discriminate;
  destruct y as [sy|sy| |sy my ey]; try discriminate;
  destruct (SFcompare _ _) as [[| |]|] eqn:E; try reflexivity;
  exfalso; revert E; unfold SFcompare;
    try destruct sx; try destruct sy; try discriminate;
    destruct (ex ?= ey); try discriminate;
    destruct (Pos.compare_cont Eq mx my); discriminate.
Qed.

(** ** The budget report *)

Lemma mapM_Forall2 {A B : Type} (f : A -> result B) (P : A -> B -> Prop) l :
  forall r, (forall a b, In a l -> f a = Ok b -> P a b) ->
  mapM f l = Ok r -> Forall2 P l r.
Proof.
  induction l as [|a l IH]; intros r HP; cbn [mapM].
  - intros [= <-]. constructor.
  - destruct (f a) as [b|] eqn:Ea; [|discriminate]. cbn [bind].
    destruct (mapM f l) as [bs|] eqn:El; [|discriminate]. cbn [bind].
    intros [= <-]. constructor.
    + apply HP; [left; reflexivity | exact Ea].
    + apply IH; [|reflexivity]. intros a' b' Hin. apply HP. right. exact Hin.
Qed.

Lemma mapM_total {A B : Type} (f : A -> result B) l :
  (forall a, In a l -> exists b, f a = Ok b) -> exists r, mapM f l = Ok r.
Proof.
  induction l as [|a l IH]; intros H; cbn [mapM].
  - eexists. reflexivity.
  - destruct (H a (or_introl eq_refl)) as [b ->]. cbn [bind].
    destruct IH as [bs ->]; [intros a' Hin; apply H; right; exact Hin|].
    eexists. reflexivity.
Qed.

Lemma get_budget_data_entries w data :
  get_budget_data w = Ok data -> Forall2 (entry_of w) (read_budgets w) data.
Proof.
  unfold get_budget_data. apply mapM_Forall2.
  intros budget d _.
  destruct (calculate_utilization _ _) as [u|] eqn:Eu; [|discriminate].
  cbn [bind]. destruct (get_budget_status u) as [text color] eqn:Es.
  intros [= <-]. unfold entry_of, calculate_remaining. cbn.
  repeat split; try reflexivity; [exact Eu | symmetry; exact Es].
Qed.

Lemma sum_app l1 l2 : sum (l1 ++ l2) = sum l1 + sum l2.
Proof.
  induction l1 as [|a l1 IH]; [reflexivity|].
  cbn [app]. rewrite !sum_cons, IH. lia.
Qed.

Lemma sum_filter_bounds {A : Type} (f : A -> Z) (p : A -> bool) l :
  (forall x, In x l -> 0 <= f x) ->
  0 <= sum (map f (filter p l)) <= sum (map f l).
Proof.
  induction l as [|a l IH]; intros H; cbn [filter map].
  - unfold sum. cbn. lia.
  - pose proof (H a (or_introl eq_refl)) as Ha.
    destruct IH as [I1 I2]; [intros x Hx; apply H; right; exact Hx|].
    destruct (p a); cbn [map]; rewrite ?sum_cons; lia.
Qed.

Lemma In_filter_In {A : Type} (p : A -> bool) l x : In x (filter p l) -> In x l.
Proof. intros H. apply filter_In in H. tauto. Qed.

(** In a ledger in range every total that the engine takes over a part of
    the ledger lies between 0 and the total of the whole ledger. *)
Lemma spending_in_range w cat :
  ledger_in_range w ->
  0 <= get_current_month_spending w cat < 2 ^ 1023.
Proof.
  intros (Hpos & Hsum & _).
  unfold get_current_month_spending, filter_by_category,
    filter_current_month_transactions, filter_by_type.
  set (ts := read_transactions w) in *.
  pose proof (sum_filter_bounds amount_paisa
                (fun t => String.eqb (type t) "expense") ts Hpos) as B1.
  set (l1 := filter _ ts) in *.
  assert (P1 : forall t, In t l1 -> 0 <= amount_paisa t)
    by (intros t Ht; apply Hpos; exact (In_filter_In _ _ _ Ht)).
  pose proof (sum_filter_bounds amount_paisa
     (fun t => String.eqb (get_month_from_date (date t)) (get_current_month w))
     l1 P1) as B2.
  set (l2 := filter _ l1) in *.
  assert (P2 : forall t, In t l2 -> 0 <= amount_paisa t)
    by (intros t Ht; apply P1; exact (In_filter_In _ _ _ Ht)).
  pose proof (sum_filter_bounds amount_paisa
     (fun t => String.eqb (category t) cat) l2 P2) as B3.
  lia.
Qed.

Lemma month_total_in_range w month ty :
  ledger_in_range w ->
  0 <= sum (map amount_paisa
             (filter_by_type
                (filter_transactions_by_month (read_transactions w) month) ty))
    < 2 ^ 1023.
Proof.
  intros (Hpos & Hsum & _).
  unfold filter_by_type, filter_transactions_by_month.
  set (ts := read_transactions w) in *.
  pose proof (sum_filter_bounds amount_paisa
                (fun t => String.prefix month (date t)) ts Hpos) as B1.
  set (l1 := filter _ ts) in *.
  assert (P1 : forall t, In t l1 -> 0 <= amount_paisa t)
    by (intros t Ht; apply Hpos; exact (In_filter_In _ _ _ Ht)).
  pose proof (sum_filter_bounds amount_paisa
     (fun t => String.eqb (type t) ty) l1 P1) as B2.
  lia.
Qed.

Lemma calculate_utilization_total spent budget :
  0 <= budget -> Z.abs spent < 2 ^ 1023 ->
  exists u, calculate_utilization spent budget = Ok u.
Proof.
  intros Hb Hs. unfold calculate_utilization.
  destruct (Z.eqb_spec budget 0) as [E|N]; [eexists; reflexivity|].
  apply percent_total; [lia | exact Hs].
Qed.

Lemma get_budget_data_returns w :
  ledger_in_range w -> exists data, get_budget_data w = Ok data.
Proof.
  intros Hr. unfold get_budget_data. apply mapM_total. intros budget Hin.
  destruct (calculate_utilization_total
              (get_current_month_spending w (b_category budget))
              (limit_paisa budget)) as [u Hu].
  - destruct Hr as (_ & _ & Hl). apply Hl. exact Hin.
  - pose proof (spending_in_range w (b_category budget) Hr). lia.
  - unfold calculate_remaining. rewrite Hu. cbn [bind].
    destruct (get_budget_status u). eexists. reflexivity.
Qed.

(** X3.  For a ledger in range [get_budget_data] raises nothing, not even
    for a limit of 0, and reports the lines of the budget file one by one
    and in their order: each entry carries the category, limit and period of
    its line, the spending of the category in the current month, what
    remains ([limit - spent], negative when overspent), the utilization of
    [calculate_utilization], which is never a NaN, and the tier of
    [get_budget_status] for it. *)
Theorem get_budget_data_report (w : Env) :
  ledger_in_range w ->
  exists data,
    get_budget_data w = Ok data /\
    Forall2 (entry_of w) (read_budgets w) data /\
    Forall (fun d => is_nan (utilization d) = false) data.
Proof.
  intros Hr. destruct (get_budget_data_returns w Hr) as [data Hd].
  exists data. split; [exact Hd|].
  pose proof (get_budget_data_entries w data Hd) as F. split; [exact F|].
  clear Hd. induction F as [|b d bs ds Hbd _ IH]; constructor; [|exact IH].
  destruct Hbd as (_ & _ & _ & _ & _ & Hu & _).
  exact (calculate_utilization_not_nan _ _ _ Hu).
Qed.

Lemma ledger_in_range_check w :
  forallb (fun t => 0 <=? amount_paisa t) (read_transactions w) = true ->
  (sum (map amount_paisa (read_transactions w)) <? 2 ^ 1023) = true ->
  forallb (fun b => 0 <=? limit_paisa b) (read_budgets w) = true ->
  ledger_in_range w.
Proof.
  intros H1 H2 H3. rewrite forallb_forall in H1, H3. repeat split.
  - intros t Ht. apply Z.leb_le, H1, Ht.
  - apply Z.ltb_lt, H2.
  - intros b Hb. apply Z.leb_le, H3, Hb.
Qed.

Lemma get_budget_data_report_witness :
  ledger_in_range env_budgeted /\
  exists data,
    get_budget_data env_budgeted = Ok data /\
    Forall2 (entry_of env_budgeted) (read_budgets env_budgeted) data /\
    Forall (fun d => is_nan (utilization d) = false) data.
Proof.
  assert (R : ledger_in_range env_budgeted)
    by (apply ledger_in_range_check; vm_compute; reflexivity).
  split; [exact R|]. exact (get_budget_data_report env_budgeted R).
Defined.

(** ** The three lists of budgeted categories *)

Lemma partition3_perm {A : Type} (p1 p2 p3 : A -> bool) l :
  (forall x, In x l ->
     (p1 x = true /\ p2 x = false /\ p3 x = false) \/
     (p1 x = false /\ p2 x = true /\ p3 x = false) \/
     (p1 x = false /\ p2 x = false /\ p3 x = true)) ->
  Permutation (filter p1 l ++ filter p2 l ++ filter p3 l) l.
Proof.
  induction l as [|a l IH]; intros H; [constructor|].
  assert (IH' := IH (fun x Hx => H x (or_intror Hx))). clear IH.
  cbn [filter].
  destruct (H a (or_introl eq_refl)) as [(-> & -> & ->)|[(-> & -> & ->)|(-> & -> & ->)]].
  - cbn [app]. constructor. exact IH'.
  - apply Permutation_sym, Permutation_cons_app, Permutation_sym. exact IH'.
  - rewrite app_assoc.
    apply Permutation_sym, Permutation_cons_app, Permutation_sym.
    rewrite <- app_assoc. exact IH'.
Qed.

Lemma status_text_cases u :
  is_nan u = false ->
  let text := fst (get_budget_status u) in
  (geb u F100 = String.eqb text "Over Budget") /\
  (geb u F70 && ltb u F100 = String.eqb text "Warning") /\
  (ltb u F70 = String.eqb text "OK").
Proof.
  intros Hn. unfold get_budget_status, geb, ltb.
  rewrite (SFltb_negb_SFleb u F100 Hn eq_refl),
          (SFltb_negb_SFleb u F70 Hn eq_refl).
  destruct (SFleb F100 u) eqn:A.
  - rewrite (SFleb_trans F70 F100 u eq_refl A). cbn. repeat split.
  - destruct (SFleb F70 u); cbn; repeat split.
Qed.

(** X4.  The categories over budget, at warning level and healthy are read
    off the same report, and every line of the report falls in exactly one
    of the three lists: together they are a permutation of the budgeted
    categories, and each list holds the categories of the entries with the
    status "Over Budget", "Warning" and "OK" respectively, so the lists
    agree with the status shown in the budget table. *)
Theorem budget_categories_partition (w : Env) (data : list BudgetData) :
  get_budget_data w = Ok data ->
  exists over warning healthy,
    get_overbudget_categories w = Ok over /\
    get_warning_categories w = Ok warning /\
    get_healthy_categories w = Ok healthy /\
    Permutation (over ++ warning ++ healthy) (map bd_category data) /\
    over = map bd_category
             (filter (fun d => String.eqb (bd_status_text d) "Over Budget") data) /\
    warning = map bd_category
             (filter (fun d => String.eqb (bd_status_text d) "Warning") data) /\
    healthy = map bd_category
             (filter (fun d => String.eqb (bd_status_text d) "OK") data).
Proof.
  intros Hd.
  unfold get_overbudget_categories, get_warning_categories,
    get_healthy_categories. rewrite Hd. cbn [bind].
  do 3 eexists. do 3 (split; [reflexivity|]).
  pose proof (get_budget_data_entries w data Hd) as F.
  assert (C : forall d, In d data ->
    (geb (utilization d) F100 = String.eqb (bd_status_text d) "Over Budget") /\
    (geb (utilization d) F70 && ltb (utilization d) F100
     = String.eqb (bd_status_text d) "Warning") /\
    (ltb (utilization d) F70 = String.eqb (bd_status_text d) "OK")).
  { clear Hd. induction F as [|b d bs ds Hbd _ IH]; intros d' Hin;
      [contradiction|].
    destruct Hin as [<-|Hin]; [|exact (IH d' Hin)].
    destruct Hbd as (_ & _ & _ & _ & _ & Hu & Hs).
    pose proof (status_text_cases (utilization d)
                  (calculate_utilization_not_nan _ _ _ Hu)) as T.
    cbn zeta in T. rewrite <- Hs in T. exact T. }
  rewrite (filter_ext_in _ _ _ (fun d Hin => proj1 (C d Hin))).
  rewrite (filter_ext_in _ _ _ (fun d Hin => proj1 (proj2 (C d Hin)))).
  rewrite (filter_ext_in _ _ _ (fun d Hin => proj2 (proj2 (C d Hin)))).
  split; [|repeat split].
  rewrite <- !map_app. apply Permutation_map, partition3_perm.
  intros d Hin. destruct (C d Hin) as (C1 & C2 & C3).
  rewrite <- C1, <- C2, <- C3. clear C1 C2 C3.
  pose proof (get_budget_data_entries w data Hd) as F'.
  assert (Hn : is_nan (utilization d) = false).
  { clear -F' Hin. induction F' as [|b d0 bs ds Hbd _ IH]; [contradiction|].
    destruct Hin as [<-|Hin]; [|exact (IH Hin)].
    destruct Hbd as (_ & _ & _ & _ & _ & Hu & _).
    exact (calculate_utilization_not_nan _ _ _ Hu). }
  unfold geb, ltb.
  rewrite (SFltb_negb_SFleb _ F100 Hn eq_refl),
          (SFltb_negb_SFleb _ F70 Hn eq_refl).
  destruct (SFleb F100 (utilization d)) eqn:A.
  - rewrite (SFleb_trans F70 F100 _ eq_refl A). cbn. tauto.
  - destruct (SFleb F70 (utilization d)); cbn; tauto.
Qed.

Lemma budget_categories_partition_witness :
  get_budget_data env_budgeted = Ok report_budgeted /\
  exists over warning healthy,
    get_overbudget_categories env_budgeted = Ok over /\
    get_warning_categories env_budgeted = Ok warning /\
    get_healthy_categories env_budgeted = Ok healthy /\
    Permutation (over ++ warning ++ healthy)
      (map bd_category report_budgeted) /\
    over = map bd_category
             (filter (fun d => String.eqb (bd_status_text d) "Over Budget")
                     report_budgeted) /\
    warning = map bd_category
             (filter (fun d => String.eqb (bd_status_text d) "Warning")
                     report_budgeted) /\
    healthy = map bd_category
             (filter (fun d => String.eqb (bd_status_text d) "OK")
                     report_budgeted).
Proof.
  assert (H : get_budget_data env_budgeted = Ok report_budgeted)
    by (vm_compute; reflexivity).
  split; [exact H|].
  exact (budget_categories_partition env_budgeted report_budgeted H).
Defined.

(** ** The range of the health score *)

Lemma calculate_savings_rate_total w month :
  ledger_in_range w -> exists r, calculate_savings_rate w month = Ok r.
Proof.
  intros Hr. unfold calculate_savings_rate, calculate_monthly_savings,
    calculate_total_income_month, calculate_total_spending.
  pose proof (month_total_in_range w month "income" Hr) as Bi.
  pose proof (month_total_in_range w month "expense" Hr) as Be.
  set (income := sum _) in *. set (expenses := sum _) in *.
  destruct (Z.eqb_spec income 0) as [E|N]; [eexists; reflexivity|].
  apply percent_total; [lia|]. unfold emax. change (1024 - 1) with 1023. lia.
Qed.

Lemma calculate_savings_score_range w :
  ledger_in_range w ->
  exists s, calculate_savings_score w = Ok s /\ 0 <= s <= 30.
Proof.
  intros Hr. unfold calculate_savings_score.
  destruct (calculate_savings_rate_total w (get_current_month w) Hr) as [r ->].
  cbn [bind].
  destruct (geb r F20); [eexists; split; [reflexivity|lia]|].
  destruct (geb r F15); [eexists; split; [reflexivity|lia]|].
  destruct (geb r F10); [eexists; split; [reflexivity|lia]|].
  destruct (geb r F5); eexists; (split; [reflexivity|lia]).
Qed.

(** A quotient of magnitude at most 1 is always returned. *)
Lemma truediv_fraction_total a b :
  0 <= a <= b -> 0 < b -> exists q, truediv a b = Ok q.
Proof.
  intros Ha Hb. unfold truediv.
  destruct (Z.eqb_spec b 0) as [->|_]; [lia|].
  destruct b as [|pb|pb]; [lia| |lia]. cbn [exact_int].
  destruct a as [|pa|pa]; cbn [exact_int]; [eexists; reflexivity| |lia].
  destruct (SFdiv_finite_spec false pa 0 false pb 0 _
              (Qdiv_pos_spec (Zpos pa) (Zpos pb) Hb)) as [Hx Hr].
  assert (Hf : is_finite (SFdiv prec emax (S754_finite false pa 0)
                            (S754_finite false pb 0)) = true).
  { eapply rounds_to_finite; [exact Hx| |exact Hr].
    apply Qle_lt_trans with 1%Q.
    - apply Qle_shift_div_r; [apply inject_Z_pos; lia|].
      rewrite Qmult_1_l, <- Zle_Qle. lia.
    - apply (pow2_lt 0). unfold emax. lia. }
  destruct (SFdiv prec emax (S754_finite false pa 0) (S754_finite false pb 0));
    try discriminate; eexists; reflexivity.
Qed.

Lemma len_filter_le {A : Type} (p : A -> bool) (l : list A) :
  0 <= len (filter p l) <= len l.
Proof.
  unfold len. pose proof (filter_length_le p l). lia.
Qed.

Lemma calculate_budget_adherence_score_range w :
  ledger_in_range w ->
  exists s, calculate_budget_adherence_score w = Ok s /\ 0 <= s <= 25.
Proof.
  intros Hr. unfold calculate_budget_adherence_score.
  destruct (read_budgets w) as [|b0 bs0] eqn:Eb;
    [eexists; split; [reflexivity|lia]|].
  destruct (get_budget_data_returns w Hr) as (data & ->). cbn [bind].
  destruct data as [|d data]; [eexists; split; [reflexivity|lia]|].
  set (l := d :: data).
  destruct (Z.eqb_spec (len l) 0) as [E|N]; [eexists; split; [reflexivity|lia]|].
  pose proof (len_filter_le (fun b => ltb (utilization b) F100) l) as B.
  destruct (truediv_fraction_total _ (len l) B ltac:(lia)) as [q ->].
  cbn [bind].
  destruct (eqb _ F100); [eexists; split; [reflexivity|lia]|].
  destruct (geb _ F75); [eexists; split; [reflexivity|lia]|].
  destruct (geb _ F50); [eexists; split; [reflexivity|lia]|].
  destruct (geb _ F25); eexists; (split; [reflexivity|lia]).
Qed.

Lemma detect_spending_spikes_total w :
  ledger_in_range w -> exists spikes, detect_spending_spikes w = Ok spikes.
Proof.
  intros Hr. unfold detect_spending_spikes.
  pose proof (month_total_in_range w (get_current_month w) "expense" Hr) as B.
  destruct (filter_by_type _ _) as [|t l] eqn:E; [eexists; reflexivity|].
  destruct (truediv_total (sum (map amount_paisa (t :: l)))
              (len (map amount_paisa (t :: l)))) as [avg ->].
  - unfold len. cbn [map List.length]. lia.
  - unfold emax. change (1024 - 1) with 1023. lia.
  - cbn [bind]. eexists. reflexivity.
Qed.

Lemma calculate_consistency_score_range w :
  ledger_in_range w ->
  exists s, calculate_consistency_score w = Ok s /\ 5 <= s <= 20.
Proof.
  intros Hr. unfold calculate_consistency_score.
  destruct (detect_spending_spikes_total w Hr) as [spikes ->]. cbn [bind].
  destruct (len spikes =? 0); [eexists; split; [reflexivity|lia]|].
  destruct (len spikes =? 1); [eexists; split; [reflexivity|lia]|].
  destruct (len spikes =? 2); eexists; (split; [reflexivity|lia]).
Qed.

(** X5.  For every ledger in range the health score is computed without an
    exception and lies between 5 and 100: the consistency component is at
    least 5, so a score of 0 is never reported. *)
Theorem health_score_range (w : Env) :
  ledger_in_range w ->
  exists score,
    calculate_overall_health_score w = Ok score /\ 5 <= score <= 100.
Proof.
  intros Hr. unfold calculate_overall_health_score.
  destruct (calculate_savings_score_range w Hr) as (s1 & -> & B1).
  destruct (calculate_budget_adherence_score_range w Hr) as (s2 & -> & B2).
  destruct (calculate_consistency_score_range w Hr) as (s4 & -> & B4).
  cbn [bind]. eexists. split; [reflexivity|].
  unfold calculate_balance_score.
  destruct (0 <? _); [lia|]. destruct (_ =? 0); lia.
Qed.

Lemma health_score_range_witness :
  ledger_in_range env_poor /\
  exists score,
    calculate_overall_health_score env_poor = Ok score /\ 5 <= score <= 100.
Proof.
  assert (R : ledger_in_range env_poor)
    by (apply ledger_in_range_check; vm_compute; reflexivity).
  split; [exact R|]. exact (health_score_range env_poor R).
Defined.

(** Both ends of the range are reached. *)
Remark health_score_extremes :
  calculate_overall_health_score env_poor = Ok 5 /\
  calculate_overall_health_score env_ideal = Ok 100.
Proof. split; vm_compute; reflexivity. Qed.

(** ** Totals by category *)

Lemma dict_get_set {V : Type} (d : dict V) k v k' default :
  dict_get (dict_set d k v) k' default
  = if String.eqb k k' then v else dict_get d k' default.
Proof.
  induction d as [|[k0 v0] d IH]; cbn [dict_set dict_get].
  - reflexivity.
  - destruct (String.eqb_spec k0 k) as [->|N]; cbn [dict_get].
    + destruct (String.eqb k k'); reflexivity.
    + rewrite IH. destruct (String.eqb_spec k0 k') as [->|N'];
        [|reflexivity].
      destruct (String.eqb_spec k k') as [->|_]; [contradiction|reflexivity].
Qed.

Lemma dict_set_keys {V : Type} (d : dict V) k v :
  map fst (dict_set d k v)
  = if existsb (String.eqb k) (map fst d) then map fst d
    else map fst d ++ [k].
Proof.
  induction d as [|[k0 v0] d IH]; cbn [dict_set map fst existsb app].
  - reflexivity.
  - rewrite (String.eqb_sym k k0).
    destruct (String.eqb_spec k0 k) as [->|N]; cbn [map fst orb].
    + reflexivity.
    + rewrite IH. destruct (existsb _ _); reflexivity.
Qed.

Lemma existsb_eqb_In k (l : list string) :
  existsb (String.eqb k) l = true <-> In k l.
Proof.
  rewrite existsb_exists. split.
  - intros (x & Hx & E). apply String.eqb_eq in E. subst. exact Hx.
  - intros H. exists k. split; [exact H | apply String.eqb_refl].
Qed.

Lemma dict_set_NoDup {V : Type} (d : dict V) k v :
  NoDup (map fst d) -> NoDup (map fst (dict_set d k v)).
Proof.
  intros H. rewrite dict_set_keys.
  destruct (existsb (String.eqb k) (map fst d)) eqn:E; [exact H|].
  apply NoDup_app; [exact H | repeat constructor; intros [] |].
  intros x Hx [<-|[]].
  apply existsb_eqb_In in Hx. congruence.
Qed.

Lemma dict_set_In_key {V : Type} (d : dict V) k v x :
  In x (map fst (dict_set d k v)) <-> In x (map fst d) \/ x = k.
Proof.
  rewrite dict_set_keys.
  destruct (existsb (String.eqb k) (map fst d)) eqn:E.
  - apply existsb_eqb_In in E. split; [tauto|].
    intros [H| ->]; assumption.
  - rewrite in_app_iff. cbn [In]. split.
    + intros [H|[<-|[]]]; [left; exact H | right; reflexivity].
    + intros [H| ->]; [left; exact H | right; left; reflexivity].
Qed.

Lemma dict_get_In {V : Type} (d : dict V) k v default :
  NoDup (map fst d) -> In (k, v) d -> dict_get d k default = v.
Proof.
  induction d as [|[k0 v0] d IH]; intros Hn Hin; [contradiction|].
  cbn [map fst] in Hn. inversion Hn as [|? ? Hnot Hn']; subst.
  cbn [dict_get]. destruct Hin as [[= -> ->]|Hin].
  - rewrite String.eqb_refl. reflexivity.
  - destruct (String.eqb_spec k0 k) as [->|_]; [|exact (IH Hn' Hin)].
    exfalso. apply Hnot. apply (in_map fst) in Hin. exact Hin.
Qed.

Lemma dict_set_values (d : dict Z) k v :
  sum (map snd (dict_set d k v)) = sum (map snd d) + v - dict_get d k 0.
Proof.
  induction d as [|[k0 v0] d IH]; cbn [dict_set dict_get map snd].
  - rewrite sum_cons. unfold sum. cbn. lia.
  - destruct (String.eqb k0 k); cbn [map snd]; rewrite !sum_cons.
    + lia.
    + rewrite IH. lia.
Qed.

(** The dict built by the loop over the transactions [ts], started from the
    dict [d]. *)
Lemma add_to_category_fold ts : forall d,
  NoDup (map fst d) ->
  let r := fold_left add_to_category ts d in
  NoDup (map fst r) /\
  (forall cat, dict_get r cat 0
               = dict_get d cat 0
                 + sum (map amount_paisa (filter_by_category ts cat))) /\
  (forall cat, In cat (map fst r)
               <-> In cat (map fst d) \/ In cat (map category ts)) /\
  sum (map snd r) = sum (map snd d) + sum (map amount_paisa ts).
Proof.
  induction ts as [|t ts IH]; intros d Hd; cbn [fold_left].
  - cbn zeta. repeat split; try assumption.
    + intros cat. unfold filter_by_category, sum. cbn. lia.
    + tauto.
    + intros [H|[]]. exact H.
    + unfold sum at 3. cbn. lia.
  - specialize (IH (add_to_category d t)
                   (dict_set_NoDup d (category t) _ Hd)).
    cbn zeta in *. destruct IH as (I1 & I2 & I3 & I4).
    repeat split.
    + exact I1.
    + intros cat. rewrite I2. unfold add_to_category, filter_by_category.
      rewrite dict_get_set. cbn [filter].
      rewrite (String.eqb_sym (category t) cat).
      destruct (String.eqb_spec cat (category t)) as [->|N];
        cbn [map]; rewrite ?sum_cons; lia.
    + rewrite I3. unfold add_to_category. rewrite dict_set_In_key.
      cbn [map In]. intros [[H|H]|H]; auto.
    + rewrite I3. unfold add_to_category. rewrite dict_set_In_key.
      cbn [map In]. intros [H|[H|H]]; auto.
    + rewrite I4. unfold add_to_category. rewrite dict_set_values.
      cbn [map]. rewrite sum_cons. lia.
Qed.

(** X6.  The dict of [get_spending_by_category] has one key for each
    category with an expense in the month, and no other; the amount under a
    key is what [calculate_category_spending] computes for that category,
    and the amounts add up to [calculate_total_spending]. *)
Theorem spending_by_category_spec (w : Env) (month : option string) :
  let m := match month with
           | None => get_current_month w
           | Some m => m
           end in
  let expenses :=
    filter_by_type (filter_transactions_by_month (read_transactions w) m)
                   "expense" in
  let d := get_spending_by_category w month in
  NoDup (map fst d) /\
  (forall cat, In cat (map fst d) <-> In cat (map category expenses)) /\
  (forall cat amount,
     In (cat, amount) d -> amount = calculate_category_spending w cat m) /\
  sum (map snd d) = calculate_total_spending w m.
Proof.
  cbn zeta. unfold get_spending_by_category.
  set (m := match month with None => _ | Some m => m end).
  set (expenses := filter_by_type _ "expense").
  destruct (add_to_category_fold expenses [] (NoDup_nil _))
    as (H1 & H2 & H3 & H4). cbn zeta in *.
  split; [exact H1|]. split; [|split].
  - intros cat. rewrite H3. cbn. tauto.
  - intros cat amount Hin.
    rewrite <- (dict_get_In _ cat amount 0 H1 Hin), H2. reflexivity.
  - rewrite H4. unfold sum at 1. reflexivity.
Qed.

(** ** The top categories *)

Lemma insert_reverse_perm {A : Type} (key : A -> Z) x l :
  Permutation (x :: l) (insert_reverse key x l).
Proof.
  induction l as [|y l IH]; cbn [insert_reverse]; [reflexivity|].
  destruct (key y <=? key x); [reflexivity|].
  apply perm_trans with (y :: x :: l); [apply perm_swap|].
  apply perm_skip. exact IH.
Qed.

Lemma sorted_reverse_perm {A : Type} (key : A -> Z) l :
  Permutation l (sorted_reverse key l).
Proof.
  induction l as [|x l IH]; cbn; [constructor|].
  apply perm_trans with (x :: sorted_reverse key l).
  - apply perm_skip. exact IH.
  - apply insert_reverse_perm.
Qed.

Lemma insert_reverse_sorted {A : Type} (key : A -> Z) x l :
  StronglySorted (fun a b => key b <= key a) l ->
  StronglySorted (fun a b => key b <= key a) (insert_reverse key x l).
Proof.
  induction l as [|y l IH]; intros H; cbn [insert_reverse].
  - repeat constructor.
  - inversion H as [|? ? Hs Hf]; subst.
    destruct (Z.leb_spec (key y) (key x)) as [L|L].
    + constructor; [exact H|]. constructor; [exact L|].
      rewrite Forall_forall in *. intros z Hz. specialize (Hf z Hz). lia.
    + constructor; [exact (IH Hs)|].
      rewrite Forall_forall in *. intros z Hz.
      apply (Permutation_in _ (Permutation_sym (insert_reverse_perm key x l)))
        in Hz.
      destruct Hz as [<-|Hz]; [lia | exact (Hf z Hz)].
Qed.

Lemma sorted_reverse_sorted {A : Type} (key : A -> Z) l :
  StronglySorted (fun a b => key b <= key a) (sorted_reverse key l).
Proof.
  induction l as [|x l IH]; cbn; [constructor|].
  apply insert_reverse_sorted. exact IH.
Qed.

Lemma StronglySorted_firstn {A : Type} (R : A -> A -> Prop) n : forall l,
  StronglySorted R l ->
  StronglySorted R (firstn n l) /\
  (forall x y, In x (firstn n l) -> In y (skipn n l) -> R x y).
Proof.
  induction n as [|n IH]; intros l H.
  - cbn. split; [constructor | intros x y []].
  - destruct l as [|a l]; [cbn; split; [constructor | intros x y []]|].
    inversion H as [|? ? Hs Hf]; subst.
    destruct (IH l Hs) as [I1 I2]. cbn [firstn skipn]. split.
    + constructor; [exact I1|].
      rewrite Forall_forall in *. intros z Hz. apply Hf.
      rewrite <- (firstn_skipn n l). apply in_or_app. left. exact Hz.
    + intros x y [<-|Hx] Hy.
      * rewrite Forall_forall in Hf. apply Hf.
        rewrite <- (firstn_skipn n l). apply in_or_app. right. exact Hy.
      * exact (I2 x y Hx Hy).
Qed.

Lemma len_firstn {A : Type} (n : nat) (l : list A) :
  len (firstn n l) = Z.min (Z.of_nat n) (len l).
Proof. unfold len. rewrite length_firstn. lia. Qed.

(** X7.  [get_top_spending_categories] returns the beginning of the
    categories of [get_spending_by_category] put in decreasing order of
    amount: the result is sorted, the categories left out spend no more
    than any category returned, and together the two are the whole dict.
    [n] categories are returned when there are that many; a negative [n]
    leaves out the last [-n] categories instead of returning none. *)
Theorem top_spending_categories_spec (w : Env) (n : Z) (month : option string) :
  let all := get_spending_by_category w month in
  let top := get_top_spending_categories w n month in
  StronglySorted (fun a b => snd b <= snd a) top /\
  (exists rest,
     Permutation (top ++ rest) all /\
     forall c c', In c top -> In c' rest -> snd c' <= snd c) /\
  len top = if n <? 0 then Z.max 0 (len all + n) else Z.min n (len all).
Proof.
  cbn zeta. unfold get_top_spending_categories, get_spending_by_category.
  set (m := match month with None => _ | Some m => m end).
  set (d := fold_left add_to_category _ []).
  pose proof (sorted_reverse_sorted snd d) as S.
  pose proof (sorted_reverse_perm snd d) as P.
  assert (L : len (sorted_reverse snd d) = len d)
    by (unfold len; rewrite (Permutation_length P); reflexivity).
  unfold slice_to. rewrite L.
  set (k := if n <? 0 then Z.to_nat (len d + n) else Z.to_nat n).
  assert (E : (if n <? 0 then firstn (Z.to_nat (len d + n)) (sorted_reverse snd d)
               else firstn (Z.to_nat n) (sorted_reverse snd d))
              = firstn k (sorted_reverse snd d))
    by (unfold k; destruct (n <? 0); reflexivity).
  rewrite E. clear E.
  destruct (StronglySorted_firstn _ k _ S) as [S1 S2].
  split; [exact S1|]. split.
  - exists (skipn k (sorted_reverse snd d)). split.
    + rewrite firstn_skipn. apply Permutation_sym. exact P.
    + intros c c' Hc Hc'. exact (S2 c c' Hc Hc').
  - rewrite len_firstn, L. unfold k.
    assert (0 <= len d) by (unfold len; lia).
    destruct (Z.ltb_spec n 0); lia.
Qed.

(** ** Deleting a goal *)

Lemma get_goal_by_name_None lower goals goal_name :
  get_goal_by_name lower goals goal_name = None <->
  forall g, In g goals -> lower (name g) <> lower goal_name.
Proof.
  induction goals as [|g goals IH]; cbn [get_goal_by_name].
  - split; [intros _ g [] | reflexivity].
  - destruct (String.eqb_spec (lower (name g)) (lower goal_name)) as [E|N].
    + split; [discriminate|]. intros H. exfalso.
      exact (H g (or_introl eq_refl) E).
    + rewrite IH. split.
      * intros H g' [<-|Hin]; [exact N | exact (H g' Hin)].
      * intros H g' Hin. apply H. right. exact Hin.
Qed.

Lemma filter_length_eq {A : Type} (p : A -> bool) (l : list A) :
  List.length (filter p l) = List.length l -> filter p l = l.
Proof.
  induction l as [|a l IH]; [reflexivity|]. cbn [filter].
  destruct (p a); cbn [List.length]; intros H.
  - f_equal. apply IH. lia.
  - pose proof (filter_length_le p l). lia.
Qed.

Lemma progress_first_not_found lower goals goal_name amount :
  (forall g, In g goals -> lower (name g) <> lower goal_name) ->
  progress_first lower goals goal_name amount = (false, goals).
Proof.
  induction goals as [|g goals IH]; intros H; cbn [progress_first].
  - reflexivity.
  - destruct (String.eqb_spec (lower (name g)) (lower goal_name)) as [E|N].
    + exfalso. exact (H g (or_introl eq_refl) E).
    + rewrite IH; [reflexivity|]. intros g' Hin. apply H. right. exact Hin.
Qed.

(** X8.  [delete_goal] removes every goal whose name matches without regard
    to case and keeps the other goals in their order; it reports a deletion
    exactly when some goal matched.  Afterwards the name is free:
    [get_goal_by_name] finds nothing under it, and [update_goal_progress]
    reports a failure and leaves the file as it is. *)
Theorem delete_goal_spec (lower : string -> string) (goals : list Goal)
    (goal_name : string) (amount : Z) :
  let deleted := fst (delete_goal lower goals goal_name) in
  let goals' := snd (delete_goal lower goals goal_name) in
  goals' = filter (fun g => negb (String.eqb (lower (name g))
                                             (lower goal_name))) goals /\
  (deleted = true <->
   exists g, In g goals /\ lower (name g) = lower goal_name) /\
  get_goal_by_name lower goals' goal_name = None /\
  update_goal_progress lower goals' goal_name amount = (false, goals').
Proof.
  cbn zeta. unfold delete_goal.
  set (p := fun g => negb (String.eqb (lower (name g)) (lower goal_name))).
  assert (Hp : forall g, In g (filter p goals) ->
                         lower (name g) <> lower goal_name).
  { intros g Hin. apply filter_In in Hin. destruct Hin as [_ Hg].
    unfold p in Hg. destruct (String.eqb_spec (lower (name g)) (lower goal_name));
      [discriminate|assumption]. }
  assert (G : snd (if Nat.eqb (List.length (filter p goals)) (List.length goals)
                   then (false, goals) else (true, filter p goals))
              = filter p goals).
  { destruct (Nat.eqb_spec (List.length (filter p goals)) (List.length goals))
      as [E|N]; cbn [snd]; [|reflexivity].
    symmetry. apply filter_length_eq. exact E. }
  rewrite G. split; [reflexivity|]. split; [|split].
  - destruct (Nat.eqb_spec (List.length (filter p goals)) (List.length goals))
      as [E|N]; cbn [fst].
    + split; [discriminate|]. intros (g & Hin & Hg). exfalso.
      rewrite <- (filter_length_eq p goals E) in Hin. exact (Hp g Hin Hg).
    + split; [intros _|reflexivity].
      destruct (Exists_dec (fun g => lower (name g) = lower goal_name) goals)
        as [Ex|Nex]; [intros g; apply string_dec| |].
      * apply Exists_exists in Ex. exact Ex.
      * exfalso. apply N. f_equal. 
        assert (filter p goals = goals); [|congruence].
        clear -Nex. induction goals as [|g goals IH]; [reflexivity|].
        cbn [filter]. unfold p at 1.
        destruct (String.eqb_spec (lower (name g)) (lower goal_name)) as [E|_].
        -- exfalso. apply Nex. left. exact E.
        -- cbn [negb]. f_equal. apply IH. intros H. apply Nex. right. exact H.
  - apply get_goal_by_name_None. exact Hp.
  - unfold update_goal_progress.
    rewrite (progress_first_not_found lower _ goal_name amount Hp).
    reflexivity.
Qed.

(** ** The monthly savings that a goal requires *)

(** X9.  Whatever the clock and the deadline, the number of months counted
    until the deadline is at least 1, so [calculate_required_monthly_savings]
    never divides by zero and never takes its branch for a deadline that has
    passed; the amount it returns is 0 for a goal that is reached and
    otherwise the remaining amount divided by the months and rounded down,
    which is the whole remaining amount as soon as the deadline is less than
    sixty days away. *)
Theorem required_monthly_savings_spec
    (calculate_days_until_deadline : string -> Z) (goal : Goal) :
  let remaining := target_paisa goal - current_paisa goal in
  let months :=
    calculate_months_until_deadline calculate_days_until_deadline
      (deadline goal) in
  let required :=
    calculate_required_monthly_savings calculate_days_until_deadline goal in
  1 <= months /\
  (remaining <= 0 -> required = 0) /\
  (0 < remaining ->
   0 <= required <= remaining /\
   required * months <= remaining < (required + 1) * months) /\
  (0 < remaining -> calculate_days_until_deadline (deadline goal) < 60 ->
   required = remaining).
Proof.
  cbn zeta. unfold calculate_required_monthly_savings,
    calculate_months_until_deadline.
  set (days := calculate_days_until_deadline (deadline goal)).
  set (remaining := target_paisa goal - current_paisa goal).
  assert (M : 1 <= Z.max 1 (days / 30)) by lia.
  split; [exact M|]. split; [|split].
  - intros H. destruct (Z.leb_spec remaining 0); [reflexivity|lia].
  - intros H. destruct (Z.leb_spec remaining 0) as [L|_]; [lia|].
    destruct (Z.leb_spec (Z.max 1 (days / 30)) 0) as [L|_]; [lia|].
    set (m := Z.max 1 (days / 30)) in *.
    pose proof (Z.div_mod remaining m ltac:(lia)) as D.
    pose proof (Z.mod_pos_bound remaining m ltac:(lia)) as B.
    assert (0 <= remaining / m) by (apply Z.div_pos; lia).
    split; nia.
  - intros H Hd. destruct (Z.leb_spec remaining 0) as [L|_]; [lia|].
    assert (E : Z.max 1 (days / 30) = 1).
    { assert (days / 30 < 2) by (apply Z.div_lt_upper_bound; lia). lia. }
    rewrite E. cbn. apply Z.div_1_r.
Qed.

(** * Texts: lines, fields and printed numbers *)


(* ===================================================================== *)
(** * Facts about strings *)
(* ===================================================================== *)

Lemma append_assoc (a b c : string) : ((a ++ b) ++ c = a ++ (b ++ c))%string.
Proof. induction a as [|x a IH]; cbn; [reflexivity | rewrite IH; reflexivity]. Qed.

Lemma append_nil_r (a : string) : (a ++ "" = a)%string.
Proof. induction a as [|x a IH]; cbn; [reflexivity | rewrite IH; reflexivity]. Qed.

Lemma lacks_app c (a b : string) :
  lacks c (a ++ b)%string = lacks c a && lacks c b.
Proof.
  induction a as [|x a IH]; cbn; [reflexivity|].
  rewrite IH. apply andb_assoc.
Qed.

(** ** [split] *)

Lemma split_nonempty sep s : PyStr.split sep s <> [].
Proof.
  destruct s as [|c s]; cbn; [discriminate|].
  destruct (Ascii.eqb c sep); [discriminate|].
  destruct (PyStr.split sep s); discriminate.
Qed.

Lemma split_lacks sep s : lacks sep s = true -> PyStr.split sep s = [s].
Proof.
  induction s as [|c s IH]; cbn; [reflexivity|].
  intros H. apply andb_prop in H. destruct H as [H1 H2].
  apply negb_true_iff in H1. rewrite H1, (IH H2). reflexivity.
Qed.

Lemma split_app sep (a b : string) :
  lacks sep a = true ->
  PyStr.split sep (a ++ String sep b)%string = a :: PyStr.split sep b.
Proof.
  induction a as [|c a IH]; cbn.
  - intros _. rewrite Ascii.eqb_refl. reflexivity.
  - intros H. apply andb_prop in H. destruct H as [H1 H2].
    apply negb_true_iff in H1. rewrite H1, (IH H2). reflexivity.
Qed.

Lemma split_length sep s :
  List.length (PyStr.split sep s) = S (count sep s).
Proof.
  induction s as [|c s IH]; cbn; [reflexivity|].
  destruct (Ascii.eqb c sep); cbn [List.length]; [rewrite IH; reflexivity|].
  destruct (PyStr.split sep s) as [|p ps] eqn:E; [discriminate|].
  cbn [List.length] in *. cbn. exact IH.
Qed.

Lemma count_app c (a b : string) :
  count c (a ++ b)%string = (count c a + count c b)%nat.
Proof.
  induction a as [|x a IH]; cbn; [reflexivity|]. rewrite IH. lia.
Qed.

Lemma lacks_count c s : lacks c s = true <-> count c s = O.
Proof.
  induction s as [|a s IH]; cbn; [tauto|].
  destruct (Ascii.eqb a c); cbn.
  - split; [discriminate|lia].
  - exact IH.
Qed.

(** ** [strip] *)

Lemma lstrip_with_app space (a : string) c (b : string) :
  space c = false ->
  PyStr.lstrip_with space (a ++ String c b)%string
  = (PyStr.lstrip_with space a ++ String c b)%string.
Proof.
  intros Hc. induction a as [|x a IH]; cbn.
  - rewrite Hc. reflexivity.
  - destruct (space x); [exact IH | reflexivity].
Qed.

Lemma rstrip_with_cons space c (s : string) :
  space c = false ->
  PyStr.rstrip_with space (String c s) = String c (PyStr.rstrip_with space s).
Proof.
  intros Hc. cbn. rewrite Hc. destruct (PyStr.rstrip_with space s); reflexivity.
Qed.

Lemma rstrip_with_app space (a : string) c (b : string) :
  space c = false ->
  PyStr.rstrip_with space (a ++ String c b)%string
  = (a ++ String c (PyStr.rstrip_with space b))%string.
Proof.
  intros Hc. induction a as [|x a IH].
  - cbn [append]. apply rstrip_with_cons. exact Hc.
  - cbn [append PyStr.rstrip_with]. rewrite IH.
    destruct a; reflexivity.
Qed.

(** A line made of a first field, a separator, a middle, a separator and a
    last field loses the spaces before the first field and after the last
    one. *)
Lemma strip_line (a : string) c1 (m : string) c2 (z : string) :
  PyStr.isspace c1 = false -> PyStr.isspace c2 = false ->
  PyStr.strip (a ++ String c1 (m ++ String c2 z))%string
  = (PyStr.lstrip a ++ String c1 (m ++ String c2 (PyStr.rstrip z)))%string.
Proof.
  intros H1 H2. unfold PyStr.strip, PyStr.lstrip, PyStr.rstrip.
  rewrite (lstrip_with_app _ a c1 _ H1).
  rewrite (rstrip_with_app _ _ c1 _ H1).
  rewrite (rstrip_with_app _ m c2 _ H2). reflexivity.
Qed.

Lemma lstrip_with_suffix space s :
  exists a, s = (a ++ PyStr.lstrip_with space s)%string.
Proof.
  induction s as [|c s [a IH]]; [exists ""; reflexivity|]. cbn.
  destruct (space c).
  - exists (String c a). cbn. rewrite <- IH. reflexivity.
  - exists "". reflexivity.
Qed.

Lemma lacks_lstrip_with space c s :
  lacks c s = true -> lacks c (PyStr.lstrip_with space s) = true.
Proof.
  destruct (lstrip_with_suffix space s) as [a E]. intros H.
  rewrite E, lacks_app in H. apply andb_prop in H. tauto.
Qed.

Lemma lacks_rstrip_with space c s :
  lacks c s = true -> lacks c (PyStr.rstrip_with space s) = true.
Proof.
  induction s as [|x s IH]; cbn [PyStr.rstrip_with lacks]; [reflexivity|].
  intros H. apply andb_prop in H. destruct H as [H1 H2].
  specialize (IH H2).
  destruct (PyStr.rstrip_with space s) eqn:E.
  - destruct (space x); cbn; [reflexivity | rewrite H1; reflexivity].
  - cbn [lacks] in *. rewrite H1, IH. reflexivity.
Qed.

Lemma lstrip_with_idem space s :
  PyStr.lstrip_with space (PyStr.lstrip_with space s)
  = PyStr.lstrip_with space s.
Proof.
  induction s as [|c s IH]; [reflexivity|]. cbn.
  destruct (space c) eqn:E; [exact IH|]. cbn. rewrite E. reflexivity.
Qed.

Lemma rstrip_with_idem space s :
  PyStr.rstrip_with space (PyStr.rstrip_with space s)
  = PyStr.rstrip_with space s.
Proof.
  induction s as [|c s IH]; [reflexivity|]. cbn [PyStr.rstrip_with].
  destruct (PyStr.rstrip_with space s) as [|y r] eqn:E.
  - destruct (space c) eqn:Ec; [reflexivity|]. cbn. rewrite Ec. reflexivity.
  - cbn [PyStr.rstrip_with]. cbn [PyStr.rstrip_with] in IH.
    rewrite IH. reflexivity.
Qed.

(** ** [readlines] *)

Lemma readlines_cons_nonempty c s : PyStr.readlines (String c s) <> [].
Proof.
  cbn. destruct (Ascii.eqb c PyStr.LF); [discriminate|].
  destruct (Ascii.eqb c PyStr.CR); [discriminate|].
  destruct (PyStr.readlines s); discriminate.
Qed.

(** A text that stays on one line, followed by a line feed, is one line of
    the file. *)
Lemma readlines_line (line rest : string) :
  one_line line = true ->
  PyStr.readlines (line ++ String PyStr.LF rest)%string
  = line :: PyStr.readlines rest.
Proof.
  unfold one_line. induction line as [|c line IH]; cbn [append]; intros H.
  - reflexivity.
  - cbn [lacks] in H.
    assert (H1 : Ascii.eqb c PyStr.LF = false /\ Ascii.eqb c PyStr.CR = false
                 /\ lacks PyStr.LF line && lacks PyStr.CR line = true).
    { destruct (Ascii.eqb c PyStr.LF), (Ascii.eqb c PyStr.CR),
        (lacks PyStr.LF line), (lacks PyStr.CR line); cbn in H;
        try discriminate; auto. }
    destruct H1 as (E1 & E2 & H3).
    cbn [PyStr.readlines]. rewrite E1, E2, (IH H3). reflexivity.
Qed.

Lemma match_LF {A : Type} c (t : string) (f : string -> A) (y : A) :
  match String c t with
  | String "010" t' => f t'
  | _ => y
  end = if Ascii.eqb c PyStr.LF then f t else y.
Proof. destruct c as [[] [] [] [] [] [] [] []]; reflexivity. Qed.

(** What is appended to a complete file is read after the lines of the
    file. *)
Lemma readlines_app_complete (file more : string) :
  complete file = true ->
  PyStr.readlines (file ++ more)%string
  = PyStr.readlines file ++ PyStr.readlines more.
Proof.
  remember (String.length file) as n eqn:Hn.
  revert file Hn. induction n as [n IH] using lt_wf_ind. intros file Hn Hc.
  destruct file as [|c file]; [reflexivity|].
  assert (Hc' : file = "" /\ c = PyStr.LF \/ file <> "" /\ complete file = true).
  { destruct file as [|c' file]; [left|right].
    - cbn in Hc. apply Ascii.eqb_eq in Hc. auto.
    - split; [discriminate | exact Hc]. }
  destruct Hc' as [[-> ->]|[Hne Hc']]; [reflexivity|].
  assert (IHf : PyStr.readlines (file ++ more)%string
                = PyStr.readlines file ++ PyStr.readlines more).
  { apply (IH (String.length file)); [subst n; cbn; lia | reflexivity | exact Hc']. }
  cbn [append PyStr.readlines].
  destruct (Ascii.eqb c PyStr.LF); [rewrite IHf; reflexivity|].
  destruct (Ascii.eqb c PyStr.CR).
  - destruct file as [|c' file]; [contradiction|].
    cbn [append]. rewrite !match_LF.
    destruct (Ascii.eqb c' PyStr.LF) eqn:E;
      [|cbn [List.app]; f_equal; exact IHf].
    destruct file as [|c'' file]; [reflexivity|].
    cbn [List.app]. f_equal.
    apply (IH (String.length (String c'' file)));
      [subst n; cbn; lia | reflexivity | exact Hc'].
  - rewrite IHf. destruct (PyStr.readlines file) eqn:E; [|reflexivity].
    exfalso. destruct file; [contradiction|].
    exact (readlines_cons_nonempty _ _ E).
Qed.

Lemma complete_app (a b : string) :
  complete b = true -> b <> "" -> complete (a ++ b)%string = true.
Proof.
  intros Hb Hne. induction a as [|c a IH]; [exact Hb|].
  cbn [append complete]. destruct (a ++ b)%string eqn:E; [|exact IH].
  destruct a; [contradiction | discriminate].
Qed.

Lemma complete_line (s : string) : complete (s ++ String PyStr.LF "")%string = true.
Proof. apply complete_app; [reflexivity | discriminate]. Qed.

(** ** Decimal ints *)

Lemma digit_char c d :
  PyStr.digit c = Some d ->
  PyStr.int_space c = false /\ PyStr.isspace c = false /\
  c <> "+"%char /\ c <> "-"%char /\ c <> "_"%char /\ c <> "|"%char /\
  c <> PyStr.LF /\ c <> PyStr.CR.
Proof.
  destruct c as [[] [] [] [] [] [] [] []]; cbn; intros H;
    try discriminate H; repeat split; discriminate.
Qed.

Lemma match_sign c (t : string) :
  c <> "+"%char -> c <> "-"%char ->
  match String c t with
  | String "+" s' => (false, s')
  | String "-" s' => (true, s')
  | _ => (false, String c t)
  end = (false, String c t).
Proof.
  intros H1 H2. destruct c as [[] [] [] [] [] [] [] []]; try reflexivity;
    exfalso; first [apply H1; reflexivity | apply H2; reflexivity].
Qed.

Lemma match_underscore {A : Type} c (t : string) (f : string -> A) (y : A) :
  c <> "_"%char ->
  match String c t with
  | String "_" s'' => f s''
  | _ => y
  end = y.
Proof.
  intros H. destruct c as [[] [] [] [] [] [] [] []]; try reflexivity.
  exfalso. apply H. reflexivity.
Qed.

Lemma sou_head u :
  u <> Decimal.Nil ->
  exists c t d, NilEmpty.string_of_uint u = String c t /\ PyStr.digit c = Some d.
Proof.
  destruct u; [contradiction|..]; intros _; cbn; do 3 eexists;
    (split; [reflexivity|reflexivity]).
Qed.

Lemma scan_digits_eq c s' :
  PyStr.scan_digits (String c s')
  = match PyStr.digit c with
    | Some d =>
        let '(ds, rest) :=
          match s' with
          | String "_" s'' =>
              match PyStr.scan_digits s'' with
              | (Decimal.Nil, _) => (Decimal.Nil, s')
              | r => r
              end
          | _ => PyStr.scan_digits s'
          end in
        (d ds, rest)
    | None => (Decimal.Nil, String c s')
    end.
Proof. reflexivity. Qed.

Lemma scan_digits_digit c d s' :
  PyStr.digit c = Some d ->
  match s' with String c' _ => c' <> "_"%char | EmptyString => True end ->
  PyStr.scan_digits (String c s')
  = (d (fst (PyStr.scan_digits s')), snd (PyStr.scan_digits s')).
Proof.
  intros Hd Hs. rewrite scan_digits_eq, Hd. destruct s' as [|c' t].
  - reflexivity.
  - destruct c' as [[] [] [] [] [] [] [] []];
      try (cbv beta iota; destruct (PyStr.scan_digits (String _ t));
           reflexivity).
    exfalso. apply Hs. reflexivity.
Qed.

(** The digits of a printed number are read back as they are. *)
Lemma scan_digits_sou u :
  PyStr.scan_digits (NilEmpty.string_of_uint u) = (u, "").
Proof.
  assert (H : forall u d c,
    PyStr.digit c = Some d ->
    PyStr.scan_digits (NilEmpty.string_of_uint u) = (u, "") ->
    PyStr.scan_digits (String c (NilEmpty.string_of_uint u)) = (d u, "")).
  { intros v d c Hd IH. rewrite (scan_digits_digit c d _ Hd), IH; [reflexivity|].
    destruct v; cbn; try exact I; discriminate. }
  induction u as [|u IH|u IH|u IH|u IH|u IH|u IH|u IH|u IH|u IH|u IH];
    [reflexivity|..]; cbn [NilEmpty.string_of_uint];
    (apply H; [reflexivity | exact IH]).
Qed.

Lemma int_digits u :
  u <> Decimal.Nil ->
  Nat.ltb PyStr.max_str_digits (Decimal.nb_digits u) = false ->
  PyStr.int (NilEmpty.string_of_uint u) = Some (Z.of_uint u) /\
  PyStr.int (String "-" (NilEmpty.string_of_uint u)) = Some (- Z.of_uint u).
Proof.
  intros N L. destruct (sou_head u N) as (c & t & d & E & Hd).
  destruct (digit_char c d Hd) as (S1 & _ & P & M & _).
  pose proof (scan_digits_sou u) as Sc.
  unfold PyStr.int. rewrite E in *. split.
  - cbn [PyStr.lstrip_with]. rewrite S1, (match_sign c t P M), Sc.
    destruct u; [contradiction|..]; rewrite L; reflexivity.
  - cbn [PyStr.lstrip_with]. change (PyStr.int_space "-") with false.
    cbn iota. rewrite Sc.
    destruct u; [contradiction|..]; rewrite L; reflexivity.
Qed.

Lemma uint_nil_dec (u : Decimal.uint) : {u = Decimal.Nil} + {u <> Decimal.Nil}.
Proof. destruct u; (left; reflexivity) || (right; discriminate). Qed.

(** X-lemma: what [str] prints, [int] reads back. *)
Lemma int_str z s : PyStr.str z = Some s -> PyStr.int s = Some z.
Proof.
  unfold PyStr.str.
  destruct z as [|p|p]; cbn [Z.to_int].
  - intros [= <-]. reflexivity.
  - destruct (Nat.ltb _ _) eqn:L; [discriminate|]. intros [= <-].
    pose proof (DecimalPos.Unsigned.to_uint_nonnil p) as N.
    cbn [NilZero.string_of_int]. unfold NilZero.string_of_uint.
    destruct (int_digits _ N L) as [I _].
    replace (Z.of_uint (Pos.to_uint p)) with (Zpos p) in I
      by (unfold Z.of_uint; rewrite DecimalPos.Unsigned.of_to; reflexivity).
    destruct (Pos.to_uint p); [contradiction|..]; exact I.
  - destruct (Nat.ltb _ _) eqn:L; [discriminate|]. intros [= <-].
    pose proof (DecimalPos.Unsigned.to_uint_nonnil p) as N.
    cbn [NilZero.string_of_int]. unfold NilZero.string_of_uint.
    destruct (int_digits _ N L) as [_ I].
    replace (- Z.of_uint (Pos.to_uint p)) with (Zneg p) in I
      by (unfold Z.of_uint; rewrite DecimalPos.Unsigned.of_to; reflexivity).
    destruct (Pos.to_uint p); [contradiction|..]; exact I.
Qed.

Lemma lacks_sou c u :
  PyStr.digit c = None -> lacks c (NilEmpty.string_of_uint u) = true.
Proof.
  intros H.
  induction u as [|u IH|u IH|u IH|u IH|u IH|u IH|u IH|u IH|u IH|u IH];
    [reflexivity|..]; cbn [NilEmpty.string_of_uint lacks]; rewrite IH;
    match goal with
    | |- negb (Ascii.eqb ?k c) && true = true =>
        destruct (Ascii.eqb_spec k c) as [<-|_]; [discriminate H|reflexivity]
    end.
Qed.

(** A printed number holds digits and a sign only. *)
Lemma lacks_str c z s :
  PyStr.digit c = None -> c <> "-"%char ->
  PyStr.str z = Some s -> lacks c s = true.
Proof.
  intros Hd Hm. unfold PyStr.str.
  destruct (Nat.ltb _ _); [discriminate|]. intros [= <-].
  assert (U : forall u, lacks c (NilZero.string_of_uint u) = true).
  { intros u. unfold NilZero.string_of_uint.
    pose proof (lacks_sou c u Hd) as T.
    destruct u; try exact T.
    change (lacks c (String "0" "") = true). cbn [lacks].
    destruct (Ascii.eqb_spec "0" c) as [<-|_]; [discriminate Hd|reflexivity]. }
  destruct (Z.to_int z) as [u|u]; cbn [NilZero.string_of_int lacks].
  - apply U.
  - rewrite U. destruct (Ascii.eqb_spec "-" c) as [<-|_];
      [contradiction|reflexivity].
Qed.

(** What [int] has read, [str] can print. *)
Lemma str_of_int s z : PyStr.int s = Some z -> exists a, PyStr.str z = Some a.
Proof.
  unfold PyStr.int.
  destruct (match PyStr.lstrip_with PyStr.int_space s with
            | String "+" s' => (false, s')
            | String "-" s' => (true, s')
            | _ => (false, PyStr.lstrip_with PyStr.int_space s)
            end) as [negative s2].
  destruct (PyStr.scan_digits s2) as [ds rest].
  assert (G : ds <> Decimal.Nil ->
              Nat.ltb PyStr.max_str_digits (Decimal.nb_digits ds) = false ->
              z = (if negative then - Z.of_uint ds else Z.of_uint ds) ->
              exists a, PyStr.str z = Some a).
  { intros N L ->. unfold Z.of_uint.
    pose proof (DecimalPos.Unsigned.to_of ds) as T.
    pose proof (nb_digits_unorm ds N) as B.
    apply Nat.ltb_ge in L.
    destruct (Pos.of_uint ds) as [|p] eqn:E.
    - exists "0". destruct negative; reflexivity.
    - cbn [N.to_uint] in T. unfold PyStr.str.
      assert (L' : Nat.ltb PyStr.max_str_digits
                     (Decimal.nb_digits (Pos.to_uint p)) = false)
        by (apply Nat.ltb_ge; rewrite T; lia).
      destruct negative; cbn [Z.of_N Z.opp Z.to_int]; rewrite L';
        eexists; reflexivity. }
  destruct (uint_nil_dec ds) as [->|N]; [discriminate|].
  destruct (Nat.ltb PyStr.max_str_digits (Decimal.nb_digits ds)) eqn:L.
  - destruct ds; discriminate.
  - destruct (PyStr.lstrip_with PyStr.int_space rest).
    + intros H. apply (G N eq_refl).
      destruct ds; [contradiction|..]; injection H as <-; reflexivity.
    + destruct ds; discriminate.
Qed.

(** ** The size of a printed int *)

Lemma of_uint_acc_bounds d : forall acc,
  Zpos acc * 10 ^ Z.of_nat (Decimal.nb_digits d)
  <= Zpos (Pos.of_uint_acc d acc)
  < (Zpos acc + 1) * 10 ^ Z.of_nat (Decimal.nb_digits d).
Proof.
  induction d as [|d IH|d IH|d IH|d IH|d IH|d IH|d IH|d IH|d IH|d IH];
    intros acc; cbn [Decimal.nb_digits Pos.of_uint_acc];
    [cbn; lia|..];
    rewrite Nat2Z.inj_succ, Z.pow_succ_r by lia;
    match goal with
    | |- context [Pos.of_uint_acc d ?a] => pose proof (IH a) as B
    end;
    assert (P : 0 < 10 ^ Z.of_nat (Decimal.nb_digits d))
      by (apply Z.pow_pos_nonneg; lia);
    nia.
Qed.

Lemma of_uint_upper u :
  Z.of_N (Pos.of_uint u) < 10 ^ Z.of_nat (Decimal.nb_digits u).
Proof.
  induction u as [|d IH|d IH|d IH|d IH|d IH|d IH|d IH|d IH|d IH|d IH];
    cbn [Decimal.nb_digits Pos.of_uint]; [cbn; lia|..];
    rewrite Nat2Z.inj_succ, Z.pow_succ_r by lia;
    assert (P : 0 < 10 ^ Z.of_nat (Decimal.nb_digits d))
      by (apply Z.pow_pos_nonneg; lia);
    [lia|..];
    cbn [Z.of_N];
    match goal with
    | |- context [Pos.of_uint_acc d ?a] =>
        pose proof (of_uint_acc_bounds d a) as B
    end; nia.
Qed.

Lemma nzhead_head u :
  match Decimal.nzhead u with Decimal.D0 _ => False | _ => True end.
Proof. induction u; cbn; auto. Qed.

Lemma to_uint_lower p :
  10 ^ (Z.of_nat (Decimal.nb_digits (Pos.to_uint p)) - 1) <= Zpos p.
Proof.
  pose proof (DecimalPos.Unsigned.to_of (Pos.to_uint p)) as T.
  pose proof (DecimalPos.Unsigned.of_to p) as O.
  rewrite O in T. cbn [N.to_uint] in T.
  set (u := Pos.to_uint p) in *.
  assert (V : Z.of_N (Pos.of_uint u) = Zpos p) by (rewrite O; reflexivity).
  clear O. revert V.
  unfold Decimal.unorm in T. pose proof (nzhead_head u) as H.
  destruct (Decimal.nzhead u) as [|d|d|d|d|d|d|d|d|d|d] eqn:E;
    try contradiction; rewrite T; intros V;
    [cbn in V; discriminate V|..];
    rewrite <- V;
    cbn [Decimal.nb_digits Pos.of_uint Z.of_N];
    rewrite ?Nat2Z.inj_succ;
    match goal with
    | |- context [Pos.of_uint_acc d ?a] =>
        pose proof (of_uint_acc_bounds d a) as B
    end;
    replace (Z.succ (Z.of_nat (Decimal.nb_digits d)) - 1)
      with (Z.of_nat (Decimal.nb_digits d)) by lia;
    assert (P : 0 < 10 ^ Z.of_nat (Decimal.nb_digits d))
      by (apply Z.pow_pos_nonneg; lia);
    nia.
Qed.

(** An int is printed exactly when it has at most 4300 digits. *)
Lemma str_Some z :
  Z.abs z < 10 ^ 4300 -> exists a, PyStr.str z = Some a.
Proof.
  intros H. unfold PyStr.str.
  assert (G : forall p, Zpos p < 10 ^ 4300 ->
    Nat.ltb PyStr.max_str_digits (Decimal.nb_digits (Pos.to_uint p)) = false).
  { intros p Hp. apply Nat.ltb_ge.
    pose proof (to_uint_lower p) as L.
    destruct (Nat.le_gt_cases (Decimal.nb_digits (Pos.to_uint p))
                PyStr.max_str_digits) as [C|C]; [exact C|exfalso].
    assert (M : 10 ^ 4300 <= 10 ^ (Z.of_nat (Decimal.nb_digits (Pos.to_uint p)) - 1)).
    { apply Z.pow_le_mono_r; [lia|].
      assert (Z.of_nat PyStr.max_str_digits = 4300) by reflexivity. lia. }
    revert Hp L M. generalize (10 ^ 4300).
    generalize (10 ^ (Z.of_nat (Decimal.nb_digits (Pos.to_uint p)) - 1)).
    intros; lia. }
  destruct z as [|p|p]; cbn [Z.to_int].
  - eexists. reflexivity.
  - rewrite (G p H). eexists. reflexivity.
  - rewrite (G p H). eexists. reflexivity.
Qed.

Lemma str_bound z a : PyStr.str z = Some a -> Z.abs z < 10 ^ 4300.
Proof.
  unfold PyStr.str.
  assert (G : forall p,
    Nat.ltb PyStr.max_str_digits (Decimal.nb_digits (Pos.to_uint p)) = false ->
    Zpos p < 10 ^ 4300).
  { intros p L. apply Nat.ltb_ge in L.
    pose proof (of_uint_upper (Pos.to_uint p)) as U.
    rewrite DecimalPos.Unsigned.of_to in U. cbn [Z.of_N] in U.
    assert (M : 10 ^ Z.of_nat (Decimal.nb_digits (Pos.to_uint p)) <= 10 ^ 4300).
    { apply Z.pow_le_mono_r; [lia|].
      assert (Z.of_nat PyStr.max_str_digits = 4300) by reflexivity. lia. }
    revert U M. generalize (10 ^ 4300).
    generalize (10 ^ Z.of_nat (Decimal.nb_digits (Pos.to_uint p))).
    intros; lia. }
  destruct z as [|p|p]; cbn [Z.to_int Z.abs].
  - intros _. apply Z.pow_pos_nonneg; lia.
  - destruct (Nat.ltb _ _) eqn:L; [discriminate|]. intros _. exact (G p L).
  - destruct (Nat.ltb _ _) eqn:L; [discriminate|]. intros _. exact (G p L).
Qed.

Lemma int_bound s z : PyStr.int s = Some z -> Z.abs z < 10 ^ 4300.
Proof.
  intros H. destruct (str_of_int s z H) as [a Ha]. exact (str_bound z a Ha).
Qed.

(** * The files as texts *)

(** ** Joining and splitting *)

Lemma append_cancel_l (a b c : string) :
  (a ++ b = a ++ c)%string -> b = c.
Proof.
  induction a as [|x a IH]; cbn; intros H; [exact H|].
  injection H as H. exact (IH H).
Qed.

Lemma join_cons sep (a b : string) (l : list string) :
  join sep (a :: b :: l) = (a ++ String sep (join sep (b :: l)))%string.
Proof. reflexivity. Qed.

Lemma join_snoc sep (l : list string) (z : string) :
  l <> [] -> join sep (l ++ [z]) = (join sep l ++ String sep z)%string.
Proof.
  induction l as [|a l IH]; intros N; [contradiction|].
  destruct l as [|b l].
  - reflexivity.
  - change ((a :: b :: l) ++ [z]) with (a :: b :: (l ++ [z])).
    rewrite !join_cons. change (b :: l ++ [z]) with ((b :: l) ++ [z]).
    rewrite IH by discriminate. rewrite append_assoc. reflexivity.
Qed.

Lemma split_join sep s : join sep (PyStr.split sep s) = s.
Proof.
  induction s as [|c s IH]; [reflexivity|].
  cbn [PyStr.split]. destruct (Ascii.eqb c sep) eqn:E.
  - apply Ascii.eqb_eq in E. subst c.
    pose proof (split_nonempty sep s) as N.
    destruct (PyStr.split sep s) as [|p ps]; [contradiction|].
    rewrite join_cons. cbn [append]. rewrite IH. reflexivity.
  - pose proof (split_nonempty sep s) as N.
    destruct (PyStr.split sep s) as [|p ps]; [contradiction|].
    destruct ps as [|q ps].
    + cbn in IH |- *. rewrite IH. reflexivity.
    + rewrite join_cons in IH |- *. cbn [append]. rewrite IH. reflexivity.
Qed.

Lemma join_split sep (parts : list string) :
  parts <> [] -> Forall (fun p => lacks sep p = true) parts ->
  PyStr.split sep (join sep parts) = parts.
Proof.
  induction parts as [|a l IH]; intros N F; [contradiction|].
  inversion F as [|? ? Ha Fl]; subst.
  destruct l as [|b l].
  - cbn. apply split_lacks. exact Ha.
  - rewrite join_cons, split_app by exact Ha.
    rewrite IH by (discriminate || exact Fl). reflexivity.
Qed.

Lemma split_parts_lack_sep sep s :
  Forall (fun p => lacks sep p = true) (PyStr.split sep s).
Proof.
  induction s as [|c s IH]; [repeat constructor|].
  cbn [PyStr.split]. destruct (Ascii.eqb c sep) eqn:E.
  - constructor; [reflexivity | exact IH].
  - destruct (PyStr.split sep s) as [|p ps].
    + constructor; [|constructor]. cbn. rewrite E. reflexivity.
    + inversion IH; subst. constructor; [|assumption].
      cbn. rewrite E. assumption.
Qed.

Lemma split_parts_lack sep c s :
  lacks c s = true -> Forall (fun p => lacks c p = true) (PyStr.split sep s).
Proof.
  induction s as [|x s IH]; intros L; [repeat constructor|].
  cbn [lacks] in L. apply andb_true_iff in L. destruct L as [Lx Ls].
  specialize (IH Ls). cbn [PyStr.split]. destruct (Ascii.eqb x sep).
  - constructor; [reflexivity | exact IH].
  - destruct (PyStr.split sep s) as [|p ps].
    + constructor; [|constructor]. cbn. rewrite Lx. reflexivity.
    + inversion IH; subst. constructor; [|assumption].
      cbn. rewrite Lx. assumption.
Qed.

Lemma readlines_one_line file :
  Forall (fun line => one_line line = true) (PyStr.readlines file).
Proof.
  remember (String.length file) as n eqn:Hn.
  revert file Hn. induction n as [n IH] using lt_wf_ind. intros file Hn.
  destruct file as [|c file]; [constructor|].
  cbn [PyStr.readlines]. cbn [String.length] in Hn.
  destruct (Ascii.eqb c PyStr.LF) eqn:E1.
  { constructor; [reflexivity|]. apply (IH (String.length file)); [lia|reflexivity]. }
  destruct (Ascii.eqb c PyStr.CR) eqn:E2.
  { constructor; [reflexivity|].
    destruct file as [|c' file']; [constructor|].
    rewrite match_LF. destruct (Ascii.eqb c' PyStr.LF).
    - apply (IH (String.length file')); [cbn [String.length] in Hn; lia|reflexivity].
    - apply (IH (String.length (String c' file'))); [lia|reflexivity]. }
  assert (F := IH (String.length file) ltac:(lia) file eq_refl).
  destruct (PyStr.readlines file) as [|l ls].
  - constructor; [|constructor]. unfold one_line. cbn [lacks].
    rewrite E1, E2. reflexivity.
  - inversion F as [|? ? Hl Hls]; subst. constructor; [|assumption].
    unfold one_line in *. cbn [lacks]. rewrite E1, E2. exact Hl.
Qed.

(** ** Stripping *)

Lemma count_lstrip_with space c s :
  space c = false -> count c (PyStr.lstrip_with space s) = count c s.
Proof.
  intros Hc. induction s as [|x s IH]; [reflexivity|].
  cbn [PyStr.lstrip_with]. destruct (space x) eqn:E; [|reflexivity].
  rewrite IH. cbn [count]. destruct (Ascii.eqb x c) eqn:X; [|reflexivity].
  apply Ascii.eqb_eq in X. congruence.
Qed.

Lemma count_rstrip_with space c s :
  space c = false -> count c (PyStr.rstrip_with space s) = count c s.
Proof.
  intros Hc. induction s as [|x s IH]; [reflexivity|].
  cbn [PyStr.rstrip_with].
  destruct (PyStr.rstrip_with space s) as [|y r] eqn:R.
  - cbn [count] in IH |- *. rewrite <- IH.
    destruct (space x) eqn:E; [|reflexivity].
    cbn [count]. destruct (Ascii.eqb x c) eqn:X; [|reflexivity].
    apply Ascii.eqb_eq in X. congruence.
  - cbn [count] in IH |- *. rewrite IH. reflexivity.
Qed.

Lemma count_strip c s :
  PyStr.isspace c = false -> count c (PyStr.strip s) = count c s.
Proof.
  intros H. unfold PyStr.strip, PyStr.rstrip, PyStr.lstrip.
  rewrite count_rstrip_with, count_lstrip_with by exact H. reflexivity.
Qed.

Lemma lstrip_with_head space s :
  match PyStr.lstrip_with space s with
  | String c _ => space c = false
  | EmptyString => True
  end.
Proof.
  induction s as [|x s IH]; [exact I|].
  cbn [PyStr.lstrip_with]. destruct (space x) eqn:E; [exact IH | exact E].
Qed.

Lemma rstrip_with_head space s :
  match s with String c _ => space c = false | EmptyString => True end ->
  match PyStr.rstrip_with space s with
  | String c _ => space c = false
  | EmptyString => True
  end.
Proof.
  destruct s as [|x s]; [trivial|]. intros H.
  rewrite rstrip_with_cons by exact H. exact H.
Qed.

Lemma head_lstrip_with space s :
  match s with String c _ => space c = false | EmptyString => True end ->
  PyStr.lstrip_with space s = s.
Proof.
  destruct s as [|x s]; [reflexivity|]. intros H. cbn. rewrite H. reflexivity.
Qed.

Lemma lstrip_strip s : PyStr.lstrip (PyStr.strip s) = PyStr.strip s.
Proof.
  unfold PyStr.strip, PyStr.rstrip, PyStr.lstrip.
  apply head_lstrip_with, rstrip_with_head, lstrip_with_head.
Qed.

Lemma rstrip_strip s : PyStr.rstrip (PyStr.strip s) = PyStr.strip s.
Proof. unfold PyStr.strip, PyStr.rstrip. apply rstrip_with_idem. Qed.

Lemma lstripped_prefix (a : string) c (r : string) :
  PyStr.isspace c = false ->
  lstripped (a ++ String c r)%string -> lstripped a.
Proof.
  unfold lstripped, PyStr.lstrip. intros Hc H.
  apply head_lstrip_with.
  pose proof (lstrip_with_head PyStr.isspace (a ++ String c r)%string) as G.
  rewrite H in G. destruct a as [|x a]; [exact I | exact G].
Qed.

Lemma rstripped_suffix (a : string) c (z : string) :
  PyStr.isspace c = false ->
  rstripped (a ++ String c z)%string -> rstripped z.
Proof.
  unfold rstripped, PyStr.rstrip. intros Hc H.
  rewrite rstrip_with_app in H by exact Hc.
  apply append_cancel_l in H. injection H as H. exact H.
Qed.

(** The first and the last field of a line keep no space of the border of
    the line. *)
Lemma strip_join sep (a : string) (mid : list string) (z : string) :
  PyStr.isspace sep = false ->
  PyStr.strip (join sep (a :: mid ++ [z]))
  = join sep (PyStr.lstrip a :: mid ++ [PyStr.rstrip z]).
Proof.
  intros Hs. unfold PyStr.strip.
  assert (L : PyStr.lstrip (join sep (a :: mid ++ [z]))
              = join sep (PyStr.lstrip a :: mid ++ [z])).
  { destruct mid as [|m mid]; cbn [List.app]; rewrite !join_cons;
      unfold PyStr.lstrip; apply lstrip_with_app; exact Hs. }
  rewrite L.
  change (PyStr.lstrip a :: mid ++ [z]) with ((PyStr.lstrip a :: mid) ++ [z]).
  change (PyStr.lstrip a :: mid ++ [PyStr.rstrip z])
    with ((PyStr.lstrip a :: mid) ++ [PyStr.rstrip z]).
  rewrite !join_snoc by discriminate.
  unfold PyStr.rstrip. apply rstrip_with_app. exact Hs.
Qed.

Lemma join_strip_parts sep (a : string) (mid : list string) (z : string) :
  PyStr.isspace sep = false ->
  PyStr.strip (join sep (a :: mid ++ [z])) = join sep (a :: mid ++ [z]) ->
  lstripped a /\ rstripped z.
Proof.
  intros Hs H. split.
  - assert (G : lstripped (join sep (a :: mid ++ [z]))).
    { unfold lstripped. rewrite <- H. apply lstrip_strip. }
    destruct mid as [|m mid]; cbn [List.app] in G; rewrite join_cons in G;
      exact (lstripped_prefix _ _ _ Hs G).
  - assert (G : rstripped (join sep (a :: mid ++ [z]))).
    { unfold rstripped. rewrite <- H. apply rstrip_strip. }
    change (a :: mid ++ [z]) with ((a :: mid) ++ [z]) in G.
    rewrite join_snoc in G by discriminate.
    exact (rstripped_suffix _ _ _ Hs G).
Qed.

(** ** Files of lines *)

Section Lines.

Context {A : Type}.
Variable parse : string -> list A.
Variable line_of : A -> option string.
Variable stored : A -> A.

Lemma lines_app (file more : string) :
  complete file = true ->
  flat_map parse (PyStr.readlines (file ++ more))
  = flat_map parse (PyStr.readlines file)
    ++ flat_map parse (PyStr.readlines more).
Proof.
  intros C. rewrite readlines_app_complete by exact C. apply flat_map_app.
Qed.

Lemma lines_cons (body rest : string) :
  one_line body = true ->
  flat_map parse (PyStr.readlines (body ++ String PyStr.LF rest))
  = parse body ++ flat_map parse (PyStr.readlines rest).
Proof.
  intros O. rewrite readlines_line by exact O. reflexivity.
Qed.

Lemma write_lines_read (l : list A) :
  (forall x, In x l ->
     exists body, line_of x = Some (body ++ String PyStr.LF "")%string /\
                  one_line body = true /\ parse body = [stored x]) ->
  exists file,
    write_lines line_of l = (true, file) /\ complete file = true /\
    flat_map parse (PyStr.readlines file) = map stored l.
Proof.
  induction l as [|x l IH]; intros H.
  - exists ""%string. repeat split.
  - destruct (H x (or_introl eq_refl)) as [body [E [O P]]].
    destruct (IH (fun y Hy => H y (or_intror Hy))) as [file [W [C R]]].
    exists (body ++ String PyStr.LF file)%string.
    cbn [write_lines]. rewrite E, W. split; [|split].
    + rewrite append_assoc. reflexivity.
    + destruct file as [|c file].
      * apply complete_line.
      * apply complete_app; [|discriminate].
        change (complete (String PyStr.LF (String c file)))
          with (complete (String c file)). exact C.
    + rewrite lines_cons by exact O. rewrite P, R. reflexivity.
Qed.

End Lines.

(** ** Lines of fields *)

Lemma lacks_join c sep (parts : list string) :
  Ascii.eqb sep c = false ->
  Forall (fun p => lacks c p = true) parts ->
  lacks c (join sep parts) = true.
Proof.
  intros Hc. induction parts as [|a l IH]; intros F; [reflexivity|].
  inversion F as [|? ? Ha Fl]; subst. destruct l as [|b l]; [exact Ha|].
  rewrite join_cons, lacks_app. cbn [lacks]. rewrite Ha, Hc, (IH Fl).
  reflexivity.
Qed.

Lemma one_line_join sep (parts : list string) :
  Ascii.eqb sep PyStr.LF = false -> Ascii.eqb sep PyStr.CR = false ->
  Forall (fun p => one_line p = true) parts ->
  one_line (join sep parts) = true.
Proof.
  intros H1 H2 F. unfold one_line. apply andb_true_iff. split.
  - apply lacks_join; [exact H1|].
    eapply Forall_impl; [|exact F]. cbv beta. unfold one_line.
    intros a Ha. apply andb_true_iff in Ha. tauto.
  - apply lacks_join; [exact H2|].
    eapply Forall_impl; [|exact F]. cbv beta. unfold one_line.
    intros a Ha. apply andb_true_iff in Ha. tauto.
Qed.

Lemma field_parts (s : string) :
  field s = true -> lacks "|" s = true /\ one_line s = true.
Proof. unfold field. intros H. apply andb_true_iff in H. exact H. Qed.

Lemma printed_field z a : PyStr.str z = Some a -> field a = true.
Proof.
  intros H. unfold field, one_line.
  rewrite (lacks_str "|" z a), (lacks_str PyStr.LF z a),
    (lacks_str PyStr.CR z a); (reflexivity || discriminate || exact H).
Qed.

Lemma join_not_empty sep (a b : string) (l : list string) :
  String.eqb (join sep (a :: b :: l)) "" = false.
Proof.
  rewrite join_cons. destruct a; reflexivity.
Qed.

(** The fields of a stripped line. *)
Lemma stripped_line_fields (line : string) (a : string) (mid : list string)
    (z : string) :
  one_line line = true ->
  PyStr.split "|" (PyStr.strip line) = a :: mid ++ [z] ->
  Forall (fun p => field p = true) (a :: mid ++ [z]) /\
  lstripped a /\ rstripped z.
Proof.
  intros O S. split.
  - assert (L : one_line (PyStr.strip line) = true).
    { unfold one_line, PyStr.strip, PyStr.rstrip, PyStr.lstrip in *.
      apply andb_true_iff in O. destruct O as [O1 O2].
      apply andb_true_iff.
      split; apply lacks_rstrip_with, lacks_lstrip_with; assumption. }
    unfold one_line in L. apply andb_true_iff in L. destruct L as [L1 L2].
    pose proof (split_parts_lack_sep "|" (PyStr.strip line)) as P.
    pose proof (split_parts_lack "|" PyStr.LF _ L1) as P1.
    pose proof (split_parts_lack "|" PyStr.CR _ L2) as P2.
    rewrite S in P, P1, P2. rewrite Forall_forall in *.
    intros p Hp. unfold field, one_line.
    rewrite (P p Hp), (P1 p Hp), (P2 p Hp). reflexivity.
  - apply (join_strip_parts "|" a mid z); [reflexivity|].
    pose proof (split_join "|" (PyStr.strip line)) as J. rewrite S in J.
    rewrite J. unfold PyStr.strip at 1. rewrite lstrip_strip.
    apply rstrip_strip.
Qed.

(** ** transactions.txt *)

Lemma printable_str z : printable z -> exists a, PyStr.str z = Some a.
Proof. exact (str_Some z). Qed.

Lemma transaction_line t a :
  PyStr.str (amount_paisa t) = Some a ->
  TransactionsTxt.line_of t
  = Some (join "|" [date t; type t; category t; a; description t]
            ++ String PyStr.LF "")%string.
Proof.
  intros Sa. unfold TransactionsTxt.line_of. rewrite Sa. f_equal.
  unfold join. cbn [String.concat]. rewrite !append_assoc. reflexivity.
Qed.

Lemma read_line_of_transaction t :
  writable_transaction t ->
  exists body,
    TransactionsTxt.line_of t = Some (body ++ String PyStr.LF "")%string /\
    one_line body = true /\
    TransactionsTxt.read_line body = [stored_transaction t].
Proof.
  intros [Hd [Ht [Hc [Ha He]]]].
  destruct (printable_str _ Ha) as [a Sa].
  pose proof (printed_field _ _ Sa) as Fa.
  assert (Hty : field (type t) = true) by (destruct Ht as [-> | ->]; reflexivity).
  exists (join "|" [date t; type t; category t; a; description t]).
  split; [exact (transaction_line t a Sa)|]. split.
  - apply one_line_join; [reflexivity | reflexivity |].
    repeat constructor; apply field_parts; assumption.
  - unfold TransactionsTxt.read_line. cbv zeta.
    change [date t; type t; category t; a; description t]
      with (date t :: [type t; category t; a] ++ [description t]).
    rewrite strip_join by reflexivity. cbn [List.app].
    rewrite join_not_empty, join_split.
    + assert (X : existsb (String.eqb (type t)) ["expense"; "income"] = true)
        by (destruct Ht as [-> | ->]; reflexivity).
      rewrite X, (int_str _ _ Sa). reflexivity.
    + discriminate.
    + repeat constructor; try (apply field_parts; assumption).
      * apply lacks_lstrip_with, field_parts, Hd.
      * apply lacks_rstrip_with, field_parts, He.
Qed.

Lemma read_line_writable line t :
  one_line line = true -> In t (TransactionsTxt.read_line line) ->
  writable_transaction t /\ stored_transaction t = t.
Proof.
  intros O. unfold TransactionsTxt.read_line. cbv zeta.
  destruct (String.eqb (PyStr.strip line) ""); [intros []|].
  destruct (PyStr.split "|" (PyStr.strip line))
    as [|d [|ty [|c [|a [|de [|x l]]]]]] eqn:S; try (intros []; fail).
  destruct (existsb (String.eqb ty) ["expense"; "income"]) eqn:X;
    [|intros []].
  destruct (PyStr.int a) as [z|] eqn:Z; [|intros []].
  intros [<-|[]].
  destruct (stripped_line_fields line d [ty; c; a] de O S) as [F [L R]].
  cbn [List.app] in F.
  inversion F as [|? ? Fd F1]; subst. inversion F1 as [|? ? Fty F2]; subst.
  inversion F2 as [|? ? Fc F3]; subst. inversion F3 as [|? ? Fa F4]; subst.
  inversion F4 as [|? ? Fde _]; subst.
  split.
  - unfold writable_transaction. cbn [date type category amount_paisa description].
    repeat split; try assumption.
    + cbn [existsb] in X. rewrite orb_false_r in X.
      apply orb_true_iff in X. destruct X as [X|X]; apply String.eqb_eq in X; auto.
    + exact (int_bound a z Z).
  - unfold stored_transaction. cbn [date type category amount_paisa description].
    rewrite L, R. reflexivity.
Qed.

Lemma read_transactions_writable file t :
  In t (TransactionsTxt.read_transactions file) ->
  writable_transaction t /\ stored_transaction t = t.
Proof.
  unfold TransactionsTxt.read_transactions. intros H.
  apply in_flat_map in H. destruct H as [line [Hl Ht]].
  pose proof (readlines_one_line file) as F. rewrite Forall_forall in F.
  exact (read_line_writable line t (F line Hl) Ht).
Qed.

Lemma write_transactions_read (l : list Transaction) :
  (forall t, In t l -> writable_transaction t) ->
  exists file,
    write_lines TransactionsTxt.line_of l = (true, file) /\
    complete file = true /\
    TransactionsTxt.read_transactions file = map stored_transaction l.
Proof.
  intros H. apply write_lines_read.
  intros t Ht. apply read_line_of_transaction, H, Ht.
Qed.

Lemma map_stored_id (l : list Transaction) :
  (forall t, In t l -> stored_transaction t = t) ->
  map stored_transaction l = l.
Proof.
  intros H. rewrite <- (map_id l) at 2. apply map_ext_in. exact H.
Qed.

Lemma balance_app (l : list Transaction) t :
  calculate_balance (l ++ [t]) = calculate_balance l + signed_amount t.
Proof.
  unfold calculate_balance, calculate_total_income, calculate_total_expenses,
    signed_amount.
  rewrite !filter_app, !map_app, !sum_app. cbn [filter].
  destruct (String.eqb (type t) "income"), (String.eqb (type t) "expense");
    cbn [map]; unfold sum; cbn [fold_left]; lia.
Qed.

Lemma list_pop_firstn_skipn {A : Type} (l : list A) (i : nat) :
  list_pop l i = firstn i l ++ skipn (S i) l.
Proof.
  revert i. induction l as [|x l IH]; intros [|i]; cbn; try reflexivity.
  rewrite IH. reflexivity.
Qed.

Lemma list_set_firstn_skipn {A : Type} (l : list A) (i : nat) (y : A) :
  (i < List.length l)%nat ->
  list_set l i y = firstn i l ++ y :: skipn (S i) l.
Proof.
  revert i. induction l as [|x l IH]; intros [|i] H; cbn in *; try lia;
    try reflexivity.
  rewrite IH by lia. reflexivity.
Qed.

Lemma In_firstn_skipn {A : Type} (l : list A) (i j : nat) (x : A) :
  In x (firstn i l ++ skipn j l) -> In x l.
Proof.
  intros H. apply in_app_or in H. destruct H as [H|H].
  - rewrite <- (firstn_skipn i l). apply in_or_app. left. exact H.
  - rewrite <- (firstn_skipn j l). apply in_or_app. right. exact H.
Qed.

(** X10.  A transaction written to a file whose last line is ended is read
    back as the last transaction of the file, after the ones that were
    there: with its type, category and amount as given, its date without
    the spaces it started with and its description without the spaces it
    ended with.  The file stays one whose last line is ended, and the
    balance changes by the amount: up for an income, down for an expense.
    This holds when date, category and description stay on one line and
    hold no "|", the type is "expense" or "income", and the amount has at
    most 4300 digits. *)
Theorem write_transaction_read file t :
  complete file = true ->
  writable_transaction t ->
  exists file',
    TransactionsTxt.write_transaction file (date t) (type t) (category t)
      (amount_paisa t) (description t) = (true, file') /\
    complete file' = true /\
    TransactionsTxt.read_transactions file'
    = TransactionsTxt.read_transactions file ++ [stored_transaction t] /\
    calculate_balance (TransactionsTxt.read_transactions file')
    = calculate_balance (TransactionsTxt.read_transactions file)
      + signed_amount t.
Proof.
  intros C W. destruct (read_line_of_transaction t W) as [body [E [O P]]].
  exists (file ++ body ++ String PyStr.LF "")%string.
  assert (R : TransactionsTxt.read_transactions
                (file ++ body ++ String PyStr.LF "")%string
              = TransactionsTxt.read_transactions file ++ [stored_transaction t]).
  { unfold TransactionsTxt.read_transactions.
    rewrite lines_app by exact C. rewrite lines_cons by exact O.
    rewrite P. reflexivity. }
  split; [|split; [|split]].
  - unfold TransactionsTxt.write_transaction.
    destruct t as [d ty c a de]. cbn [date type category amount_paisa description].
    rewrite E. reflexivity.
  - apply complete_app; [apply complete_line|]. destruct body; discriminate.
  - exact R.
  - rewrite R, balance_app. reflexivity.
Qed.

Lemma write_transaction_read_witness :
  complete transactions_txt = true /\
  writable_transaction
    (mkTransaction " 2025-01-09" "expense" "Bills" 4000 "power ") /\
  exists file',
    TransactionsTxt.write_transaction transactions_txt " 2025-01-09" "expense"
      "Bills" 4000 "power " = (true, file') /\
    complete file' = true /\
    TransactionsTxt.read_transactions file'
    = TransactionsTxt.read_transactions transactions_txt
      ++ [mkTransaction "2025-01-09" "expense" "Bills" 4000 "power"] /\
    calculate_balance (TransactionsTxt.read_transactions file')
    = calculate_balance (TransactionsTxt.read_transactions transactions_txt)
      - 4000.
Proof.
  assert (W : writable_transaction
                (mkTransaction " 2025-01-09" "expense" "Bills" 4000 "power "))
    by (repeat split; try reflexivity; left; reflexivity).
  split; [reflexivity|]. split; [exact W|].
  exact (write_transaction_read transactions_txt
           (mkTransaction " 2025-01-09" "expense" "Bills" 4000 "power ")
           eq_refl W).
Defined.

(** X11.  [write_transaction] does not check its texts.  When the date, the
    type, the category or the description holds a "|", the line is written
    and success is reported, but the line has more than five fields, so
    [read_transactions] skips it: the transactions read from the file are
    the ones read before, and the transaction is lost. *)
Theorem write_transaction_separator file t :
  complete file = true ->
  one_line (date t) = true -> one_line (type t) = true ->
  one_line (category t) = true -> one_line (description t) = true ->
  printable (amount_paisa t) ->
  lacks "|" (date t ++ type t ++ category t ++ description t) = false ->
  exists file',
    TransactionsTxt.write_transaction file (date t) (type t) (category t)
      (amount_paisa t) (description t) = (true, file') /\
    complete file' = true /\
    TransactionsTxt.read_transactions file'
    = TransactionsTxt.read_transactions file.
Proof.
  intros C Od Oty Oc Ode Pa L.
  destruct (printable_str _ Pa) as [a Sa].
  pose proof (printed_field _ _ Sa) as Fa. apply field_parts in Fa.
  destruct Fa as [La Oa].
  set (body := join "|" [date t; type t; category t; a; description t]).
  assert (Ob : one_line body = true).
  { apply one_line_join; [reflexivity | reflexivity |].
    repeat constructor; assumption. }
  assert (N : count "|" body <> 4%nat).
  { unfold body, join. cbn [String.concat].
    rewrite !count_app. cbn [count].
    change (Ascii.eqb "|" "|") with true. cbv iota.
    apply lacks_count in La. rewrite La.
    assert (K : count "|" (date t ++ type t ++ category t ++ description t)
                <> 0%nat).
    { intros K. apply lacks_count in K. congruence. }
    rewrite !count_app in K. lia. }
  assert (P : TransactionsTxt.read_line body = []).
  { unfold TransactionsTxt.read_line. cbv zeta.
    destruct (String.eqb (PyStr.strip body) ""); [reflexivity|].
    pose proof (split_length "|" (PyStr.strip body)) as SL.
    rewrite count_strip in SL by reflexivity.
    destruct (PyStr.split "|" (PyStr.strip body))
      as [|p1 [|p2 [|p3 [|p4 [|p5 [|p6 ps]]]]]]; try reflexivity.
    cbn [List.length] in SL. exfalso. apply N. lia. }
  exists (file ++ body ++ String PyStr.LF "")%string. split; [|split].
  - unfold TransactionsTxt.write_transaction.
    rewrite (transaction_line _ a); [reflexivity | exact Sa].
  - apply complete_app; [apply complete_line|]. destruct body; discriminate.
  - unfold TransactionsTxt.read_transactions.
    rewrite lines_app by exact C. rewrite lines_cons by exact Ob.
    rewrite P. cbn [PyStr.readlines flat_map List.app]. apply List.app_nil_r.
Qed.

Lemma write_transaction_separator_witness :
  exists file',
    TransactionsTxt.write_transaction transactions_txt "2025-01-09" "expense"
      "Bills" 4000 "rent|power" = (true, file') /\
    complete file' = true /\
    TransactionsTxt.read_transactions file'
    = TransactionsTxt.read_transactions transactions_txt.
Proof.
  apply (write_transaction_separator transactions_txt
           (mkTransaction "2025-01-09" "expense" "Bills" 4000 "rent|power"));
    reflexivity.
Defined.

(** X12.  [delete_transaction] refuses an index that is negative or not
    below the number of transactions read, and leaves the file as it is.
    For any other index, and whatever the file holds, it rewrites the file
    so that the transactions read from it are the ones read before without
    the one at the index, in the same order; the lines that were skipped as
    malformed are gone from the file. *)
Theorem delete_transaction_spec file index :
  let transactions := TransactionsTxt.read_transactions file in
  (index < 0 \/ len transactions <= index ->
   TransactionsTxt.delete_transaction file index = (false, file)) /\
  (0 <= index < len transactions ->
   exists file',
     TransactionsTxt.delete_transaction file index = (true, file') /\
     complete file' = true /\
     TransactionsTxt.read_transactions file'
     = firstn (Z.to_nat index) transactions
       ++ skipn (S (Z.to_nat index)) transactions).
Proof.
  intros transactions. unfold TransactionsTxt.delete_transaction.
  fold transactions. split.
  - intros H.
    assert (G : (index <? 0) || (len transactions <=? index) = true).
    { apply orb_true_iff. destruct H; [left; apply Z.ltb_lt | right; apply Z.leb_le]; assumption. }
    rewrite G. reflexivity.
  - intros [H0 H1].
    assert (G : (index <? 0) || (len transactions <=? index) = false).
    { apply orb_false_iff. split; [apply Z.ltb_ge | apply Z.leb_gt]; assumption. }
    rewrite G, list_pop_firstn_skipn.
    set (l := firstn _ _ ++ skipn _ _).
    assert (W : forall t, In t l -> writable_transaction t /\ stored_transaction t = t).
    { intros t Ht. apply (read_transactions_writable file).
      exact (In_firstn_skipn _ _ _ _ Ht). }
    destruct (write_transactions_read l (fun t Ht => proj1 (W t Ht)))
      as [file' [E [C R]]].
    exists file'. rewrite E, R, map_stored_id by (intros t Ht; apply W, Ht).
    auto.
Qed.

(** X13.  [update_transaction] refuses an index that is negative or not
    below the number of transactions read.  For any other index it rewrites
    the file so that the transactions read from it are the ones read
    before, with the one at the index replaced by the new one as
    [read_transactions] reads it. *)
Theorem update_transaction_spec file index updated_data :
  writable_transaction updated_data ->
  let transactions := TransactionsTxt.read_transactions file in
  (index < 0 \/ len transactions <= index ->
   TransactionsTxt.update_transaction file index updated_data = (false, file)) /\
  (0 <= index < len transactions ->
   exists file',
     TransactionsTxt.update_transaction file index updated_data = (true, file') /\
     complete file' = true /\
     TransactionsTxt.read_transactions file'
     = firstn (Z.to_nat index) transactions
       ++ stored_transaction updated_data
       :: skipn (S (Z.to_nat index)) transactions).
Proof.
  intros U transactions. unfold TransactionsTxt.update_transaction.
  fold transactions. split.
  - intros H.
    assert (G : (index <? 0) || (len transactions <=? index) = true).
    { apply orb_true_iff. destruct H; [left; apply Z.ltb_lt | right; apply Z.leb_le]; assumption. }
    rewrite G. reflexivity.
  - intros [H0 H1].
    assert (G : (index <? 0) || (len transactions <=? index) = false).
    { apply orb_false_iff. split; [apply Z.ltb_ge | apply Z.leb_gt]; assumption. }
    rewrite G, list_set_firstn_skipn by (unfold len in H1; lia).
    set (a := firstn _ _). set (b := skipn _ _).
    assert (Wa : forall t, In t a -> writable_transaction t /\ stored_transaction t = t).
    { intros t Ht. apply (read_transactions_writable file).
      apply (In_firstn_skipn _ (Z.to_nat index) (S (Z.to_nat index))).
      apply in_or_app. left. exact Ht. }
    assert (Wb : forall t, In t b -> writable_transaction t /\ stored_transaction t = t).
    { intros t Ht. apply (read_transactions_writable file).
      apply (In_firstn_skipn _ (Z.to_nat index) (S (Z.to_nat index))).
      apply in_or_app. right. exact Ht. }
    destruct (write_transactions_read (a ++ updated_data :: b)) as [file' [E [C R]]].
    { intros t Ht. apply in_app_or in Ht. destruct Ht as [Ht|[<-|Ht]].
      - apply Wa, Ht.
      - exact U.
      - apply Wb, Ht. }
    exists file'. rewrite E, R. rewrite map_app. cbn [map].
    rewrite !map_stored_id by (intros t Ht; first [apply Wa, Ht | apply Wb, Ht]).
    auto.
Qed.

Lemma update_transaction_spec_witness :
  writable_transaction
    (mkTransaction "2025-01-05" "expense" "Food" 3000 "dinner") /\
  exists file',
    TransactionsTxt.update_transaction transactions_txt 1
      (mkTransaction "2025-01-05" "expense" "Food" 3000 "dinner")
    = (true, file') /\
    TransactionsTxt.read_transactions file'
    = [mkTransaction "2025-01-01" "income" "Salary" 100000 "pay";
       mkTransaction "2025-01-05" "expense" "Food" 3000 "dinner"].
Proof.
  assert (W : writable_transaction
                (mkTransaction "2025-01-05" "expense" "Food" 3000 "dinner"))
    by (repeat split; try reflexivity; left; reflexivity).
  split; [exact W|].
  destruct (update_transaction_spec transactions_txt 1 _ W) as [_ U].
  destruct U as [file' [E [_ R]]]; [split; [lia | reflexivity]|].
  exists file'. split; [exact E | exact R].
Defined.

(** ** budgets.txt *)

Lemma budget_line b a :
  PyStr.str (limit_paisa b) = Some a ->
  BudgetsTxt.line_of b
  = Some (join "|" [b_category b; a; period b] ++ String PyStr.LF "")%string.
Proof.
  intros Sa. unfold BudgetsTxt.line_of. rewrite Sa. f_equal.
  unfold join. cbn [String.concat]. rewrite !append_assoc. reflexivity.
Qed.

Lemma read_line_of_budget b :
  writable_budget b ->
  exists body,
    BudgetsTxt.line_of b = Some (body ++ String PyStr.LF "")%string /\
    one_line body = true /\
    BudgetsTxt.read_line body = [stored_budget b].
Proof.
  intros [Hc [Ha Hp]].
  destruct (printable_str _ Ha) as [a Sa].
  pose proof (printed_field _ _ Sa) as Fa.
  assert (Fp : field (period b) = true)
    by (destruct Hp as [-> | ->]; reflexivity).
  assert (Rp : PyStr.rstrip (period b) = period b)
    by (destruct Hp as [-> | ->]; reflexivity).
  exists (join "|" [b_category b; a; period b]).
  split; [exact (budget_line b a Sa)|]. split.
  - apply one_line_join; [reflexivity | reflexivity |].
    repeat constructor; apply field_parts; assumption.
  - unfold BudgetsTxt.read_line. cbv zeta.
    change [b_category b; a; period b]
      with (b_category b :: [a] ++ [period b]).
    rewrite strip_join by reflexivity. cbn [List.app].
    rewrite Rp, join_not_empty, join_split.
    + assert (X : existsb (String.eqb (period b)) BudgetsTxt.BUDGET_PERIODS
                  = true)
        by (destruct Hp as [-> | ->]; reflexivity).
      rewrite X, (int_str _ _ Sa). reflexivity.
    + discriminate.
    + repeat constructor; try (apply field_parts; assumption).
      apply lacks_lstrip_with, field_parts, Hc.
Qed.

Lemma read_line_writable_budget line b :
  one_line line = true -> In b (BudgetsTxt.read_line line) ->
  writable_budget b /\ stored_budget b = b.
Proof.
  intros Ol. unfold BudgetsTxt.read_line. cbv zeta.
  destruct (String.eqb (PyStr.strip line) ""); [intros []|].
  destruct (PyStr.split "|" (PyStr.strip line))
    as [|c [|a [|p [|x l]]]] eqn:S; try (intros []; fail).
  destruct (existsb (String.eqb p) BudgetsTxt.BUDGET_PERIODS) eqn:X;
    [|intros []].
  destruct (PyStr.int a) as [z|] eqn:Z; [|intros []].
  intros [<-|[]].
  destruct (stripped_line_fields line c [a] p Ol S) as [F [L R]].
  cbn [List.app] in F.
  inversion F as [|? ? Fc F1]; subst.
  split.
  - unfold writable_budget. cbn [b_category limit_paisa period].
    repeat split; try assumption.
    + exact (int_bound a z Z).
    + cbn [existsb BudgetsTxt.BUDGET_PERIODS] in X. rewrite orb_false_r in X.
      apply orb_true_iff in X.
      destruct X as [X|X]; apply String.eqb_eq in X; auto.
  - unfold stored_budget. cbn [b_category limit_paisa period].
    rewrite L. reflexivity.
Qed.

Lemma read_budgets_writable file b :
  In b (BudgetsTxt.read_budgets file) ->
  writable_budget b /\ stored_budget b = b.
Proof.
  unfold BudgetsTxt.read_budgets. intros H.
  apply in_flat_map in H. destruct H as [line [Hl Hb]].
  pose proof (readlines_one_line file) as F. rewrite Forall_forall in F.
  exact (read_line_writable_budget line b (F line Hl) Hb).
Qed.

Lemma write_budgets_read (l : list Budget) :
  (forall b, In b l -> writable_budget b /\ stored_budget b = b) ->
  exists file,
    write_lines BudgetsTxt.line_of l = (true, file) /\
    complete file = true /\
    BudgetsTxt.read_budgets file = l.
Proof.
  intros H.
  destruct (write_lines_read BudgetsTxt.read_line BudgetsTxt.line_of
              stored_budget l) as [file [W [C R]]].
  { intros b Hb. apply read_line_of_budget, H, Hb. }
  exists file. split; [exact W|]. split; [exact C|].
  unfold BudgetsTxt.read_budgets. rewrite R.
  rewrite <- (map_id l) at 2. apply map_ext_in. intros b Hb. apply H, Hb.
Qed.

Lemma update_first_writable budgets cat new_limit :
  printable new_limit ->
  (forall b, In b budgets -> writable_budget b /\ stored_budget b = b) ->
  forall b, In b (snd (update_first budgets cat new_limit)) ->
            writable_budget b /\ stored_budget b = b.
Proof.
  intros P. induction budgets as [|x l IH]; intros H b; [intros []|].
  cbn [update_first]. destruct (String.eqb (b_category x) cat).
  - cbn [snd]. intros [<-|Hb]; [|apply H; right; exact Hb].
    destruct (H x (or_introl eq_refl)) as [[Wc [_ Wp]] St].
    split; [repeat split; assumption|].
    apply (f_equal b_category) in St.
    unfold stored_budget in *. cbn [b_category limit_paisa period] in *.
    rewrite St. reflexivity.
  - destruct (update_first l cat new_limit) as [u r] eqn:E. cbn [snd] in *.
    intros [<-|Hb]; [apply H; left; reflexivity|].
    apply IH; [intros y Hy; apply H; right; exact Hy | exact Hb].
Qed.

(** X14.  A budget written to a file whose last line is ended is read back
    as the last budget of the file, as the list-level [write_budget]
    appends it, with its category without the spaces it started with; and
    [budget_exists] then finds that category.  This holds when the category
    stays on one line and holds no "|", the period is "monthly" or "weekly"
    and the limit has at most 4300 digits. *)
Theorem write_budget_read file b :
  complete file = true ->
  writable_budget b ->
  exists file',
    BudgetsTxt.write_budget file (b_category b) (limit_paisa b) (period b)
    = (true, file') /\
    complete file' = true /\
    BudgetsTxt.read_budgets file'
    = snd (write_budget (BudgetsTxt.read_budgets file)
             (PyStr.lstrip (b_category b)) (limit_paisa b) (period b)) /\
    BudgetsTxt.budget_exists file' (PyStr.lstrip (b_category b)) = true.
Proof.
  intros C W. destruct (read_line_of_budget b W) as [body [E [Ob P]]].
  exists (file ++ body ++ String PyStr.LF "")%string.
  assert (R : BudgetsTxt.read_budgets (file ++ body ++ String PyStr.LF "")%string
              = BudgetsTxt.read_budgets file ++ [stored_budget b]).
  { unfold BudgetsTxt.read_budgets.
    rewrite lines_app by exact C. rewrite lines_cons by exact Ob.
    rewrite P. reflexivity. }
  split; [|split; [|split]].
  - unfold BudgetsTxt.write_budget.
    destruct b as [c l p]. cbn [b_category limit_paisa period].
    rewrite E. reflexivity.
  - apply complete_app; [apply complete_line|]. destruct body; discriminate.
  - exact R.
  - unfold BudgetsTxt.budget_exists. rewrite R, existsb_app.
    cbn [existsb stored_budget b_category]. rewrite String.eqb_refl.
    apply orb_true_iff. right. reflexivity.
Qed.

Lemma write_budget_read_witness :
  complete budgets_txt = true /\
  writable_budget (mkBudget " Bills" 100000 "monthly") /\
  exists file',
    BudgetsTxt.write_budget budgets_txt " Bills" 100000 "monthly"
    = (true, file') /\
    BudgetsTxt.read_budgets file'
    = BudgetsTxt.read_budgets budgets_txt ++ [mkBudget "Bills" 100000 "monthly"] /\
    BudgetsTxt.budget_exists file' "Bills" = true.
Proof.
  assert (W : writable_budget (mkBudget " Bills" 100000 "monthly"))
    by (repeat split; try reflexivity; left; reflexivity).
  split; [reflexivity|]. split; [exact W|].
  destruct (write_budget_read budgets_txt (mkBudget " Bills" 100000 "monthly")
              eq_refl W) as [file' [E [_ [R X]]]].
  exists file'. split; [exact E|]. split; [exact R | exact X].
Defined.

(** X15.  [update_budget] on the file does what the list-level
    [update_budget] does on the budgets read from it.  It reports whether
    the category has a budget; when it has none the file is left as it is;
    otherwise the file is rewritten, the budgets read from it are the ones
    read before with the limit of the first budget of the category
    replaced, and the limit found for the category is the new one.  The
    new limit is one of at most 4300 digits. *)
Theorem update_budget_refines file category new_limit_paisa :
  printable new_limit_paisa ->
  let budgets := BudgetsTxt.read_budgets file in
  exists file',
    BudgetsTxt.update_budget file category new_limit_paisa
    = (budget_exists budgets category, file') /\
    (budget_exists budgets category = false -> file' = file) /\
    BudgetsTxt.read_budgets file'
    = snd (update_budget budgets category new_limit_paisa) /\
    (budget_exists budgets category = true ->
     complete file' = true /\
     get_budget_for_category (BudgetsTxt.read_budgets file') category
     = Some new_limit_paisa).
Proof.
  intros P budgets. unfold BudgetsTxt.update_budget, update_budget.
  fold budgets.
  pose proof (update_first_found budgets category new_limit_paisa) as Fd.
  pose proof (update_first_writable budgets category new_limit_paisa P
                (read_budgets_writable file)) as W.
  pose proof (update_first_lookup budgets category new_limit_paisa category) as Lk.
  destruct (update_first budgets category new_limit_paisa) as [u l] eqn:E.
  cbn [fst snd] in *. rewrite <- Fd. destruct u; cbn [negb].
  - destruct (write_budgets_read l W) as [file' [Wl [C R]]].
    exists file'. rewrite Wl, R. repeat split; try discriminate; try assumption.
    rewrite Lk by (symmetry; exact Fd). rewrite String.eqb_refl. reflexivity.
  - exists file. repeat split; discriminate.
Qed.

Lemma update_budget_refines_witness :
  printable 120000 /\
  exists file',
    BudgetsTxt.update_budget budgets_txt "Shopping" 120000 = (true, file') /\
    BudgetsTxt.read_budgets file'
    = [mkBudget "Food" 80000 "monthly"; mkBudget "Shopping" 120000 "weekly"].
Proof.
  assert (P : printable 120000) by reflexivity.
  split; [exact P|].
  destruct (update_budget_refines budgets_txt "Shopping" 120000 P)
    as [file' [E [_ [R _]]]].
  exists file'. split; [exact E | exact R].
Defined.

(** X16.  [delete_budget] on the file does what the list-level
    [delete_budget] does on the budgets read from it, whatever the file
    holds.  It reports whether the category had a budget; when it had none
    the file is left as it is; otherwise the file is rewritten and the
    budgets read from it are the ones read before that are of another
    category, in the same order.  In both cases [budget_exists] no longer
    finds the category. *)
Theorem delete_budget_refines file category :
  let budgets := BudgetsTxt.read_budgets file in
  exists file',
    BudgetsTxt.delete_budget file category
    = (budget_exists budgets category, file') /\
    (budget_exists budgets category = false -> file' = file) /\
    BudgetsTxt.read_budgets file' = snd (delete_budget budgets category) /\
    BudgetsTxt.read_budgets file'
    = filter (fun b => negb (String.eqb (b_category b) category)) budgets /\
    BudgetsTxt.budget_exists file' category = false.
Proof.
  intros budgets. unfold BudgetsTxt.delete_budget, delete_budget.
  fold budgets.
  set (kept := filter (fun b => negb (String.eqb (b_category b) category))
                      budgets).
  assert (K : BudgetsTxt.budget_exists file category = budget_exists budgets category)
    by reflexivity.
  assert (NK : budget_exists kept category = false).
  { unfold budget_exists, kept. clear. induction budgets as [|x l IH]; [reflexivity|].
    cbn [filter]. destruct (String.eqb (b_category x) category) eqn:E; cbn [negb];
      [exact IH|]. cbn [existsb]. rewrite E. exact IH. }
  destruct (Nat.eqb (List.length kept) (List.length budgets)) eqn:Len.
  - apply Nat.eqb_eq in Len. apply filter_length_eq in Len. fold kept in Len.
    assert (Ex : budget_exists budgets category = false)
      by (rewrite <- Len; exact NK).
    exists file. rewrite Ex. cbn [snd]. fold budgets. rewrite K.
    repeat split; auto.
  - assert (Ex : budget_exists budgets category = true).
    { destruct (budget_exists budgets category) eqn:Ex; [reflexivity|exfalso].
      apply Nat.eqb_neq in Len. apply Len. f_equal. unfold kept.
      clear - Ex. unfold budget_exists in Ex.
      induction budgets as [|x l IH]; [reflexivity|].
      cbn [existsb] in Ex. apply orb_false_iff in Ex. destruct Ex as [E1 E2].
      cbn [filter]. rewrite E1. cbn [negb]. f_equal. exact (IH E2). }
    destruct (write_budgets_read kept) as [file' [Wl [C R]]].
    { intros b Hb. apply (read_budgets_writable file).
      unfold kept in Hb. apply filter_In in Hb. apply Hb. }
    exists file'. rewrite Wl, Ex. cbn [snd].
    unfold BudgetsTxt.budget_exists. rewrite R.
    repeat split; try discriminate. exact NK.
Qed.

(** ** goals.txt *)

Lemma goal_line g a c :
  PyStr.str (target_paisa g) = Some a ->
  PyStr.str (current_paisa g) = Some c ->
  GoalsTxt.line_of g
  = Some (join "|" [name g; a; c; deadline g; created_date g; goal_type g]
            ++ String PyStr.LF "")%string.
Proof.
  intros Sa Sc. unfold GoalsTxt.line_of. rewrite Sa, Sc. f_equal.
  unfold join. cbn [String.concat]. rewrite !append_assoc. reflexivity.
Qed.

Lemma read_line_of_goal g :
  writable_goal g ->
  exists body,
    GoalsTxt.line_of g = Some (body ++ String PyStr.LF "")%string /\
    one_line body = true /\
    GoalsTxt.read_line body = [stored_goal g].
Proof.
  intros [Hn [Ht [Hc [Hd [Hcr Hg]]]]].
  destruct (printable_str _ Ht) as [a Sa].
  destruct (printable_str _ Hc) as [c Sc].
  pose proof (printed_field _ _ Sa) as Fa.
  pose proof (printed_field _ _ Sc) as Fc.
  exists (join "|" [name g; a; c; deadline g; created_date g; goal_type g]).
  split; [exact (goal_line g a c Sa Sc)|]. split.
  - apply one_line_join; [reflexivity | reflexivity |].
    repeat constructor; apply field_parts; assumption.
  - unfold GoalsTxt.read_line. cbv zeta.
    change [name g; a; c; deadline g; created_date g; goal_type g]
      with (name g :: [a; c; deadline g; created_date g] ++ [goal_type g]).
    rewrite strip_join by reflexivity. cbn [List.app].
    rewrite join_not_empty, join_split.
    + rewrite (int_str _ _ Sa), (int_str _ _ Sc). reflexivity.
    + discriminate.
    + repeat constructor; try (apply field_parts; assumption).
      * apply lacks_lstrip_with, field_parts, Hn.
      * apply lacks_rstrip_with, field_parts, Hg.
Qed.

Lemma read_line_writable_goal line g :
  one_line line = true -> In g (GoalsTxt.read_line line) ->
  writable_goal g /\ stored_goal g = g.
Proof.
  intros Ol. unfold GoalsTxt.read_line. cbv zeta.
  destruct (String.eqb (PyStr.strip line) ""); [intros []|].
  destruct (PyStr.split "|" (PyStr.strip line))
    as [|n [|a [|c [|d [|cr [|ty [|x l]]]]]]] eqn:S; try (intros []; fail).
  destruct (PyStr.int a) as [za|] eqn:Za; [|intros []].
  destruct (PyStr.int c) as [zc|] eqn:Zc; [|intros []].
  intros [<-|[]].
  destruct (stripped_line_fields line n [a; c; d; cr] ty Ol S) as [F [L R]].
  cbn [List.app] in F.
  inversion F as [|? ? Fn F1]; subst. inversion F1 as [|? ? Fa F2]; subst.
  inversion F2 as [|? ? Fc F3]; subst. inversion F3 as [|? ? Fd F4]; subst.
  inversion F4 as [|? ? Fcr F5]; subst. inversion F5 as [|? ? Fty _]; subst.
  split.
  - unfold writable_goal.
    cbn [name target_paisa current_paisa deadline created_date goal_type].
    repeat split; try assumption.
    + exact (int_bound a za Za).
    + exact (int_bound c zc Zc).
  - unfold stored_goal.
    cbn [name target_paisa current_paisa deadline created_date goal_type].
    rewrite L, R. reflexivity.
Qed.

Lemma read_goals_writable file g :
  In g (GoalsTxt.read_goals file) -> writable_goal g /\ stored_goal g = g.
Proof.
  unfold GoalsTxt.read_goals. intros H.
  apply in_flat_map in H. destruct H as [line [Hl Hg]].
  pose proof (readlines_one_line file) as F. rewrite Forall_forall in F.
  exact (read_line_writable_goal line g (F line Hl) Hg).
Qed.

Lemma write_goals_read (l : list Goal) :
  (forall g, In g l -> writable_goal g /\ stored_goal g = g) ->
  exists file,
    write_lines GoalsTxt.line_of l = (true, file) /\
    complete file = true /\
    GoalsTxt.read_goals file = l.
Proof.
  intros H.
  destruct (write_lines_read GoalsTxt.read_line GoalsTxt.line_of
              stored_goal l) as [file [W [C R]]].
  { intros g Hg. apply read_line_of_goal, H, Hg. }
  exists file. split; [exact W|]. split; [exact C|].
  unfold GoalsTxt.read_goals. rewrite R.
  rewrite <- (map_id l) at 2. apply map_ext_in. intros g Hg. apply H, Hg.
Qed.

Lemma printable_between a b c :
  printable a -> printable c -> a <= b <= c -> printable b.
Proof.
  unfold printable. generalize (10 ^ 4300). intros; lia.
Qed.

Lemma progress_first_writable lower goals goal_name additional_amount :
  0 <= additional_amount ->
  (forall g, In g goals -> writable_goal g /\ stored_goal g = g) ->
  forall g,
    In g (snd (progress_first lower goals goal_name additional_amount)) ->
    writable_goal g /\ stored_goal g = g.
Proof.
  intros P. induction goals as [|x l IH]; intros H g; [intros []|].
  cbn [progress_first].
  destruct (String.eqb (lower (name x)) (lower goal_name)).
  - cbv zeta. cbn [snd]. intros [<-|Hg]; [|apply H; right; exact Hg].
    destruct (H x (or_introl eq_refl)) as [[Wn [Wt [Wc [Wd [Wcr Wg]]]]] St].
    split.
    + unfold writable_goal.
      cbn [name target_paisa current_paisa deadline created_date goal_type].
      repeat split; try assumption.
      destruct (target_paisa x <? current_paisa x + additional_amount) eqn:E;
        [exact Wt|].
      apply Z.ltb_ge in E.
      apply (printable_between (current_paisa x) _ (target_paisa x));
        [assumption | assumption | lia].
    + pose proof (f_equal name St) as S1.
      pose proof (f_equal goal_type St) as S2.
      unfold stored_goal in *.
      cbn [name target_paisa current_paisa deadline created_date goal_type] in *.
      rewrite S1, S2. reflexivity.
  - destruct (progress_first lower l goal_name additional_amount) as [u r] eqn:E.
    cbn [snd] in *.
    intros [<-|Hg]; [apply H; left; reflexivity|].
    apply IH; [intros y Hy; apply H; right; exact Hy | exact Hg].
Qed.

Lemma existsb_lower_false lower (goals : list Goal) (s : string) :
  existsb (fun g => String.eqb (lower (name g)) (lower s)) goals = false <->
  forall g, In g goals -> lower (name g) <> lower s.
Proof.
  induction goals as [|x l IH]; cbn [existsb In].
  - split; [intros _ g [] | reflexivity].
  - rewrite orb_false_iff, IH. split.
    + intros [E H] g [<-|Hg]; [apply String.eqb_neq, E | apply H, Hg].
    + intros H. split; [apply String.eqb_neq, H; left; reflexivity|].
      intros g Hg. apply H. right. exact Hg.
Qed.

(** X17.  [write_goal] refuses a name that a goal of the file has already,
    letters compared without regard to case, and leaves the file as it is.
    Otherwise the goal is read back as the last goal of the file, created
    on the date of the clock, with its name without the spaces it started
    with and its type without the spaces it ended with.  The names of the
    goals stay distinct when the new name starts with no space; the test
    for an existing name is made on the name as given, not as it is read
    back.  This holds for a file whose last line is ended, texts that stay
    on one line and hold no "|", and amounts of at most 4300 digits. *)
Theorem write_goal_read (lower : string -> string) (today file : string)
    (new_name : string) (target_paisa : Z) (deadline goal_type : string)
    (current_paisa : Z) :
  let goals := GoalsTxt.read_goals file in
  let goal :=
    mkGoal new_name target_paisa current_paisa deadline today goal_type in
  complete file = true ->
  writable_goal goal ->
  ((exists g, In g goals /\ lower (name g) = lower new_name) ->
   GoalsTxt.write_goal lower today file new_name target_paisa deadline
     goal_type current_paisa = (false, file)) /\
  ((forall g, In g goals -> lower (name g) <> lower new_name) ->
   exists file',
     GoalsTxt.write_goal lower today file new_name target_paisa deadline
       goal_type current_paisa = (true, file') /\
     complete file' = true /\
     GoalsTxt.read_goals file' = goals ++ [stored_goal goal] /\
     (lstripped new_name ->
      NoDup (map (fun g => lower (name g)) goals) ->
      NoDup (map (fun g => lower (name g)) (GoalsTxt.read_goals file')))).
Proof.
  intros goals goal C W. unfold GoalsTxt.write_goal. fold goals. split.
  - intros [g [Hg E]].
    assert (X : existsb (fun g => String.eqb (lower (name g)) (lower new_name))
                  goals = true).
    { apply existsb_exists. exists g. split; [exact Hg|].
      apply String.eqb_eq, E. }
    rewrite X. reflexivity.
  - intros N. rewrite (proj2 (existsb_lower_false lower goals new_name) N).
    fold goal.
    destruct (read_line_of_goal goal W) as [body [E [Ob P]]].
    exists (file ++ body ++ String PyStr.LF "")%string.
    assert (R : GoalsTxt.read_goals (file ++ body ++ String PyStr.LF "")%string
                = goals ++ [stored_goal goal]).
    { unfold goals, GoalsTxt.read_goals.
      rewrite lines_app by exact C. rewrite lines_cons by exact Ob.
      rewrite P. reflexivity. }
    rewrite E. split; [reflexivity|]. split; [|split; [exact R|]].
    + apply complete_app; [apply complete_line|]. destruct body; discriminate.
    + intros L D. rewrite R, map_app. cbn [map stored_goal name goal].
      rewrite L.
      assert (D' : NoDup (lower new_name :: map (fun g => lower (name g)) goals)).
      { constructor; [|exact D]. intros I. apply in_map_iff in I.
        destruct I as [g [Eg Hg]]. exact (N g Hg Eg). }
      apply (Permutation_NoDup (l := lower new_name
                                       :: map (fun g => lower (name g)) goals));
        [|exact D'].
      apply Permutation_cons_append.
Qed.

Lemma write_goal_read_witness :
  complete goals_txt = true /\
  writable_goal
    (mkGoal "Bike " 80000 0 "2025-10-31" "2025-01-15" "Custom Goal ") /\
  exists file',
    GoalsTxt.write_goal string_lower "2025-01-15" goals_txt "Bike " 80000
      "2025-10-31" "Custom Goal " 0 = (true, file') /\
    GoalsTxt.read_goals file'
    = GoalsTxt.read_goals goals_txt
      ++ [mkGoal "Bike " 80000 0 "2025-10-31" "2025-01-15" "Custom Goal"].
Proof.
  assert (W : writable_goal
                (mkGoal "Bike " 80000 0 "2025-10-31" "2025-01-15"
                        "Custom Goal "))
    by (repeat split; reflexivity).
  split; [reflexivity|]. split; [exact W|].
  destruct (write_goal_read string_lower "2025-01-15" goals_txt "Bike " 80000
              "2025-10-31" "Custom Goal " 0 eq_refl W) as [_ A].
  destruct A as [file' [E [_ [R _]]]].
  { intros g [<-|[<-|[]]]; discriminate. }
  exists file'. split; [exact E | exact R].
Defined.

(** X18.  [update_goal_progress] on the file does what the list-level
    [update_goal_progress] does on the goals read from it, for an amount
    that is not negative and whatever the file holds: it reports whether a
    goal of that name was found; when none was the file is left as it is;
    otherwise the file is rewritten and the goals read from it are the ones
    read before with the amount added to the first goal of the name, and
    capped at its target. *)
Theorem update_goal_progress_refines (lower : string -> string)
    (file goal_name : string) (additional_amount : Z) :
  0 <= additional_amount ->
  let goals := GoalsTxt.read_goals file in
  let result := update_goal_progress lower goals goal_name additional_amount in
  exists file',
    GoalsTxt.update_goal_progress lower file goal_name additional_amount
    = (fst result, file') /\
    (fst result = false -> file' = file) /\
    GoalsTxt.read_goals file' = snd result.
Proof.
  intros P goals result. unfold result, GoalsTxt.update_goal_progress,
    update_goal_progress. fold goals.
  pose proof (progress_first_writable lower goals goal_name additional_amount P
                (read_goals_writable file)) as W.
  destruct (progress_first lower goals goal_name additional_amount)
    as [u l] eqn:E.
  cbn [snd] in W. destruct u; cbn [negb fst snd].
  - destruct (write_goals_read l W) as [file' [Wl [C R]]].
    exists file'. rewrite Wl. repeat split; [discriminate | exact R].
  - exists file. repeat split.
Qed.

Lemma update_goal_progress_refines_witness :
  0 <= 250000 /\
  exists file',
    GoalsTxt.update_goal_progress string_lower goals_txt "TRIP" 250000
    = (true, file') /\
    GoalsTxt.read_goals file'
    = [mkGoal "Laptop" 500000 100000 "2025-12-31" "2025-01-01" "Custom Goal";
       mkGoal "Trip" 300000 300000 "2025-08-31" "2025-01-01"
              "Vacation Savings"].
Proof.
  assert (P : 0 <= 250000) by lia.
  split; [exact P|].
  destruct (update_goal_progress_refines string_lower goals_txt "TRIP" 250000 P)
    as [file' [E [_ R]]].
  exists file'. split; [exact E | exact R].
Defined.

(** X19.  [delete_goal] on the file does what the list-level [delete_goal]
    does on the goals read from it, whatever the file holds: it reports
    whether a goal of that name was found, letters compared without regard
    to case; when none was the file is left as it is; otherwise the file is
    rewritten and the goals read from it are the ones read before with
    another name, in the same order. *)
Theorem delete_goal_refines (lower : string -> string)
    (file goal_name : string) :
  let goals := GoalsTxt.read_goals file in
  let result := delete_goal lower goals goal_name in
  exists file',
    GoalsTxt.delete_goal lower file goal_name = (fst result, file') /\
    (fst result = false -> file' = file) /\
    GoalsTxt.read_goals file' = snd result.
Proof.
  intros goals result. unfold result, GoalsTxt.delete_goal, delete_goal.
  fold goals.
  set (kept := filter (fun g => negb (String.eqb (lower (name g))
                                                 (lower goal_name))) goals).
  destruct (Nat.eqb (List.length kept) (List.length goals)) eqn:Len;
    cbn [fst snd].
  - exists file. repeat split.
  - destruct (write_goals_read kept) as [file' [Wl [C R]]].
    { intros g Hg. apply (read_goals_writable file).
      unfold kept in Hg. apply filter_In in Hg. apply Hg. }
    exists file'. rewrite Wl. repeat split; [discriminate | exact R].
Qed.

(** * Floats, ints and the functions that convert them *)

(** ** The int of a float *)

Lemma int_of_float_floor f :
  is_finite f = true -> is_nonneg f = true ->
  exists n,
    int_of_float f = Return n /\ 0 <= n /\
    (inject_Z n <= Qval f /\ Qval f < inject_Z n + 1)%Q.
Proof.
  destruct f as [s| | |s m e]; try discriminate; intros _ N.
  - exists 0. split; [reflexivity|]. split; [lia|].
    cbn [Qval]. change (inject_Z 0) with 0%Q. split; lra.
  - destruct s; [discriminate N|]. cbn [int_of_float cond_Zopp Qval].
    destruct (Z.leb_spec 0 e) as [He|He].
    + exists (Zpos m * 2 ^ e). split; [reflexivity|].
      split; [apply Z.mul_nonneg_nonneg; [lia|apply Z.pow_nonneg; lia]|].
      rewrite inject_Z_mult, (pow2_Z e He). lra.
    + set (k := - e). assert (Hk : 0 < k) by (unfold k; lia).
      assert (D : 0 < 2 ^ k) by (apply Z.pow_pos_nonneg; lia).
      pose proof (Z.div_mod (Zpos m) (2 ^ k) ltac:(lia)) as Dm.
      pose proof (Z.mod_pos_bound (Zpos m) (2 ^ k) D) as Bm.
      set (n := Zpos m / 2 ^ k) in *.
      exists n. split; [reflexivity|].
      split; [apply Z.div_pos; lia|].
      assert (E : (inject_Z (Zpos m) * pow2 e * inject_Z (2 ^ k)
                   == inject_Z (Zpos m))%Q).
      { rewrite (pow2_Z k) by lia. unfold k.
        rewrite <- Qmult_assoc, pow2_opp_mul. ring. }
      assert (P : (0 < inject_Z (2 ^ k))%Q) by (apply inject_Z_pos; exact D).
      split.
      * apply (Qmult_le_r _ _ (inject_Z (2 ^ k)) P). rewrite E.
        rewrite <- inject_Z_mult, <- Zle_Qle. nia.
      * apply (Qmult_lt_r _ _ (inject_Z (2 ^ k)) P). rewrite E.
        change (inject_Z n + 1)%Q with (inject_Z n + inject_Z 1)%Q.
        rewrite <- (inject_Z_plus n 1), <- inject_Z_mult, <- Zlt_Qlt. nia.
Qed.

Lemma int_of_float_range f lo hi :
  is_finite f = true -> is_nonneg f = true ->
  (inject_Z lo <= Qval f)%Q -> (Qval f < inject_Z hi + 1)%Q ->
  exists n, int_of_float f = Return n /\ 0 <= n /\ lo <= n <= hi.
Proof.
  intros Hf Hn L U.
  destruct (int_of_float_floor f Hf Hn) as [n [E [P [A B]]]].
  exists n. split; [exact E|]. split; [exact P|].
  split.
  - assert (H : (inject_Z lo < inject_Z (n + 1))%Q)
      by (rewrite inject_Z_plus; change (inject_Z 1) with 1%Q; lra).
    rewrite <- Zlt_Qlt in H. lia.
  - assert (H : (inject_Z n < inject_Z (hi + 1))%Q)
      by (rewrite inject_Z_plus; change (inject_Z 1) with 1%Q; lra).
    rewrite <- Zlt_Qlt in H. lia.
Qed.

(** ** The progress bar *)

Lemma concat_empty_cons (x : string) (l : list string) :
  String.concat "" (x :: l) = (x ++ String.concat "" l)%string.
Proof.
  destruct l; cbn [String.concat append];
    [symmetry; apply append_nil_r | reflexivity].
Qed.

Lemma str_mul_add (s : string) (a b : Z) :
  0 <= a -> 0 <= b ->
  (str_mul s a ++ str_mul s b)%string = str_mul s (a + b).
Proof.
  intros Ha Hb. unfold str_mul. rewrite Z2Nat.inj_add by lia.
  generalize (Z.to_nat a) as n. intros n.
  induction n as [|n IH]; [reflexivity|].
  cbn [Nat.add repeat]. rewrite !concat_empty_cons, append_assoc, IH.
  reflexivity.
Qed.

Lemma F5_div_spec s m e :
  let r := SFdiv prec emax (S754_finite s m e) F5 in
  rounds_to s (inject_Z (Zpos m) * pow2 e / 5) r.
Proof.
  intros r. unfold r.
  assert (V5 : (Qval F5 == 5)%Q) by (vm_compute; reflexivity).
  unfold F5 in *. cbn [Qval] in V5.
  match goal with
  | |- context [SFdiv _ _ _ (S754_finite ?sy ?my ?ey)] =>
      pose proof (SFdiv_finite_spec s m e sy my ey
                    (inject_Z (Zpos m) * pow2 e / 5)) as H
  end.
  rewrite xorb_false_r in H. apply H. rewrite V5. field.
Qed.

(** X20.  In the source the filled and the empty cell of the progress bar
    are the same three characters, so the bar does not show the
    utilization: for every utilization that is not negative and not a NaN,
    whatever its size, [create_progress_bar] returns the same twenty cells
    between the two colour tags, and raises nothing. *)
Theorem progress_bar_constant (utilization : float) (color : string) :
  valid_binary prec emax utilization = true ->
  leb F0 utilization = true ->
  create_progress_bar utilization color
  = Return ("[" ++ color ++ "]" ++ str_mul bar_cell 20
              ++ "[/" ++ color ++ "]")%string.
Proof.
  intros V P. unfold create_progress_bar.
  assert (T : truediv 100 5 = Ok F20) by (vm_compute; reflexivity).
  destruct (ltb F100 utilization) eqn:L.
  { rewrite T. reflexivity. }
  assert (tail : forall n, 0 <= n <= 20 ->
            ("[" ++ color ++ "]" ++ str_mul bar_cell n
               ++ str_mul bar_cell (20 - n) ++ "[/" ++ color ++ "]")%string
            = ("[" ++ color ++ "]" ++ str_mul bar_cell 20
                 ++ "[/" ++ color ++ "]")%string).
  { intros n Hn. do 2 f_equal.
    rewrite <- (append_assoc (str_mul bar_cell n)), str_mul_add by lia.
    replace (n + (20 - n)) with 20 by lia. reflexivity. }
  destruct utilization as [s|s| |s m e].
  - destruct s; reflexivity.
  - destruct s; discriminate.
  - discriminate.
  - destruct s; [discriminate P|].
    set (u := S754_finite false m e) in *.
    set (r := SFdiv prec emax u F5).
    assert (E : fdiv u F5 = Ok r) by reflexivity.
    pose proof (F5_div_spec false m e) as R. cbv zeta in R. fold u r in R.
    assert (Px : (0 < inject_Z (Zpos m) * pow2 e / 5)%Q).
    { apply Qlt_shift_div_l; [reflexivity|].
      rewrite Qmult_0_l.
      apply Qmult_lt_0_compat; [apply inject_Z_pos; lia | apply pow2_pos]. }
    assert (U100 : SFleb u F100 = true).
    { pose proof (SFltb_negb_SFleb F100 u eq_refl eq_refl) as N.
      unfold ltb in L. rewrite L in N. destruct (SFleb u F100);
        [reflexivity | discriminate N]. }
    assert (Q100 : (Qval u <= 100)%Q).
    { pose proof (SFleb_Qval u F100 V eq_refl eq_refl eq_refl U100) as Q.
      assert (V100 : (Qval F100 == 100)%Q) by (vm_compute; reflexivity).
      rewrite V100 in Q. exact Q. }
    cbn [Qval u] in Q100.
    destruct (truediv_Rounds 100 5 F20 ltac:(lia) T) as [R20 _].
    assert (Le : SFleb r F20 = true).
    { apply (Rounds_le (inject_Z (Zpos m) * pow2 e / 5)
                       (inject_Z 100 / inject_Z 5) r F20).
      - apply Qle_shift_div_l; [reflexivity|].
        change (inject_Z 100 / inject_Z 5 * 5)%Q with (100 / 5 * 5)%Q.
        field_simplify. lra.
      - left. split; [exact Px | exact R].
      - exact R20. }
    pose proof (rounds_to_sign false _ r Px R) as Nn. cbv iota in Nn.
    pose proof (rounds_to_valid false _ r Px R) as Vr.
    assert (Fr : is_finite r = true).
    { destruct r as [sr|sr| |sr mr er]; try reflexivity.
      - destruct sr; [discriminate Nn | discriminate Le].
      - discriminate Nn. }
    pose proof (SFleb_Qval r F20 Vr eq_refl Fr eq_refl Le) as Q20.
    assert (V20 : (Qval F20 == 20)%Q) by (vm_compute; reflexivity).
    rewrite V20 in Q20.
    destruct (int_of_float_floor r Fr Nn) as [n [En [Pn [Ln _]]]].
    assert (Hn : n <= 20).
    { assert (H : (inject_Z n <= inject_Z 20)%Q)
        by (change (inject_Z 20) with 20%Q; lra).
      rewrite <- Zle_Qle in H. exact H. }
    rewrite E. cbn [lift obind]. rewrite En. cbn [obind].
    rewrite tail by lia. reflexivity.
Qed.

Lemma progress_bar_constant_witness :
  valid_binary prec emax F75 = true /\
  leb F0 F75 = true /\
  create_progress_bar F75 "yellow" = create_progress_bar F0 "yellow".
Proof.
  split; [reflexivity|]. split; [reflexivity|].
  rewrite (progress_bar_constant F75 "yellow" eq_refl eq_refl).
  reflexivity.
Defined.

(** ** The float of an int *)

Lemma iter_xO m d : Zpos (Pos.iter xO m d) = Zpos m * 2 ^ Zpos d.
Proof.
  induction d as [|d IH] using Pos.peano_ind.
  - cbn [Pos.iter]. change (2 ^ 1) with 2. lia.
  - rewrite Pos.iter_succ, Pos2Z.inj_succ, Z.pow_succ_r by lia.
    rewrite Pos2Z.inj_xO, IH. lia.
Qed.

Lemma binary_round_int s p :
  rounds_to s (inject_Z (Zpos p)) (binary_round prec emax s p 0).
Proof.
  unfold binary_round, shl_align.
  set (k := Zpos (digits2_pos p) + 0).
  change (SpecFloat.fexp prec emax k) with (fexp k).
  pose proof (digits2_pos_bounds p) as [Lo Hi].
  assert (Hk : 1 <= k) by (unfold k; lia).
  assert (F : fexp k = k - 53).
  { rewrite fexp_eq. lia. }
  assert (Px : (0 < inject_Z (Zpos p))%Q) by (apply inject_Z_pos; lia).
  destruct (fexp k - 0) as [|d|d] eqn:D.
  - apply binary_round_aux_spec; [lia | exact Px | |].
    + cbn [inbetween]. change (pow2 (- 0)) with 1%Q. ring.
    + left. replace (Zpos (digits2_pos p)) with 53 in Lo by lia.
      exact Lo.
  - apply binary_round_aux_spec; [lia | exact Px | |].
    + cbn [inbetween]. change (pow2 (- 0)) with 1%Q. ring.
    + left. apply Z.le_trans with (2 := Lo).
      apply Z.pow_le_mono_r; unfold prec; lia.
  - apply binary_round_aux_spec; [lia | exact Px | |].
    + cbn [inbetween]. rewrite iter_xO, inject_Z_mult.
      replace (- fexp k) with (Zpos d) by lia.
      rewrite (pow2_Z (Zpos d)) by lia. reflexivity.
    + left. rewrite iter_xO.
      replace (Zpos d) with (53 - Zpos (digits2_pos p)) by lia.
      replace (prec - 1) with ((Zpos (digits2_pos p) - 1)
                               + (53 - Zpos (digits2_pos p)))
        by (unfold prec; lia).
      rewrite Z.pow_add_r by lia.
      apply Z.mul_le_mono_nonneg_r; [apply Z.pow_nonneg; lia | exact Lo].
Qed.

Lemma of_Z_Rounds z : Rounds (inject_Z z) (of_Z z).
Proof.
  unfold of_Z, binary_normalize. destruct z as [|p|p].
  - right; left. split; [reflexivity|]. exists false. reflexivity.
  - left. split; [apply inject_Z_pos; lia|]. apply binary_round_int.
  - right; right. split.
    + change (inject_Z (Zneg p)) with (- inject_Z (Zpos p))%Q.
      pose proof (inject_Z_pos (Zpos p) ltac:(lia)). lra.
    + change (- inject_Z (Zneg p))%Q with (inject_Z (Zpos p)).
      apply binary_round_int.
Qed.

Lemma Rounds_valid x f : Rounds x f -> valid_binary prec emax f = true.
Proof.
  intros [[H R]|[[H [s ->]]|[H R]]].
  - exact (rounds_to_valid _ _ _ H R).
  - reflexivity.
  - apply (rounds_to_valid true (- x)); [lra | exact R].
Qed.

Lemma Rounds_finite x f :
  (- pow2 (emax - 1) < x)%Q -> (x < pow2 (emax - 1))%Q -> Rounds x f ->
  is_finite f = true.
Proof.
  intros L U [[H R]|[[H [s ->]]|[H R]]].
  - exact (rounds_to_finite _ _ _ H U R).
  - reflexivity.
  - apply (rounds_to_finite true (- x)); [lra | lra | exact R].
Qed.

Lemma of_int_total z :
  Z.abs z < 2 ^ (emax - 1) ->
  of_int z = Ok (of_Z z) /\ is_finite (of_Z z) = true /\
  valid_binary prec emax (of_Z z) = true.
Proof.
  intros B. pose proof (of_Z_Rounds z) as R.
  assert (Fz : is_finite (of_Z z) = true).
  { apply (Rounds_finite (inject_Z z)); [| |exact R];
      rewrite <- (pow2_Z (emax - 1)) by (unfold emax; lia).
    - rewrite <- inject_Z_opp, <- Zlt_Qlt. lia.
    - rewrite <- Zlt_Qlt. lia. }
  split; [|split; [exact Fz | exact (Rounds_valid _ _ R)]].
  unfold of_int. destruct (of_Z z); try reflexivity. discriminate Fz.
Qed.

(** An int below [2 ^ 53] is a float. *)
Lemma of_Z_exact z : 0 <= z < 2 ^ prec -> (Qval (of_Z z) == inject_Z z)%Q.
Proof.
  intros [L U]. destruct z as [|p|p]; [reflexivity| |lia].
  pose proof (binary_round_int false p) as R.
  assert (Fz : is_finite (of_Z (Zpos p)) = true).
  { apply of_int_total. apply Z.lt_trans with (1 := U). reflexivity. }
  apply (rounds_to_exact _ _ p 0 R Fz); [|exact U|rewrite emin_eq; lia].
  change (pow2 0) with 1%Q. ring.
Qed.

(** ** The error of a rounding *)

(** In the range of the normal floats the nearest float is within the
    fraction [2 ^ -53], which is [1 # 9007199254740992], of the number. *)
Lemma rounds_to_error x f :
  rounds_to false x f -> is_finite f = true ->
  (pow2 (emin + prec - 1) <= x)%Q ->
  (x * (1 - (1 # 9007199254740992)) <= Qval f /\
   Qval f <= x * (1 + (1 # 9007199254740992)))%Q.
Proof.
  intros (k & M & U & L & N & ->) Hf Hx.
  assert (Px : (0 < x)%Q) by (pose proof (pow2_pos (emin + prec - 1)); lra).
  pose proof (nearest_even_bounds x k M Px U N) as B.
  rewrite (Qval_float_of_mantissa M (fexp k) B Hf).
  assert (Hk : emin + prec - 1 < k).
  { apply pow2_lt_inv. lra. }
  rewrite emin_eq in Hk. unfold prec in Hk.
  assert (F : fexp k = k - 53) by (rewrite fexp_eq; lia).
  assert (L' : (pow2 (k - 1) <= x)%Q).
  { destruct L as [L|L]; [exact L|].
    rewrite emin_eq, F in L. assert (k = -1021) by lia. subst k.
    rewrite emin_eq in Hx. exact Hx. }
  rewrite F in *. set (P := pow2 (k - 53)) in *.
  assert (PP : (0 < P)%Q) by apply pow2_pos.
  assert (E1 : (pow2 (k - 1) == P * pow2 52)%Q).
  { unfold P. rewrite <- pow2_add. replace (k - 53 + 52) with (k - 1) by lia.
    reflexivity. }
  assert (E2 : (pow2 52 == 4503599627370496)%Q) by reflexivity.
  rewrite E1, E2 in L'.
  destruct N as [[N1 N2] _].
  set (a := (x * pow2 (- (k - 53)))%Q) in *.
  assert (Ea : (a * P == x)%Q).
  { unfold a, P. rewrite <- Qmult_assoc, (Qmult_comm (pow2 (- (k - 53)))),
      pow2_opp_mul. ring. }
  assert (H1 : ((inject_Z M - (1 # 2)) * P <= a * P)%Q)
    by (apply Qmult_le_compat_r; [exact N1 | lra]).
  assert (H2 : (a * P <= (inject_Z M + (1 # 2)) * P)%Q)
    by (apply Qmult_le_compat_r; [exact N2 | lra]).
  rewrite Ea in H1, H2.
  assert (D1 : ((inject_Z M - (1 # 2)) * P
                == inject_Z M * P - (1 # 2) * P)%Q) by ring.
  assert (D2 : ((inject_Z M + (1 # 2)) * P
                == inject_Z M * P + (1 # 2) * P)%Q) by ring.
  rewrite D1 in H1. rewrite D2 in H2.
  set (v := (inject_Z M * P)%Q) in *.
  split; lra.
Qed.

(** ** Rupees and paisa *)

Lemma Rounds_pos x f : (0 < x)%Q -> Rounds x f -> rounds_to false x f.
Proof. intros H [[_ R]|[[E _]|[N _]]]; [exact R | lra | lra]. Qed.

Lemma Qval_pos_finite f :
  (0 < Qval f)%Q -> exists m e, f = S754_finite false m e.
Proof.
  destruct f as [s|s| |s m e]; cbn [Qval]; try lra.
  destruct s; [|intros _; exists m, e; reflexivity].
  intros H. exfalso.
  assert (N : (0 < inject_Z (Zpos m) * pow2 e)%Q)
    by (apply Qmult_lt_0_compat; [apply inject_Z_pos; lia | apply pow2_pos]).
  assert (E : (- inject_Z (Zpos m) * pow2 e
               == - (inject_Z (Zpos m) * pow2 e))%Q) by ring.
  rewrite E in H. lra.
Qed.

Lemma paisa_round_trip_pos (p : positive) :
  Zpos p <= 2 ^ 51 ->
  exists rupees n,
    DataExport.convert_paisa_to_rupees (Zpos p) = Ok rupees /\
    DataExport.convert_rupees_to_paisa rupees = Return n /\
    Zpos p - 1 <= n <= Zpos p /\
    (Zpos p mod 100 = 0 -> n = Zpos p).
Proof.
  intros Hp. change (2 ^ 51) with 2251799813685248 in Hp.
  set (P := inject_Z (Zpos p)).
  assert (P1 : (1 <= P)%Q).
  { unfold P. change 1%Q with (inject_Z 1). rewrite <- Zle_Qle. lia. }
  assert (P2 : (P <= 2251799813685248)%Q).
  { unfold P. change 2251799813685248%Q with (inject_Z 2251799813685248).
    rewrite <- Zle_Qle. exact Hp. }
  destruct (of_int_total (Zpos p)) as [Ex [Fx Vx]].
  { apply Z.le_lt_trans with (1 := Hp). reflexivity. }
  pose proof (of_Z_exact (Zpos p)) as Qx.
  assert (Qx' : (Qval (of_Z (Zpos p)) == P)%Q).
  { apply Qx. split; [lia|]. apply Z.le_lt_trans with (1 := Hp). reflexivity. }
  clear Qx.
  destruct (Qval_pos_finite (of_Z (Zpos p))) as [m [e Hx]]; [lra|].
  unfold DataExport.convert_paisa_to_rupees, DataExport.convert_rupees_to_paisa.
  rewrite Ex. cbn [bind]. rewrite Hx in *. cbn [Qval] in Qx'.
  set (q := SFdiv prec emax (S754_finite false m e) F100).
  assert (Eq : fdiv (S754_finite false m e) F100 = Ok q) by reflexivity.
  rewrite Eq.
  set (xq := (P / 100)%Q).
  assert (Exq : (xq * 100 == P)%Q) by (unfold xq; field).
  assert (Rq : rounds_to false xq q).
  { unfold q, F100.
    match goal with
    | |- context [SFdiv _ _ (S754_finite _ _ _) (S754_finite ?sy ?my ?ey)] =>
        pose proof (SFdiv_finite_spec false m e sy my ey xq) as H
    end.
    apply H. rewrite F100_value, Qx'. exact Exq. }
  assert (Pxq : (0 < xq)%Q) by lra.
  assert (B1023 : (4503599627370496 <= pow2 (emax - 1))%Q).
  { assert (E52 : (pow2 52 == 4503599627370496)%Q) by reflexivity.
    rewrite <- E52. apply pow2_le. unfold emax. lia. }
  assert (Bmin : (pow2 (emin + prec - 1) <= 1 # 128)%Q).
  { assert (E7 : (pow2 (-7) == 1 # 128)%Q) by reflexivity.
    rewrite <- E7. apply pow2_le. rewrite emin_eq. unfold prec. lia. }
  assert (Fq : is_finite q = true).
  { apply (rounds_to_finite false xq q Pxq); [lra | exact Rq]. }
  destruct (rounds_to_error xq q Rq Fq ltac:(lra)) as [Lq Uq].
  set (r := mul q F100).
  pose proof (mul_F100_Rounds q Fq) as Rr. fold r in Rr.
  assert (Py : (0 < Qval q * 100)%Q) by lra.
  apply Rounds_pos in Rr; [|exact Py].
  assert (Fr : is_finite r = true).
  { apply (rounds_to_finite false _ r Py); [lra | exact Rr]. }
  destruct (rounds_to_error _ r Rr Fr ltac:(lra)) as [Lr Ur].
  pose proof (rounds_to_sign false _ r Py Rr) as Nr. cbv iota in Nr.
  destruct (int_of_float_floor r Fr Nr) as [n [En [Pn [Ln Un]]]].
  exists q, n. split; [reflexivity|]. split; [exact En|].
  split; [split|].
  - assert (H : (inject_Z (Zpos p - 2) < inject_Z n)%Q).
    { unfold Z.sub. rewrite inject_Z_plus. fold P.
      change (inject_Z (- (2))) with (- (2))%Q. lra. }
    rewrite <- Zlt_Qlt in H. lia.
  - assert (H : (inject_Z n < inject_Z (Zpos p + 1))%Q).
    { rewrite inject_Z_plus. fold P. change (inject_Z 1) with 1%Q. lra. }
    rewrite <- Zlt_Qlt in H. lia.
  - intros M.
    apply Z.mod_divide in M; [|lia]. destruct M as [k Hk].
    destruct k as [|k|k]; try lia.
    assert (Xk : (xq == inject_Z (Zpos k) * pow2 0)%Q).
    { unfold xq, P. rewrite Hk, inject_Z_mult.
      change (pow2 0) with 1%Q. change (inject_Z 100) with 100%Q. field. }
    pose proof (rounds_to_exact xq q k 0 Rq Fq Xk) as Qq.
    assert (Qq' : (Qval q == xq)%Q).
    { apply Qq; [|rewrite emin_eq; lia].
      apply Z.lt_trans with (Zpos p); [lia|].
      apply Z.le_lt_trans with (1 := Hp). reflexivity. }
    assert (Xr : (Qval q * 100 == inject_Z (Zpos p) * pow2 0)%Q).
    { rewrite Qq', Exq. fold P. change (pow2 0) with 1%Q. ring. }
    pose proof (rounds_to_exact _ r p 0 Rr Fr Xr) as Qr.
    assert (Qr' : (Qval r == Qval q * 100)%Q).
    { apply Qr; [|rewrite emin_eq; lia].
      apply Z.le_lt_trans with (1 := Hp). reflexivity. }
    rewrite Qr', Qq', Exq in Ln, Un. unfold P in Ln, Un.
    rewrite <- Zle_Qle in Ln.
    assert (H : (inject_Z (Zpos p) < inject_Z (n + 1))%Q)
      by (rewrite inject_Z_plus; change (inject_Z 1) with 1%Q; exact Un).
    rewrite <- Zlt_Qlt in H. lia.
Qed.

(** X21.  The export writes an amount of paisa as rupees, [paisa / 100.0],
    and the import reads rupees back as paisa, [int(rupees * 100)].  For an
    amount from 0 to 2^51 paisa neither conversion raises, and the amount
    that comes back is the amount itself or one paisa less; it is the
    amount itself when the amount is a whole number of rupees.  The paisa
    is lost for some amounts: 29 paisa come back as 28. *)
Theorem paisa_round_trip (paisa : Z) :
  0 <= paisa <= 2 ^ 51 ->
  exists rupees n,
    DataExport.convert_paisa_to_rupees paisa = Ok rupees /\
    DataExport.convert_rupees_to_paisa rupees = Return n /\
    paisa - 1 <= n <= paisa /\
    (paisa mod 100 = 0 -> n = paisa).
Proof.
  intros [H0 H1]. destruct paisa as [|p|p]; [|exact (paisa_round_trip_pos p H1)|lia].
  exists (S754_zero false), 0. repeat split; lia.
Qed.

Lemma paisa_round_trip_witness :
  0 <= 12345 <= 2 ^ 51 /\
  exists rupees n,
    DataExport.convert_paisa_to_rupees 12345 = Ok rupees /\
    DataExport.convert_rupees_to_paisa rupees = Return n /\
    12344 <= n <= 12345.
Proof.
  assert (H : 0 <= 12345 <= 2 ^ 51)
    by (split; [lia | apply Z.leb_le; reflexivity]).
  split; [exact H|].
  destruct (paisa_round_trip 12345 H) as [rupees [n [E1 [E2 [B _]]]]].
  exists rupees, n. split; [exact E1|]. split; [exact E2 | exact B].
Defined.

(** The paisa that is lost. *)
Remark paisa_round_trip_loss :
  exists rupees,
    DataExport.convert_paisa_to_rupees 29 = Ok rupees /\
    DataExport.convert_rupees_to_paisa rupees = Return 28.
Proof. eexists. split; vm_compute; reflexivity. Qed.

(** ** Savings opportunities *)

(** The test [percentage > 25] in exact arithmetic. *)
Lemma percent_gt_25 a b u :
  0 < b <= 2 ^ 49 ->
  (q <- truediv a b ;; Ok (mul q F100)) = Ok u ->
  (gtb u F25 = true <-> b < 4 * a).
Proof.
  intros [Hb Hb'] Hu. change (2 ^ 49) with 562949953421312 in Hb'.
  unfold gtb. split.
  - intros G. destruct (Z_lt_le_dec b (4 * a)) as [L|L]; [exact L|exfalso].
    assert (H25 : (q <- truediv 1 4 ;; Ok (mul q F100)) = Ok F25)
      by (vm_compute; reflexivity).
    assert (T : SFleb u F25 = true).
    { apply (percent_le a b 1 4 u F25 Hb eq_refl); [lia | exact Hu | exact H25]. }
    rewrite (SFltb_not_SFleb _ _ G) in T. discriminate T.
  - intros L.
    set (v := S754_finite false 7036874417766412 (-48)).
    assert (Hv : (q <- truediv (2 ^ 49 + 1) (2 ^ 51) ;; Ok (mul q F100)) = Ok v)
      by (vm_compute; reflexivity).
    assert (Lv : SFltb F25 v = true) by reflexivity.
    assert (T : SFleb v u = true).
    { apply (percent_le (2 ^ 49 + 1) (2 ^ 51) a b v u eq_refl Hb);
        [|exact Hv|exact Hu].
      change (2 ^ 49) with 562949953421312.
      change (2 ^ 51) with 2251799813685248. lia. }
    assert (N : SFleb u F25 = false).
    { destruct (SFleb u F25) eqn:N; [|reflexivity].
      rewrite (SFleb_lt_false _ _ _ N Lv) in T. discriminate T. }
    destruct (truediv a b) as [q|e] eqn:Eq; [|discriminate Hu].
    cbn [bind] in Hu. injection Hu as <-.
    pose proof (percent_not_nan q (truediv_finite _ _ _ Eq)) as Nn.
    rewrite (SFltb_negb_SFleb F25 (mul q F100) eq_refl Nn), N. reflexivity.
Qed.

(** [int(amount * 0.15)]: fifteen hundredths of the amount rounded down, or
    one less. *)
Lemma potential_savings_spec a :
  0 < a <= 2 ^ 49 ->
  exists x n,
    of_int a = Ok x /\ int_of_float (mul x F0_15) = Return n /\
    0 <= n /\ 20 * n <= 3 * a <= 20 * n + 20.
Proof.
  intros [Ha Ha']. change (2 ^ 49) with 562949953421312 in Ha'.
  set (A := inject_Z a).
  assert (A1 : (1 <= A)%Q).
  { unfold A. change 1%Q with (inject_Z 1). rewrite <- Zle_Qle. lia. }
  assert (A2 : (A <= 562949953421312)%Q).
  { unfold A. change 562949953421312%Q with (inject_Z 562949953421312).
    rewrite <- Zle_Qle. exact Ha'. }
  destruct (of_int_total a) as [Ex [Fx Vx]].
  { apply Z.lt_trans with (2 ^ 50); [|reflexivity].
    change (2 ^ 50) with 1125899906842624. lia. }
  assert (Qx : (Qval (of_Z a) == A)%Q).
  { apply of_Z_exact. split; [lia|].
    apply Z.le_lt_trans with (1 := Ha'). reflexivity. }
  set (x := of_Z a) in *. set (r := mul x F0_15).
  assert (Rr : Rounds (Qval x * (5404319552844595 # 36028797018963968)) r).
  { unfold r, F0_15.
    apply (Rounds_ext (Qval x * (inject_Z (Zpos 5404319552844595)
                                 * pow2 (-55)))).
    - apply Qmult_comp; [reflexivity | vm_compute; reflexivity].
    - apply mul_pos_Rounds; [exact Fx | vm_compute; discriminate]. }
  set (y := (Qval x * (5404319552844595 # 36028797018963968))%Q) in *.
  assert (Py : (0 < y)%Q) by (unfold y; lra).
  apply Rounds_pos in Rr; [|exact Py].
  assert (B1023 : (562949953421312 <= pow2 (emax - 1))%Q).
  { assert (E49 : (pow2 49 == 562949953421312)%Q) by reflexivity.
    rewrite <- E49. apply pow2_le. unfold emax. lia. }
  assert (Bmin : (pow2 (emin + prec - 1) <= 1 # 128)%Q).
  { assert (E7 : (pow2 (-7) == 1 # 128)%Q) by reflexivity.
    rewrite <- E7. apply pow2_le. rewrite emin_eq. unfold prec. lia. }
  assert (Fr : is_finite r = true).
  { apply (rounds_to_finite false y r Py); [unfold y; lra | exact Rr]. }
  destruct (rounds_to_error y r Rr Fr ltac:(unfold y; lra)) as [Lr Ur].
  pose proof (rounds_to_sign false y r Py Rr) as Nr. cbv iota in Nr.
  destruct (int_of_float_floor r Fr Nr) as [n [En [Pn [Ln Un]]]].
  exists x, n. split; [exact Ex|]. split; [exact En|]. split; [exact Pn|].
  unfold y in *. split.
  - assert (H : (inject_Z (20 * n) < inject_Z (3 * a + 1))%Q).
    { rewrite inject_Z_plus, !inject_Z_mult. fold A.
      change (inject_Z 20) with 20%Q. change (inject_Z 3) with 3%Q.
      change (inject_Z 1) with 1%Q. lra. }
    rewrite <- Zlt_Qlt in H. lia.
  - assert (H : (inject_Z (3 * a) < inject_Z (20 * n + 21))%Q).
    { rewrite inject_Z_plus, !inject_Z_mult. fold A.
      change (inject_Z 20) with 20%Q. change (inject_Z 3) with 3%Q.
      change (inject_Z 21) with 21%Q. lra. }
    rewrite <- Zlt_Qlt in H. lia.
Qed.

Lemma opportunities_of_spec total items :
  0 < total <= 2 ^ 49 ->
  (forall ca, In ca items -> 0 <= snd ca <= total) ->
  exists opportunities,
    opportunities_of total items = Return opportunities /\
    map (fun o => (op_category o, current_spending o)) opportunities
    = filter (fun ca => total <? 4 * snd ca) items /\
    Forall (opportunity_ok total) opportunities.
Proof.
  intros Ht. induction items as [|[cat a] items IH]; intros H.
  - exists []. repeat split. constructor.
  - destruct IH as [ops [E [M F]]];
      [intros ca Hca; apply H; right; exact Hca|].
    pose proof (H (cat, a) (or_introl eq_refl)) as Ha. cbn [snd] in Ha.
    cbn [opportunities_of filter snd].
    destruct (truediv_total a total) as [q Eq]; [lia| |].
    { apply Z.le_lt_trans with (2 ^ 49); [lia | reflexivity]. }
    rewrite Eq. cbn [lift obind].
    assert (Hu : (q <- truediv a total ;; Ok (mul q F100)) = Ok (mul q F100))
      by (rewrite Eq; reflexivity).
    pose proof (percent_gt_25 a total (mul q F100) Ht Hu) as G.
    destruct (gtb (mul q F100) F25) eqn:Gt.
    + assert (L : total < 4 * a) by (apply G; reflexivity).
      rewrite (proj2 (Z.ltb_lt _ _) L).
      destruct (potential_savings_spec a) as [x [n [Ex [En [Pn Bn]]]]]; [lia|].
      rewrite Ex. cbn [lift obind]. rewrite En. cbn [obind]. rewrite E.
      cbn [obind]. eexists. split; [reflexivity|].
      cbn [map op_category current_spending]. rewrite M.
      split; [reflexivity|]. constructor; [|exact F].
      unfold opportunity_ok, calculate_category_percentage.
      cbn [current_spending percentage_of_total suggested_reduction
           potential_monthly_savings potential_annual_savings].
      destruct (Z.eqb_spec total 0) as [Z0|_]; [lia|].
      rewrite Eq. cbn [bind]. repeat split; try lia.
    + assert (L : ~ total < 4 * a).
      { intros L. apply G in L. discriminate L. }
      rewrite (proj2 (Z.ltb_ge _ _)) by lia.
      exists ops. repeat split; assumption.
Qed.

Lemma sum_selected (total : Z) (l : list Z) :
  (forall a, In a l -> total < 4 * a) ->
  (total + 1) * len l <= 4 * sum l.
Proof.
  induction l as [|a l IH]; intros H.
  - unfold len, sum. cbn. lia.
  - unfold len in *. cbn [List.length]. rewrite sum_cons, Nat2Z.inj_succ.
    pose proof (H a (or_introl eq_refl)).
    specialize (IH (fun b Hb => H b (or_intror Hb))). lia.
Qed.

Lemma selected_at_most_3 (total : Z) (items : list (string * Z)) :
  0 <= total ->
  (forall ca, In ca items -> 0 <= snd ca) ->
  sum (map snd items) = total ->
  len (filter (fun ca => total <? 4 * snd ca) items) <= 3.
Proof.
  intros Ht Pos S.
  pose proof (sum_filter_bounds snd (fun ca => total <? 4 * snd ca) items Pos)
    as [_ B].
  pose proof (sum_selected total
                (map snd (filter (fun ca => total <? 4 * snd ca) items))) as C.
  unfold len in *. rewrite length_map in C.
  assert (C' : forall a,
            In a (map snd (filter (fun ca => total <? 4 * snd ca) items)) ->
            total < 4 * a).
  { intros a Ha. apply in_map_iff in Ha. destruct Ha as [ca [<- Hca]].
    apply filter_In in Hca. apply Z.ltb_lt, Hca. }
  specialize (C C'). nia.
Qed.

Lemma spending_by_category_values w :
  ledger_in_range w ->
  let month := get_current_month w in
  let d := get_spending_by_category w None in
  (forall ca, In ca d ->
     0 <= snd ca <= calculate_total_spending w month) /\
  sum (map snd d) = calculate_total_spending w month.
Proof.
  intros (Hpos & _ & _) month d.
  unfold d, get_spending_by_category, calculate_total_spending. fold month.
  set (expenses := filter_by_type
                     (filter_transactions_by_month (read_transactions w) month)
                     "expense").
  destruct (add_to_category_fold expenses [] (NoDup_nil _)) as (N & G & _ & S).
  cbv zeta in *. split.
  - intros [c a] Hca. cbn [snd].
    rewrite <- (dict_get_In _ c a 0 N Hca), G. cbn [dict_get].
    unfold filter_by_category.
    apply (sum_filter_bounds amount_paisa
             (fun t => String.eqb (category t) c) expenses).
    intros t Ht. apply Hpos. unfold expenses, filter_by_type,
      filter_transactions_by_month in Ht.
    apply filter_In in Ht. destruct Ht as [Ht _].
    apply filter_In in Ht. apply Ht.
  - rewrite S. unfold sum at 1. cbn. lia.
Qed.

(** X22.  For a ledger in range whose spending of the month is at most
    2^49 paisa, [find_savings_opportunities] raises nothing and returns,
    in the order of the dict of [get_spending_by_category], exactly the
    categories that spend more than a quarter of the total, in exact
    arithmetic; so it returns at most three.  Each entry carries the
    spending of its category, the percentage of
    [calculate_category_percentage], the reduction 15, as monthly savings
    fifteen hundredths of the spending rounded down or one paisa less, and
    twelve times that as annual savings. *)
Theorem find_savings_opportunities_spec (w : Env) :
  ledger_in_range w ->
  calculate_total_spending w (get_current_month w) <= 2 ^ 49 ->
  let total := calculate_total_spending w (get_current_month w) in
  exists opportunities,
    find_savings_opportunities w = Return opportunities /\
    map (fun o => (op_category o, current_spending o)) opportunities
    = filter (fun ca => total <? 4 * snd ca) (get_spending_by_category w None) /\
    len opportunities <= 3 /\
    Forall (opportunity_ok total) opportunities.
Proof.
  intros R B total.
  destruct (spending_by_category_values w R) as [V S]. cbv zeta in V, S.
  fold total in V, S.
  assert (T0 : 0 <= total).
  { unfold total, calculate_total_spending.
    apply (month_total_in_range w (get_current_month w) "expense" R). }
  assert (L3 : len (filter (fun ca => total <? 4 * snd ca)
                           (get_spending_by_category w None)) <= 3).
  { apply selected_at_most_3; [exact T0 | | exact S].
    intros ca Hca. apply V, Hca. }
  unfold find_savings_opportunities. fold total.
  destruct (Z.eqb_spec total 0) as [Z0|NZ].
  - exists []. split; [reflexivity|]. split; [|split; [cbn; lia | constructor]].
    symmetry. revert V. clear - Z0.
    induction (get_spending_by_category w None) as [|ca d IH]; intros V;
      [reflexivity|].
    cbn [filter]. pose proof (V ca (or_introl eq_refl)) as Va.
    rewrite (proj2 (Z.ltb_ge _ _)) by lia.
    apply IH. intros x Hx. apply V. right. exact Hx.
  - destruct (opportunities_of_spec total (get_spending_by_category w None))
      as [ops [E [M F]]]; [fold total in B; lia | exact V |].
    exists ops. split; [exact E|]. split; [exact M|]. split; [|exact F].
    rewrite <- M in L3. unfold len in *. rewrite length_map in L3. exact L3.
Qed.

Lemma find_savings_opportunities_spec_witness :
  ledger_in_range env_spike /\
  calculate_total_spending env_spike (get_current_month env_spike) <= 2 ^ 49 /\
  exists opportunities,
    find_savings_opportunities env_spike = Return opportunities /\
    len opportunities <= 3.
Proof.
  assert (R : ledger_in_range env_spike)
    by (apply ledger_in_range_check; vm_compute; reflexivity).
  assert (B : calculate_total_spending env_spike (get_current_month env_spike)
              <= 2 ^ 49) by (apply Z.leb_le; vm_compute; reflexivity).
  split; [exact R|]. split; [exact B|].
  destruct (find_savings_opportunities_spec env_spike R B)
    as [ops [E [_ [L _]]]].
  exists ops. split; [exact E | exact L].
Defined.

(** ** Income by source *)

(** X23.  The dict of [get_income_by_source] has one key for each category
    with an income in the month, and no other; the amount under a key is
    what [calculate_income_by_source] computes for that source, and the
    amounts add up to [calculate_total_income_month].  So the savings of
    the month, [calculate_monthly_savings], are the sum of the incomes by
    source less the sum of the spending by category. *)
Theorem income_by_source_spec (w : Env) (month : option string) :
  let m := match month with
           | None => get_current_month w
           | Some m => m
           end in
  let income :=
    filter_by_type (filter_transactions_by_month (read_transactions w) m)
                   "income" in
  let d := get_income_by_source w month in
  NoDup (map fst d) /\
  (forall source, In source (map fst d) <-> In source (map category income)) /\
  (forall source amount,
     In (source, amount) d -> amount = calculate_income_by_source w source m) /\
  sum (map snd d) = calculate_total_income_month w m /\
  sum (map snd d) - sum (map snd (get_spending_by_category w month))
  = calculate_monthly_savings w m.
Proof.
  cbn zeta. unfold get_income_by_source, get_spending_by_category,
    calculate_monthly_savings, calculate_total_income_month,
    calculate_total_spending.
  set (m := match month with None => _ | Some m => m end).
  set (income := filter_by_type _ "income").
  set (expenses := filter_by_type _ "expense").
  destruct (add_to_category_fold income [] (NoDup_nil _))
    as (H1 & H2 & H3 & H4).
  destruct (add_to_category_fold expenses [] (NoDup_nil _))
    as (_ & _ & _ & E4).
  cbn zeta in *.
  assert (S0 : sum (map snd (@nil (string * Z))) = 0) by reflexivity.
  rewrite S0 in H4, E4.
  split; [exact H1|]. split; [|split; [|split]].
  - intros source. rewrite H3. cbn. tauto.
  - intros source amount Hin.
    rewrite <- (dict_get_In _ source amount 0 H1 Hin), H2. reflexivity.
  - rewrite H4. reflexivity.
  - rewrite H4, E4. lia.
Qed.

(** ** The days of a month *)

Lemma monthrange_days year mon :
  Calendar.monthrange year mon
  = if (1 <=? mon) && (mon <=? 12) then Some (days_of year mon) else None.
Proof.
  unfold Calendar.monthrange.
  destruct ((1 <=? mon) && (mon <=? 12)) eqn:R; cbn [negb]; [|reflexivity].
  apply andb_true_iff in R. destruct R as [R1 R2].
  apply Z.leb_le in R1. apply Z.leb_le in R2. f_equal.
  assert (L : Calendar.isleap year
              = if year mod 400 =? 0 then true
                else if year mod 100 =? 0 then false
                else year mod 4 =? 0).
  { unfold Calendar.isleap.
    destruct (Z.eqb_spec (year mod 400) 0) as [A|A];
      destruct (Z.eqb_spec (year mod 100) 0) as [B|B];
      destruct (Z.eqb_spec (year mod 4) 0) as [C|C];
      cbn [andb orb negb]; try reflexivity; exfalso;
      Z.to_euclidean_division_equations; lia. }
  unfold days_of, Calendar.February. rewrite L.
  assert (C : mon = 1 \/ mon = 2 \/ mon = 3 \/ mon = 4 \/ mon = 5 \/ mon = 6 \/
              mon = 7 \/ mon = 8 \/ mon = 9 \/ mon = 10 \/ mon = 11 \/
              mon = 12) by lia.
  destruct C as [->|[->|[->|[->|[->|[->|[->|[->|[->|[->|[->| ->]]]]]]]]]]];
    try reflexivity.
  cbn [Z.eqb Pos.eqb orb andb Z.to_nat Pos.to_nat Pos.iter_op Nat.add nth
       Calendar.mdays].
  destruct (year mod 400 =? 0); [reflexivity|].
  destruct (year mod 100 =? 0); [reflexivity|].
  destruct (year mod 4 =? 0); reflexivity.
Qed.

Lemma days_of_range year mon : 28 <= days_of year mon <= 31.
Proof.
  unfold days_of.
  destruct ((mon =? 4) || (mon =? 6) || (mon =? 9) || (mon =? 11)); [lia|].
  destruct (mon =? 2); [|lia].
  destruct (year mod 400 =? 0); [lia|].
  destruct (year mod 100 =? 0); [lia|].
  destruct (year mod 4 =? 0); lia.
Qed.

Lemma get_days_in_month_range month :
  28 <= AnalyticsTxt.get_days_in_month month <= 31.
Proof.
  unfold AnalyticsTxt.get_days_in_month.
  destruct (PyStr.split "-" month) as [|y [|m [|x l]]]; try lia.
  destruct (PyStr.int y) as [year|]; [|lia].
  destruct (PyStr.int m) as [mon|]; [|lia].
  rewrite monthrange_days.
  destruct ((1 <=? mon) && (mon <=? 12)); [apply days_of_range | lia].
Qed.

Lemma average_daily_spending_bounds (w : Env) (month : string) :
  let days := AnalyticsTxt.get_days_in_month month in
  let total := calculate_total_spending w month in
  let average := AnalyticsTxt.calculate_average_daily_spending w month in
  average * days <= total < (average + 1) * days /\
  (0 <= total -> 0 <= average <= total).
Proof.
  intros days total average.
  pose proof (get_days_in_month_range month) as D. fold days in D.
  assert (A : average = total / days).
  { unfold average, AnalyticsTxt.calculate_average_daily_spending.
    fold total days. destruct (Z.ltb_spec 0 days); [reflexivity | lia]. }
  split.
  - rewrite A. pose proof (Z.div_mod total days ltac:(lia)) as E.
    pose proof (Z.mod_pos_bound total days ltac:(lia)) as B. nia.
  - intros T. rewrite A. split; [apply Z.div_pos; lia|].
    apply Z.div_le_upper_bound; [lia | nia].
Qed.

(** X24.  [get_days_in_month] returns a number from 28 to 31 for every
    text: the days of the month of the Gregorian calendar when the text is
    a year and a month from 1 to 12 separated by one "-", as [int] reads
    them, and the fallback 30 otherwise.  So
    [calculate_average_daily_spending] never divides by zero: it is the
    spending of the month divided by the days and rounded down, and lies
    between 0 and the spending when the spending is not negative; and 28
    times the burn rate of [calculate_burn_rate] is at most the spending of
    the current month. *)
Theorem average_daily_spending_spec (w : Env) (month : string) :
  let days := AnalyticsTxt.get_days_in_month month in
  let total := calculate_total_spending w month in
  let average := AnalyticsTxt.calculate_average_daily_spending w month in
  28 <= days <= 31 /\
  average * days <= total < (average + 1) * days /\
  (0 <= total -> 0 <= average <= total) /\
  (forall y m year mon,
     month = (y ++ "-" ++ m)%string ->
     lacks "-" y = true -> lacks "-" m = true ->
     PyStr.int y = Some year -> PyStr.int m = Some mon ->
     days = if (1 <=? mon) && (mon <=? 12) then days_of year mon else 30) /\
  (0 <= calculate_total_spending w (get_current_month w) ->
   0 <= 28 * AnalyticsTxt.calculate_burn_rate w
     <= calculate_total_spending w (get_current_month w)).
Proof.
  intros days total average.
  pose proof (get_days_in_month_range month) as D. fold days in D.
  destruct (average_daily_spending_bounds w month) as [B1 B2].
  fold days total average in B1, B2.
  split; [exact D|]. split; [exact B1|]. split; [exact B2|]. split.
  - intros y m year mon -> Ly Lm Iy Im.
    unfold days, AnalyticsTxt.get_days_in_month.
    change (y ++ "-" ++ m)%string with (y ++ String "-" m)%string.
    rewrite (split_app "-" y m Ly), (split_lacks "-" m Lm), Iy, Im.
    rewrite monthrange_days.
    destruct ((1 <=? mon) && (mon <=? 12)); reflexivity.
  - intros T. unfold AnalyticsTxt.calculate_burn_rate. cbv zeta.
    pose proof (get_days_in_month_range (get_current_month w)) as Dc.
    destruct (average_daily_spending_bounds w (get_current_month w))
      as [C1 C2].
    cbv zeta in C1, C2. specialize (C2 T). nia.
Qed.

(** February in a leap year and in a common year, and a month that is none. *)
Remark get_days_in_month_examples :
  AnalyticsTxt.get_days_in_month "2024-02" = 29 /\
  AnalyticsTxt.get_days_in_month "2025-02" = 28 /\
  AnalyticsTxt.get_days_in_month "2025-13" = 30 /\
  AnalyticsTxt.get_days_in_month "2025" = 30.
Proof. repeat split; reflexivity. Qed.

(** ** The budgets as a whole *)

Lemma sum_map_add {A : Type} (f g : A -> Z) (l : list A) :
  sum (map (fun x => f x + g x) l) = sum (map f l) + sum (map g l).
Proof.
  induction l as [|x l IH]; [reflexivity|].
  cbn [map]. rewrite !sum_cons, IH. lia.
Qed.

Lemma sum_indicator (cats : list string) (k : string) (a : Z) :
  NoDup cats -> 0 <= a ->
  0 <= sum (map (fun c => if String.eqb k c then a else 0) cats) <= a.
Proof.
  intros N Ha. induction cats as [|c cats IH]; [unfold sum; cbn; lia|].
  inversion N as [|? ? Hn N']; subst. cbn [map]. rewrite sum_cons.
  specialize (IH N').
  destruct (String.eqb_spec k c) as [->|_]; [|lia].
  assert (Z0 : sum (map (fun c0 => if String.eqb c c0 then a else 0) cats) = 0).
  { clear - Hn. induction cats as [|c' cats IH]; [reflexivity|].
    cbn [map]. rewrite sum_cons.
    destruct (String.eqb_spec c c') as [->|_];
      [exfalso; apply Hn; left; reflexivity|].
    rewrite IH; [reflexivity|]. intros H. apply Hn. right. exact H. }
  lia.
Qed.

(** Over distinct categories the totals by category add up to no more than
    the whole. *)
Lemma sum_by_category_le (cats : list string) (l : list Transaction) :
  NoDup cats -> (forall t, In t l -> 0 <= amount_paisa t) ->
  0 <= sum (map (fun c => sum (map amount_paisa (filter_by_category l c))) cats)
    <= sum (map amount_paisa l).
Proof.
  intros N. induction l as [|t l IH]; intros P.
  - cbn [filter_by_category filter map].
    assert (Z0 : sum (map (fun _ : string => sum []) cats) = 0).
    { clear. induction cats as [|c cats IH]; [reflexivity|].
      cbn [map]. rewrite sum_cons, IH. reflexivity. }
    rewrite Z0. unfold sum. cbn. lia.
  - specialize (IH (fun x Hx => P x (or_intror Hx))).
    pose proof (P t (or_introl eq_refl)) as Pt.
    assert (E : map (fun c => sum (map amount_paisa (filter_by_category (t :: l) c)))
                    cats
                = map (fun c => (if String.eqb (category t) c
                                 then amount_paisa t else 0)
                                + sum (map amount_paisa (filter_by_category l c)))
                      cats).
    { apply map_ext. intros c. unfold filter_by_category. cbn [filter].
      destruct (String.eqb (category t) c); cbn [map];
        rewrite ?sum_cons; lia. }
    rewrite E, sum_map_add. cbn [map]. rewrite sum_cons.
    pose proof (sum_indicator cats (category t) (amount_paisa t) N Pt). lia.
Qed.

Lemma total_spent_in_range w :
  ledger_in_range w -> NoDup (map b_category (read_budgets w)) ->
  0 <= sum (map (fun b => get_current_month_spending w (b_category b))
                (read_budgets w))
    <= sum (map amount_paisa (read_transactions w)).
Proof.
  intros (Hpos & Hsum & _) N.
  rewrite <- (map_map b_category (fun c => get_current_month_spending w c)).
  unfold get_current_month_spending.
  set (l := filter_current_month_transactions w
              (filter_by_type (read_transactions w) "expense")).
  assert (Pl : forall t, In t l -> 0 <= amount_paisa t).
  { intros t Ht. apply Hpos. unfold l, filter_current_month_transactions,
      filter_by_type in Ht.
    apply filter_In in Ht. destruct Ht as [Ht _].
    apply filter_In in Ht. apply Ht. }
  pose proof (sum_by_category_le _ l N Pl) as [B1 B2].
  assert (B3 : sum (map amount_paisa l) <= sum (map amount_paisa (read_transactions w))).
  { unfold l, filter_current_month_transactions, filter_by_type.
    pose proof (sum_filter_bounds amount_paisa
                  (fun t => String.eqb (type t) "expense")
                  (read_transactions w) Hpos) as [_ C1].
    pose proof (sum_filter_bounds amount_paisa
                  (fun t => String.eqb (get_month_from_date (date t))
                                       (get_current_month w))
                  (filter (fun t => String.eqb (type t) "expense")
                          (read_transactions w))) as [_ C2].
    { intros t Ht. apply Hpos. apply filter_In in Ht. apply Ht. }
    lia. }
  lia.
Qed.

Lemma total_spent_entries w data :
  Forall2 (entry_of w) (read_budgets w) data ->
  sum (map spent_paisa data)
  = sum (map (fun b => get_current_month_spending w (b_category b))
             (read_budgets w)).
Proof.
  generalize (read_budgets w) as budgets. intros budgets F.
  induction F as [|b d bs ds E F IH]; [reflexivity|].
  cbn [map]. rewrite !sum_cons, IH.
  destruct E as (_ & _ & _ & S & _). rewrite S. reflexivity.
Qed.

(** X25.  For a ledger in range whose budgets are of distinct categories,
    [calculate_total_spent] is the spending of the current month in the
    budgeted categories, each counted once, and is at most the sum of all
    amounts; [calculate_overall_utilization] raises nothing and is not a
    NaN; and for a total budget from 1 to 2^49 paisa its status is
    "Over Budget" exactly when the total spent reaches the total budget. *)
Theorem overall_utilization_spec (w : Env) :
  ledger_in_range w ->
  NoDup (map b_category (read_budgets w)) ->
  exists spent u,
    calculate_total_spent w = Ok spent /\
    spent = sum (map (fun b => get_current_month_spending w (b_category b))
                     (read_budgets w)) /\
    0 <= spent <= sum (map amount_paisa (read_transactions w)) /\
    calculate_overall_utilization w = Ok u /\
    is_nan u = false /\
    (0 < calculate_total_budget w <= 2 ^ 49 ->
     (fst (get_budget_status u) = "Over Budget"
      <-> calculate_total_budget w <= spent)).
Proof.
  intros R N.
  destruct (get_budget_data_returns w R) as [data Hd].
  pose proof (total_spent_entries w data (get_budget_data_entries w data Hd))
    as S.
  pose proof (total_spent_in_range w R N) as B. rewrite <- S in B.
  set (spent := sum (map spent_paisa data)) in *.
  destruct R as (_ & Hsum & Hl).
  assert (T0 : 0 <= calculate_total_budget w).
  { unfold calculate_total_budget.
    assert (G : forall l : list Budget,
              (forall b, In b l -> 0 <= limit_paisa b) ->
              0 <= sum (map limit_paisa l)).
    { induction l as [|b l IH]; intros H; [unfold sum; cbn; lia|].
      cbn [map]. rewrite sum_cons.
      pose proof (H b (or_introl eq_refl)).
      specialize (IH (fun x Hx => H x (or_intror Hx))). lia. }
    apply G, Hl. }
  unfold calculate_overall_utilization, calculate_total_spent.
  rewrite Hd. cbn [bind]. fold spent.
  destruct (Z.eqb_spec (calculate_total_budget w) 0) as [E0|N0].
  - exists spent, F0.
    split; [reflexivity|]. split; [exact S|]. split; [exact B|].
    split; [reflexivity|]. split; [reflexivity|]. lia.
  - destruct (truediv_total spent (calculate_total_budget w)) as [q Eq];
      [lia | unfold emax; change (1024 - 1) with 1023; lia |].
    rewrite Eq. cbn [bind].
    exists spent, (mul q F100).
    split; [reflexivity|]. split; [exact S|]. split; [exact B|].
    split; [reflexivity|].
    split; [apply percent_not_nan; exact (truediv_finite _ _ _ Eq)|].
    intros Hb.
    assert (Hu : (q <- truediv spent (calculate_total_budget w) ;;
                  Ok (mul q F100)) = Ok (mul q F100))
      by (rewrite Eq; reflexivity).
    destruct (percent_thresholds spent (calculate_total_budget w) _ Hb Hu)
      as [G _].
    rewrite <- G. unfold get_budget_status.
    destruct (geb (mul q F100) F100); [split; reflexivity|].
    destruct (geb (mul q F100) F70); split; discriminate.
Qed.

Lemma overall_utilization_spec_witness :
  ledger_in_range env_budgeted /\
  NoDup (map b_category (read_budgets env_budgeted)) /\
  exists spent u,
    calculate_total_spent env_budgeted = Ok spent /\
    calculate_overall_utilization env_budgeted = Ok u /\
    is_nan u = false.
Proof.
  assert (R : ledger_in_range env_budgeted)
    by (apply ledger_in_range_check; vm_compute; reflexivity).
  assert (N : NoDup (map b_category (read_budgets env_budgeted))).
  { repeat constructor; cbn; intuition discriminate. }
  split; [exact R|]. split; [exact N|].
  destruct (overall_utilization_spec env_budgeted R N)
    as [spent [u [E1 [_ [_ [E2 [E3 _]]]]]]].
  exists spent, u. split; [exact E1|]. split; [exact E2 | exact E3].
Defined.

(** ** What-if savings *)

Lemma SFmul_comm x y : SFmul prec emax x y = SFmul prec emax y x.
Proof.
  destruct x as [sx|sx| |sx mx ex], y as [sy|sy| |sy my ey];
    cbn [SFmul]; try rewrite (xorb_comm sx sy); try reflexivity.
  rewrite (Pos.mul_comm mx my), (Z.add_comm ex ey). reflexivity.
Qed.

(** The float of a positive int below [2 ^ 53] is a normal one. *)
Lemma of_Z_normal s :
  0 < s < 2 ^ prec ->
  exists m e, of_Z s = S754_finite false m e /\ 2 ^ (prec - 1) <= Zpos m /\
              (inject_Z (Zpos m) * pow2 e == inject_Z s)%Q.
Proof.
  intros [L U].
  pose proof (of_Z_exact s ltac:(lia)) as Q.
  destruct (of_int_total s) as [_ [_ V]].
  { apply Z.lt_trans with (2 ^ prec); [lia | reflexivity]. }
  assert (P1 : (1 <= inject_Z s)%Q).
  { change 1%Q with (inject_Z 1). rewrite <- Zle_Qle. lia. }
  destruct (Qval_pos_finite (of_Z s)) as [m [e E]]; [lra|].
  rewrite E in *. cbn [Qval] in Q.
  exists m, e. split; [reflexivity|]. split; [|exact Q].
  destruct (valid_finite_bounds false m e V) as [Bm [Be [N|N]]]; [exact N|].
  exfalso. subst e. rewrite emin_eq in Q.
  assert (Bq : (inject_Z (Zpos m) <= inject_Z (2 ^ prec))%Q)
    by (rewrite <- Zle_Qle; lia).
  rewrite (pow2_Z prec) in Bq by (unfold prec; lia).
  assert (H : (inject_Z (Zpos m) * pow2 (-1074) <= pow2 prec * pow2 (-1074))%Q).
  { apply Qmult_le_compat_r; [exact Bq | apply Qlt_le_weak, pow2_pos]. }
  rewrite <- pow2_add in H.
  assert (H1 : (pow2 (prec + -1074) < 1)%Q).
  { change 1%Q with (pow2 0). apply pow2_lt. unfold prec. lia. }
  lra.
Qed.

Lemma SFleb_nonneg_finite r g :
  is_nonneg r = true -> is_finite g = true -> SFleb r g = true ->
  is_finite r = true.
Proof.
  destruct r as [s|s| |s m e]; try reflexivity; try discriminate.
  destruct s; [discriminate|]. intros _.
  destruct g as [sg|sg| |sg mg eg]; discriminate.
Qed.

(** [percent / 100] for a percentage from 0 to 100 is a float from 0 to 1. *)
Lemma ratio_spec r :
  valid_binary prec emax r = true ->
  leb F0 r = true -> leb r F100 = true ->
  exists ratio,
    fdiv r F100 = Ok ratio /\ is_finite ratio = true /\
    is_nonneg ratio = true /\ (0 <= Qval ratio <= 1)%Q.
Proof.
  intros V L0 L100.
  assert (T : truediv 100 100 = Ok F1) by (vm_compute; reflexivity).
  destruct (truediv_Rounds 100 100 F1 ltac:(lia) T) as [R1 _].
  assert (V1 : (Qval F1 == 1)%Q) by (vm_compute; reflexivity).
  assert (V100 : (Qval F100 == 100)%Q) by (vm_compute; reflexivity).
  destruct r as [s|s| |s m e].
  - exists (S754_zero (xorb s false)). split; [reflexivity|].
    split; [reflexivity|]. split; [reflexivity|]. cbn [Qval]. lra.
  - destruct s; discriminate.
  - discriminate.
  - destruct s; [discriminate L0|].
    set (u := S754_finite false m e) in *.
    set (ratio := SFdiv prec emax u F100).
    assert (Px : (0 < inject_Z (Zpos m) * pow2 e / 100)%Q).
    { apply Qlt_shift_div_l; [reflexivity|]. rewrite Qmult_0_l.
      apply Qmult_lt_0_compat; [apply inject_Z_pos; lia | apply pow2_pos]. }
    assert (R : rounds_to false (inject_Z (Zpos m) * pow2 e / 100) ratio).
    { unfold ratio, u, F100.
      match goal with
      | |- context [SFdiv _ _ _ (S754_finite ?sy ?my ?ey)] =>
          pose proof (SFdiv_finite_spec false m e sy my ey
                        (inject_Z (Zpos m) * pow2 e / 100)) as H
      end.
      apply H. rewrite F100_value. field. }
    pose proof (SFleb_Qval u F100 V eq_refl eq_refl eq_refl L100) as Q.
    rewrite V100 in Q. cbn [Qval u] in Q.
    assert (Le : SFleb ratio F1 = true).
    { apply (Rounds_le (inject_Z (Zpos m) * pow2 e / 100)
                       (inject_Z 100 / inject_Z 100) ratio F1).
      - apply Qle_shift_div_r; [reflexivity|].
        change (inject_Z 100 / inject_Z 100 * 100)%Q with (100 / 100 * 100)%Q.
        field_simplify. lra.
      - left. split; [exact Px | exact R].
      - exact R1. }
    pose proof (rounds_to_sign false _ ratio Px R) as Nn. cbv iota in Nn.
    pose proof (rounds_to_valid false _ ratio Px R) as Vr.
    pose proof (SFleb_nonneg_finite ratio F1 Nn eq_refl Le) as Fr.
    pose proof (SFleb_Qval ratio F1 Vr eq_refl Fr eq_refl Le) as Q1.
    rewrite V1 in Q1.
    destruct (int_of_float_floor ratio Fr Nn) as [n [_ [Pn [Ln _]]]].
    assert (P0 : (0 <= inject_Z n)%Q).
    { change 0%Q with (inject_Z 0). rewrite <- Zle_Qle. exact Pn. }
    exists ratio. split; [reflexivity|]. split; [exact Fr|].
    split; [exact Nn|]. lra.
Qed.

Lemma scaled_savings s ratio :
  0 <= s < 2 ^ prec ->
  is_finite ratio = true -> is_nonneg ratio = true ->
  (0 <= Qval ratio <= 1)%Q ->
  exists n, int_of_float (mul (of_Z s) ratio) = Return n /\ 0 <= n <= s.
Proof.
  intros [S0 S1] Fr Nr [Q0 Q1].
  destruct (Z.eq_dec s 0) as [->|Ns].
  { exists 0. split; [|lia].
    destruct ratio as [sr|sr| |sr mr er]; try discriminate; reflexivity. }
  destruct (of_Z_normal s ltac:(lia)) as [m [e [E [Nm Qx]]]].
  assert (P1 : (1 <= inject_Z s)%Q).
  { change 1%Q with (inject_Z 1). rewrite <- Zle_Qle. lia. }
  rewrite E. unfold mul. rewrite SFmul_comm. fold (mul ratio (S754_finite false m e)).
  pose proof (mul_pos_Rounds ratio m e Fr Nm) as R.
  set (p := mul ratio (S754_finite false m e)) in *.
  apply (Rounds_ext _ (Qval ratio * inject_Z s)) in R;
    [|rewrite Qx; reflexivity].
  pose proof (of_Z_Rounds s) as Rs. rewrite E in Rs.
  assert (Le : SFleb p (S754_finite false m e) = true).
  { apply (Rounds_le (Qval ratio * inject_Z s) (inject_Z s) p _); [|exact R|exact Rs].
    assert (H : (Qval ratio * inject_Z s <= 1 * inject_Z s)%Q)
      by (apply Qmult_le_compat_r; lra).
    lra. }
  assert (Vx : valid_binary prec emax (S754_finite false m e) = true)
    by exact (Rounds_valid _ _ Rs).
  assert (Np : is_nonneg p = true).
  { destruct R as [[H R]|[[H [sp Hp]]|[H R]]].
    - exact (rounds_to_sign false _ p H R).
    - rewrite Hp. reflexivity.
    - exfalso. assert (0 <= Qval ratio * inject_Z s)%Q
        by (apply Qmult_le_0_compat; lra). lra. }
  pose proof (SFleb_nonneg_finite p (S754_finite false m e) Np eq_refl Le)
    as Fp.
  pose proof (SFleb_Qval p (S754_finite false m e) (Rounds_valid _ _ R) Vx Fp
                eq_refl Le) as Qp.
  cbn [Qval] in Qp. rewrite Qx in Qp.
  destruct (int_of_float_floor p Fp Np) as [n [En [Pn [Ln _]]]].
  exists n. split; [exact En|]. split; [exact Pn|].
  assert (H : (inject_Z n <= inject_Z s)%Q) by lra.
  rewrite <- Zle_Qle in H. exact H.
Qed.

Lemma whole_savings s :
  0 <= s < 2 ^ prec -> int_of_float (mul (of_Z s) F1) = Return s.
Proof.
  intros [S0 S1].
  destruct (Z.eq_dec s 0) as [->|Ns]; [reflexivity|].
  destruct (of_Z_normal s ltac:(lia)) as [m [e [E [Nm Qx]]]].
  destruct (of_int_total s) as [_ [Fx _]].
  { apply Z.lt_trans with (2 ^ prec); [lia | reflexivity]. }
  assert (P1 : (1 <= inject_Z s)%Q).
  { change 1%Q with (inject_Z 1). rewrite <- Zle_Qle. lia. }
  set (p := mul (of_Z s) F1).
  assert (R : Rounds (inject_Z s) p).
  { unfold p, F1.
    match goal with
    | |- context [mul _ (S754_finite false ?my ?ey)] =>
        pose proof (mul_pos_Rounds (of_Z s) my ey Fx) as H
    end.
    apply (Rounds_ext (Qval (of_Z s)
                       * (inject_Z (Zpos 4503599627370496) * pow2 (-52)))).
    - rewrite (of_Z_exact s) by lia.
      assert (V : (inject_Z (Zpos 4503599627370496) * pow2 (-52) == 1)%Q)
        by (vm_compute; reflexivity).
      rewrite V. ring.
    - apply H. vm_compute. discriminate. }
  apply Rounds_pos in R; [|lra].
  assert (Fp : is_finite p = true).
  { apply (rounds_to_finite false (inject_Z s) p); [lra| |exact R].
    rewrite <- (pow2_Z (emax - 1)) by (unfold emax; lia).
    rewrite <- Zlt_Qlt. apply Z.lt_trans with (2 ^ prec); [lia | reflexivity]. }
  destruct s as [|ps|ps]; try lia.
  assert (Qp : (Qval p == inject_Z (Zpos ps))%Q).
  { apply (rounds_to_exact _ p ps 0 R Fp); [|lia|rewrite emin_eq; lia].
    change (pow2 0) with 1%Q. ring. }
  assert (Pp : (0 < inject_Z (Zpos ps))%Q) by lra.
  pose proof (rounds_to_sign false _ p Pp R) as Np. cbv iota in Np.
  destruct (int_of_float_floor p Fp Np) as [n [En [Pn [Ln Un]]]].
  rewrite En. f_equal. rewrite Qp in Ln, Un.
  rewrite <- Zle_Qle in Ln.
  assert (H : (inject_Z (Zpos ps) < inject_Z (n + 1))%Q)
    by (rewrite inject_Z_plus; change (inject_Z 1) with 1%Q; exact Un).
  rewrite <- Zlt_Qlt in H. lia.
Qed.

(** X26.  For a ledger in range and a category whose spending of the
    current month is below 2^53 paisa, [calculate_potential_savings]
    returns, for every percentage from 0 to 100, an amount from 0 to the
    spending of the category, and for the percentage 100 the whole spending.
    A percentage that is a NaN raises [ValueError], and an infinite one
    raises [OverflowError] as soon as the category has some spending. *)
Theorem potential_savings_what_if (w : Env) (cat : string)
    (reduction_percent : float) :
  ledger_in_range w ->
  current_spending_of w cat < 2 ^ 53 ->
  valid_binary prec emax reduction_percent = true ->
  (leb F0 reduction_percent = true -> leb reduction_percent F100 = true ->
   exists n,
     calculate_potential_savings w cat reduction_percent = Return n /\
     0 <= n <= current_spending_of w cat) /\
  calculate_potential_savings w cat F100
  = Return (current_spending_of w cat) /\
  calculate_potential_savings w cat S754_nan = Throw ValueError /\
  (0 < current_spending_of w cat ->
   calculate_potential_savings w cat (S754_infinity false)
   = Throw (ArithmeticError OverflowError)).
Proof.
  intros R B V.
  assert (S0 : 0 <= current_spending_of w cat).
  { unfold current_spending_of, calculate_category_spending, filter_by_category.
    apply (sum_filter_bounds amount_paisa).
    intros t Ht. destruct R as (Hpos & _). apply Hpos.
    unfold filter_by_type, filter_transactions_by_month in Ht.
    apply filter_In in Ht. destruct Ht as [Ht _].
    apply filter_In in Ht. apply Ht. }
  unfold calculate_potential_savings. cbv zeta.
  change (sum (map amount_paisa
            (filter_by_category
               (filter_by_type
                  (filter_transactions_by_month (read_transactions w)
                     (get_current_month w)) "expense") cat)))
    with (current_spending_of w cat).
  set (s := current_spending_of w cat) in *.
  destruct (of_int_total s) as [Ex [Fx Vx]].
  { apply Z.lt_trans with (2 ^ 53); [lia | reflexivity]. }
  split; [|split; [|split]].
  - intros L0 L100.
    destruct (ratio_spec reduction_percent V L0 L100)
      as [ratio [Er [Fr [Nr Qr]]]].
    rewrite Er. cbn [lift obind]. rewrite Ex. cbn [lift obind].
    apply scaled_savings; [split; [exact S0 | exact B] | exact Fr | exact Nr | exact Qr].
  - assert (E1 : fdiv F100 F100 = Ok F1) by (vm_compute; reflexivity).
    rewrite E1. cbn [lift obind]. rewrite Ex. cbn [lift obind].
    apply whole_savings. split; [exact S0 | exact B].
  - cbn [fdiv F100 lift obind SFdiv]. rewrite Ex. cbn [lift obind].
    unfold mul. destruct (of_Z s); reflexivity.
  - intros Ps.
    destruct (of_Z_normal s ltac:(unfold prec; lia)) as [m [e [E _]]].
    cbn [fdiv F100 lift obind SFdiv]. rewrite Ex. cbn [lift obind].
    rewrite E. reflexivity.
Qed.

Lemma potential_savings_what_if_witness :
  ledger_in_range env_spike /\
  current_spending_of env_spike "Food" < 2 ^ 53 /\
  valid_binary prec emax F50 = true /\
  exists n,
    calculate_potential_savings env_spike "Food" F50 = Return n /\
    0 <= n <= current_spending_of env_spike "Food".
Proof.
  assert (R : ledger_in_range env_spike)
    by (apply ledger_in_range_check; vm_compute; reflexivity).
  assert (B : current_spending_of env_spike "Food" < 2 ^ 53)
    by (apply Z.ltb_lt; vm_compute; reflexivity).
  split; [exact R|]. split; [exact B|]. split; [reflexivity|].
  destruct (potential_savings_what_if env_spike "Food" F50 R B eq_refl)
    as [H _].
  exact (H eq_refl eq_refl).
Defined.
